(** * FlipSolver22: the flip-graph solver's multimap and flip/plus engine

    A shallow embedding of [FlipSolver22.cpp].  Integers of the program are
    modelled in [Z]: a [vlong] (unsigned 64-bit) carries its wrap-around
    explicitly through [wrap64]; an [int] is a [Z] as well, and where the input
    file can take a computation on [int]s out of their range (the difference
    of ranks in [updatelimit]) its 32-bit value is written out with
    [wrap_int]; the program's counters stay far inside the range.  Raw arrays obtained with
    [new] are finite maps from indices to the cells written so far; a cell
    that was never written is indeterminate and reading it is a fault.
    [std::vector]s are lists, with the back of the vector at the end of the
    list. *)

From stdpp Require Import gmap list.
From Stdlib Require Import Btauto.

Open Scope Z_scope.

(** ** Faults

    What the C++ program leaves undefined is a fault of the model. *)

Inductive fault :=
  | DivByZero      (* integer division or remainder by zero *)
  | OutOfRange     (* vector access outside [0, size) *)
  | EmptyVector    (* back() of an empty vector *)
  | Uninit         (* read of a cell that was never written *)
  | OutOfBucket    (* a scan of a dictionary bucket left the bucket *)
  | BucketFull     (* a 17th key would spill into the next bucket *)
  | OutOfBlock     (* a scan of a slot block left the block *)
  | IntOverflow    (* the quotient of the least int by -1 *)
  | OutOfFuel.     (* an unbounded loop did not stop within the fuel given *)

Inductive res (A : Type) :=
  | Ok (a : A)
  | Fault (e : fault).
Arguments Ok {A} a.
Arguments Fault {A} e.

#[global] Instance res_ret : MRet res := fun A a => Ok a.
#[global] Instance res_bind : MBind res :=
  fun A B f m => match m with Ok a => f a | Fault e => Fault e end.

(** Unsigned 64-bit wrap-around. *)
Definition wrap64 (z : Z) : Z := z mod 2 ^ 64.

(** [unsigned int] wrap-around. *)
Definition wrap32 (z : Z) : Z := z mod 2 ^ 32.

(** The value a 32-bit two's-complement [int] holds. *)
Definition wrap_int (z : Z) : Z := (z + 2 ^ 31) mod 2 ^ 32 - 2 ^ 31.

(** Read of a raw array cell. *)
Definition rd (a : gmap Z Z) (i : Z) : res Z :=
  match a !! i with
  | Some x => Ok x
  | None => Fault Uninit
  end.

(** ** Vectors *)

Definition vget (l : list Z) (i : Z) : res Z :=
  if i <? 0 then Fault OutOfRange
  else match l !! Z.to_nat i with
       | Some x => Ok x
       | None => Fault OutOfRange
       end.

Definition vset (l : list Z) (i x : Z) : res (list Z) :=
  if i <? 0 then Fault OutOfRange
  else if Z.of_nat (length l) <=? i then Fault OutOfRange
  else Ok (<[Z.to_nat i := x]> l).

Definition back (l : list Z) : res Z :=
  match last l with
  | Some x => Ok x
  | None => Fault EmptyVector
  end.

Definition pop_back (l : list Z) : list Z := removelast l.

Definition push_back (l : list Z) (x : Z) : list Z := l ++ [x].

Definition vsize (l : list Z) : Z := Z.of_nat (length l).

(** ** The dictionary [fgdict]

    Three arrays of 1048576 cells cut into buckets of 16; bucket [h] keeps
    its number of keys in [count[h]] and its keys and values in
    [key[h .. h+count[h]-1]] and [value[h .. h+count[h]-1]].  The constructor
    zeroes [count] at the 65536 bucket heads and nothing else: [count] holds
    the cells written since, a bucket head never written still reads 0. *)

Record fgdict := mkdict {
  lasthash : Z;
  count : gmap Z Z;
  key : gmap Z Z;
  value : gmap Z Z
}.

Definition fgdict_new : fgdict := mkdict 0 ∅ ∅ ∅.

(** The same constructor on arrays that come from [new] with the contents
    [c], [k] and [v]: [for (int i = 0; i < 65536; i++) count[i << 4] = 0;]
    writes over what [count] held at the bucket heads. *)
Fixpoint zero_heads (n : nat) (c : gmap Z Z) : gmap Z Z :=
  match n with
  | O => c
  | S n' => <[Z.shiftl (Z.of_nat n') 4 := 0]> (zero_heads n' c)
  end.

Definition fgdict_on (c k v : gmap Z Z) : fgdict :=
  mkdict 0 (zero_heads (Z.to_nat 65536) c) k v.

Definition set_lasthash (d : fgdict) (h : Z) : fgdict :=
  mkdict h (count d) (key d) (value d).

Definition rdcount (d : fgdict) (h : Z) : res Z :=
  match count d !! h with
  | Some c => Ok c
  | None =>
      if (0 <=? h) && (h <? 1048576) && (h mod 16 =? 0) then Ok 0
      else Fault Uninit
  end.

Definition hash (k : Z) : Z := Z.shiftl (k mod 65213) 4.

(** [for (int i = n - 1; i >= 0; i--) if (key[lasthash + i] == k) return 1;
    return 0;] *)
Fixpoint contains_scan (n : nat) (d : fgdict) (k : Z) : res Z :=
  match n with
  | O => Ok 0
  | S i =>
      x ← rd (key d) (lasthash d + Z.of_nat i);
      if x =? k then Ok 1 else contains_scan i d k
  end.

Definition contains (d : fgdict) (k : Z) : res (Z * fgdict) :=
  let d := set_lasthash d (hash k) in
  c ← rdcount d (lasthash d);
  if c =? 0 then Ok (0, d)
  else if c =? 1 then
    x ← rd (key d) (lasthash d);
    if x =? k then Ok (1, d) else Ok (0, d)
  else
    r ← contains_scan (Z.to_nat c) d k;
    Ok (r, d).

(** Both [add] and [addx] assume the key absent.  A bucket has 16 cells:
    one more key would be written over the first cell of the next bucket,
    which the model reports as [BucketFull]. *)
Definition addx (d : fgdict) (k v : Z) : res fgdict :=
  c ← rdcount d (lasthash d);
  if 16 <=? c then Fault BucketFull
  else
    let b := lasthash d + c in
    Ok (mkdict (lasthash d) (<[lasthash d := c + 1]> (count d))
               (<[b := k]> (key d)) (<[b := v]> (value d))).

Definition add (d : fgdict) (k v : Z) : res fgdict :=
  addx (set_lasthash d (hash k)) k v.

(** The loop of [remove]: with [x], [v] the entry carried down from cell
    [i], [while (x != k) { i--; swap the carried entry with cell i }].  The
    carried entry starts at the last cell of the bucket, so [fuel] counts
    the cells left below [i] in the bucket. *)
Fixpoint remove_shift (fuel : nat) (ks vs : gmap Z Z) (i x v k : Z)
  : res (gmap Z Z * gmap Z Z) :=
  if x =? k then Ok (ks, vs)
  else match fuel with
       | O => Fault OutOfBucket
       | S fuel' =>
           let i := i - 1 in
           x' ← rd ks i;
           let ks := <[i := x]> ks in
           v' ← rd vs i;
           let vs := <[i := v]> vs in
           remove_shift fuel' ks vs i x' v' k
       end.

Definition removex (d : fgdict) (k : Z) : res fgdict :=
  c ← rdcount d (lasthash d);
  if c =? 1 then
    Ok (mkdict (lasthash d) (<[lasthash d := 0]> (count d)) (key d) (value d))
  else if c <? 1 then Fault OutOfBucket
  else
    let i := lasthash d + c - 1 in
    x ← rd (key d) i;
    v ← rd (value d) i;
    '(ks, vs) ← remove_shift (Z.to_nat (c - 1)) (key d) (value d) i x v k;
    Ok (mkdict (lasthash d) (<[lasthash d := c - 1]> (count d)) ks vs).

Definition remove (d : fgdict) (k : Z) : res fgdict :=
  removex (set_lasthash d (hash k)) k.

(** The loop shared by [replace] and [getvalue]:
    [while (x != k) { i--; x = key[i]; }], giving the final [i]. *)
Fixpoint find_down (fuel : nat) (ks : gmap Z Z) (i x k : Z) : res Z :=
  if x =? k then Ok i
  else match fuel with
       | O => Fault OutOfBucket
       | S fuel' =>
           let i := i - 1 in
           x' ← rd ks i;
           find_down fuel' ks i x' k
       end.

Definition replacex (d : fgdict) (k v : Z) : res fgdict :=
  c ← rdcount d (lasthash d);
  if c =? 1 then
    Ok (mkdict (lasthash d) (count d) (key d) (<[lasthash d := v]> (value d)))
  else if c <? 1 then Fault OutOfBucket
  else
    let i := lasthash d + c - 1 in
    x ← rd (key d) i;
    i ← find_down (Z.to_nat (c - 1)) (key d) i x k;
    Ok (mkdict (lasthash d) (count d) (key d) (<[i := v]> (value d))).

Definition replace (d : fgdict) (k v : Z) : res fgdict :=
  replacex (set_lasthash d (hash k)) k v.

Definition getvaluex (d : fgdict) (k : Z) : res Z :=
  c ← rdcount d (lasthash d);
  if c =? 1 then rd (value d) (lasthash d)
  else if c <? 1 then Fault OutOfBucket
  else
    let i := lasthash d + c - 1 in
    x ← rd (key d) i;
    i ← find_down (Z.to_nat (c - 1)) (key d) i x k;
    rd (value d) i.

Definition getvalue (d : fgdict) (k : Z) : res (Z * fgdict) :=
  let d := set_lasthash d (hash k) in
  v ← getvaluex d k;
  Ok (v, d).

(** ** The multimap: [uniques], [unarray], [avail], [twoplusd], [twoplusl]

    [uniques] sends a value to the block of [unarray] that lists its slots:
    [unarray[b]] is the number of slots and [unarray[b+1 ..]] the slots.
    [avail] is the stack of free blocks.  [twoplusl] lists the values with
    two slots or more and [twoplusd] sends such a value to its position in
    [twoplusl]. *)

Record mm := mkmm {
  uniques : fgdict;
  twoplusd : fgdict;
  unarray : gmap Z Z;
  avail : list Z;
  twoplusl : list Z
}.

(** What the seven arrays of the multimap hold when [new] returns them,
    cell by cell: the three of [uniques], the three of [twoplusd] and
    [unarray].  A cell that a heap does not list stays unreadable. *)
Record heap := mkheap {
  h_ucount : gmap Z Z; h_ukey : gmap Z Z; h_uvalue : gmap Z Z;
  h_tcount : gmap Z Z; h_tkey : gmap Z Z; h_tvalue : gmap Z Z;
  h_unarray : gmap Z Z
}.

(** The loop of [flipdel]: [while (x != r) { i--; y = x; x = unarray[i];
    unarray[i] = y; }]. *)
Fixpoint unarray_shift (fuel : nat) (ua : gmap Z Z) (i x r : Z)
  : res (gmap Z Z) :=
  if x =? r then Ok ua
  else match fuel with
       | O => Fault OutOfBlock
       | S fuel' =>
           let i := i - 1 in
           x' ← rd ua i;
           unarray_shift fuel' (<[i := x]> ua) i x' r
       end.

(** Bookkeeping associated with deleting a multiplication component. *)
Definition flipdel (m : mm) (r v : Z) : res mm :=
  '(b, u) ← getvalue (uniques m) v;
  l ← rd (unarray m) b;
  '(td, tl) ←
    (if l =? 2 then
       let td := set_lasthash (twoplusd m) (lasthash u) in
       rsi ← getvaluex td v;
       rsl ← back (twoplusl m);
       td ← replace td rsl rsi;
       tl ← vset (twoplusl m) rsi rsl;
       let tl := pop_back tl in
       let td := set_lasthash td (lasthash u) in
       td ← removex td v;
       Ok (td, tl)
     else Ok (twoplusd m, twoplusl m));
  if l =? 1 then
    u ← removex u v;
    Ok (mkmm u td (unarray m) (push_back (avail m) b) tl)
  else
    let i := b + l in
    x ← rd (unarray m) i;
    ua ← unarray_shift (Z.to_nat (l - 1)) (unarray m) i x r;
    Ok (mkmm u td (<[b := l - 1]> ua) (avail m) tl).

(** Bookkeeping associated with adding a multiplication component. *)
Definition flipadd (m : mm) (r v : Z) : res mm :=
  '(ct, u) ← contains (uniques m) v;
  if negb (ct =? 0) then
    b ← getvaluex u v;
    l ← rd (unarray m) b;
    '(td, tl) ←
      (if l =? 1 then
         td ← addx (set_lasthash (twoplusd m) (lasthash u)) v
                   (vsize (twoplusl m));
         Ok (td, push_back (twoplusl m) v)
       else Ok (twoplusd m, twoplusl m));
    let l := l + 1 in
    Ok (mkmm u td (<[b := l]> (<[b + l := r]> (unarray m))) (avail m) tl)
  else
    b ← back (avail m);
    let av := pop_back (avail m) in
    u ← addx u v b;
    Ok (mkmm u (twoplusd m) (<[b := 1]> (<[b + 1 := r]> (unarray m))) av
             (twoplusl m)).

(** ** Bit utilities *)

(** [while (n) { c++; n &= (n - 1); }]: a 64-bit [n] is zero after at most
    64 rounds. *)
Fixpoint bitcount_loop (fuel : nat) (c n : Z) : Z :=
  match fuel with
  | O => c
  | S fuel' =>
      if n =? 0 then c else bitcount_loop fuel' (c + 1) (Z.land n (n - 1))
  end.

(** Returns number of set bits. *)
Definition bitcount (var : Z) : Z := bitcount_loop 64 0 var.

(** [while (n && m) { m--; n &= (n - 1); }] *)
Fixpoint bitlimit_loop (fuel : nat) (m n : Z) : Z :=
  match fuel with
  | O => m
  | S fuel' =>
      if (n =? 0) || (m =? 0) then m
      else bitlimit_loop fuel' (m - 1) (Z.land n (n - 1))
  end.

(** Returns non-zero (true) if number of set bits < exceed, else zero. *)
Definition bitlimit (var exceed : Z) : Z := bitlimit_loop 64 exceed var.

Arguments bitcount : simpl never.
Arguments bitlimit : simpl never.

(** ** The flip limit *)

(** [int / int], truncating, undefined on a zero divisor. *)
Definition idiv (a b : Z) : res Z :=
  if b =? 0 then Fault DivByZero else Ok (Z.quot a b).

(** [vlong / vlong]. *)
Definition udiv (a b : Z) : res Z :=
  if b =? 0 then Fault DivByZero else Ok (a / b).

(** [int steps = (a - b) / symm], with [a], [b] and [symm] of type [int].
    The difference is an [int] too: out of the range of [int] it is the
    32-bit value that the machine computes.  The least [int] has no quotient
    by -1 among the [int]s, and the division traps. *)
Definition steps_left (a b symm : Z) : res Z :=
  let d := wrap_int (a - b) in
  if (d =? - 2 ^ 31) && (symm =? -1) then Fault IntOverflow
  else idiv d symm.

(** Returns updated flip limit on new overall rank reduction.  [steps] is
    an [int] and is converted to [vlong] where it divides one. *)
Definition updatelimit
    (limit flips termination split achieved target symm flimit : Z) : res Z :=
  if termination =? 0 then Ok flimit
  else if termination =? 1 then
    steps ← steps_left achieved target symm;
    q ← udiv (wrap64 (flimit - flips)) (wrap64 steps);
    Ok (wrap64 (flips + q))
  else if termination =? 2 then Ok (wrap64 (flips + flimit))
  else
    let slimit := wrap64 (wrap64 split * flimit) / 100 in
    if achieved >? termination then
      steps ← steps_left achieved termination symm;
      q ← udiv (wrap64 (slimit - flips)) (wrap64 steps);
      Ok (wrap64 (flips + q))
    else
      steps ← steps_left achieved target symm;
      q ← udiv (wrap64 (flimit - flips)) (wrap64 steps);
      Ok (wrap64 (flips + q)).

(** ** The search state *)

(** The first line of the run-state file, as read into the program's
    variables ([flips], [rcode] and [minmuls] are overwritten later and live
    in [state]). *)
Record config := mkconfig {
  nomuls : Z;
  target : Z;
  flimit : Z;
  plimit : Z;
  termination : Z;
  rseed : Z;
  symm : Z;
  maxplus : Z;
  split : Z;
  maxsize : Z
}.

(** A written file: its lines, each a list of integers. *)
Definition lines := list (list Z).

Record state := mkstate {
  muls : list Z;
  best : list Z;
  M : mm;
  flips : Z;
  rcode : Z;
  achieved : Z;
  minmuls : Z;
  plus : Z;
  plusby : Z;
  recovery : Z;
  limit : Z;
  drawn : nat;            (* words taken from the generator so far *)
  file : option lines     (* last contents written to argv[1], if any *)
}.

Definition set_muls (st : state) (x : list Z) : state :=
  mkstate x (best st) (M st) (flips st) (rcode st) (achieved st) (minmuls st)
    (plus st) (plusby st) (recovery st) (limit st) (drawn st) (file st).
Definition set_best (st : state) (x : list Z) : state :=
  mkstate (muls st) x (M st) (flips st) (rcode st) (achieved st) (minmuls st)
    (plus st) (plusby st) (recovery st) (limit st) (drawn st) (file st).
Definition set_M (st : state) (x : mm) : state :=
  mkstate (muls st) (best st) x (flips st) (rcode st) (achieved st)
    (minmuls st) (plus st) (plusby st) (recovery st) (limit st) (drawn st)
    (file st).
Definition set_flips (st : state) (x : Z) : state :=
  mkstate (muls st) (best st) (M st) x (rcode st) (achieved st) (minmuls st)
    (plus st) (plusby st) (recovery st) (limit st) (drawn st) (file st).
Definition set_rcode (st : state) (x : Z) : state :=
  mkstate (muls st) (best st) (M st) (flips st) x (achieved st) (minmuls st)
    (plus st) (plusby st) (recovery st) (limit st) (drawn st) (file st).
Definition set_achieved (st : state) (x : Z) : state :=
  mkstate (muls st) (best st) (M st) (flips st) (rcode st) x (minmuls st)
    (plus st) (plusby st) (recovery st) (limit st) (drawn st) (file st).
Definition set_minmuls (st : state) (x : Z) : state :=
  mkstate (muls st) (best st) (M st) (flips st) (rcode st) (achieved st) x
    (plus st) (plusby st) (recovery st) (limit st) (drawn st) (file st).
Definition set_plus (st : state) (x : Z) : state :=
  mkstate (muls st) (best st) (M st) (flips st) (rcode st) (achieved st)
    (minmuls st) x (plusby st) (recovery st) (limit st) (drawn st) (file st).
Definition set_plusby (st : state) (x : Z) : state :=
  mkstate (muls st) (best st) (M st) (flips st) (rcode st) (achieved st)
    (minmuls st) (plus st) x (recovery st) (limit st) (drawn st) (file st).
Definition set_recovery (st : state) (x : Z) : state :=
  mkstate (muls st) (best st) (M st) (flips st) (rcode st) (achieved st)
    (minmuls st) (plus st) (plusby st) x (limit st) (drawn st) (file st).
Definition set_limit (st : state) (x : Z) : state :=
  mkstate (muls st) (best st) (M st) (flips st) (rcode st) (achieved st)
    (minmuls st) (plus st) (plusby st) (recovery st) x (drawn st) (file st).
Definition set_drawn (st : state) (x : nat) : state :=
  mkstate (muls st) (best st) (M st) (flips st) (rcode st) (achieved st)
    (minmuls st) (plus st) (plusby st) (recovery st) (limit st) x (file st).
Definition set_file (st : state) (x : option lines) : state :=
  mkstate (muls st) (best st) (M st) (flips st) (rcode st) (achieved st)
    (minmuls st) (plus st) (plusby st) (recovery st) (limit st) (drawn st) x.

(** Whether the enclosing [while (true)] goes on or was left by [break]. *)
Inductive status := Go | Stop.

(** ** The pair tables [combs], [ps], [qs]

    [for (x = 1; x < 80; x++) { for (y = 0; y < x; y++) { push (x,y);
    push (y,x); } combs.push_back(ps.size()); }] after [combs = {0, 0}]. *)

Definition pair_rows (x : nat) : list (Z * Z) :=
  flat_map (fun y => [(Z.of_nat x, Z.of_nat y); (Z.of_nat y, Z.of_nat x)])
           (seq 0 x).

Definition pair_table : list (Z * Z) := flat_map pair_rows (seq 1 79).

Definition ps : list Z := Eval vm_compute in pair_table.*1.
Definition qs : list Z := Eval vm_compute in pair_table.*2.

Definition combs : list Z :=
  Eval vm_compute in
    [0; 0] ++ map (fun x => Z.of_nat (length (flat_map pair_rows (seq 1 x))))
                  (seq 1 79).

(** The operands of a flip on the pair [(p, q)]: the old values at the
    partner slots and the two new values. *)
Record cand := mkcand {
  c_p : Z; c_q : Z;
  c_mpe : Z; c_mpf : Z; c_mqe : Z; c_mqf : Z;
  c_mpen : Z; c_mqfn : Z
}.

(** The operands of a plus move on the pair [(p, q)]. *)
Record pcand := mkpcand {
  a_p : Z; a_q : Z;
  a_mpd : Z; a_mpe : Z; a_mpf : Z;
  a_mqd : Z; a_mqe : Z; a_mqf : Z
}.

Section Engine.

(** The words that the generator [std::mt19937 mt(rseed)] yields, in the
    order of the calls [mt()]. *)
Variable mt : nat -> Z.

Variable cfg : config.

(** Bound given to the loops that the program leaves unbounded. *)
Variable gas : nat.

Definition draw (st : state) : Z * state :=
  (wrap32 (mt (drawn st)), set_drawn st (S (drawn st))).

Definition in_slots (i : Z) : bool := (0 <=? i) && (i <? nomuls cfg).

(** The vectors [me] and [mf] as filled three slots at a time:
    [me[i] = i + 2; me[i + 1] = i; me[i + 2] = i + 1;] and
    [mf[i] = i + 1; mf[i + 1] = i + 2; mf[i + 2] = i;]. *)
Definition me (i : Z) : res Z :=
  if in_slots i then Ok (if i mod 3 =? 0 then i + 2 else i - 1)
  else Fault OutOfRange.

Definition mf (i : Z) : res Z :=
  if in_slots i then Ok (if i mod 3 =? 2 then i - 2 else i + 1)
  else Fault OutOfRange.

(** [permit[i][j]], filled with [i / symm == j / symm ? 0 : 1]. *)
Definition permit (i j : Z) : res Z :=
  if in_slots i && in_slots j then
    a ← idiv i (symm cfg);
    b ← idiv j (symm cfg);
    Ok (if a =? b then 0 else 1)
  else Fault OutOfRange.

Definition set_uniques (m : mm) (u : fgdict) : mm :=
  mkmm u (twoplusd m) (unarray m) (avail m) (twoplusl m).

(** One colliding pair from one generator word. *)
Definition sample_pair (sample : Z) (m : mm) : res (Z * Z * mm) :=
  if vsize (twoplusl m) =? 0 then Fault DivByZero
  else
    v ← vget (twoplusl m) (sample mod vsize (twoplusl m));
    '(b, u) ← getvalue (uniques m) v;
    let m := set_uniques m u in
    l ← rd (unarray m) b;
    let b := b + 1 in
    if l =? 2 then
      if negb (Z.land sample 65536 =? 0) then
        p ← rd (unarray m) b;
        q ← rd (unarray m) (b + 1);
        Ok (p, q, m)
      else
        p ← rd (unarray m) (b + 1);
        q ← rd (unarray m) b;
        Ok (p, q, m)
    else
      c ← vget combs l;
      if c =? 0 then Fault DivByZero
      else
        let x := Z.shiftr sample 16 mod c in
        px ← vget ps x;
        p ← rd (unarray m) (b + px);
        qx ← vget qs x;
        q ← rd (unarray m) (b + qx);
        Ok (p, q, m).

Definition read_cand (mu : list Z) (p q : Z) : res cand :=
  ep ← me p;
  mpe ← vget mu ep;
  fp ← mf p;
  mpf ← vget mu fp;
  eq ← me q;
  mqe ← vget mu eq;
  fq ← mf q;
  mqf ← vget mu fq;
  Ok (mkcand p q mpe mpf mqe mqf (Z.lxor mqe mpe) (Z.lxor mqf mpf)).

(** [maxsize == 0]: draw until the pair is permitted. *)
Fixpoint sample_any (fuel : nat) (st : state) : res (Z * Z * state) :=
  match fuel with
  | O => Fault OutOfFuel
  | S fuel' =>
      let '(sample, st) := draw st in
      '(p, q, m) ← sample_pair sample (M st);
      let st := set_M st m in
      pm ← permit p q;
      if negb (pm =? 0) then Ok (p, q, st) else sample_any fuel' st
  end.

(** [maxsize > 0]: at most [k] draws, each tested against the permit
    matrix and the size budget. *)
Fixpoint sample_sized (k : nat) (st : state) : res (option cand * state) :=
  match k with
  | O => Ok (None, st)
  | S k' =>
      let '(sample, st) := draw st in
      '(p, q, m) ← sample_pair sample (M st);
      let st := set_M st m in
      c ← read_cand (muls st) p q;
      mp ← vget (muls st) p;
      mq ← vget (muls st) q;
      let psize := bitcount mp * bitcount (c_mpen c) * bitcount (c_mpf c) in
      let qsize := bitcount mq * bitcount (c_mqe c) * bitcount (c_mqfn c) in
      pm ← permit p q;
      if negb (pm =? 0) && (psize <=? maxsize cfg) && (qsize <=? maxsize cfg)
      then Ok (Some c, st)
      else sample_sized k' st
  end.

(** [maxsize < 0]: at most [k] draws, each tested against the permit
    matrix and the bit limit [exceed = 1 - maxsize]. *)
Fixpoint sample_bits (k : nat) (st : state) : res (option cand * state) :=
  match k with
  | O => Ok (None, st)
  | S k' =>
      let '(sample, st) := draw st in
      '(p, q, m) ← sample_pair sample (M st);
      let st := set_M st m in
      c ← read_cand (muls st) p q;
      let exceed := 1 - maxsize cfg in
      pm ← permit p q;
      if negb (pm =? 0) && negb (bitlimit (c_mpen c) exceed =? 0)
         && negb (bitlimit (c_mqfn c) exceed =? 0)
      then Ok (Some c, st)
      else sample_bits k' st
  end.

(** The three sampling modes of one flip ([None]: 1000 failures). *)
Definition sample_flip (st : state) : res (option cand * state) :=
  if maxsize cfg =? 0 then
    '(p, q, st) ← sample_any gas st;
    c ← read_cand (muls st) p q;
    Ok (Some c, st)
  else if maxsize cfg >? 0 then sample_sized 1000 st
  else sample_bits 1000 st.

(** The schedule of the next plus move. *)
Definition reschedule (st : state) : res state :=
  if achieved st >=? maxplus cfg then
    Ok (set_plusby st (wrap64 (flimit cfg * 1007)))
  else if plimit cfg <? 0 then
    let '(w, st) := draw st in
    let d := wrap64 (-2 * plimit cfg) in
    if d =? 0 then Fault DivByZero
    else Ok (set_plusby st (wrap64 (flips st + symm cfg + w mod d)))
  else Ok (set_plusby st (wrap64 (flips st + plimit cfg))).

(** [for (int l = 0; l < nomuls; l++) best[l] = muls[l];] *)
Fixpoint copy_loop (n : nat) (l : Z) (mu be : list Z) : res (list Z) :=
  match n with
  | O => Ok be
  | S n' =>
      x ← vget mu l;
      be ← vset be l x;
      copy_loop n' (l + 1) mu be
  end.

(** The inner loop of the trigger test, over the slots of one value. *)
Fixpoint trigger_inner (n : nat) (i : Z) (ua : gmap Z Z) (b t w : Z)
    (trigger : bool) : res bool :=
  match n with
  | O => Ok trigger
  | S n' =>
      x ← rd ua (b + i + 1);
      let u := Z.quot x w in
      trigger_inner n' (i + 1) ua b t w
                    (if negb (t =? u) then false else trigger)
  end.

(** The outer loop of the trigger test, over [twoplusl]. *)
Fixpoint trigger_scan (vs : list Z) (m : mm) (w : Z) (trigger : bool)
  : res (bool * mm) :=
  match vs with
  | [] => Ok (trigger, m)
  | v :: vs' =>
      '(b, u) ← getvalue (uniques m) v;
      let m := set_uniques m u in
      x ← rd (unarray m) (b + 1);
      let t := Z.quot x w in
      l ← rd (unarray m) b;
      trigger ← trigger_inner (Z.to_nat (l - 1)) 1 (unarray m) b t w trigger;
      trigger_scan vs' m w trigger
  end.

(** What follows the deletion of a term, with [w] the literal 3 or 6 of
    the loop it stands in. *)
Definition after_collapse (w : Z) (st : state) : res (status * state) :=
  let st := set_achieved st (achieved st - w) in
  st ← (if achieved st <? minmuls st then
          let st := set_minmuls st (achieved st) in
          if achieved st >? target cfg then
            l ← updatelimit (limit st) (flips st) (termination cfg)
                  (split cfg) (achieved st) (target cfg) (symm cfg)
                  (flimit cfg);
            Ok (set_limit st l)
          else Ok st
        else Ok st);
  st ← (if achieved st <=? minmuls st then
          be ← copy_loop (Z.to_nat (nomuls cfg)) 0 (muls st) (best st);
          Ok (set_best st be)
        else Ok st);
  st ← reschedule st;
  if vsize (twoplusl (M st)) =? 0 then Ok (Stop, set_rcode st (-1))
  else if achieved st <=? target cfg then Ok (Stop, st)
  else
    '(trigger, m) ← trigger_scan (twoplusl (M st)) (M st) w true;
    let st := set_M st m in
    Ok (Go, if (trigger : bool) then set_plusby st (flips st) else st).

(** *** The flip of the [symm == 3] loop *)

(** Both changed slots are committed to the multimap and to [muls]. *)
Definition commit3 (st : state) (c : cand) : res state :=
  ep ← me (c_p c);
  m ← flipdel (M st) ep (c_mpe c);
  m ← flipadd m ep (c_mpen c);
  mu ← vset (muls st) ep (c_mpen c);
  fq ← mf (c_q c);
  m ← flipdel m fq (c_mqf c);
  m ← flipadd m fq (c_mqfn c);
  mu ← vset mu fq (c_mqfn c);
  Ok (set_muls (set_M st m) mu).

(** [if (mpen == 0) { ... }]: the term of [p] leaves the multimap and
    [muls], then the bookkeeping of a deletion runs. *)
Definition delete_p3 (st : state) (c : cand) : res state :=
  mpd ← vget (muls st) (c_p c);
  m ← flipdel (M st) (c_p c) mpd;
  ep ← me (c_p c);
  m ← flipdel m ep (c_mpen c);
  fp ← mf (c_p c);
  m ← flipdel m fp (c_mpf c);
  mu ← vset (muls st) (c_p c) 0;
  mu ← vset mu fp 0;
  Ok (set_muls (set_M st m) mu).

Definition collapse_p3 (st : state) (c : cand) : res (status * state) :=
  st ← delete_p3 st c;
  after_collapse 3 st.

(** [if (mqfn == 0) { ... }] *)
Definition delete_q3 (st : state) (c : cand) : res state :=
  mqd ← vget (muls st) (c_q c);
  m ← flipdel (M st) (c_q c) mqd;
  eq ← me (c_q c);
  m ← flipdel m eq (c_mqe c);
  fq ← mf (c_q c);
  m ← flipdel m fq (c_mqfn c);
  mu ← vset (muls st) (c_q c) 0;
  mu ← vset mu eq 0;
  Ok (set_muls (set_M st m) mu).

Definition collapse_q3 (st : state) (c : cand) : res (status * state) :=
  st ← delete_q3 st c;
  after_collapse 3 st.

(** *** The plus move of the [symm == 3] loop *)

(** What a recovery snapshot writes. *)
Definition snapshot (st : state) : lines :=
  [nomuls cfg; flips st; 2; target cfg; flimit cfg; plimit cfg;
   termination cfg; rseed cfg; symm cfg; maxplus cfg;
   achieved st; minmuls st; plus st]
  :: map (fun m => [m]) (muls st).

Definition recover (st : state) : state :=
  if flips st >=? recovery st then
    let st := set_recovery st (wrap64 (recovery st + 5000000000)) in
    set_file st (Some (snapshot st))
  else st.

(** [for (r = 0; r < nomuls; r++) { if (muls[r] == 0) break; }] *)
Fixpoint first_zero (n : nat) (r : Z) (mu : list Z) : res Z :=
  match n with
  | O => Ok r
  | S n' =>
      x ← vget mu r;
      if x =? 0 then Ok r else first_zero n' (r + 1) mu
  end.

Definition read_pcand (mu : list Z) (p q : Z) : res pcand :=
  mpd ← vget mu p;
  ep ← me p;
  mpe ← vget mu ep;
  fp ← mf p;
  mpf ← vget mu fp;
  mqd ← vget mu q;
  eq ← me q;
  mqe ← vget mu eq;
  fq ← mf q;
  mqf ← vget mu fq;
  Ok (mkpcand p q mpd mpe mpf mqd mqe mqf).

(** The size test of a plus candidate, on the three resulting terms. *)
Definition plus_size_ok (a : pcand) : bool :=
  let mpen := Z.lxor (a_mpe a) (a_mqe a) in
  let mqfn := Z.lxor (a_mpf a) (a_mqf a) in
  let mrdn := Z.lxor (a_mpd a) (a_mqd a) in
  if maxsize cfg >? 0 then
    let psize := bitcount (a_mpd a) * bitcount mpen * bitcount (a_mpf a) in
    let qsize := bitcount (a_mpd a) * bitcount (a_mqe a) * bitcount mqfn in
    let rsize := bitcount mrdn * bitcount (a_mqe a) * bitcount (a_mqf a) in
    negb ((psize >? maxsize cfg) || (qsize >? maxsize cfg)
          || (rsize >? maxsize cfg))
  else if maxsize cfg <? 0 then
    let exceed := 1 - maxsize cfg in
    negb (bitlimit mpen exceed =? 0) && negb (bitlimit mqfn exceed =? 0)
    && negb (bitlimit mrdn exceed =? 0)
  else true.

(** The tests of a plus candidate that do not depend on [maxsize]. *)
Definition plus_distinct_ok (a : pcand) : bool :=
  negb ((a_mpd a =? 0) || (a_mqd a =? 0))
  && negb ((a_mpd a =? a_mqd a) || (a_mpe a =? a_mqe a)
           || (a_mpf a =? a_mqf a)).

(** [while (true) { p = mt() % nomuls; q = mt() % nomuls; ... if (ok)
    break; }] *)
Fixpoint plus_pick3 (fuel : nat) (st : state) : res (pcand * state) :=
  match fuel with
  | O => Fault OutOfFuel
  | S fuel' =>
      let '(w1, st) := draw st in
      let '(w2, st) := draw st in
      if wrap64 (nomuls cfg) =? 0 then Fault DivByZero
      else
        let p := w1 mod wrap64 (nomuls cfg) in
        let q := w2 mod wrap64 (nomuls cfg) in
        a ← read_pcand (muls st) p q;
        pm ← permit p q;
        if plus_size_ok a && plus_distinct_ok a && negb (pm =? 0)
        then Ok (a, st)
        else plus_pick3 fuel' st
  end.

(** The nine multimap updates and nine writes of a plus move on the
    candidate [a], the new term going to the slots of [r]. *)
Definition plus_apply3 (st : state) (a : pcand) (r : Z) : res state :=
  let p := a_p a in
  let q := a_q a in
  let mpen := Z.lxor (a_mpe a) (a_mqe a) in
  let mqfn := Z.lxor (a_mpf a) (a_mqf a) in
  let mrdn := Z.lxor (a_mpd a) (a_mqd a) in
  ep ← me p;
  m ← flipdel (M st) ep (a_mpe a);
  m ← flipadd m ep mpen;
  m ← flipdel m q (a_mqd a);
  m ← flipadd m q (a_mpd a);
  fq ← mf q;
  m ← flipdel m fq (a_mqf a);
  m ← flipadd m fq mqfn;
  m ← flipadd m r mrdn;
  er ← me r;
  m ← flipadd m er (a_mqe a);
  fr ← mf r;
  m ← flipadd m fr (a_mqf a);
  mu ← vset (muls st) p (a_mpd a);
  mu ← vset mu ep mpen;
  fp ← mf p;
  mu ← vset mu fp (a_mpf a);
  mu ← vset mu q (a_mpd a);
  eq ← me q;
  mu ← vset mu eq (a_mqe a);
  mu ← vset mu fq mqfn;
  mu ← vset mu r mrdn;
  mu ← vset mu er (a_mqe a);
  mu ← vset mu fr (a_mqf a);
  Ok (set_muls (set_M st m) mu).

(** [if (flips >= plusby) { ... }] *)
Definition plus3 (st : state) : res state :=
  let st := recover st in
  r ← first_zero (Z.to_nat (nomuls cfg)) 0 (muls st);
  '(a, st) ← plus_pick3 gas st;
  st ← plus_apply3 st a r;
  let st := set_plus st (wrap64 (plus st + 3)) in
  let st := set_achieved st (achieved st + 3) in
  reschedule st.

(** [if (flips >= limit) { rcode = flips >= flimit ? 1 : 2; break; }] *)
Definition limit_check (st : state) : status * state :=
  if flips st >=? limit st then
    (Stop, set_rcode st (if flips st >=? flimit cfg then 1 else 2))
  else (Go, st).

(** The flip of one round: sampling, commit and the two collapse tests.
    [Stop] is a [break] met on the way. *)
Definition flip3 (st : state) : res (status * state) :=
  let st := set_flips st (wrap64 (flips st + 3)) in
  '(oc, st) ← sample_flip st;
  match oc with
  | None => Ok (Stop, set_rcode st 6)
  | Some c =>
      st ← commit3 st c;
      '(s, st) ← (if c_mpen c =? 0 then collapse_p3 st c else Ok (Go, st));
      match s with
      | Stop => Ok (Stop, st)
      | Go => if c_mqfn c =? 0 then collapse_q3 st c else Ok (Go, st)
      end
  end.

(** One round of the [while (true)] of the [symm == 3] branch: the flip,
    the plus move when it is due, the test of the flip limit. *)
Definition step3 (st : state) : res (status * state) :=
  '(s, st) ← flip3 st;
  match s with
  | Stop => Ok (Stop, st)
  | Go =>
      st ← (if flips st >=? plusby st then plus3 st else Ok st);
      Ok (limit_check st)
  end.

(** The rounds of the [symm == 3] loop until a [break]. *)
Fixpoint loop3 (rounds : nat) (st : state) : res state :=
  match rounds with
  | O => Fault OutOfFuel
  | S rounds' =>
      '(s, st) ← step3 st;
      match s with
      | Stop => Ok st
      | Go => loop3 rounds' st
      end
  end.

(** *** The [symm == 6] loop *)

(** [x = p % 6; if (x < 3) pp = p + 3; else pp = p - 3;] *)
Definition paired (p : Z) : Z :=
  if Z.rem p 6 <? 3 then p + 3 else p - 3.

(** The operands of the paired half of a flip. *)
Record half := mkhalf {
  h_pp : Z; h_qq : Z;
  h_mpd : Z; h_mqd : Z;
  h_mppd : Z; h_mppe : Z; h_mppf : Z;
  h_mqqd : Z; h_mqqe : Z; h_mqqf : Z;
  h_mppen : Z; h_mqqfn : Z
}.

Definition read_half (mu : list Z) (p q : Z) : res half :=
  mpd ← vget mu p;
  mqd ← vget mu q;
  let pp := paired p in
  let qq := paired q in
  mppd ← vget mu pp;
  epp ← me pp;
  mppe ← vget mu epp;
  fpp ← mf pp;
  mppf ← vget mu fpp;
  mqqd ← vget mu qq;
  eqq ← me qq;
  mqqe ← vget mu eqq;
  fqq ← mf qq;
  mqqf ← vget mu fqq;
  Ok (mkhalf pp qq mpd mqd mppd mppe mppf mqqd mqqe mqqf
             (Z.lxor mqqe mppe) (Z.lxor mqqf mppf)).

Definition commit6 (st : state) (c : cand) (h : half) : res state :=
  ep ← me (c_p c);
  m ← flipdel (M st) ep (c_mpe c);
  m ← flipadd m ep (c_mpen c);
  mu ← vset (muls st) ep (c_mpen c);
  epp ← me (h_pp h);
  m ← flipdel m epp (h_mppe h);
  m ← flipadd m epp (h_mppen h);
  mu ← vset mu epp (h_mppen h);
  fq ← mf (c_q c);
  m ← flipdel m fq (c_mqf c);
  m ← flipadd m fq (c_mqfn c);
  mu ← vset mu fq (c_mqfn c);
  fqq ← mf (h_qq h);
  m ← flipdel m fqq (h_mqqf h);
  m ← flipadd m fqq (h_mqqfn h);
  mu ← vset mu fqq (h_mqqfn h);
  Ok (set_muls (set_M st m) mu).

Definition collapses_p6 (c : cand) (h : half) : bool :=
  (c_mpen c =? 0)
  || ((h_mpd h =? h_mppd h) && (c_mpen c =? h_mppen h)
      && (c_mpf c =? h_mppf h)).

Definition collapses_q6 (c : cand) (h : half) : bool :=
  (c_mqfn c =? 0)
  || ((h_mqd h =? h_mqqd h) && (c_mqe c =? h_mqqe h)
      && (c_mqfn c =? h_mqqfn h)).

Definition delete_p6 (st : state) (c : cand) (h : half) : res state :=
  m ← flipdel (M st) (c_p c) (h_mpd h);
  ep ← me (c_p c);
  m ← flipdel m ep (c_mpen c);
  fp ← mf (c_p c);
  m ← flipdel m fp (c_mpf c);
  mu ← vset (muls st) (c_p c) 0;
  mu ← vset mu fp 0;
  m ← flipdel m (h_pp h) (h_mppd h);
  epp ← me (h_pp h);
  m ← flipdel m epp (h_mppen h);
  fpp ← mf (h_pp h);
  m ← flipdel m fpp (h_mppf h);
  mu ← vset mu (h_pp h) 0;
  mu ← vset mu fpp 0;
  mu ← (if negb (c_mpen c =? 0) then
          mu ← vset mu ep 0;
          vset mu epp 0
        else Ok mu);
  Ok (set_muls (set_M st m) mu).

Definition collapse_p6 (st : state) (c : cand) (h : half)
  : res (status * state) :=
  st ← delete_p6 st c h;
  after_collapse 6 st.

Definition delete_q6 (st : state) (c : cand) (h : half) : res state :=
  m ← flipdel (M st) (c_q c) (h_mqd h);
  eq ← me (c_q c);
  m ← flipdel m eq (c_mqe c);
  fq ← mf (c_q c);
  m ← flipdel m fq (c_mqfn c);
  mu ← vset (muls st) (c_q c) 0;
  mu ← vset mu eq 0;
  m ← flipdel m (h_qq h) (h_mqqd h);
  eqq ← me (h_qq h);
  m ← flipdel m eqq (h_mqqe h);
  fqq ← mf (h_qq h);
  m ← flipdel m fqq (h_mqqfn h);
  mu ← vset mu (h_qq h) 0;
  mu ← vset mu eqq 0;
  mu ← (if negb (c_mqfn c =? 0) then
          mu ← vset mu fq 0;
          vset mu fqq 0
        else Ok mu);
  Ok (set_muls (set_M st m) mu).

Definition collapse_q6 (st : state) (c : cand) (h : half)
  : res (status * state) :=
  st ← delete_q6 st c h;
  after_collapse 6 st.

(** [while (true) { p = mt() % nomuls; q = mt() % nomuls; ... if (ok)
    break; }] with the paired candidate tested as well. *)
Fixpoint plus_pick6 (fuel : nat) (st : state)
  : res (pcand * pcand * state) :=
  match fuel with
  | O => Fault OutOfFuel
  | S fuel' =>
      let '(w1, st) := draw st in
      let '(w2, st) := draw st in
      if wrap64 (nomuls cfg) =? 0 then Fault DivByZero
      else
        let p := w1 mod wrap64 (nomuls cfg) in
        let q := w2 mod wrap64 (nomuls cfg) in
        a ← read_pcand (muls st) p q;
        aa ← read_pcand (muls st) (paired p) (paired q);
        pm ← permit p q;
        if plus_size_ok a && plus_distinct_ok a && plus_distinct_ok aa
           && negb (pm =? 0)
        then Ok (a, aa, st)
        else plus_pick6 fuel' st
  end.

(** The eighteen multimap updates of a plus move, then its eighteen
    writes. *)
Definition plus_apply6 (st : state) (a aa : pcand) (r : Z) : res state :=
  let p := a_p a in
  let q := a_q a in
  let pp := a_p aa in
  let qq := a_q aa in
  let rr := r + 3 in
  let mpen := Z.lxor (a_mpe a) (a_mqe a) in
  let mqfn := Z.lxor (a_mpf a) (a_mqf a) in
  let mrdn := Z.lxor (a_mpd a) (a_mqd a) in
  let mppen := Z.lxor (a_mpe aa) (a_mqe aa) in
  let mqqfn := Z.lxor (a_mpf aa) (a_mqf aa) in
  let mrrdn := Z.lxor (a_mpd aa) (a_mqd aa) in
  ep ← me p;
  m ← flipdel (M st) ep (a_mpe a);
  m ← flipadd m ep mpen;
  m ← flipdel m q (a_mqd a);
  m ← flipadd m q (a_mpd a);
  fq ← mf q;
  m ← flipdel m fq (a_mqf a);
  m ← flipadd m fq mqfn;
  m ← flipadd m r mrdn;
  er ← me r;
  m ← flipadd m er (a_mqe a);
  fr ← mf r;
  m ← flipadd m fr (a_mqf a);
  epp ← me pp;
  m ← flipdel m epp (a_mpe aa);
  m ← flipadd m epp mppen;
  m ← flipdel m qq (a_mqd aa);
  m ← flipadd m qq (a_mpd aa);
  fqq ← mf qq;
  m ← flipdel m fqq (a_mqf aa);
  m ← flipadd m fqq mqqfn;
  m ← flipadd m rr mrrdn;
  err ← me rr;
  m ← flipadd m err (a_mqe aa);
  frr ← mf rr;
  m ← flipadd m frr (a_mqf aa);
  mu ← vset (muls st) p (a_mpd a);
  mu ← vset mu ep mpen;
  fp ← mf p;
  mu ← vset mu fp (a_mpf a);
  mu ← vset mu q (a_mpd a);
  eq ← me q;
  mu ← vset mu eq (a_mqe a);
  mu ← vset mu fq mqfn;
  mu ← vset mu r mrdn;
  mu ← vset mu er (a_mqe a);
  mu ← vset mu fr (a_mqf a);
  mu ← vset mu pp (a_mpd aa);
  mu ← vset mu epp mppen;
  fpp ← mf pp;
  mu ← vset mu fpp (a_mpf aa);
  mu ← vset mu qq (a_mpd aa);
  eqq ← me qq;
  mu ← vset mu eqq (a_mqe aa);
  mu ← vset mu fqq mqqfn;
  mu ← vset mu rr mrrdn;
  mu ← vset mu err (a_mqe aa);
  mu ← vset mu frr (a_mqf aa);
  Ok (set_muls (set_M st m) mu).

Definition plus6 (st : state) : res state :=
  let st := recover st in
  r ← first_zero (Z.to_nat (nomuls cfg)) 0 (muls st);
  '(a, aa, st) ← plus_pick6 gas st;
  st ← plus_apply6 st a aa r;
  let st := set_plus st (wrap64 (plus st + 6)) in
  let st := set_achieved st (achieved st + 6) in
  reschedule st.

(** The flip of one round of the [symm == 6] branch. *)
Definition flip6 (st : state) : res (status * state) :=
  let st := set_flips st (wrap64 (flips st + 6)) in
  '(oc, st) ← sample_flip st;
  match oc with
  | None => Ok (Stop, set_rcode st 6)
  | Some c =>
      h ← read_half (muls st) (c_p c) (c_q c);
      st ← commit6 st c h;
      '(s, st) ←
        (if collapses_p6 c h then collapse_p6 st c h else Ok (Go, st));
      match s with
      | Stop => Ok (Stop, st)
      | Go => if collapses_q6 c h then collapse_q6 st c h else Ok (Go, st)
      end
  end.

(** One round of the [while (true)] of the [symm == 6] branch. *)
Definition step6 (st : state) : res (status * state) :=
  '(s, st) ← flip6 st;
  match s with
  | Stop => Ok (Stop, st)
  | Go =>
      st ← (if flips st >=? plusby st then plus6 st else Ok st);
      Ok (limit_check st)
  end.

Fixpoint loop6 (rounds : nat) (st : state) : res state :=
  match rounds with
  | O => Fault OutOfFuel
  | S rounds' =>
      '(s, st) ← step6 st;
      match s with
      | Stop => Ok st
      | Go => loop6 rounds' st
      end
  end.

(** *** Set-up and output *)

(** [for (i = 0; i < nomuls; i++) avail.push_back(i * (nomuls + 1));] *)
Definition init_avail : list Z :=
  map (fun i => Z.of_nat i * (nomuls cfg + 1))
      (seq 0 (Z.to_nat (nomuls cfg))).

(** The loop that enters the input decomposition into the multimap and
    counts its nonzero slots. *)
Fixpoint init_loop (n : nat) (i : Z) (mu : list Z) (m : mm) (ach : Z)
  : res (mm * Z) :=
  match n with
  | O => Ok (m, ach)
  | S n' =>
      x ← vget mu i;
      if x >? 0 then
        '(ct, u) ← contains (uniques m) x;
        m ← (if negb (ct =? 0) then
               '(b, u) ← getvalue u x;
               l ← rd (unarray m) b;
               let l := l + 1 in
               let ua := <[b := l]> (<[b + l := i]> (unarray m)) in
               '(ct2, td) ← contains (twoplusd m) x;
               if ct2 =? 0 then
                 td ← add td x (vsize (twoplusl m));
                 Ok (mkmm u td ua (avail m) (push_back (twoplusl m) x))
               else Ok (mkmm u td ua (avail m) (twoplusl m))
             else
               b ← back (avail m);
               let av := pop_back (avail m) in
               u ← add u x b;
               Ok (mkmm u (twoplusd m)
                        (<[b + 1 := i]> (<[b := 1]> (unarray m))) av
                        (twoplusl m)));
        init_loop n' (i + 1) mu m (ach + 1)
      else init_loop n' (i + 1) mu m ach
  end.

(** Everything [main] does before its loops, from the starting [flips]
    and the [nomuls] values read from the file. *)
Definition init (flips0 : Z) (muls0 : list Z) : res state :=
  if (nomuls cfg <? 0) || negb (nomuls cfg mod 3 =? 0) then Fault OutOfRange
  else if (0 <? nomuls cfg) && (symm cfg =? 0) then Fault DivByZero
  else
    '(m, ach) ← init_loop (Z.to_nat (nomuls cfg)) 0 muls0
                  (mkmm fgdict_new fgdict_new ∅ init_avail []) 0;
    let st := mkstate muls0 muls0 m flips0 0 ach ach 0 0 5000000000 0
                      O None in
    st ← reschedule st;
    l ← updatelimit 0 (flips st) (termination cfg) (split cfg)
          (achieved st) (target cfg) (symm cfg) (flimit cfg);
    Ok (set_limit st l).

(** What is written to the file on termination. *)
Definition output (st : state) : lines :=
  [nomuls cfg; flips st; rcode st; target cfg; flimit cfg; plimit cfg;
   termination cfg; rseed cfg; symm cfg; maxplus cfg;
   achieved st; minmuls st; plus st]
  :: (if minmuls st <? achieved st then map (fun m => [m]) (best st)
      else map (fun m => [m]) (muls st)).

(** The whole run, with [rounds] bounding the rounds of the main loop. *)
Definition search (rounds : nat) (flips0 : Z) (muls0 : list Z) : res state :=
  st ← init flips0 muls0;
  st ← (if symm cfg =? 3 then loop3 rounds st else Ok st);
  st ← (if symm cfg =? 6 then loop6 rounds st else Ok st);
  Ok (set_file st (Some (output st))).

(** The multimap as [main] declares it, on the arrays of the heap [h]. *)
Definition alloc (h : heap) : mm :=
  mkmm (fgdict_on (h_ucount h) (h_ukey h) (h_uvalue h))
       (fgdict_on (h_tcount h) (h_tkey h) (h_tvalue h))
       (h_unarray h) init_avail [].

(** [init] and [search] with the multimap [m0] in the place of the one
    whose arrays have no readable cell. *)
Definition init_from (m0 : mm) (flips0 : Z) (muls0 : list Z) : res state :=
  if (nomuls cfg <? 0) || negb (nomuls cfg mod 3 =? 0) then Fault OutOfRange
  else if (0 <? nomuls cfg) && (symm cfg =? 0) then Fault DivByZero
  else
    '(m, ach) ← init_loop (Z.to_nat (nomuls cfg)) 0 muls0 m0 0;
    let st := mkstate muls0 muls0 m flips0 0 ach ach 0 0 5000000000 0
                      O None in
    st ← reschedule st;
    l ← updatelimit 0 (flips st) (termination cfg) (split cfg)
          (achieved st) (target cfg) (symm cfg) (flimit cfg);
    Ok (set_limit st l).

Definition search_from (m0 : mm) (rounds : nat) (flips0 : Z)
    (muls0 : list Z) : res state :=
  st ← init_from m0 flips0 muls0;
  st ← (if symm cfg =? 3 then loop3 rounds st else Ok st);
  st ← (if symm cfg =? 6 then loop6 rounds st else Ok st);
  Ok (set_file st (Some (output st))).

End Engine.

(** ** The generator [std::mt19937]

    The 32-bit Mersenne twister as the C++ standard defines it (the engine
    [mersenne_twister_engine<uint_fast32_t, 32, 624, 397, 31, 0x9908b0df,
    11, 0xffffffff, 7, 0x9d2c5680, 15, 0xefc60000, 18, 1812433253>]).  The
    state is the window of the last 624 words of the sequence [x]. *)

(** Seeding: [x0 = value mod 2^32] and
    [x_i = (1812433253 * (x_(i-1) xor (x_(i-1) >> 30)) + i) mod 2^32]. *)
Fixpoint mt_fill (n : nat) (i prev : Z) : list Z :=
  match n with
  | O => []
  | S n' =>
      let x := wrap32 (1812433253 * Z.lxor prev (Z.shiftr prev 30) + i) in
      x :: mt_fill n' (i + 1) x
  end.

Definition mt_seed (value : Z) : list Z :=
  let x := wrap32 value in x :: mt_fill 623 1 x.

(** The next word of the sequence: with [y] the top bit of [x_k] and the
    31 low bits of [x_(k+1)], [x_(k+624) = x_(k+397) xor (y >> 1) xor
    (y odd ? 0x9908b0df : 0)]. *)
Definition mt_twist (x : list Z) : Z :=
  let y := Z.lor (Z.land (nth 0 x 0) 2147483648)
                 (Z.land (nth 1 x 0) 2147483647) in
  Z.lxor (Z.lxor (nth 397 x 0) (Z.shiftr y 1))
         (if Z.odd y then 2567483615 else 0).

(** The window after [i] calls. *)
Fixpoint mt_state (i : nat) (value : Z) : list Z :=
  match i with
  | O => mt_seed value
  | S i' => let x := mt_state i' value in tail x ++ [mt_twist x]
  end.

(** Tempering, with the masks 0x9d2c5680 and 0xefc60000. *)
Definition mt_temper (z : Z) : Z :=
  let z := Z.lxor z (Z.shiftr z 11) in
  let z := Z.lxor z (Z.land (Z.shiftl z 7) 2636928640) in
  let z := Z.lxor z (Z.land (Z.shiftl z 15) 4022730752) in
  Z.lxor z (Z.shiftr z 18).

(** The word that call number [i] (from 0) of [mt()] returns after
    [std::mt19937 mt(value)]. *)
Definition mt19937 (value : Z) (i : nat) : Z :=
  mt_temper (nth 623 (mt_state (S i) value) 0).

(** ** The program

    [main] on a state file whose first line gives [cfg] and the starting
    [flips] and whose other lines give [muls]: the generator is seeded with
    [rseed].  In [run] no cell of the arrays can be read before it is
    written; in [run_on h] the arrays start with the contents [h]. *)
Definition run (cfg : config) (gas rounds : nat) (flips0 : Z)
    (muls0 : list Z) : res state :=
  search (mt19937 (rseed cfg)) cfg gas rounds flips0 muls0.

Definition run_on (h : heap) (cfg : config) (gas rounds : nat) (flips0 : Z)
    (muls0 : list Z) : res state :=
  search_from (mt19937 (rseed cfg)) cfg gas (alloc cfg h) rounds flips0 muls0.

(** * Specification-level definitions *)

(** ** The flip limit as the table of the specification states it *)

Definition updatelimit_spec
    (flips termination split achieved target symm flimit : Z) : Z :=
  if termination =? 0 then flimit
  else if termination =? 1 then
    flips + Z.quot (flimit - flips) (Z.quot (achieved - target) symm)
  else if termination =? 2 then flips + flimit
  else if achieved >? termination then
    flips + Z.quot (Z.quot (split * flimit) 100 - flips)
                   (Z.quot (achieved - termination) symm)
  else flips + Z.quot (flimit - flips) (Z.quot (achieved - target) symm).

(** The values of a variable declared [int]. *)
Definition is_int (z : Z) : Prop := - 2 ^ 31 <= z < 2 ^ 31.

(** The conditions under which no intermediate value of [updatelimit]
    wraps around: the difference of ranks is within the range of [int], the
    denominator used is a positive [int], and the difference that is divided
    is not negative. *)
Definition limit_in_range
    (flips termination split achieved target symm flimit : Z) : Prop :=
  0 <= flips < 2 ^ 64 /\ 0 <= flimit < 2 ^ 64 /\
  if termination =? 0 then True
  else if termination =? 1 then
    is_int (achieved - target) /\
    0 < Z.quot (achieved - target) symm < 2 ^ 31 /\ flips <= flimit
  else if termination =? 2 then flips + flimit < 2 ^ 64
  else if achieved >? termination then
    is_int (achieved - termination) /\
    0 < Z.quot (achieved - termination) symm < 2 ^ 31 /\
    0 <= split < 2 ^ 64 /\ split * flimit < 2 ^ 64 /\
    flips <= Z.quot (split * flimit) 100
  else
    is_int (achieved - target) /\
    0 < Z.quot (achieved - target) symm < 2 ^ 31 /\ flips <= flimit.

(** The values of a variable declared [vlong], that is [unsigned long long
    int]. *)
Definition is_vlong (z : Z) : Prop := 0 <= z < 2 ^ 64.

(** ** The number of ones of a value *)

(** The number of ones among the [w] low binary digits of [n]. *)
Fixpoint popcount_bits (w : nat) (n : Z) : Z :=
  match w with
  | O => 0
  | S w' => Z.b2z (Z.odd n) + popcount_bits w' (Z.div2 n)
  end.

Definition popcount (n : Z) : Z := popcount_bits 64 n.

(** ** What a dictionary represents *)

Definition is_head (h : Z) : Prop := exists j, 0 <= j < 65213 /\ h = 16 * j.

(** Bucket [h] of [d] holds exactly the bindings of [m] whose key hashes to
    [h], each once. *)
Definition bucket_rep (d : fgdict) (m : gmap Z Z) (h : Z) : Prop :=
  exists c, rdcount d h = Ok c /\ 0 <= c <= 16 /\
    (forall i, 0 <= i < c ->
       exists k v, key d !! (h + i) = Some k /\ value d !! (h + i) = Some v /\
                   hash k = h /\ m !! k = Some v) /\
    (forall i j k, 0 <= i < c -> 0 <= j < c ->
       key d !! (h + i) = Some k -> key d !! (h + j) = Some k -> i = j) /\
    (forall k v, hash k = h -> m !! k = Some v ->
       exists i, 0 <= i < c /\ key d !! (h + i) = Some k).

Definition dict_rep (d : fgdict) (m : gmap Z Z) : Prop :=
  forall h, is_head h -> bucket_rep d m h.

(** ** What the multimap represents *)

(** [tm] sends each value of the vector [tl] to its position. *)
Definition index_rep (tl : list Z) (tm : gmap Z Z) : Prop :=
  forall v z, tm !! v = Some z <-> (0 <= z /\ tl !! Z.to_nat z = Some v).

Definition is_block (n b : Z) : Prop :=
  exists i, 0 <= i < n /\ b = i * (n + 1).

(** Block [b] of [unarray] lists exactly the slots that [asg] gives the
    value [v], each once. *)
Definition block_rep (n : Z) (ua asg : gmap Z Z) (v b : Z) : Prop :=
  exists l, ua !! b = Some l /\ 1 <= l <= n /\
    (forall i, 1 <= i <= l ->
       exists s, ua !! (b + i) = Some s /\ asg !! s = Some v) /\
    (forall i j s, 1 <= i <= l -> 1 <= j <= l ->
       ua !! (b + i) = Some s -> ua !! (b + j) = Some s -> i = j) /\
    (forall s, asg !! s = Some v ->
       exists i, 1 <= i <= l /\ ua !! (b + i) = Some s).

(** The multimap [m] over [n] slots represents the assignment [asg] of
    values to slots; [um] and [tm] are the contents of its two
    dictionaries. *)
Record mm_rep (n : Z) (m : mm) (asg um tm : gmap Z Z) : Prop := mk_mm_rep {
  rep_uniques : dict_rep (uniques m) um;
  rep_twoplusd : dict_rep (twoplusd m) tm;
  rep_range : forall s v, asg !! s = Some v -> 0 <= s < n;
  rep_used : forall v, is_Some (um !! v) <-> exists s, asg !! s = Some v;
  rep_block : forall v b, um !! v = Some b ->
                is_block n b /\ block_rep n (unarray m) asg v b;
  rep_inj : forall v1 v2 b, um !! v1 = Some b -> um !! v2 = Some b -> v1 = v2;
  rep_avail : forall b, b ∈ avail m ->
                is_block n b /\ forall v, um !! v <> Some b;
  rep_avail_nodup : NoDup (avail m);
  rep_index : index_rep (twoplusl m) tm;
  rep_twoplus : forall v, is_Some (tm !! v) <->
                  exists s1 s2, s1 <> s2 /\ asg !! s1 = Some v
                                /\ asg !! s2 = Some v
}.

Definition mm_ok (n : Z) (m : mm) (asg : gmap Z Z) : Prop :=
  exists um tm, mm_rep n m asg um tm.

(** [m'] is [m] up to the hash cached in [uniques]. *)
Definition same_tables (m m' : mm) : Prop :=
  exists h, m' = set_uniques m (set_lasthash (uniques m) h).

(** ** The slots listed under a value, as the program enumerates them *)

Fixpoint read_block (n : nat) (ua : gmap Z Z) (i : Z) : res (list Z) :=
  match n with
  | O => Ok []
  | S n' =>
      s ← rd ua i;
      rest ← read_block n' ua (i + 1);
      Ok (s :: rest)
  end.

Definition M_slots (m : mm) (v : Z) : res (list Z) :=
  '(ct, u) ← contains (uniques m) v;
  if ct =? 0 then Ok []
  else
    b ← getvaluex u v;
    l ← rd (unarray m) b;
    read_block (Z.to_nat l) (unarray m) (b + 1).

(** ** The invariants of the search *)

(** The assignment [asg] is [muls] on its nonzero slots; the slots of [z0]
    may be listed under the value zero as well. *)
Definition tracks_z (z0 : list Z) (mu : list Z) (asg : gmap Z Z) : Prop :=
  forall s v, asg !! s = Some v <-> (vget mu s = Ok v /\ (v <> 0 \/ s ∈ z0)).

Definition tracks (mu : list Z) (asg : gmap Z Z) : Prop := tracks_z [] mu asg.

(** Every group of [w] consecutive slots is all zero or all nonzero. *)
Definition groups_ok (w : Z) (mu : list Z) : Prop :=
  forall t,
    (forall s x, s / w = t -> vget mu s = Ok x -> x = 0) \/
    (forall s x, s / w = t -> vget mu s = Ok x -> x <> 0).

(** The multimap agrees with [muls]: under each value exactly the slots
    that carry it, zero apart; [twoplusl] holds the values with two slots
    or more, each once. *)
Definition consistent (mu : list Z) (m : mm) : Prop :=
  (forall v, exists slots,
      M_slots m v = Ok slots /\ NoDup slots /\
      forall s, s ∈ slots <-> (vget mu s = Ok v /\ v <> 0)) /\
  (forall v, v ∈ twoplusl m <->
      exists slots, M_slots m v = Ok slots /\ (2 <= length slots)%nat) /\
  NoDup (twoplusl m).

(** The slot [s] holds [x], and the multimap lists it under [x] and under
    no other value. *)
Definition written (st : state) (s x : Z) : Prop :=
  vget (muls st) s = Ok x /\
  forall v, exists slots, M_slots (M st) v = Ok slots /\ (s ∈ slots <-> v = x).

(** The invariant of the [symm == w] loop. *)
Record Inv (w : Z) (cfg : config) (st : state) : Prop := mk_Inv {
  inv_symm : symm cfg = w;
  inv_nomuls : 0 <= nomuls cfg /\ nomuls cfg mod w = 0;
  inv_len : vsize (muls st) = nomuls cfg;
  inv_groups : groups_ok w (muls st);
  inv_mm : exists asg, mm_ok (nomuls cfg) (M st) asg /\ tracks (muls st) asg
}.

(** ** The pairing of the [symm == 6] loop *)

(** Whether the slots [s] and [t] hold the same value. *)
Definition collide (mu : list Z) (s t : Z) : bool :=
  match vget mu s, vget mu t with
  | Ok x, Ok y => x =? y
  | _, _ => false
  end.

(** Two slots collide exactly when their paired slots do. *)
Definition pair_sym (mu : list Z) : bool :=
  forallb (fun s =>
    forallb (fun t =>
      Bool.eqb (collide mu s t) (collide mu (paired s) (paired t)))
      (seqZ 0 (vsize mu)))
    (seqZ 0 (vsize mu)).

(** ** Example runs *)

(** Scenario S1: one term, no collision. *)
Definition cfg_S1 : config := mkconfig 3 0 1000000 0 0 1 3 0 50 0.
Definition muls_S1 : list Z := [1; 2; 3].

(** Scenario S2: the same term twice; [tgt] is the target rank. *)
Definition cfg_S2 (tgt : Z) : config := mkconfig 6 tgt 1000000 0 0 1 3 0 50 0.
Definition muls_S2 : list Z := [1; 2; 3; 1; 2; 3].

(** Two sextuples: in [muls_sym] the second half of each is the first
    with bit 3 flipped; [muls_asym] has no such pairing. *)
Definition cfg6 : config := mkconfig 12 0 1000000 0 0 1 6 0 50 0.
Definition muls_sym : list Z := [1; 2; 3; 9; 10; 11; 1; 4; 5; 9; 12; 13].
Definition muls_asym : list Z := [1; 3; 2; 4; 6; 7; 1; 8; 2; 5; 10; 5].

(** A generator whose every word is 65538: bit 16 set, a multiple of 3. *)
Definition mt_S2 : nat -> Z := fun _ => 65538.

(** A decomposition whose first colliding value sits twice in one term:
    the pair it yields is never permitted.  With [maxsize = 1] the sampling
    gives up after 1000 draws. *)
Definition cfg_stuck : config := mkconfig 6 0 1000000 0 0 1 3 0 50 1.
Definition muls_stuck : list Z := [3; 1; 1; 3; 2; 2].

(** A state in which a snapshot is due, with a better decomposition kept
    in [best]. *)
Definition st_due : state :=
  mkstate [1; 2; 3; 1; 4; 5] [1; 2; 3; 0; 0; 0]
          (mkmm fgdict_new fgdict_new ∅ [] []) 5000000000 0 6 3 3 0
          5000000000 6000000000 O None.

(** The first line of a state file in which [plimit] reads [-5]: the
    unsigned variable holds [2 ^ 64 - 5]. *)
Definition cfg_neg : config :=
  mkconfig 6 0 1000000 (wrap64 (-5)) 0 1 3 50 0 0.

(** ** A check of the pair tables

    Every pair that [combs[l]] admits names two positions below [l]. *)
Definition pairs_below (l c : Z) : bool :=
  forallb (fun pq : Z * Z =>
             (0 <=? pq.1) && (pq.1 <? l) && (0 <=? pq.2) && (pq.2 <? l))
          (take (Z.to_nat c) (zip ps qs)).

Definition tables_checked : bool :=
  forallb (fun lc : nat * Z => pairs_below (Z.of_nat lc.1) lc.2)
          (imap (fun i c => (i, c)) combs).

(** The state [st'] is [st] after [k] draws that changed nothing but the
    hash cached in [uniques]. *)
Definition sampled (k : nat) (st st' : state) : Prop :=
  exists m', same_tables (M st) m' /\
             st' = set_drawn (set_M st m') (drawn st + k)%nat.

(** Two generators yield the same first [n] words. *)
Definition agree (n : nat) (mt1 mt2 : nat -> Z) : Prop :=
  forall i, (i < n)%nat -> mt1 i = mt2 i.

(** From [st] to [st'] the run has gone on: words were only taken from the
    generator, and [muls] and [best] kept their lengths. *)
Definition extends (st st' : state) : Prop :=
  (drawn st <= drawn st')%nat /\
  vsize (muls st') = vsize (muls st) /\ vsize (best st') = vsize (best st).

(** What a flip knows of its candidate [c]: the partner slots, the values
    read there, and that [p] and [q] are listed slots of different terms. *)
Record flip_ctx (cfg : config) (mu : list Z) (asg : gmap Z Z) (c : cand)
    (ep fp eq fq : Z) : Prop := mk_flip_ctx {
  fc_ep : me cfg (c_p c) = Ok ep;
  fc_fp : mf cfg (c_p c) = Ok fp;
  fc_eq : me cfg (c_q c) = Ok eq;
  fc_fq : mf cfg (c_q c) = Ok fq;
  fc_mpe : vget mu ep = Ok (c_mpe c);
  fc_mpf : vget mu fp = Ok (c_mpf c);
  fc_mqe : vget mu eq = Ok (c_mqe c);
  fc_mqf : vget mu fq = Ok (c_mqf c);
  fc_mpen : c_mpen c = Z.lxor (c_mqe c) (c_mpe c);
  fc_mqfn : c_mqfn c = Z.lxor (c_mqf c) (c_mpf c);
  fc_p : is_Some (asg !! c_p c);
  fc_q : is_Some (asg !! c_q c);
  fc_apart : c_p c / symm cfg <> c_q c / symm cfg
}.

(** ** More example runs *)

(** Two different terms that share the value of their first slot: the flip
    on the pair [(0, 3)] makes no value zero. *)
Definition muls_go : list Z := [1; 2; 3; 1; 4; 5].

(** Two terms and a free triple, with plus moves allowed ([maxplus = 50]);
    the generator yields 0 and then 3, which [plus3] reduces to the pair
    [(0, 3)]. *)
Definition cfg_plus : config := mkconfig 9 0 1000000 0 0 1 3 50 50 0.
Definition muls_plus : list Z := [1; 2; 3; 4; 5; 6; 0; 0; 0].
Definition mt_plus : nat -> Z :=
  fun i => match i with O => 0 | S _ => 3 end.

(** The same with sextuples; the generator yields 0 and then 6. *)
Definition cfg_plus6 : config := mkconfig 18 0 1000000 0 0 1 6 50 50 0.
Definition muls_plus6 : list Z :=
  [1; 2; 3; 4; 5; 6; 7; 8; 9; 10; 11; 12; 0; 0; 0; 0; 0; 0].
Definition mt_plus6 : nat -> Z :=
  fun i => match i with O => 0 | S _ => 6 end.

(** Whether every group of [w] slots of [mu] is all zero or all nonzero. *)
Definition groups_check (w : Z) (mu : list Z) : bool :=
  forallb (fun s =>
    forallb (fun t =>
      negb (s / w =? t / w)
      || Bool.eqb (mu !!! Z.to_nat s =? 0) (mu !!! Z.to_nat t =? 0))
      (seqZ 0 (vsize mu)))
    (seqZ 0 (vsize mu)).

(** ** What the exit codes stand for *)

(** The states in which a run may end, by the value of [rcode]. *)
Definition exit_state (cfg : config) (st : state) : Prop :=
  (rcode st = 0 /\ achieved st <= target cfg) \/
  (rcode st = -1 /\ twoplusl (M st) = []) \/
  (rcode st = 6 /\ maxsize cfg <> 0) \/
  (rcode st = 1 /\ limit st <= flips st /\ flimit cfg <= flips st) \/
  (rcode st = 2 /\ limit st <= flips st /\ flips st < flimit cfg).

(** After a round: the loop goes on with [rcode] untouched, or has ended
    in one of these states. *)
Definition round_post (cfg : config) (s : status) (st : state) : Prop :=
  match s with
  | Go => rcode st = 0
  | Stop => exit_state cfg st
  end.

(** The two positions of every pair of the tables differ. *)
Definition tables_distinct : bool :=
  forallb (fun pq : Z * Z => negb (pq.1 =? pq.2)) (zip ps qs).

(** ** The tensor of a decomposition

    A slot holds a vector over GF(2), bit [i] of the value being its
    component [i].  The triple of slots [3t, 3t+1, 3t+2] stands for the
    product of its three vectors together with the two cyclic rotations
    of that product, and a decomposition for the sum of its triples. *)

(** The value of slot [s], zero outside the vector. *)
Definition val (mu : list Z) (s : Z) : Z :=
  match vget mu s with
  | Ok x => x
  | Fault _ => 0
  end.

(** Component [(i, j, k)] of the product of [d], [e] and [f]. *)
Definition rank1 (d e f i j k : Z) : bool :=
  Z.testbit d i && Z.testbit e j && Z.testbit f k.

(** The product and its two rotations. *)
Definition orbit (d e f i j k : Z) : bool :=
  xorb (rank1 d e f i j k) (xorb (rank1 e f d i j k) (rank1 f d e i j k)).

(** Component [(i, j, k)] of the term that triple [t] of [mu] stands
    for. *)
Definition term (mu : list Z) (i j k t : Z) : bool :=
  orbit (val mu (3 * t)) (val mu (3 * t + 1)) (val mu (3 * t + 2)) i j k.

(** The sum over GF(2) of [f] on the elements of [l]. *)
Definition xsum (f : Z -> bool) (l : list Z) : bool :=
  foldr (fun t acc => xorb (f t) acc) false l.

(** Component [(i, j, k)] of the tensor that [mu] decomposes. *)
Definition tensor (mu : list Z) (i j k : Z) : bool :=
  xsum (term mu i j k) (seqZ 0 (vsize mu / 3)).

(** The state [st] holds decompositions of the tensor [T]: in [muls] and
    in [best], both of [nomuls] values. *)
Definition represents (cfg : config) (T : Z -> Z -> Z -> bool) (st : state)
  : Prop :=
  vsize (muls st) = nomuls cfg /\ vsize (best st) = nomuls cfg /\
  (forall i j k, tensor (muls st) i j k = T i j k) /\
  (forall i j k, tensor (best st) i j k = T i j k).

(** The flip limit of one round: [flimit = 3] with [termination = 0]. *)
Definition cfg_short : config := mkconfig 6 0 3 0 0 1 3 0 50 0.

(** ** Two runs of the program

    Two runs on the same state file have the same input and the same
    [rseed].  What the program does not fix is what its arrays hold when
    [new] returns them; the model adds the bounds [gas] and [rounds]. *)

(** Whenever the computation [m] returns, [mj] returns a related result. *)
Definition Rres {A B} (R : A -> B -> Prop) (m : res A) (mj : res B) : Prop :=
  forall a, m = Ok a -> exists b, mj = Ok b /\ R a b.

Definition pair_le {A B A' B'} (R : A -> A' -> Prop) (S : B -> B' -> Prop)
    (x : A * B) (y : A' * B') : Prop :=
  R x.1 y.1 /\ S x.2 y.2.

(** Every cell that can be read in [d] can be read in [dj], with the same
    content. *)
Definition dict_le (d dj : fgdict) : Prop :=
  lasthash d = lasthash dj /\
  (forall h c, rdcount d h = Ok c -> rdcount dj h = Ok c) /\
  key d ⊆ key dj /\ value d ⊆ value dj.

Definition mm_le (m mj : mm) : Prop :=
  dict_le (uniques m) (uniques mj) /\ dict_le (twoplusd m) (twoplusd mj) /\
  unarray m ⊆ unarray mj /\ avail m = avail mj /\ twoplusl m = twoplusl mj.

(** The state [stj] is [st] but for cells of the arrays that cannot be
    read in [st]. *)
Definition state_le (st stj : state) : Prop :=
  exists mj, stj = set_M st mj /\ mm_le (M st) mj.

(** What a run leaves outside the arrays of the multimap: the exit code,
    the counters, the two decompositions, the number of words taken from
    the generator and the file. *)
Definition outcome (st : state)
  : Z * Z * Z * Z * Z * Z * list Z * list Z * nat * option lines :=
  (rcode st, flips st, achieved st, minmuls st, plus st, plusby st, muls st,
   best st, drawn st, file st).

(** A state file with [rseed = 1], [flimit = 30] and [termination = 0]:
    ten rounds. *)
Definition cfg_ten : config := mkconfig 6 0 30 0 0 1 3 0 50 0.

(** Two heaps with values left over in a few cells. *)
Definition heap_a : heap :=
  mkheap {[17 := 9]} {[16 := 1; 17 := 2]} {[16 := 7]} ∅ {[16 := 3]} ∅
         {[0 := 5; 1 := 4]}.
Definition heap_b : heap :=
  mkheap ∅ {[16 := 4]} ∅ {[18 := 1]} ∅ {[16 := 0]} {[0 := 2; 7 := 3]}.

(** * Properties *)

(** ** The result monad *)

Lemma bind_Ok {A B} (m : res A) (f : A -> res B) r :
  m ≫= f = Ok r -> exists a, m = Ok a /\ f a = Ok r.
Proof. destruct m as [a|e]; simpl; [eauto|discriminate]. Qed.

Lemma rd_Ok a i x : rd a i = Ok x -> a !! i = Some x.
Proof. unfold rd. destruct (a !! i); congruence. Qed.

Lemma wrap64_small z : 0 <= z < 2 ^ 64 -> wrap64 z = z.
Proof. intros H. unfold wrap64. by apply Z.mod_small. Qed.

(** ** The dictionary *)

Ltac inv_res H :=
  repeat first
    [ apply bind_Ok in H; destruct H as (? & ? & H)
    | match type of H with
      | (let '(_, _) := ?p in _) = Ok _ => destruct p
      | Fault _ = Ok _ => discriminate H
      | Ok _ = Ok _ => injection H as H
      end ].

Lemma hash_head k : is_head (hash k).
Proof.
  exists (k mod 65213). split; [apply Z.mod_pos_bound; lia|].
  unfold hash. rewrite Z.shiftl_mul_pow2 by lia. lia.
Qed.

Lemma head_apart h h' i i' :
  is_head h → is_head h' → 0 <= i < 16 → 0 <= i' < 16 →
  h + i = h' + i' → h = h' ∧ i = i'.
Proof. intros (j & ? & ->) (j' & ? & ->) ? ? ?. lia. Qed.

Lemma find_down_spec fuel ks k : ∀ i x j,
  find_down fuel ks i x k = Ok j →
  i - Z.of_nat fuel <= j <= i ∧ <[i := x]> ks !! j = Some k.
Proof.
  induction fuel as [|fuel IH]; intros i x j H; simpl in H.
  - destruct (x =? k) eqn:E; [|discriminate].
    apply Z.eqb_eq in E. injection H as <-. subst. split; [lia|].
    by rewrite lookup_insert_eq.
  - destruct (x =? k) eqn:E.
    + apply Z.eqb_eq in E. injection H as <-. subst. split; [lia|].
      by rewrite lookup_insert_eq.
    + apply bind_Ok in H as (x' & Hx' & H). apply rd_Ok in Hx'.
      apply IH in H as [Hr Hj]. split; [lia|].
      destruct (decide (j = i - 1)) as [->|Hne].
      * rewrite lookup_insert_eq in Hj. rewrite lookup_insert_ne by lia. congruence.
      * rewrite lookup_insert_ne in Hj by lia. rewrite lookup_insert_ne by lia. done.
Qed.

Lemma remove_shift_spec fuel k : ∀ ks vs i x v ks' vs',
  remove_shift fuel ks vs i x v k = Ok (ks', vs') →
  ∃ j, i - Z.of_nat fuel <= j <= i ∧ <[i := x]> ks !! j = Some k ∧
    (∀ t, j <= t < i →
       ks' !! t = <[i := x]> ks !! (t + 1) ∧
       vs' !! t = <[i := v]> vs !! (t + 1)) ∧
    (∀ t, ¬ (j <= t < i) → ks' !! t = ks !! t ∧ vs' !! t = vs !! t).
Proof.
  induction fuel as [|fuel IH]; intros ks vs i x v ks' vs' H; simpl in H.
  - destruct (x =? k) eqn:E; [|discriminate].
    apply Z.eqb_eq in E. injection H as <- <-. subst.
    exists i. rewrite lookup_insert_eq. repeat split; auto; lia.
  - destruct (x =? k) eqn:E.
    + apply Z.eqb_eq in E. injection H as <- <-. subst.
      exists i. rewrite lookup_insert_eq. repeat split; auto; lia.
    + apply bind_Ok in H as (x' & Hx' & H). apply rd_Ok in Hx'.
      apply bind_Ok in H as (v' & Hv' & H). apply rd_Ok in Hv'.
      apply IH in H as (j & Hr & Hj & Hsh & Hfr).
      exists j. split; [lia|]. split.
      { destruct (decide (j = i - 1)) as [->|Hne].
        - rewrite lookup_insert_eq in Hj. rewrite lookup_insert_ne by lia. congruence.
        - rewrite !lookup_insert_ne in Hj by lia. rewrite lookup_insert_ne by lia. done. }
      split.
      * intros t Ht. destruct (decide (t = i - 1)) as [->|Hne].
        -- destruct (Hfr (i - 1)) as [-> ->]; [lia|].
           replace (i - 1 + 1) with i by lia. by rewrite !lookup_insert_eq.
        -- destruct (Hsh t) as [-> ->]; [lia|].
           destruct (decide (t + 1 = i - 1)) as [e|Hne'].
           ++ rewrite e, !lookup_insert_eq. rewrite !lookup_insert_ne by lia. done.
           ++ rewrite !lookup_insert_ne by lia. done.
      * intros t Ht. destruct (Hfr t) as [-> ->]; [lia|].
        rewrite !lookup_insert_ne by lia. done.
Qed.

Lemma rdcount_insert d h c h' lh ks vs :
  rdcount (mkdict lh (<[h := c]> (count d)) ks vs) h'
  = if decide (h = h') then Ok c else rdcount d h'.
Proof.
  unfold rdcount. simpl. case_decide; subst.
  - by rewrite lookup_insert_eq.
  - by rewrite lookup_insert_ne.
Qed.

Lemma dict_rep_lasthash d m h : dict_rep d m → dict_rep (set_lasthash d h) m.
Proof. done. Qed.

Lemma getvaluex_spec d m k v v' :
  dict_rep d m → lasthash d = hash k → m !! k = Some v →
  getvaluex d k = Ok v' → v' = v.
Proof.
  intros Hrep Hh Hk H. unfold getvaluex in H. rewrite Hh in H.
  destruct (Hrep (hash k) (hash_head k)) as (c & Hc & Hcr & Hcell & Hinj & Hsur).
  destruct (Hsur k v eq_refl Hk) as (i0 & Hi0 & Hki0).
  rewrite Hc in H. simpl in H.
  destruct (c =? 1) eqn:E1.
  - apply Z.eqb_eq in E1. subst c. assert (i0 = 0) as -> by lia.
    apply rd_Ok in H. destruct (Hcell 0) as (k1 & v1 & Hk1 & Hv1 & _ & Hm1); [lia|].
    rewrite Z.add_0_r in *. congruence.
  - destruct (c <? 1) eqn:E2; [discriminate|]. apply Z.ltb_ge in E2.
    apply bind_Ok in H as (x & Hx & H). apply rd_Ok in Hx.
    apply bind_Ok in H as (j & Hj & H). apply rd_Ok in H.
    apply find_down_spec in Hj as [Hr Hj]. rewrite insert_id in Hj by done.
    assert (j - hash k = i0) as <-.
    { apply (Hinj _ _ k); [lia|lia| |done]. by replace (hash k + (j - hash k)) with j by lia. }
    destruct (Hcell (j - hash k)) as (k1 & v1 & Hk1 & Hv1 & _ & Hm1); [lia|].
    replace (hash k + (j - hash k)) with j in * by lia. congruence.
Qed.

Lemma getvalue_spec d m k v r d' :
  dict_rep d m → m !! k = Some v →
  getvalue d k = Ok (r, d') → r = v ∧ d' = set_lasthash d (hash k).
Proof.
  intros Hrep Hk H. unfold getvalue in H.
  apply bind_Ok in H as (v' & Hv' & H). injection H as <- <-.
  split; [|done]. eapply (getvaluex_spec (set_lasthash d (hash k))); eauto.
Qed.

Lemma contains_scan_spec d k : ∀ n r,
  contains_scan n d k = Ok r →
  (r = 1 ∧ ∃ i, 0 <= i < Z.of_nat n ∧ key d !! (lasthash d + i) = Some k) ∨
  (r = 0 ∧ ∀ i, 0 <= i < Z.of_nat n → key d !! (lasthash d + i) ≠ Some k).
Proof.
  induction n as [|n IH]; intros r H; simpl in H.
  - injection H as <-. right. split; [done|]. intros; lia.
  - apply bind_Ok in H as (x & Hx & H). apply rd_Ok in Hx.
    destruct (x =? k) eqn:E.
    + apply Z.eqb_eq in E. injection H as <-. subst. left. split; [done|].
      exists (Z.of_nat n). split; [lia|done].
    + apply Z.eqb_neq in E. destruct (IH _ H) as [[-> (i & Hi & Hk)]|[-> Hno]].
      * left. split; [done|]. exists i. split; [lia|done].
      * right. split; [done|]. intros i Hi.
        destruct (decide (i = Z.of_nat n)) as [->|]; [congruence|]. apply Hno. lia.
Qed.

Lemma contains_spec d m k r d' :
  dict_rep d m → contains d k = Ok (r, d') →
  d' = set_lasthash d (hash k) ∧
  ((r = 1 ∧ is_Some (m !! k)) ∨ (r = 0 ∧ m !! k = None)).
Proof.
  intros Hrep H. unfold contains in H. simpl in H.
  destruct (Hrep (hash k) (hash_head k)) as (c & Hc & Hcr & Hcell & Hinj & Hsur).
  change (rdcount (set_lasthash d (hash k)) (hash k)) with (rdcount d (hash k)) in H.
  rewrite Hc in H. simpl in H.
  assert (Hyes : ∀ i, 0 <= i < c → key d !! (hash k + i) = Some k → is_Some (m !! k)).
  { intros i Hi Hk. destruct (Hcell i Hi) as (k1 & v1 & Hk1 & _ & _ & Hm1).
    rewrite Hk in Hk1. injection Hk1 as <-. eauto. }
  assert (Hno : (∀ i, 0 <= i < c → key d !! (hash k + i) ≠ Some k) → m !! k = None).
  { intros Hn. destruct (m !! k) as [v|] eqn:Hm; [|done].
    destruct (Hsur k v eq_refl Hm) as (i & Hi & Hk). by destruct (Hn i Hi). }
  destruct (c =? 0) eqn:E0.
  { apply Z.eqb_eq in E0. injection H as <- <-. split; [done|]. right. split; [done|].
    apply Hno. intros; lia. }
  destruct (c =? 1) eqn:E1.
  { apply Z.eqb_eq in E1. subst c.
    apply bind_Ok in H as (x & Hx & H). apply rd_Ok in Hx.
    destruct (x =? k) eqn:E; injection H as <- <-; (split; [done|]).
    - apply Z.eqb_eq in E. subst x. left. split; [done|]. apply (Hyes 0); [lia|].
      by rewrite Z.add_0_r.
    - apply Z.eqb_neq in E. right. split; [done|]. apply Hno. intros i Hi.
      assert (i = 0) as -> by lia. rewrite Z.add_0_r. simpl in Hx. congruence. }
  apply bind_Ok in H as (r' & Hr' & H). injection H as <- <-. split; [done|].
  apply contains_scan_spec in Hr'. simpl in Hr'. rewrite Z2Nat.id in Hr' by lia.
  destruct Hr' as [[-> (i & Hi & Hk)]|[-> Hn]]; [left|right]; split; eauto.
Qed.

Lemma dict_rep_frame d m d' m' h :
  dict_rep d m →
  (∀ h', is_head h' → h' ≠ h →
     rdcount d' h' = rdcount d h' ∧
     ∀ i, 0 <= i < 16 →
       key d' !! (h' + i) = key d !! (h' + i) ∧
       value d' !! (h' + i) = value d !! (h' + i)) →
  (∀ k, hash k ≠ h → m' !! k = m !! k) →
  bucket_rep d' m' h →
  dict_rep d' m'.
Proof.
  intros Hrep Hfr Hm Hb h' Hh'.
  destruct (decide (h' = h)) as [->|Hne]; [exact Hb|].
  destruct (Hrep h' Hh') as (c & Hc & Hcr & Hcell & Hinj & Hsur).
  destruct (Hfr h' Hh' Hne) as [Hcnt Hkv].
  exists c. split; [congruence|]. split; [done|]. split; [|split].
  - intros i Hi. destruct (Hcell i Hi) as (k & v & Hk & Hv & Hhk & Hmk).
    destruct (Hkv i) as [-> ->]; [lia|]. exists k, v. rewrite Hm by congruence. done.
  - intros i j k Hi Hj. destruct (Hkv i) as [-> _]; [lia|].
    destruct (Hkv j) as [-> _]; [lia|]. eauto.
  - intros k v Hhk Hmk. rewrite Hm in Hmk by congruence.
    destruct (Hsur k v Hhk Hmk) as (i & Hi & Hk). exists i. split; [done|].
    destruct (Hkv i) as [-> _]; [lia|done].
Qed.

Lemma addx_spec d m k v d' :
  dict_rep d m → lasthash d = hash k → m !! k = None →
  addx d k v = Ok d' →
  dict_rep d' (<[k := v]> m) ∧ lasthash d' = lasthash d.
Proof.
  intros Hrep Hh Hk H. unfold addx in H. rewrite Hh in H.
  destruct (Hrep (hash k) (hash_head k)) as (c & Hc & Hcr & Hcell & Hinj & Hsur).
  rewrite Hc in H. simpl in H.
  destruct (16 <=? c) eqn:E; [discriminate|]. apply Z.leb_gt in E.
  injection H as <-. split; [|done].
  apply (dict_rep_frame d m _ _ (hash k)); [done| | |].
  - intros h' Hh' Hne. rewrite rdcount_insert. rewrite decide_False by done.
    split; [done|]. intros i Hi. simpl.
    rewrite !lookup_insert_ne; [done| |];
      intros e; apply head_apart in e as [? ?]; auto using hash_head; lia.
  - intros k' Hk'. apply lookup_insert_ne. congruence.
  - exists (c + 1). rewrite rdcount_insert, decide_True by done.
    split; [done|]. split; [lia|]. simpl. split; [|split].
    + intros i Hi. destruct (decide (i = c)) as [->|Hne].
      * exists k, v. by rewrite !lookup_insert_eq.
      * destruct (Hcell i) as (k1 & v1 & Hk1 & Hv1 & Hh1 & Hm1); [lia|].
        exists k1, v1. rewrite !lookup_insert_ne by lia.
        rewrite lookup_insert_ne by congruence. done.
    + intros i j k0 Hi Hj Hki Hkj.
      destruct (decide (i = c)) as [->|Hni]; destruct (decide (j = c)) as [->|Hnj]; [done| | |].
      * rewrite lookup_insert_eq in Hki. injection Hki as <-.
        rewrite lookup_insert_ne in Hkj by lia.
        destruct (Hcell j) as (k1 & v1 & Hk1 & _ & _ & Hm1); [lia|]. congruence.
      * rewrite lookup_insert_eq in Hkj. injection Hkj as <-.
        rewrite lookup_insert_ne in Hki by lia.
        destruct (Hcell i) as (k1 & v1 & Hk1 & _ & _ & Hm1); [lia|]. congruence.
      * rewrite lookup_insert_ne in Hki, Hkj by lia. apply (Hinj i j k0); auto; lia.
    + intros k0 v0 Hh0 Hm0. destruct (decide (k0 = k)) as [->|Hne].
      * exists c. split; [lia|]. by rewrite lookup_insert_eq.
      * rewrite lookup_insert_ne in Hm0 by done.
        destruct (Hsur k0 v0 Hh0 Hm0) as (i & Hi & Hki). exists i. split; [lia|].
        by rewrite lookup_insert_ne by lia.
Qed.

Lemma removex_spec d m k v d' :
  dict_rep d m → lasthash d = hash k → m !! k = Some v →
  removex d k = Ok d' →
  dict_rep d' (delete k m) ∧ lasthash d' = lasthash d.
Proof.
  intros Hrep Hh Hk H. unfold removex in H. rewrite Hh in H.
  destruct (Hrep (hash k) (hash_head k)) as (c & Hc & Hcr & Hcell & Hinj & Hsur).
  destruct (Hsur k v eq_refl Hk) as (i0 & Hi0 & Hki0).
  rewrite Hc in H. simpl in H.
  assert (Hdel : ∀ k', hash k' ≠ hash k → delete k m !! k' = m !! k').
  { intros k' Hk'. apply lookup_delete_ne. congruence. }
  destruct (c =? 1) eqn:E1.
  { apply Z.eqb_eq in E1. subst c. assert (i0 = 0) as -> by lia.
    injection H as <-. split; [|done].
    apply (dict_rep_frame d m _ _ (hash k)); [done| |done|].
    - intros h' Hh' Hne. rewrite rdcount_insert, decide_False by done. done.
    - exists 0. rewrite rdcount_insert, decide_True by done.
      split; [done|]. split; [lia|]. split; [intros; lia|]. split; [intros; lia|].
      intros k0 v0 Hh0 Hm0. destruct (decide (k0 = k)) as [->|Hne].
      + by rewrite lookup_delete_eq in Hm0.
      + rewrite lookup_delete_ne in Hm0 by done.
        destruct (Hsur k0 v0 Hh0 Hm0) as (i & Hi & Hki). assert (i = 0) as -> by lia.
        congruence. }
  destruct (c <? 1) eqn:E2; [discriminate|]. apply Z.ltb_ge in E2.
  apply bind_Ok in H as (x & Hx & H). apply rd_Ok in Hx.
  apply bind_Ok in H as (xv & Hxv & H). apply rd_Ok in Hxv.
  apply bind_Ok in H as ([ks' vs'] & Hsh & H). injection H as <-. split; [|done].
  apply remove_shift_spec in Hsh as (j & Hjr & Hj & Hsh & Hfr).
  rewrite Z2Nat.id in Hjr by lia.
  rewrite !insert_id in * by done.
  assert (j = hash k + i0) as ->.
  { assert (j - hash k = i0); [|lia]. apply (Hinj _ _ k); [lia|lia| |done].
    by replace (hash k + (j - hash k)) with j by lia. }
  clear Hj.
  apply (dict_rep_frame d m _ _ (hash k)); [done| |done|].
  - intros h' Hh' Hne. rewrite rdcount_insert, decide_False by done.
    split; [done|]. intros i Hi. simpl. apply Hfr. intros [? ?].
    destruct Hh' as (a & ? & ->). destruct (hash_head k) as (b & ? & Hb).
    rewrite Hb in *. lia.
  - exists (c - 1). rewrite rdcount_insert, decide_True by done.
    split; [done|]. split; [lia|]. simpl.
    assert (Hnew : ∀ i, 0 <= i < c - 1 →
      ks' !! (hash k + i) = key d !! (hash k + (if decide (i < i0) then i else i + 1)) ∧
      vs' !! (hash k + i) = value d !! (hash k + (if decide (i < i0) then i else i + 1))).
    { intros i Hi. case_decide.
      - apply Hfr. lia.
      - destruct (Hsh (hash k + i)) as [-> ->]; [lia|]. by rewrite <- !Z.add_assoc. }
    split; [|split].
    + intros i Hi. destruct (Hnew i Hi) as [-> ->].
      set (i' := if decide (i < i0) then i else i + 1).
      assert (0 <= i' < c ∧ i' ≠ i0) as [Hi' Hne] by (unfold i'; case_decide; lia).
      destruct (Hcell i' Hi') as (k1 & v1 & Hk1 & Hv1 & Hh1 & Hm1).
      exists k1, v1. rewrite lookup_delete_ne; [done|].
      intros <-. apply Hne. by apply (Hinj _ _ k).
    + intros i j k0 Hi Hj. destruct (Hnew i Hi) as [-> _]. destruct (Hnew j Hj) as [-> _].
      intros Hki Hkj.
      assert ((if decide (i < i0) then i else i + 1) = (if decide (j < i0) then j else j + 1)).
      { apply (Hinj _ _ k0); auto; repeat case_decide; lia. }
      repeat case_decide; lia.
    + intros k0 v0 Hh0 Hm0. destruct (decide (k0 = k)) as [->|Hne].
      { by rewrite lookup_delete_eq in Hm0. }
      rewrite lookup_delete_ne in Hm0 by done.
      destruct (Hsur k0 v0 Hh0 Hm0) as (i & Hi & Hki).
      assert (i ≠ i0) by (intros ->; congruence).
      exists (if decide (i < i0) then i else i - 1).
      split; [case_decide; lia|].
      destruct (Hnew (if decide (i < i0) then i else i - 1)) as [-> _]; [case_decide; lia|].
      rewrite <- Hki. f_equal. repeat case_decide; lia.
Qed.

Lemma replacex_spec d m k v0 v d' :
  dict_rep d m → lasthash d = hash k → m !! k = Some v0 →
  replacex d k v = Ok d' →
  dict_rep d' (<[k := v]> m) ∧ lasthash d' = lasthash d.
Proof.
  intros Hrep Hh Hk H. unfold replacex in H. rewrite Hh in H.
  destruct (Hrep (hash k) (hash_head k)) as (c & Hc & Hcr & Hcell & Hinj & Hsur).
  destruct (Hsur k v0 eq_refl Hk) as (i0 & Hi0 & Hki0).
  rewrite Hc in H. simpl in H.
  assert (∃ j, d' = mkdict (hash k) (count d) (key d) (<[j := v]> (value d)) ∧
               j = hash k + i0) as (j & -> & ->).
  { destruct (c =? 1) eqn:E1.
    - apply Z.eqb_eq in E1. subst c. assert (i0 = 0) as -> by lia.
      injection H as <-. exists (hash k). split; [done|lia].
    - destruct (c <? 1) eqn:E2; [discriminate|]. apply Z.ltb_ge in E2.
      apply bind_Ok in H as (x & Hx & H). apply rd_Ok in Hx.
      apply bind_Ok in H as (j & Hj & H). injection H as <-.
      apply find_down_spec in Hj as [Hr Hj]. rewrite insert_id in Hj by done.
      rewrite Z2Nat.id in Hr by lia.
      exists j. split; [done|].
      assert (j - hash k = i0); [|lia]. apply (Hinj _ _ k); [lia|lia| |done].
      by replace (hash k + (j - hash k)) with j by lia. }
  split; [|done].
  apply (dict_rep_frame d m _ _ (hash k)); [done| | |].
  - intros h' Hh' Hne. split; [done|]. intros i Hi. simpl. split; [done|].
    apply lookup_insert_ne. intros e. apply head_apart in e as [? ?]; auto using hash_head; lia.
  - intros k' Hk'. apply lookup_insert_ne. congruence.
  - exists c. split; [done|]. split; [done|]. simpl. split; [|split].
    + intros i Hi. destruct (Hcell i Hi) as (k1 & v1 & Hk1 & Hv1 & Hh1 & Hm1).
      destruct (decide (i = i0)) as [->|Hne].
      * exists k, v. rewrite !lookup_insert_eq. split; [done|]. split; [done|]. done.
      * exists k1, v1. rewrite lookup_insert_ne by lia. rewrite lookup_insert_ne; [done|].
        intros <-. apply Hne. by apply (Hinj _ _ k).
    + done.
    + intros k0 v1 Hh0 Hm0. destruct (decide (k0 = k)) as [->|Hne]; [eauto|].
      rewrite lookup_insert_ne in Hm0 by done. eauto.
Qed.

Lemma replace_spec d m k v0 v d' :
  dict_rep d m → m !! k = Some v0 →
  replace d k v = Ok d' →
  dict_rep d' (<[k := v]> m) ∧ lasthash d' = hash k.
Proof.
  intros Hrep Hk H. unfold replace in H.
  eapply (replacex_spec (set_lasthash d (hash k))) in H as [? ?]; eauto.
Qed.

(** ** The multimap *)

Lemma index_rep_push tl tm v :
  index_rep tl tm → tm !! v = None →
  index_rep (push_back tl v) (<[v := vsize tl]> tm).
Proof.
  intros Hrep Hv v' z. unfold push_back, vsize.
  destruct (decide (v' = v)) as [->|Hne].
  - rewrite lookup_insert_eq. split.
    + intros [= <-]. split; [lia|]. rewrite Nat2Z.id.
      by rewrite lookup_app_r, Nat.sub_diag by lia.
    + intros [Hz Hl]. f_equal.
      destruct (decide (Z.to_nat z < length tl)%nat) as [Hlt|Hge].
      * rewrite lookup_app_l in Hl by done.
        assert (tm !! v = Some z) by (apply Hrep; done). congruence.
      * apply lookup_lt_Some in Hl. rewrite length_app in Hl. simpl in Hl. lia.
  - rewrite lookup_insert_ne by done. rewrite (Hrep v' z). split; intros [Hz Hl]; (split; [done|]).
    + apply lookup_app_l_Some. done.
    + apply lookup_app_Some in Hl as [Hl|[_ Hl]]; [done|].
      destruct (Z.to_nat z - length tl)%nat; simpl in Hl; [congruence|done].
Qed.

Lemma index_rep_swap_remove tl tm v rsi rsl tl1 :
  index_rep tl tm → tm !! v = Some rsi → back tl = Ok rsl →
  vset tl rsi rsl = Ok tl1 →
  index_rep (pop_back tl1) (delete v (<[rsl := rsi]> tm)).
Proof.
  intros Hrep Hv Hb Hs. unfold back in Hb. destruct (last tl) as [x|] eqn:Hl; [|done].
  injection Hb as ->. unfold vset in Hs.
  destruct (rsi <? 0) eqn:E1; [done|]. apply Z.ltb_ge in E1.
  destruct (Z.of_nat (length tl) <=? rsi) eqn:E2; [done|]. apply Z.leb_gt in E2.
  injection Hs as <-. unfold pop_back.
  rewrite last_lookup in Hl.
  assert (Hlen : (0 < length tl)%nat) by lia.
  assert (Hlast : tm !! rsl = Some (Z.of_nat (pred (length tl)))).
  { apply Hrep. split; [lia|]. by rewrite Nat2Z.id. }
  apply Hrep in Hv as Hv'. destruct Hv' as [_ Hv'].
  intros v' z.
  rewrite removelast_firstn_len, length_insert.
  destruct (decide (v' = v)) as [->|Hne].
  { rewrite lookup_delete_eq. split; [done|]. intros [Hz Hl'].
    apply lookup_take_Some in Hl' as [Hl' Hlt].
    destruct (decide (Z.to_nat z = Z.to_nat rsi)) as [e|ne].
    - rewrite e, list_lookup_insert_eq in Hl' by lia. injection Hl' as ->.
      rewrite Hv in Hlast. injection Hlast as ->. lia.
    - rewrite list_lookup_insert_ne in Hl' by done.
      assert (tm !! v = Some z) by (apply Hrep; done). 
      assert (z = rsi) by congruence. lia. }
  rewrite lookup_delete_ne by done.
  destruct (decide (v' = rsl)) as [->|Hne'].
  { rewrite lookup_insert_eq. split.
    - intros [= <-]. split; [lia|]. apply lookup_take_Some. split.
      + rewrite list_lookup_insert_eq by lia. done.
      + destruct (decide (Z.to_nat rsi = pred (length tl))) as [e|ne]; [|lia].
        rewrite e in Hv'. congruence.
    - intros [Hz Hl']. apply lookup_take_Some in Hl' as [Hl' Hlt]. f_equal.
      destruct (decide (Z.to_nat z = Z.to_nat rsi)) as [e|ne]; [lia|].
      rewrite list_lookup_insert_ne in Hl' by done.
      assert (tm !! rsl = Some z) by (apply Hrep; done).
      rewrite Hlast in H. injection H as <-. lia. }
  rewrite lookup_insert_ne by done. rewrite (Hrep v' z).
  split; intros [Hz Hl']; (split; [done|]).
  - apply lookup_take_Some.
    assert (Z.to_nat z ≠ Z.to_nat rsi) by (intros e; rewrite e in Hl'; congruence).
    rewrite list_lookup_insert_ne by done. split; [done|].
    apply lookup_lt_Some in Hl' as Hlt.
    destruct (decide (Z.to_nat z = pred (length tl))) as [e|ne]; [|lia].
    rewrite e in Hl'. congruence.
  - apply lookup_take_Some in Hl' as [Hl' Hlt].
    destruct (decide (Z.to_nat z = Z.to_nat rsi)) as [e|ne].
    + rewrite e, list_lookup_insert_eq in Hl' by lia. congruence.
    + by rewrite list_lookup_insert_ne in Hl' by done.
Qed.

Lemma pigeon (f : Z → option Z) (l n : Z) :
  0 <= n →
  (∀ i, 1 <= i <= l → ∃ s, f i = Some s ∧ 0 <= s < n) →
  (∀ i j s, 1 <= i <= l → 1 <= j <= l → f i = Some s → f j = Some s → i = j) →
  l <= n.
Proof.
  intros Hn Hcell Hinj.
  destruct (decide (l <= 0)) as [|Hl]; [lia|].
  set (g := λ i, default 0 (f i)).
  assert (Hnd : NoDup (g <$> seqZ 1 l)).
  { apply NoDup_fmap_2_strong; [|apply NoDup_seqZ].
    intros i j Hi Hj Hg. apply elem_of_seqZ in Hi, Hj.
    destruct (Hcell i) as (s & Hs & _); [lia|]. destruct (Hcell j) as (s' & Hs' & _); [lia|].
    unfold g in Hg. rewrite Hs, Hs' in Hg. simpl in Hg. subst s'.
    apply (Hinj i j s); auto; lia. }
  assert (Hsub : g <$> seqZ 1 l ⊆ seqZ 0 n).
  { intros s Hs. apply list_elem_of_fmap in Hs as (i & -> & Hi). apply elem_of_seqZ in Hi.
    destruct (Hcell i) as (s & Hs & Hr); [lia|]. unfold g. rewrite Hs. simpl.
    apply elem_of_seqZ. lia. }
  apply NoDup_submseteq in Hsub; [|done]. apply submseteq_length in Hsub.
  rewrite length_fmap, !length_seqZ in Hsub. lia.
Qed.

Lemma unarray_shift_spec fuel r : ∀ ua i x ua',
  unarray_shift fuel ua i x r = Ok ua' →
  ∃ j, i - Z.of_nat fuel <= j <= i ∧ <[i := x]> ua !! j = Some r ∧
    (∀ t, j <= t < i → ua' !! t = <[i := x]> ua !! (t + 1)) ∧
    (∀ t, ¬ (j <= t < i) → ua' !! t = ua !! t).
Proof.
  induction fuel as [|fuel IH]; intros ua i x ua' H; simpl in H.
  - destruct (x =? r) eqn:E; [|discriminate].
    apply Z.eqb_eq in E. injection H as <-. subst.
    exists i. rewrite lookup_insert_eq. repeat split; auto; lia.
  - destruct (x =? r) eqn:E.
    + apply Z.eqb_eq in E. injection H as <-. subst.
      exists i. rewrite lookup_insert_eq. repeat split; auto; lia.
    + apply bind_Ok in H as (x' & Hx' & H). apply rd_Ok in Hx'.
      apply IH in H as (j & Hr & Hj & Hsh & Hfr).
      exists j. split; [lia|]. split.
      { destruct (decide (j = i - 1)) as [->|Hne].
        - rewrite lookup_insert_eq in Hj. rewrite lookup_insert_ne by lia. congruence.
        - rewrite !lookup_insert_ne in Hj by lia. rewrite lookup_insert_ne by lia. done. }
      split.
      * intros t Ht. destruct (decide (t = i - 1)) as [->|Hne].
        -- rewrite Hfr by lia.
           replace (i - 1 + 1) with i by lia. by rewrite !lookup_insert_eq.
        -- rewrite Hsh by lia.
           destruct (decide (t + 1 = i - 1)) as [e|Hne'].
           ++ rewrite e, !lookup_insert_eq. rewrite !lookup_insert_ne by lia. done.
           ++ rewrite !lookup_insert_ne by lia. done.
      * intros t Ht. rewrite Hfr by lia.
        rewrite !lookup_insert_ne by lia. done.
Qed.

Lemma blocks_apart n b b' i i' :
  is_block n b → is_block n b' → b ≠ b' → 0 <= i <= n → 0 <= i' <= n →
  b + i ≠ b' + i'.
Proof.
  intros (a & ? & ->) (a' & ? & ->) Hne ? ?.
  assert (a < a' ∨ a' < a) as [Hlt|Hlt] by (destruct (decide (a = a')); [congruence|lia]);
    nia.
Qed.

Lemma block_rep_frame n ua ua' asg asg' v b :
  block_rep n ua asg v b →
  (∀ i, 0 <= i <= n → ua' !! (b + i) = ua !! (b + i)) →
  (∀ s, asg' !! s = Some v ↔ asg !! s = Some v) →
  block_rep n ua' asg' v b.
Proof.
  intros (l & Hl & Hlr & Hcell & Hinj & Hsur) Hua Hasg.
  exists l. split; [rewrite <- (Z.add_0_r b), Hua, Z.add_0_r by lia; done|].
  split; [done|]. split; [|split].
  - intros i Hi. destruct (Hcell i Hi) as (s & Hs & Ha). exists s.
    rewrite Hua by lia. by rewrite Hasg.
  - intros i j s Hi Hj. rewrite !Hua by lia. eauto.
  - intros s Hs. apply Hasg in Hs. destruct (Hsur s Hs) as (i & Hi & Hc).
    exists i. by rewrite Hua by lia.
Qed.

Lemma block_len n ua asg v b l :
  block_rep n ua asg v b → ua !! b = Some l →
  1 <= l <= n ∧
  (∀ i, 1 <= i <= l → ∃ s, ua !! (b + i) = Some s ∧ asg !! s = Some v) ∧
  (∀ i j s, 1 <= i <= l → 1 <= j <= l →
     ua !! (b + i) = Some s → ua !! (b + j) = Some s → i = j) ∧
  (∀ s, asg !! s = Some v → ∃ i, 1 <= i <= l ∧ ua !! (b + i) = Some s).
Proof. intros (l' & Hl' & H) Hl. rewrite Hl' in Hl. injection Hl as <-. done. Qed.

(** Two distinct slots exist under a value exactly when its block has two
    cells or more. *)
Lemma block_pair n ua asg v b l :
  block_rep n ua asg v b → ua !! b = Some l →
  (∃ s1 s2, s1 ≠ s2 ∧ asg !! s1 = Some v ∧ asg !! s2 = Some v) ↔ 2 <= l.
Proof.
  intros Hb Hl. destruct (block_len _ _ _ _ _ _ Hb Hl) as (Hlr & Hcell & Hinj & Hsur).
  split.
  - intros (s1 & s2 & Hne & H1 & H2).
    destruct (Hsur _ H1) as (i1 & Hi1 & Hc1). destruct (Hsur _ H2) as (i2 & Hi2 & Hc2).
    assert (i1 ≠ i2) by (intros ->; congruence). lia.
  - intros H2. destruct (Hcell 1) as (s1 & Hc1 & Ha1); [lia|].
    destruct (Hcell 2) as (s2 & Hc2 & Ha2); [lia|].
    exists s1, s2. split; [|done]. intros ->.
    assert (1 = 2) by (apply (Hinj 1 2 s2); auto; lia). lia.
Qed.

Lemma pair_other (asg : gmap Z Z) r v v' :
  asg !! r = Some v → v' ≠ v →
  (∃ s1 s2, s1 ≠ s2 ∧ delete r asg !! s1 = Some v' ∧ delete r asg !! s2 = Some v') ↔
  (∃ s1 s2, s1 ≠ s2 ∧ asg !! s1 = Some v' ∧ asg !! s2 = Some v').
Proof.
  intros Hr Hne. split; intros (s1 & s2 & Hd & H1 & H2); exists s1, s2; (split; [done|]).
  - apply lookup_delete_Some in H1 as [_ H1]. apply lookup_delete_Some in H2 as [_ H2]. done.
  - rewrite !lookup_delete_Some. repeat split; auto; intros <-; congruence.
Qed.

Lemma pair_same n ua (asg : gmap Z Z) r v b l :
  block_rep n ua asg v b → ua !! b = Some l → asg !! r = Some v →
  (∃ s1 s2, s1 ≠ s2 ∧ delete r asg !! s1 = Some v ∧ delete r asg !! s2 = Some v) ↔
  3 <= l.
Proof.
  intros Hb Hl Hr. destruct (block_len _ _ _ _ _ _ Hb Hl) as (Hlr & Hcell & Hinj & Hsur).
  split.
  - intros (s1 & s2 & Hne & H1 & H2).
    apply lookup_delete_Some in H1 as [Hn1 H1]. apply lookup_delete_Some in H2 as [Hn2 H2].
    destruct (Hsur _ H1) as (i1 & Hi1 & Hc1). destruct (Hsur _ H2) as (i2 & Hi2 & Hc2).
    destruct (Hsur _ Hr) as (i0 & Hi0 & Hc0).
    assert (i1 ≠ i2) by (intros ->; congruence).
    assert (i1 ≠ i0) by (intros ->; congruence).
    assert (i2 ≠ i0) by (intros ->; congruence). lia.
  - intros H3. destruct (Hsur _ Hr) as (i0 & Hi0 & Hc0).
    assert (∃ i1 i2, 1 <= i1 <= l ∧ 1 <= i2 <= l ∧ i1 ≠ i2 ∧ i1 ≠ i0 ∧ i2 ≠ i0)
      as (i1 & i2 & Hi1 & Hi2 & H12 & H10 & H20).
    { destruct (decide (i0 = 1)); [exists 2, 3; lia|].
      destruct (decide (i0 = 2)); [exists 1, 3; lia|]. exists 1, 2; lia. }
    destruct (Hcell i1 Hi1) as (s1 & Hc1 & Ha1). destruct (Hcell i2 Hi2) as (s2 & Hc2 & Ha2).
    exists s1, s2. rewrite !lookup_delete_Some. repeat split; auto.
    + intros ->. apply H12. by apply (Hinj i1 i2 s2).
    + intros ->. apply H10. by apply (Hinj i1 i0 s1).
    + intros ->. apply H20. by apply (Hinj i2 i0 s2).
Qed.

Lemma flipdel_spec n m asg r v m' :
  mm_ok n m asg → asg !! r = Some v → flipdel m r v = Ok m' →
  mm_ok n m' (delete r asg).
Proof.
  intros (um & tm & Hrep) Hr H. unfold flipdel in H.
  destruct Hrep as [Hu Ht Hrange Hused Hblock Hinj Hav Hnd Hidx Htwo].
  assert (∃ b, um !! v = Some b) as [b Hb] by (apply Hused; eauto).
  destruct (Hblock v b Hb) as [Hisb Hbr].
  apply bind_Ok in H as ([b' u] & Hg & H).
  apply (getvalue_spec _ _ _ _ _ _ Hu Hb) in Hg as [-> ->].
  apply bind_Ok in H as (l & Hl & H). apply rd_Ok in Hl.
  destruct (block_len _ _ _ _ _ _ Hbr Hl) as (Hlr & Hcell & Hcinj & Hsur).
  destruct (Hsur _ Hr) as (i0 & Hi0 & Hc0).
  apply bind_Ok in H as ([td tl] & Htw & H).
  assert (∃ tm', dict_rep td tm' ∧ index_rep tl tm' ∧
    ∀ v', is_Some (tm' !! v') ↔
      ∃ s1 s2, s1 ≠ s2 ∧ delete r asg !! s1 = Some v' ∧ delete r asg !! s2 = Some v')
    as (tm' & Ht' & Hidx' & Htwo').
  { destruct (l =? 2) eqn:E2.
    - apply Z.eqb_eq in E2. subst l.
      assert (∃ rsi, tm !! v = Some rsi) as [rsi Hrsi].
      { apply Htwo. eapply block_pair; eauto. lia. }
      simpl in Htw.
      apply bind_Ok in Htw as (rsi' & Hgv & Htw).
      eapply (getvaluex_spec (set_lasthash (twoplusd m) (hash v))) in Hgv; eauto. subst rsi'.
      apply bind_Ok in Htw as (rsl & Hback & Htw).
      assert (∃ z, tm !! rsl = Some z) as [z Hz].
      { unfold back in Hback. destruct (last (twoplusl m)) eqn:El; [|done].
        injection Hback as ->. rewrite last_lookup in El.
        exists (Z.of_nat (pred (length (twoplusl m)))). apply Hidx.
        split; [lia|]. by rewrite Nat2Z.id. }
      apply bind_Ok in Htw as (td1 & Hrp & Htw).
      eapply replace_spec in Hrp as [Hrp _]; eauto.
      apply bind_Ok in Htw as (tl1 & Hvs & Htw).
      apply bind_Ok in Htw as (td2 & Hrm & Htw). injection Htw as <- <-.
      assert (Hv1 : <[rsl := rsi]> tm !! v = Some rsi).
      { destruct (decide (rsl = v)) as [->|]; [by rewrite lookup_insert_eq|].
        by rewrite lookup_insert_ne. }
      eapply (removex_spec (set_lasthash td1 (hash v))) in Hrm as [Hrm _]; eauto.
      exists (delete v (<[rsl := rsi]> tm)). split; [done|].
      split; [eapply index_rep_swap_remove; eauto|].
      intros v'. destruct (decide (v' = v)) as [->|Hne].
      + rewrite lookup_delete_eq. rewrite (pair_same _ _ _ _ _ _ _ Hbr Hl Hr).
        split; [intros [? ?]; done|lia].
      + rewrite lookup_delete_ne by done. rewrite pair_other by done.
        rewrite <- Htwo. destruct (decide (v' = rsl)) as [->|].
        * rewrite lookup_insert_eq, Hz. split; eauto.
        * by rewrite lookup_insert_ne.
    - apply Z.eqb_neq in E2. injection Htw as <- <-.
      exists tm. split; [done|]. split; [done|].
      intros v'. destruct (decide (v' = v)) as [->|Hne].
      + rewrite (pair_same _ _ _ _ _ _ _ Hbr Hl Hr). rewrite Htwo.
        rewrite (block_pair _ _ _ _ _ _ Hbr Hl). lia.
      + rewrite pair_other by done. apply Htwo. }
  assert (Hasg : ∀ v' s, v' ≠ v → delete r asg !! s = Some v' ↔ asg !! s = Some v').
  { intros v' s Hne. rewrite lookup_delete_Some. split; [tauto|].
    intros Hs. split; [|done]. intros <-. congruence. }
  assert (Hrange' : ∀ s v0, delete r asg !! s = Some v0 → 0 <= s < n).
  { intros s v0 Hs. apply lookup_delete_Some in Hs as [_ Hs]. eauto. }
  destruct (l =? 1) eqn:E1.
  - apply Z.eqb_eq in E1. subst l. assert (i0 = 1) as -> by lia.
    apply bind_Ok in H as (u' & Hrm & H). injection H as <-.
    eapply (removex_spec (set_lasthash (uniques m) (hash v))) in Hrm as [Hrm _]; eauto.
    exists (delete v um), tm'. split; simpl; auto.
    + intros v'. destruct (decide (v' = v)) as [->|Hne].
      * rewrite lookup_delete_eq. split; [intros [? ?]; done|].
        intros (s & Hs). apply lookup_delete_Some in Hs as [Hn Hs].
        destruct (Hsur _ Hs) as (i & Hi & Hc). assert (i = 1) as -> by lia. congruence.
      * rewrite lookup_delete_ne by done. rewrite Hused.
        split; intros (s & Hs); exists s; by apply Hasg.
    + intros v' b' Hb'. apply lookup_delete_Some in Hb' as [Hne Hb'].
      destruct (Hblock v' b' Hb') as [? Hbr']. split; [done|].
      eapply block_rep_frame; [exact Hbr'|done|intros s; by apply Hasg].
    + intros v1 v2 b' H1 H2. apply lookup_delete_Some in H1 as [_ H1].
      apply lookup_delete_Some in H2 as [_ H2]. eauto.
    + intros b' Hb'. unfold push_back in Hb'. apply elem_of_app in Hb' as [Hb'|Hb'].
      * destruct (Hav b' Hb') as [? Hno]. split; [done|]. intros v' Hv'.
        apply lookup_delete_Some in Hv' as [_ Hv']. by apply (Hno v').
      * apply list_elem_of_singleton in Hb'. subst b'. split; [done|]. intros v' Hv'.
        apply lookup_delete_Some in Hv' as [Hne Hv']. apply Hne. eauto.
    + unfold push_back. apply NoDup_app. split; [done|]. split; [|apply NoDup_singleton].
      intros b' Hb' Hb''. apply list_elem_of_singleton in Hb''. subst b'.
      destruct (Hav b Hb') as [_ Hno]. by apply (Hno v).
  - apply Z.eqb_neq in E1.
    apply bind_Ok in H as (x & Hx & H). apply rd_Ok in Hx.
    apply bind_Ok in H as (ua1 & Hsh & H). injection H as <-.
    apply unarray_shift_spec in Hsh as (j & Hjr & Hj & Hsh & Hfr).
    rewrite Z2Nat.id in Hjr by lia. rewrite !insert_id in * by done.
    assert (j = b + i0) as ->.
    { assert (j - b = i0); [|lia]. apply (Hcinj _ _ r); [lia|lia| |done].
      by replace (b + (j - b)) with j by lia. }
    clear Hj.
    exists um, tm'. split; simpl; auto.
    + intros v'. rewrite Hused. destruct (decide (v' = v)) as [->|Hne].
      * split; [|intros (s & Hs); apply lookup_delete_Some in Hs as [_ Hs]; eauto].
        intros _. destruct (Hcell (if decide (i0 = 1) then 2 else 1)) as (s & Hc & Ha);
          [case_decide; lia|].
        exists s. apply lookup_delete_Some. split; [|done]. intros <-.
        assert (i0 = if decide (i0 = 1) then 2 else 1)
          by (apply (Hcinj _ _ r); auto; case_decide; lia).
        case_decide; lia.
      * split; intros (s & Hs); exists s; by apply Hasg.
    + intros v' b' Hb'. destruct (Hblock v' b' Hb') as [Hisb' Hbr']. split; [done|].
      destruct (decide (v' = v)) as [->|Hne].
      * assert (b' = b) as -> by congruence.
        assert (Hnew : ∀ i, 1 <= i <= l - 1 →
          <[b := l - 1]> ua1 !! (b + i)
          = unarray m !! (b + (if decide (i < i0) then i else i + 1))).
        { intros i Hi. rewrite lookup_insert_ne by lia. case_decide.
          - apply Hfr. lia.
          - rewrite Hsh by lia. by rewrite <- Z.add_assoc. }
        exists (l - 1). rewrite lookup_insert_eq. split; [done|]. split; [lia|].
        split; [|split].
        -- intros i Hi. rewrite Hnew by done.
           set (i' := if decide (i < i0) then i else i + 1).
           assert (1 <= i' <= l ∧ i' ≠ i0) as [Hi' Hne] by (unfold i'; case_decide; lia).
           destruct (Hcell i' Hi') as (s & Hc & Ha). exists s. split; [done|].
           apply lookup_delete_Some. split; [|done]. intros <-. apply Hne.
           by apply (Hcinj _ _ r).
        -- intros i i2 s Hi Hi2. rewrite !Hnew by done. intros Hc1 Hc2.
           assert ((if decide (i < i0) then i else i + 1)
                   = (if decide (i2 < i0) then i2 else i2 + 1)).
           { apply (Hcinj _ _ s); auto; repeat case_decide; lia. }
           repeat case_decide; lia.
        -- intros s Hs. apply lookup_delete_Some in Hs as [Hn Hs].
           destruct (Hsur s Hs) as (i & Hi & Hc).
           assert (i ≠ i0) by (intros ->; congruence).
           exists (if decide (i < i0) then i else i - 1).
           split; [case_decide; lia|]. rewrite Hnew by (case_decide; lia).
           rewrite <- Hc. f_equal. repeat case_decide; lia.
      * assert (b' ≠ b) by (intros ->; apply Hne; eauto).
        eapply block_rep_frame; [exact Hbr'| |intros s; by apply Hasg].
        intros i Hi. rewrite lookup_insert_ne
          by (intros e; symmetry in e; revert e; rewrite <- (Z.add_0_r b);
              apply blocks_apart with n; auto; lia).
        apply Hfr. intros [? ?].
        apply (blocks_apart n b' b i (b' + i - b)); auto; lia.
Qed.

Lemma pair_insert_other (asg : gmap Z Z) r v v' :
  asg !! r = None → v' ≠ v →
  (∃ s1 s2, s1 ≠ s2 ∧ <[r := v]> asg !! s1 = Some v' ∧ <[r := v]> asg !! s2 = Some v') ↔
  (∃ s1 s2, s1 ≠ s2 ∧ asg !! s1 = Some v' ∧ asg !! s2 = Some v').
Proof.
  intros Hr Hne.
  assert (Hs : ∀ s, <[r := v]> asg !! s = Some v' ↔ asg !! s = Some v').
  { intros s. destruct (decide (s = r)) as [->|].
    - rewrite lookup_insert_eq, Hr. split; congruence.
    - by rewrite lookup_insert_ne. }
  split; intros (s1 & s2 & Hd & H1 & H2); exists s1, s2; (split; [done|]);
    split; by apply Hs.
Qed.

Lemma flipadd_spec n m asg r v m' :
  mm_ok n m asg → asg !! r = None → 0 <= r < n → flipadd m r v = Ok m' →
  mm_ok n m' (<[r := v]> asg).
Proof.
  intros (um & tm & Hrep) Hr Hrn H. unfold flipadd in H.
  destruct Hrep as [Hu Ht Hrange Hused Hblock Hinj Hav Hnd Hidx Htwo].
  apply bind_Ok in H as ([ct u] & Hc & H).
  apply (contains_spec _ _ _ _ _ Hu) in Hc as [-> Hc].
  assert (Hasg : ∀ v' s, v' ≠ v → <[r := v]> asg !! s = Some v' ↔ asg !! s = Some v').
  { intros v' s Hne. destruct (decide (s = r)) as [->|].
    - rewrite lookup_insert_eq, Hr. split; congruence.
    - by rewrite lookup_insert_ne. }
  assert (Hrange' : ∀ s v0, <[r := v]> asg !! s = Some v0 → 0 <= s < n).
  { intros s v0 Hs. destruct (decide (s = r)) as [->|]; [done|].
    rewrite lookup_insert_ne in Hs by done. eauto. }
  destruct Hc as [[-> [b Hb]]|[-> Hno]]; simpl in H.
  - (* the value is listed already *)
    destruct (Hblock v b Hb) as [Hisb Hbr].
    apply bind_Ok in H as (b' & Hg & H).
    eapply (getvaluex_spec (set_lasthash (uniques m) (hash v))) in Hg; eauto. subst b'.
    apply bind_Ok in H as (l & Hl & H). apply rd_Ok in Hl.
    destruct (block_len _ _ _ _ _ _ Hbr Hl) as (Hlr & Hcell & Hcinj & Hsur).
    apply bind_Ok in H as ([td tl] & Htw & H). injection H as <-.
    assert (Hfresh : ∀ i, 1 <= i <= l → unarray m !! (b + i) ≠ Some r).
    { intros i Hi Hc. destruct (Hcell i Hi) as (s & Hs & Ha). congruence. }
    assert (∃ tm', dict_rep td tm' ∧ index_rep tl tm' ∧
      ∀ v', is_Some (tm' !! v') ↔
        ∃ s1 s2, s1 ≠ s2 ∧ <[r := v]> asg !! s1 = Some v' ∧ <[r := v]> asg !! s2 = Some v')
      as (tm' & Ht' & Hidx' & Htwo').
    { assert (Hpair : ∃ s1 s2, s1 ≠ s2 ∧ <[r := v]> asg !! s1 = Some v
                               ∧ <[r := v]> asg !! s2 = Some v).
      { destruct (Hcell 1) as (s & Hs & Ha); [lia|]. exists r, s.
        rewrite lookup_insert_eq. split; [congruence|]. split; [done|].
        rewrite lookup_insert_ne by congruence. done. }
      destruct (l =? 1) eqn:E1.
      - apply Z.eqb_eq in E1. subst l.
        apply bind_Ok in Htw as (td1 & Hadd & Htw). injection Htw as <- <-.
        assert (Hnone : tm !! v = None).
        { destruct (tm !! v) eqn:E; [|done].
          assert (2 <= 1); [|lia]. eapply block_pair; eauto. apply Htwo. eauto. }
        eapply (addx_spec (set_lasthash (twoplusd m) (hash v))) in Hadd as [Hadd _]; eauto.
        exists (<[v := vsize (twoplusl m)]> tm). split; [done|].
        split; [by apply index_rep_push|].
        intros v'. destruct (decide (v' = v)) as [->|Hne].
        + rewrite lookup_insert_eq. split; eauto.
        + rewrite lookup_insert_ne by done. rewrite pair_insert_other by done. apply Htwo.
      - apply Z.eqb_neq in E1. injection Htw as <- <-.
        exists tm. split; [done|]. split; [done|].
        intros v'. destruct (decide (v' = v)) as [->|Hne].
        + split; [done|]. intros _. apply Htwo. eapply block_pair; eauto. lia.
        + rewrite pair_insert_other by done. apply Htwo. }
    set (ua' := <[b := l + 1]> (<[b + (l + 1) := r]> (unarray m))).
    assert (Hnew : ∀ i, 1 <= i <= l + 1 →
      ua' !! (b + i) = if decide (i = l + 1) then Some r else unarray m !! (b + i)).
    { intros i Hi. unfold ua'. rewrite lookup_insert_ne by lia. case_decide.
      - subst i. by rewrite lookup_insert_eq.
      - by rewrite lookup_insert_ne by lia. }
    assert (Hcell' : ∀ i, 1 <= i <= l + 1 →
      ∃ s, ua' !! (b + i) = Some s ∧ <[r := v]> asg !! s = Some v).
    { intros i Hi. rewrite Hnew by done. case_decide.
      - exists r. by rewrite lookup_insert_eq.
      - destruct (Hcell i) as (s & Hs & Ha); [lia|]. exists s. split; [done|].
        rewrite lookup_insert_ne by congruence. done. }
    assert (Hcinj' : ∀ i j s, 1 <= i <= l + 1 → 1 <= j <= l + 1 →
      ua' !! (b + i) = Some s → ua' !! (b + j) = Some s → i = j).
    { intros i j s Hi Hj. rewrite !Hnew by done. repeat case_decide; try lia.
      - intros [= <-] Hc. destruct (Hfresh j); [lia|done].
      - intros Hc [= <-]. destruct (Hfresh i); [lia|done].
      - apply Hcinj; lia. }
    assert (Hl1 : l + 1 <= n).
    { apply (pigeon (λ i, ua' !! (b + i))); [lia| |done].
      intros i Hi. destruct (Hcell' i Hi) as (s & Hs & Ha). exists s. split; [done|]. eauto. }
    exists um, tm'. split; simpl; auto.
    + intros v'. rewrite Hused. destruct (decide (v' = v)) as [->|Hne].
      * split; intros _; [exists r; by rewrite lookup_insert_eq|].
        destruct (Hcell 1) as (s & _ & Ha); [lia|]. eauto.
      * split; intros (s & Hs); exists s; by apply Hasg.
    + intros v' b' Hb'. destruct (Hblock v' b' Hb') as [Hisb' Hbr']. split; [done|].
      destruct (decide (v' = v)) as [->|Hne].
      * assert (b' = b) as -> by congruence.
        exists (l + 1). fold ua'. split; [unfold ua'; by rewrite lookup_insert_eq|].
        split; [lia|]. split; [done|]. split; [done|].
        intros s Hs. destruct (decide (s = r)) as [->|Hsr].
        -- exists (l + 1). split; [lia|]. rewrite Hnew by lia. by rewrite decide_True.
        -- rewrite lookup_insert_ne in Hs by done.
           destruct (Hsur s Hs) as (i & Hi & Hc). exists i. split; [lia|].
           rewrite Hnew by lia. by rewrite decide_False by lia.
      * assert (b' ≠ b) by (intros ->; apply Hne; eauto).
        eapply block_rep_frame; [exact Hbr'| |intros s; by apply Hasg].
        intros i Hi. fold ua'. unfold ua'.
        rewrite lookup_insert_ne
          by (intros e; symmetry in e; revert e; rewrite <- (Z.add_0_r b);
              apply blocks_apart with n; auto; lia).
        rewrite lookup_insert_ne; [done|].
        intros e; symmetry in e; revert e. apply blocks_apart with n; auto; lia.
  - (* a new value takes a free block *)
    apply bind_Ok in H as (b & Hback & H).
    apply bind_Ok in H as (u' & Hadd & H). injection H as <-.
    eapply (addx_spec (set_lasthash (uniques m) (hash v))) in Hadd as [Hadd _]; eauto.
    unfold back in Hback. destruct (last (avail m)) as [b0|] eqn:El; [|done].
    injection Hback as ->. apply last_Some in El as [av Eav].
    assert (Hbin : b ∈ avail m)
      by (rewrite Eav; apply elem_of_app; right; by apply list_elem_of_singleton).
    destruct (Hav b Hbin) as [Hisb Hfree].
    assert (Hnov : ∀ s, asg !! s ≠ Some v).
    { intros s Hs. assert (is_Some (um !! v)) as [? ?] by (apply Hused; eauto). congruence. }
    exists (<[v := b]> um), tm. split; simpl; auto.
    + intros v'. destruct (decide (v' = v)) as [->|Hne].
      * rewrite lookup_insert_eq. split; eauto. intros _. exists r. by rewrite lookup_insert_eq.
      * rewrite lookup_insert_ne by done. rewrite Hused.
        split; intros (s & Hs); exists s; by apply Hasg.
    + intros v' b' Hb'. destruct (decide (v' = v)) as [->|Hne].
      * rewrite lookup_insert_eq in Hb'. injection Hb' as <-. split; [done|].
        exists 1. rewrite lookup_insert_eq. split; [done|]. split; [lia|].
        assert (Hc1 : ∀ i, 1 <= i <= 1 →
          <[b := 1]> (<[b + 1 := r]> (unarray m)) !! (b + i) = Some r).
        { intros i Hi. assert (i = 1) as -> by lia.
          rewrite lookup_insert_ne by lia. by rewrite lookup_insert_eq. }
        split; [|split].
        -- intros i Hi. exists r. rewrite Hc1 by done. by rewrite lookup_insert_eq.
        -- intros; lia.
        -- intros s Hs. exists 1. split; [lia|]. rewrite Hc1 by lia. f_equal.
           destruct (decide (s = r)) as [->|Hsr]; [done|].
           rewrite lookup_insert_ne in Hs by done. by destruct (Hnov s).
      * rewrite lookup_insert_ne in Hb' by done.
        destruct (Hblock v' b' Hb') as [Hisb' Hbr']. split; [done|].
        assert (b' ≠ b) by (intros ->; by apply (Hfree v')).
        eapply block_rep_frame; [exact Hbr'| |intros s; by apply Hasg].
        intros i Hi.
        rewrite lookup_insert_ne
          by (intros e; symmetry in e; revert e; rewrite <- (Z.add_0_r b);
              apply blocks_apart with n; auto; lia).
        rewrite lookup_insert_ne; [done|].
        intros e; symmetry in e; revert e. apply blocks_apart with n; auto; lia.
    + intros v1 v2 b'. destruct (decide (v1 = v)) as [->|H1]; destruct (decide (v2 = v)) as [->|H2];
        rewrite ?lookup_insert_eq, ?lookup_insert_ne by done; try done.
      * intros [= <-] Hb'. by destruct (Hfree v2).
      * intros Hb' [= <-]. by destruct (Hfree v1).
      * apply Hinj.
    + intros b' Hb'. unfold pop_back in Hb'. rewrite Eav, removelast_last in Hb'.
      assert (b' ∈ avail m) by (rewrite Eav; apply elem_of_app; by left).
      destruct (Hav b' H) as [? Hfree']. split; [done|]. intros v'.
      destruct (decide (v' = v)) as [->|Hne].
      * rewrite lookup_insert_eq. intros [= <-]. rewrite Eav in Hnd.
        apply NoDup_app in Hnd as (_ & Hnd & _). apply (Hnd b); [done|by apply list_elem_of_singleton].
      * rewrite lookup_insert_ne by done. apply Hfree'.
    + unfold pop_back. rewrite Eav, removelast_last. rewrite Eav in Hnd.
      by apply NoDup_app in Hnd as (? & _ & _).
    + intros v'. rewrite Htwo. destruct (decide (v' = v)) as [->|Hne].
      * split.
        -- intros (s1 & _ & _ & Hs & _). by destruct (Hnov s1).
        -- intros (s1 & s2 & Hd & H1 & H2).
           destruct (decide (s1 = r)) as [->|Hs1].
           ++ rewrite lookup_insert_ne in H2 by done. by destruct (Hnov s2).
           ++ rewrite lookup_insert_ne in H1 by done. by destruct (Hnov s1).
      * by rewrite pair_insert_other.
Qed.

(** ** Vectors *)

Lemma vget_Ok mu s x : vget mu s = Ok x -> 0 <= s < vsize mu.
Proof.
  unfold vget, vsize. destruct (s <? 0) eqn:E; [done|]. apply Z.ltb_ge in E.
  destruct (mu !! Z.to_nat s) eqn:El; [|done]. intros _.
  apply lookup_lt_Some in El. lia.
Qed.

Lemma vget_range mu s : 0 <= s < vsize mu -> exists x, vget mu s = Ok x.
Proof.
  unfold vget, vsize. intros Hs. destruct (s <? 0) eqn:E; [lia|].
  destruct (lookup_lt_is_Some_2 mu (Z.to_nat s)) as [x Hx]; [lia|].
  rewrite Hx. eauto.
Qed.

Lemma vset_Ok mu s x mu' :
  vset mu s x = Ok mu' -> 0 <= s < vsize mu /\ vsize mu' = vsize mu.
Proof.
  unfold vset, vsize. destruct (s <? 0) eqn:E; [done|]. apply Z.ltb_ge in E.
  destruct (Z.of_nat (length mu) <=? s) eqn:E2; [done|]. apply Z.leb_gt in E2.
  intros [= <-]. rewrite length_insert. lia.
Qed.

Lemma vget_vset mu s x mu' s' :
  vset mu s x = Ok mu' ->
  vget mu' s' = if decide (s' = s) then Ok x else vget mu s'.
Proof.
  unfold vset, vget. destruct (s <? 0) eqn:E; [done|].
  pose proof E as E'. apply Z.ltb_ge in E'.
  destruct (Z.of_nat (length mu) <=? s) eqn:E2; [done|]. apply Z.leb_gt in E2.
  intros [= <-]. case_decide.
  - subst s'. rewrite E. by rewrite list_lookup_insert_eq by lia.
  - destruct (s' <? 0) eqn:E3; [done|]. apply Z.ltb_ge in E3.
    by rewrite list_lookup_insert_ne by lia.
Qed.

(** ** Slots and their partners *)

Ltac zdiv := Z.to_euclidean_division_equations; lia.

Lemma me_Ok cfg p ep :
  me cfg p = Ok ep ->
  0 <= p < nomuls cfg /\
  ((p mod 3 = 0 /\ ep = p + 2) \/ (p mod 3 <> 0 /\ ep = p - 1)).
Proof.
  unfold me, in_slots. destruct (0 <=? p) eqn:E1; [|done].
  destruct (p <? nomuls cfg) eqn:E2; [|done]. simpl.
  destruct (p mod 3 =? 0) eqn:E3; intros [= <-]; lia.
Qed.

Lemma mf_Ok cfg p fp :
  mf cfg p = Ok fp ->
  0 <= p < nomuls cfg /\
  ((p mod 3 = 2 /\ fp = p - 2) \/ (p mod 3 <> 2 /\ fp = p + 1)).
Proof.
  unfold mf, in_slots. destruct (0 <=? p) eqn:E1; [|done].
  destruct (p <? nomuls cfg) eqn:E2; [|done]. simpl.
  destruct (p mod 3 =? 2) eqn:E3; intros [= <-]; lia.
Qed.

Lemma permit_Ok cfg p q pm :
  permit cfg p q = Ok pm -> pm <> 0 -> 0 < symm cfg ->
  0 <= p < nomuls cfg /\ 0 <= q < nomuls cfg /\ p / symm cfg <> q / symm cfg.
Proof.
  unfold permit, in_slots, idiv. intros H Hpm Hs.
  destruct (0 <=? p) eqn:E1; [|done]. destruct (p <? nomuls cfg) eqn:E2; [|done].
  destruct (0 <=? q) eqn:E3; [|done]. destruct (q <? nomuls cfg) eqn:E4; [|done].
  simpl in H. destruct (symm cfg =? 0) eqn:E5; [lia|]. simpl in H.
  destruct (p `quot` symm cfg =? q `quot` symm cfg) eqn:E6; [congruence|].
  apply Z.eqb_neq in E6. rewrite !Z.quot_div_nonneg in E6 by lia. lia.
Qed.

(** ** The pair tables *)

Lemma tables_ok : tables_checked = true.
Proof. vm_compute. reflexivity. Qed.

Lemma table_bound l c x px qx :
  vget combs l = Ok c -> 0 <= x < c ->
  vget ps x = Ok px -> vget qs x = Ok qx ->
  0 <= px < l /\ 0 <= qx < l.
Proof.
  intros Hc Hx Hp Hq. pose proof tables_ok as Ht. unfold tables_checked in Ht.
  rewrite forallb_forall in Ht.
  unfold vget in Hc, Hp, Hq.
  destruct (l <? 0) eqn:El; [done|]. apply Z.ltb_ge in El.
  destruct (combs !! Z.to_nat l) as [c'|] eqn:Ec; [|done]. injection Hc as ->.
  destruct (x <? 0) eqn:Ex; [done|].
  destruct (ps !! Z.to_nat x) as [px'|] eqn:Ep; [|done]. injection Hp as ->.
  destruct (qs !! Z.to_nat x) as [qx'|] eqn:Eq; [|done]. injection Hq as ->.
  specialize (Ht (Z.to_nat l, c)). simpl in Ht. rewrite Z2Nat.id in Ht by done.
  assert (Hin : In (Z.to_nat l, c) (imap (fun i c => (i, c)) combs)).
  { apply list_elem_of_In. apply list_elem_of_lookup. exists (Z.to_nat l).
    rewrite list_lookup_imap, Ec. done. }
  specialize (Ht Hin). unfold pairs_below in Ht. rewrite forallb_forall in Ht.
  specialize (Ht (px, qx)). simpl in Ht.
  assert (Hin2 : In (px, qx) (take (Z.to_nat c) (zip ps qs))).
  { apply list_elem_of_In. apply list_elem_of_lookup. exists (Z.to_nat x).
    apply lookup_take_Some. split; [|lia].
    rewrite lookup_zip_with, Ep. simpl. rewrite Eq. done. }
  specialize (Ht Hin2). lia.
Qed.

(** ** Sampling a colliding pair *)

Lemma set_lasthash_id d : set_lasthash d (lasthash d) = d.
Proof. by destruct d. Qed.

Lemma same_tables_refl m : same_tables m m.
Proof.
  exists (lasthash (uniques m)). rewrite set_lasthash_id. by destruct m.
Qed.

Lemma same_tables_trans m1 m2 m3 :
  same_tables m1 m2 -> same_tables m2 m3 -> same_tables m1 m3.
Proof. intros [h1 ->] [h2 ->]. by exists h2. Qed.

Lemma mm_ok_same_tables n m m' asg :
  same_tables m m' -> mm_ok n m asg -> mm_ok n m' asg.
Proof.
  intros [h ->] (um & tm & []). exists um, tm. by split.
Qed.

Lemma getvalue_same m v b u :
  getvalue (uniques m) v = Ok (b, u) -> same_tables m (set_uniques m u).
Proof.
  unfold getvalue. intros H. apply bind_Ok in H as (x & _ & H).
  injection H as _ <-. by eexists.
Qed.

Lemma sample_pair_spec n m asg sample p q m' :
  mm_ok n m asg -> sample_pair sample m = Ok (p, q, m') ->
  same_tables m m' /\ exists v, asg !! p = Some v /\ asg !! q = Some v.
Proof.
  intros (um & tm & Hrep) H. unfold sample_pair in H.
  destruct Hrep as [Hu Ht Hrange Hused Hblock Hinj Hav Hnd Hidx Htwo].
  destruct (vsize (twoplusl m) =? 0) eqn:E0; [done|]. apply Z.eqb_neq in E0.
  apply bind_Ok in H as (v & Hv & H).
  assert (exists b, um !! v = Some b) as [b Hb].
  { apply Hused. unfold vget in Hv.
    destruct (sample mod vsize (twoplusl m) <? 0) eqn:E; [done|]. apply Z.ltb_ge in E.
    destruct (twoplusl m !! _) as [v'|] eqn:El; [|done]. injection Hv as ->.
    assert (is_Some (tm !! v)) as Hs by (eexists; apply Hidx; eauto).
    apply Htwo in Hs as (s1 & _ & _ & Hs1 & _). eauto. }
  destruct (Hblock v b Hb) as [Hisb Hbr].
  apply bind_Ok in H as ([b' u] & Hg & H).
  pose proof (getvalue_same _ _ _ _ Hg) as Hsame.
  apply (getvalue_spec _ _ _ _ _ _ Hu Hb) in Hg as [-> ->].
  apply bind_Ok in H as (l & Hl & H). apply rd_Ok in Hl. simpl in Hl, H.
  destruct (block_len _ _ _ _ _ _ Hbr Hl) as (Hlr & Hcell & Hcinj & Hsur).
  assert (Hslot : forall i s, 1 <= i <= l -> unarray m !! (b + i) = Some s ->
                              asg !! s = Some v).
  { intros i s Hi Hs. destruct (Hcell i Hi) as (s' & Hs' & Ha). congruence. }
  destruct (l =? 2) eqn:E2.
  - apply Z.eqb_eq in E2. subst l.
    replace (b + 1 + 1) with (b + 2) in H by lia.
    destruct (negb (Z.land sample 65536 =? 0));
      apply bind_Ok in H as (p' & Hp & H); apply rd_Ok in Hp;
      apply bind_Ok in H as (q' & Hq & H); apply rd_Ok in Hq;
      injection H as <- <- <-; (split; [done|]); exists v;
      split; eapply Hslot; eauto; lia.
  - apply bind_Ok in H as (c & Hc & H).
    destruct (c =? 0) eqn:Ec; [done|]. apply Z.eqb_neq in Ec.
    assert (0 <= c).
    { unfold vget in Hc. destruct (l <? 0); [done|].
      destruct (combs !! Z.to_nat l) as [c'|] eqn:El; [|done]. injection Hc as ->.
      assert (Forall (fun c => 0 <= c) combs) as Hall by (by vm_compute; repeat constructor).
      rewrite Forall_lookup in Hall. eauto. }
    apply bind_Ok in H as (px & Hpx & H).
    apply bind_Ok in H as (p' & Hp & H). apply rd_Ok in Hp.
    apply bind_Ok in H as (qx & Hqx & H).
    apply bind_Ok in H as (q' & Hq & H). apply rd_Ok in Hq.
    injection H as <- <- <-. split; [done|]. exists v.
    assert (0 <= px < l /\ 0 <= qx < l) as [Hpr Hqr].
    { eapply table_bound; eauto. apply Z.mod_pos_bound. lia. }
    rewrite <- Z.add_assoc in Hp, Hq.
    split; eapply Hslot; eauto; lia.
Qed.

(** ** Frames: what the bookkeeping leaves alone *)

Lemma reschedule_frame mt cfg st st' :
  reschedule mt cfg st = Ok st' ->
  exists pb d, st' = set_plusby (set_drawn st d) pb.
Proof.
  unfold reschedule. destruct (achieved st >=? maxplus cfg).
  { intros [= <-]. exists (wrap64 (flimit cfg * 1007)), (drawn st). by destruct st. }
  destruct (plimit cfg <? 0).
  - simpl. destruct (wrap64 (-2 * plimit cfg) =? 0); [done|].
    intros [= <-]. by eexists _, _.
  - intros [= <-]. exists (wrap64 (flips st + plimit cfg)), (drawn st). by destruct st.
Qed.

Lemma trigger_scan_same vs : forall m w t t' m',
  trigger_scan vs m w t = Ok (t', m') -> same_tables m m'.
Proof.
  induction vs as [|v vs IH]; intros m w t t' m' H; simpl in H.
  - injection H as _ <-. apply same_tables_refl.
  - apply bind_Ok in H as ([b u] & Hg & H).
    apply getvalue_same in Hg.
    apply bind_Ok in H as (x & _ & H). apply bind_Ok in H as (l & _ & H).
    apply bind_Ok in H as (t1 & _ & H). apply IH in H.
    eapply same_tables_trans; eauto.
Qed.

Lemma after_collapse_frame mt cfg w st s st' :
  after_collapse mt cfg w st = Ok (s, st') ->
  muls st' = muls st /\ same_tables (M st) (M st').
Proof.
  unfold after_collapse. intros H.
  apply bind_Ok in H as (st1 & H1 & H).
  assert (muls st1 = muls st /\ M st1 = M st) as [Hmu1 HM1].
  { revert H1. simpl. destruct (_ <? _); [|by intros [= <-]].
    destruct (_ >? _); [|by intros [= <-]].
    intros H1. apply bind_Ok in H1 as (l & _ & H1). by injection H1 as <-. }
  apply bind_Ok in H as (st2 & H2 & H).
  assert (muls st2 = muls st /\ M st2 = M st) as [Hmu2 HM2].
  { revert H2. destruct (_ <=? _); [|intros [= <-]; done].
    intros H2. apply bind_Ok in H2 as (be & _ & H2). by injection H2 as <-. }
  apply bind_Ok in H as (st3 & H3 & H).
  apply reschedule_frame in H3 as (pb & d & ->). simpl in H.
  destruct (vsize (twoplusl (M st2)) =? 0).
  { injection H as _ <-. simpl. rewrite Hmu2, HM2. split; [done|]. apply same_tables_refl. }
  destruct (achieved st2 <=? target cfg).
  { injection H as _ <-. simpl. rewrite Hmu2, HM2. split; [done|]. apply same_tables_refl. }
  apply bind_Ok in H as ([t m'] & Hts & H). injection H as _ <-.
  apply trigger_scan_same in Hts. rewrite HM2 in Hts.
  destruct t; simpl; rewrite Hmu2; done.
Qed.

(** ** The flip of the [symm == 3] loop *)

Lemma live_partner mu asg p s x :
  tracks mu asg -> groups_ok 3 mu -> is_Some (asg !! p) ->
  s / 3 = p / 3 -> vget mu s = Ok x -> asg !! s = Some x /\ x <> 0.
Proof.
  intros Htr Hg [v Hv] Hs Hx. apply Htr in Hv as [Hv [Hv0|Hin]]; [|by apply elem_of_nil in Hin].
  assert (x <> 0).
  { destruct (Hg (p / 3)) as [Hz|Hnz]; [|eauto]. destruct Hv0. eauto. }
  split; [|done]. apply Htr. eauto.
Qed.

Ltac lookups :=
  repeat first
    [ rewrite lookup_insert_eq | rewrite lookup_delete_eq
    | rewrite lookup_insert_ne by lia | rewrite lookup_delete_ne by lia ].

Lemma commit3_chain cfg st c st' asg ep fp eq fq :
  flip_ctx cfg (muls st) asg c ep fp eq fq ->
  symm cfg = 3 -> nomuls cfg mod 3 = 0 ->
  tracks (muls st) asg -> groups_ok 3 (muls st) ->
  mm_ok (nomuls cfg) (M st) asg ->
  commit3 cfg st c = Ok st' ->
  exists mu1,
    vset (muls st) ep (c_mpen c) = Ok mu1 /\
    vset mu1 fq (c_mqfn c) = Ok (muls st') /\
    mm_ok (nomuls cfg) (M st')
      (<[fq := c_mqfn c]> (delete fq (<[ep := c_mpen c]> (delete ep asg)))) /\
    st' = set_muls (set_M st (M st')) (muls st').
Proof.
  intros [fc_ep0 fc_fp0 fc_eq0 fc_fq0 fc_mpe0 fc_mpf0 fc_mqe0 fc_mqf0 _ _ fc_p0 fc_q0 Hap]
    Hsym Hn Htr Hg Hok H. rewrite Hsym in *. unfold commit3 in H.
  rewrite fc_ep0 in H. simpl in H.
  apply me_Ok in fc_ep0 as Hep. apply mf_Ok in fc_fp0 as Hfp.
  apply me_Ok in fc_eq0 as Heq. apply mf_Ok in fc_fq0 as Hfq.
  apply bind_Ok in H as (m1 & H1 & H). apply bind_Ok in H as (m2 & H2 & H).
  apply bind_Ok in H as (mu1 & Hs1 & H). rewrite fc_fq0 in H. simpl in H.
  apply bind_Ok in H as (m3 & H3 & H). apply bind_Ok in H as (m4 & H4 & H).
  apply bind_Ok in H as (mu2 & Hs2 & H). injection H as <-. simpl.
  exists mu1. split; [done|]. split; [done|]. split; [|done].
  destruct (live_partner _ _ (c_p c) ep _ Htr Hg fc_p0 ltac:(zdiv) fc_mpe0) as [Ha1 _].
  destruct (live_partner _ _ (c_q c) fq _ Htr Hg fc_q0 ltac:(zdiv) fc_mqf0) as [Ha2 _].
  clear Hg. Z.to_euclidean_division_equations.
  apply (flipdel_spec _ _ _ _ _ _ Hok Ha1) in H1.
  apply (flipadd_spec _ _ _ _ _ _ H1) in H2; [|by lookups|lia].
  apply (flipdel_spec _ _ _ _ _ _ H2) in H3; [|by lookups].
  apply (flipadd_spec _ _ _ _ _ _ H3) in H4; [done|by lookups|lia].
Qed.

Lemma collapse_p3_chain mt cfg st c s st' asg ep fp :
  me cfg (c_p c) = Ok ep -> mf cfg (c_p c) = Ok fp ->
  mm_ok (nomuls cfg) (M st) asg ->
  (forall x, vget (muls st) (c_p c) = Ok x -> asg !! c_p c = Some x) ->
  asg !! ep = Some (c_mpen c) -> asg !! fp = Some (c_mpf c) ->
  collapse_p3 mt cfg st c = Ok (s, st') ->
  exists mu1,
    vset (muls st) (c_p c) 0 = Ok mu1 /\
    vset mu1 fp 0 = Ok (muls st') /\
    mm_ok (nomuls cfg) (M st') (delete fp (delete ep (delete (c_p c) asg))).
Proof.
  intros Hep Hfp Hok Hp Ha1 Ha2 H. unfold collapse_p3 in H.
  apply bind_Ok in H as (stx & Hx & H). unfold delete_p3 in Hx.
  apply bind_Ok in Hx as (mpd & Hmpd & Hx). apply Hp in Hmpd.
  revert H. pose proof Hx as H. intros Hafter.
  apply bind_Ok in H as (m1 & H1 & H). rewrite Hep in H. simpl in H.
  apply bind_Ok in H as (m2 & H2 & H). rewrite Hfp in H. simpl in H.
  apply bind_Ok in H as (m3 & H3 & H).
  apply bind_Ok in H as (mu1 & Hs1 & H). apply bind_Ok in H as (mu2 & Hs2 & H).
  injection H as H. subst stx.
  apply after_collapse_frame in Hafter as [Hmu Hsame]. simpl in Hmu, Hsame.
  apply me_Ok in Hep. apply mf_Ok in Hfp. Z.to_euclidean_division_equations.
  exists mu1. rewrite Hmu. split; [done|]. split; [done|].
  eapply mm_ok_same_tables; [exact Hsame|].
  apply (flipdel_spec _ _ _ _ _ _ Hok Hmpd) in H1.
  apply (flipdel_spec _ _ _ _ _ _ H1) in H2; [|by lookups].
  apply (flipdel_spec _ _ _ _ _ _ H2) in H3; [done|by lookups].
Qed.

Lemma collapse_q3_chain mt cfg st c s st' asg eq fq :
  me cfg (c_q c) = Ok eq -> mf cfg (c_q c) = Ok fq ->
  mm_ok (nomuls cfg) (M st) asg ->
  (forall x, vget (muls st) (c_q c) = Ok x -> asg !! c_q c = Some x) ->
  asg !! eq = Some (c_mqe c) -> asg !! fq = Some (c_mqfn c) ->
  collapse_q3 mt cfg st c = Ok (s, st') ->
  exists mu1,
    vset (muls st) (c_q c) 0 = Ok mu1 /\
    vset mu1 eq 0 = Ok (muls st') /\
    mm_ok (nomuls cfg) (M st') (delete fq (delete eq (delete (c_q c) asg))).
Proof.
  intros Heq Hfq Hok Hq Ha1 Ha2 H. unfold collapse_q3 in H.
  apply bind_Ok in H as (stx & Hx & H). unfold delete_q3 in Hx.
  apply bind_Ok in Hx as (mqd & Hmqd & Hx). apply Hq in Hmqd.
  revert H. pose proof Hx as H. intros Hafter.
  apply bind_Ok in H as (m1 & H1 & H). rewrite Heq in H. simpl in H.
  apply bind_Ok in H as (m2 & H2 & H). rewrite Hfq in H. simpl in H.
  apply bind_Ok in H as (m3 & H3 & H).
  apply bind_Ok in H as (mu1 & Hs1 & H). apply bind_Ok in H as (mu2 & Hs2 & H).
  injection H as H. subst stx.
  apply after_collapse_frame in Hafter as [Hmu Hsame]. simpl in Hmu, Hsame.
  apply me_Ok in Heq. apply mf_Ok in Hfq. Z.to_euclidean_division_equations.
  exists mu1. rewrite Hmu. split; [done|]. split; [done|].
  eapply mm_ok_same_tables; [exact Hsame|].
  apply (flipdel_spec _ _ _ _ _ _ Hok Hmqd) in H1.
  apply (flipdel_spec _ _ _ _ _ _ H1) in H2; [|by lookups].
  apply (flipdel_spec _ _ _ _ _ _ H2) in H3; [done|by lookups].
Qed.

(** ** The three sampling modes *)

Lemma sampled_refl st : sampled 0 st st.
Proof.
  exists (M st). split; [apply same_tables_refl|].
  rewrite Nat.add_0_r. by destruct st.
Qed.

Lemma sampled_draw st k st' :
  forall m', same_tables (M st) m' ->
  sampled k (set_M (set_drawn st (S (drawn st))) m') st' -> sampled (S k) st st'.
Proof.
  intros m' Hs (m2 & Hs2 & ->). simpl in *. exists m2.
  split; [by eapply same_tables_trans|].
  unfold set_drawn, set_M. simpl. f_equal. lia.
Qed.

Lemma read_cand_spec cfg mu p q c :
  read_cand cfg mu p q = Ok c ->
  c_p c = p /\ c_q c = q /\
  exists ep fp eq fq,
    me cfg p = Ok ep /\ mf cfg p = Ok fp /\ me cfg q = Ok eq /\ mf cfg q = Ok fq /\
    vget mu ep = Ok (c_mpe c) /\ vget mu fp = Ok (c_mpf c) /\
    vget mu eq = Ok (c_mqe c) /\ vget mu fq = Ok (c_mqf c) /\
    c_mpen c = Z.lxor (c_mqe c) (c_mpe c) /\
    c_mqfn c = Z.lxor (c_mqf c) (c_mpf c).
Proof.
  unfold read_cand. intros H.
  apply bind_Ok in H as (ep & Hep & H). apply bind_Ok in H as (mpe & Hmpe & H).
  apply bind_Ok in H as (fp & Hfp & H). apply bind_Ok in H as (mpf & Hmpf & H).
  apply bind_Ok in H as (eq & Heq & H). apply bind_Ok in H as (mqe & Hmqe & H).
  apply bind_Ok in H as (fq & Hfq & H). apply bind_Ok in H as (mqf & Hmqf & H).
  injection H as <-. simpl. split; [done|]. split; [done|].
  exists ep, fp, eq, fq. done.
Qed.

Lemma flip_ctx_intro cfg mu asg p q c pm v :
  read_cand cfg mu p q = Ok c ->
  permit cfg p q = Ok pm -> pm <> 0 -> 0 < symm cfg ->
  asg !! p = Some v -> asg !! q = Some v ->
  exists ep fp eq fq, flip_ctx cfg mu asg c ep fp eq fq.
Proof.
  intros Hc Hpm Hne Hs Hp Hq.
  apply read_cand_spec in Hc as (<- & <- & ep & fp & eq & fq & ?).
  apply permit_Ok in Hpm as (_ & _ & ?); [|done..].
  exists ep, fp, eq, fq. split; try tauto; eauto.
Qed.

Lemma sample_any_spec mt cfg asg : forall fuel st p q st1,
  mm_ok (nomuls cfg) (M st) asg ->
  sample_any mt cfg fuel st = Ok (p, q, st1) ->
  (exists k, sampled k st st1) /\
  exists pm v, permit cfg p q = Ok pm /\ pm <> 0 /\
               asg !! p = Some v /\ asg !! q = Some v.
Proof.
  induction fuel as [|fuel IH]; intros st p q st1 Hok H; simpl in H; [done|].
  apply bind_Ok in H as ([[p' q'] m'] & Hsp & H).
  apply (sample_pair_spec _ _ _ _ _ _ _ Hok) in Hsp as [Hsame Hv].
  apply bind_Ok in H as (pm & Hpm & H).
  destruct (negb (pm =? 0)) eqn:E.
  - injection H as <- <- <-. split.
    + exists 1%nat. eapply sampled_draw; [exact Hsame|apply sampled_refl].
    + destruct Hv as (v & ? & ?). exists pm, v. repeat split; auto.
      intros ->. done.
  - apply IH in H as [[k Hk] Hr]; [|by eapply mm_ok_same_tables].
    split; [|done]. exists (S k). eapply sampled_draw; eauto.
Qed.

Lemma sample_sized_spec mt cfg asg : forall k st oc st1,
  0 < symm cfg -> mm_ok (nomuls cfg) (M st) asg ->
  sample_sized mt cfg k st = Ok (oc, st1) ->
  exists k', sampled k' st st1 /\ (oc = None -> k' = k) /\
    forall c, oc = Some c ->
      exists ep fp eq fq, flip_ctx cfg (muls st) asg c ep fp eq fq.
Proof.
  induction k as [|k IH]; intros st oc st1 Hs Hok H; simpl in H.
  { injection H as <- <-. exists 0%nat. split; [apply sampled_refl|]. done. }
  apply bind_Ok in H as ([[p' q'] m'] & Hsp & H).
  apply (sample_pair_spec _ _ _ _ _ _ _ Hok) in Hsp as [Hsame (v & Hp & Hq)].
  apply bind_Ok in H as (c & Hc & H).
  apply bind_Ok in H as (mp & _ & H). apply bind_Ok in H as (mq & _ & H).
  apply bind_Ok in H as (pm & Hpm & H).
  assert (Hrec : forall oc st1,
    sample_sized mt cfg k (set_M (set_drawn st (S (drawn st))) m') = Ok (oc, st1) ->
    exists k', sampled k' st st1 /\ (oc = None -> k' = S k) /\
      forall c, oc = Some c ->
        exists ep fp eq fq, flip_ctx cfg (muls st) asg c ep fp eq fq).
  { intros oc' st' H'.
    apply IH in H' as (k' & Hk' & Hn & Hc'); [|done|by eapply mm_ok_same_tables].
    exists (S k'). split; [eapply sampled_draw; eauto|]. split; [auto|done]. }
  match type of H with (if ?b then _ else _) = _ => destruct b eqn:E end;
    [|by apply Hrec].
  injection H as <- <-. exists 1%nat.
  split; [eapply sampled_draw; [exact Hsame|apply sampled_refl]|].
  split; [done|]. intros c' [= <-].
  apply andb_prop in E as [E _]. apply andb_prop in E as [E _].
  apply (flip_ctx_intro _ _ asg _ _ _ _ v Hc Hpm); auto.
  intros ->. done.
Qed.

Lemma sample_bits_spec mt cfg asg : forall k st oc st1,
  0 < symm cfg -> mm_ok (nomuls cfg) (M st) asg ->
  sample_bits mt cfg k st = Ok (oc, st1) ->
  exists k', sampled k' st st1 /\ (oc = None -> k' = k) /\
    forall c, oc = Some c ->
      exists ep fp eq fq, flip_ctx cfg (muls st) asg c ep fp eq fq.
Proof.
  induction k as [|k IH]; intros st oc st1 Hs Hok H; simpl in H.
  { injection H as <- <-. exists 0%nat. split; [apply sampled_refl|]. done. }
  apply bind_Ok in H as ([[p' q'] m'] & Hsp & H).
  apply (sample_pair_spec _ _ _ _ _ _ _ Hok) in Hsp as [Hsame (v & Hp & Hq)].
  apply bind_Ok in H as (c & Hc & H).
  apply bind_Ok in H as (pm & Hpm & H).
  assert (Hrec : forall oc st1,
    sample_bits mt cfg k (set_M (set_drawn st (S (drawn st))) m') = Ok (oc, st1) ->
    exists k', sampled k' st st1 /\ (oc = None -> k' = S k) /\
      forall c, oc = Some c ->
        exists ep fp eq fq, flip_ctx cfg (muls st) asg c ep fp eq fq).
  { intros oc' st' H'.
    apply IH in H' as (k' & Hk' & Hn & Hc'); [|done|by eapply mm_ok_same_tables].
    exists (S k'). split; [eapply sampled_draw; eauto|]. split; [auto|done]. }
  match type of H with (if ?b then _ else _) = _ => destruct b eqn:E end;
    [|by apply Hrec].
  injection H as <- <-. exists 1%nat.
  split; [eapply sampled_draw; [exact Hsame|apply sampled_refl]|].
  split; [done|]. intros c' [= <-].
  apply andb_prop in E as [E _]. apply andb_prop in E as [E _].
  apply (flip_ctx_intro _ _ asg _ _ _ _ v Hc Hpm); auto.
  intros ->. done.
Qed.

Lemma sample_flip_spec mt cfg gas asg st oc st1 :
  0 < symm cfg -> mm_ok (nomuls cfg) (M st) asg ->
  sample_flip mt cfg gas st = Ok (oc, st1) ->
  exists k, sampled k st st1 /\
    (oc = None -> k = 1000%nat /\ maxsize cfg <> 0) /\
    forall c, oc = Some c ->
      exists ep fp eq fq, flip_ctx cfg (muls st) asg c ep fp eq fq.
Proof.
  intros Hs Hok H. unfold sample_flip in H.
  destruct (maxsize cfg =? 0) eqn:E0.
  - apply bind_Ok in H as ([[p q] st2] & Hsa & H).
    apply (sample_any_spec _ _ _ _ _ _ _ _ Hok) in Hsa
      as [[k Hk] (pm & v & Hpm & Hne & Hp & Hq)].
    apply bind_Ok in H as (c & Hc & H). injection H as <- <-.
    exists k. split; [done|]. split; [done|]. intros c' [= <-].
    destruct Hk as (m' & _ & ->).
    apply (flip_ctx_intro _ _ asg _ _ _ _ v Hc Hpm); auto.
  - apply Z.eqb_neq in E0. destruct (maxsize cfg >? 0).
    + apply sample_sized_spec with (asg := asg) in H as (k & Hk & Hn & Hc); auto.
      exists k. split; [done|]. split; [|done]. intros ->. split; auto.
    + apply sample_bits_spec with (asg := asg) in H as (k & Hk & Hn & Hc); auto.
      exists k. split; [done|]. split; [|done]. intros ->. split; auto.
Qed.

Lemma triple_slots cfg p ep fp :
  me cfg p = Ok ep -> mf cfg p = Ok fp -> nomuls cfg mod 3 = 0 ->
  (p <> ep /\ p <> fp /\ ep <> fp) /\
  (ep / 3 = p / 3 /\ fp / 3 = p / 3) /\
  (0 <= p < nomuls cfg /\ 0 <= ep < nomuls cfg /\ 0 <= fp < nomuls cfg) /\
  (forall s, s / 3 = p / 3 -> s = p \/ s = ep \/ s = fp).
Proof.
  intros Hep Hfp Hn. apply me_Ok in Hep. apply mf_Ok in Hfp.
  repeat split; try zdiv. intros s Hs. zdiv.
Qed.

Ltac clookups :=
  repeat first
    [ rewrite lookup_insert_eq | rewrite lookup_delete_eq
    | rewrite lookup_insert_ne by congruence
    | rewrite lookup_delete_ne by congruence ].

Ltac vgets :=
  repeat match goal with
  | H : vset ?mu ?a ?x = Ok ?mu' |- context [vget ?mu' ?s] =>
      rewrite (vget_vset mu a x mu' s H)
  end.

Ltac vgets_in H0 :=
  repeat match goal with
  | H : vset ?mu ?a ?x = Ok ?mu' |- _ =>
      match type of H0 with context [vget mu' ?s] =>
        rewrite (vget_vset mu a x mu' s H) in H0
      end
  end.

Lemma vsize_chain mu a x mu' : vset mu a x = Ok mu' -> vsize mu' = vsize mu.
Proof. intros H. by apply vset_Ok in H as [_ ?]. Qed.

Lemma tracks_leaf (a : option Z) x v (P : Prop) :
  a = Some x -> x <> 0 -> (a = Some v <-> Ok x = Ok v /\ (v <> 0 \/ P)).
Proof. intros -> Hx. split; [intros [= <-]; auto|intros [[= <-] _]; done]. Qed.

Lemma tracks_leaf0 (a : option Z) x (v : Z) (P : Prop) :
  a = None -> x = 0 -> ~ P -> (a = Some v <-> Ok x = Ok v /\ (v <> 0 \/ P)).
Proof. intros -> -> HP. split; [done|]. intros [[= <-] [?|?]]; done. Qed.

Theorem flip3_inv mt cfg gas st st' :
  Inv 3 cfg st -> flip3 mt cfg gas st = Ok (Go, st') -> Inv 3 cfg st'.
Proof.
  intros [Hsym [Hn0 Hn] Hlen Hg (asg & Hok & Htr)] H. unfold flip3 in H.
  apply bind_Ok in H as ([oc st1] & Hsf & H).
  apply sample_flip_spec with (asg := asg) in Hsf as (k & Hk & _ & Hc); [|lia|done].
  destruct oc as [c|]; [|done].
  destruct (Hc c eq_refl) as (ep & fp & eq & fq & Hctx). clear Hc.
  destruct Hk as (m1 & Hsame & ->).
  apply bind_Ok in H as (st2 & Hcm & H).
  apply commit3_chain with (asg := asg) (ep := ep) (fp := fp) (eq := eq) (fq := fq)
    in Hcm as (mu1 & Hs1 & Hs2 & Hok2 & Est2);
    [|done|done|done|done|done|by eapply mm_ok_same_tables].
  simpl in Hs1.
  destruct Hctx as [Hep Hfp Heq Hfq Hmpe Hmpf Hmqe Hmqf Hmpen Hmqfn [vp Hvp] [vq Hvq] Hap].
  simpl in Hmpe, Hmpf, Hmqe, Hmqf. rewrite Hsym in Hap.
  destruct (triple_slots _ _ _ _ Hep Hfp Hn)
    as ((Dp1 & Dp2 & Dp3) & (Tp1 & Tp2) & _ & Mp).
  destruct (triple_slots _ _ _ _ Heq Hfq Hn)
    as ((Dq1 & Dq2 & Dq3) & (Tq1 & Tq2) & _ & Mq).
  destruct (live_partner _ _ (c_p c) ep _ Htr Hg (mk_is_Some _ _ Hvp) Tp1 Hmpe) as [Ha1 Hz1].
  destruct (live_partner _ _ (c_p c) fp _ Htr Hg (mk_is_Some _ _ Hvp) Tp2 Hmpf) as [Ha2 Hz2].
  destruct (live_partner _ _ (c_q c) eq _ Htr Hg (mk_is_Some _ _ Hvq) Tq1 Hmqe) as [Ha3 Hz3].
  destruct (live_partner _ _ (c_q c) fq _ Htr Hg (mk_is_Some _ _ Hvq) Tq2 Hmqf) as [Ha4 Hz4].
  pose proof (proj1 (Htr _ _) Hvp) as [Hgp [Hzp|Hin]]; [|by apply elem_of_nil in Hin].
  pose proof (proj1 (Htr _ _) Hvq) as [Hgq [Hzq|Hin]]; [|by apply elem_of_nil in Hin].
  set (asg2 := <[fq := c_mqfn c]> (delete fq (<[ep := c_mpen c]> (delete ep asg)))) in *.
  apply bind_Ok in H as ([s1 st3] & Hcp & H).
  assert (exists asg3, mm_ok (nomuls cfg) (M st3) asg3 /\
    ((c_mpen c = 0 /\ asg3 = delete fp (delete ep (delete (c_p c) asg2)) /\
      exists mua, vset (muls st2) (c_p c) 0 = Ok mua /\ vset mua fp 0 = Ok (muls st3)) \/
     (c_mpen c <> 0 /\ asg3 = asg2 /\ muls st3 = muls st2)))
    as (asg3 & Hok3 & Hcase3).
  { destruct (c_mpen c =? 0) eqn:E.
    - apply Z.eqb_eq in E.
      eapply collapse_p3_chain with (asg := asg2) in Hcp as (mua & Hsa & Hsb & Hok3); eauto.
      + exists (delete fp (delete ep (delete (c_p c) asg2))). split; [done|].
        left. eauto.
      + intros x Hx. vgets_in Hx. rewrite !decide_False in Hx by congruence.
        unfold asg2. clookups. congruence.
      + unfold asg2. by clookups.
      + unfold asg2. by clookups.
    - apply Z.eqb_neq in E. injection Hcp as <- <-. exists asg2. split; [done|].
      right. done. }
  destruct s1; [|done].
  assert (exists asg4, mm_ok (nomuls cfg) (M st') asg4 /\
    ((c_mqfn c = 0 /\ asg4 = delete fq (delete eq (delete (c_q c) asg3)) /\
      exists mua, vset (muls st3) (c_q c) 0 = Ok mua /\ vset mua eq 0 = Ok (muls st')) \/
     (c_mqfn c <> 0 /\ asg4 = asg3 /\ muls st' = muls st3)))
    as (asg4 & Hok4 & Hcase4).
  { destruct (c_mqfn c =? 0) eqn:E.
    - apply Z.eqb_eq in E.
      eapply collapse_q3_chain with (asg := asg3) in H as (mua & Hsa & Hsb & Hok4); eauto.
      + exists (delete fq (delete eq (delete (c_q c) asg3))). split; [done|].
        left. eauto.
      + intros x Hx.
        destruct Hcase3 as [(_ & -> & mua & Hsa & Hsb)|(_ & -> & Emu)].
        * vgets_in Hx. rewrite !decide_False in Hx by congruence.
          unfold asg2. clookups. congruence.
        * rewrite Emu in Hx. vgets_in Hx. rewrite !decide_False in Hx by congruence.
          unfold asg2. clookups. congruence.
      + destruct Hcase3 as [(_ & -> & _)|(_ & -> & _)]; unfold asg2; by clookups.
      + destruct Hcase3 as [(_ & -> & _)|(_ & -> & _)]; unfold asg2; by clookups.
    - apply Z.eqb_neq in E. injection H as <-. exists asg3. split; [done|].
      right. done. }
  clear Hok Hok2 Hok3 Hsame Hep Hfp Heq Hfq H Hcp.
  split; [done|done| | |].
  - (* the length of muls *)
    destruct Hcase3 as [(_ & _ & mua & Hsa & Hsb)|(_ & _ & Emu3)];
    destruct Hcase4 as [(_ & _ & mub & Hsc & Hsd)|(_ & _ & Emu4)];
    repeat match goal with
    | H : vset _ _ _ = Ok _ |- _ => apply vsize_chain in H
    end; congruence.
  - (* groups *)
    intros t.
    destruct (decide (t = c_p c / 3)) as [->|Htp];
      [|destruct (decide (t = c_q c / 3)) as [->|Htq]].
    + destruct Hcase3 as [(E3 & _ & mua & Hsa & Hsb)|(E3 & _ & Emu3)];
      destruct Hcase4 as [(E4 & _ & mub & Hsc & Hsd)|(E4 & _ & Emu4)];
      try rewrite Emu4 in *; try rewrite Emu3 in *; [left|left|right|right];
      intros s x Hs; vgets; repeat case_decide; intros Hx;
      first [ injection Hx as <-; solve [done | congruence]
            | solve [eapply (live_partner _ _ (c_p c)); eauto]
            | congruence
            | destruct (Mp s Hs) as [?|[?|?]]; congruence ].
    + destruct Hcase3 as [(E3 & _ & mua & Hsa & Hsb)|(E3 & _ & Emu3)];
      destruct Hcase4 as [(E4 & _ & mub & Hsc & Hsd)|(E4 & _ & Emu4)];
      try rewrite Emu4 in *; try rewrite Emu3 in *; [left|right|left|right];
      intros s x Hs; vgets; repeat case_decide; intros Hx;
      first [ injection Hx as <-; solve [done | congruence]
            | solve [eapply (live_partner _ _ (c_q c)); eauto]
            | congruence
            | destruct (Mq s Hs) as [?|[?|?]]; congruence ].
    + destruct (Hg t) as [Hz|Hnz]; [left|right];
      destruct Hcase3 as [(E3 & _ & mua & Hsa & Hsb)|(E3 & _ & Emu3)];
      destruct Hcase4 as [(E4 & _ & mub & Hsc & Hsd)|(E4 & _ & Emu4)];
      try rewrite Emu4 in *; try rewrite Emu3 in *;
      intros s x Hs; vgets; repeat case_decide; intros Hx;
      first [ solve [eauto] | congruence ].
  - (* the multimap *)
    exists asg4. split; [done|]. intros s v.
    destruct Hcase3 as [(E3 & -> & mua & Hsa & Hsb)|(E3 & -> & Emu3)];
    destruct Hcase4 as [(E4 & -> & mub & Hsc & Hsd)|(E4 & -> & Emu4)];
    try rewrite Emu4 in *; try rewrite Emu3 in *;
    vgets; unfold asg2; repeat case_decide; subst; clookups;
    first [ apply Htr
          | apply tracks_leaf; [done|done]
          | apply tracks_leaf0; [done|done|apply not_elem_of_nil]
          | congruence ].
Qed.

(** ** The plus move of the [symm == 3] loop *)

Lemma recover_frame cfg st :
  muls (recover cfg st) = muls st /\ M (recover cfg st) = M st /\
  rcode (recover cfg st) = rcode st /\ best (recover cfg st) = best st.
Proof. unfold recover. by destruct (flips st >=? recovery st). Qed.

Lemma first_zero_spec mu : forall n r0 r,
  first_zero n r0 mu = Ok r ->
  r0 <= r <= r0 + Z.of_nat n /\
  (forall s, r0 <= s < r -> exists x, vget mu s = Ok x /\ x <> 0) /\
  (r < r0 + Z.of_nat n -> vget mu r = Ok 0).
Proof.
  induction n as [|n IH]; intros r0 r H; simpl in H.
  - injection H as <-. split; [lia|]. split; intros; lia.
  - apply bind_Ok in H as (x & Hx & H). destruct (x =? 0) eqn:E.
    + apply Z.eqb_eq in E. injection H as <-. subst x.
      split; [lia|]. split; [intros; lia|done].
    + apply Z.eqb_neq in E. apply IH in H as (Hr & Hbefore & Hat).
      split; [lia|]. split.
      * intros s Hs. destruct (decide (s = r0)) as [->|]; [eauto|]. apply Hbefore. lia.
      * intros Hlt. apply Hat. lia.
Qed.

Lemma read_pcand_spec cfg mu p q a :
  read_pcand cfg mu p q = Ok a ->
  a_p a = p /\ a_q a = q /\
  exists ep fp eq fq,
    me cfg p = Ok ep /\ mf cfg p = Ok fp /\ me cfg q = Ok eq /\ mf cfg q = Ok fq /\
    vget mu p = Ok (a_mpd a) /\ vget mu ep = Ok (a_mpe a) /\
    vget mu fp = Ok (a_mpf a) /\ vget mu q = Ok (a_mqd a) /\
    vget mu eq = Ok (a_mqe a) /\ vget mu fq = Ok (a_mqf a).
Proof.
  unfold read_pcand. intros H.
  apply bind_Ok in H as (mpd & Hmpd & H).
  apply bind_Ok in H as (ep & Hep & H). apply bind_Ok in H as (mpe & Hmpe & H).
  apply bind_Ok in H as (fp & Hfp & H). apply bind_Ok in H as (mpf & Hmpf & H).
  apply bind_Ok in H as (mqd & Hmqd & H).
  apply bind_Ok in H as (eq & Heq & H). apply bind_Ok in H as (mqe & Hmqe & H).
  apply bind_Ok in H as (fq & Hfq & H). apply bind_Ok in H as (mqf & Hmqf & H).
  injection H as <-. simpl. split; [done|]. split; [done|].
  exists ep, fp, eq, fq. done.
Qed.

Lemma plus_pick3_spec mt cfg : forall fuel st a st1,
  plus_pick3 mt cfg fuel st = Ok (a, st1) ->
  (exists d, st1 = set_drawn st d) /\
  read_pcand cfg (muls st) (a_p a) (a_q a) = Ok a /\
  plus_distinct_ok a = true /\
  exists pm, permit cfg (a_p a) (a_q a) = Ok pm /\ pm <> 0.
Proof.
  induction fuel as [|fuel IH]; intros st a st1 H; simpl in H; [done|].
  destruct (wrap64 (nomuls cfg) =? 0); [done|].
  apply bind_Ok in H as (a' & Ha & H). apply bind_Ok in H as (pm & Hpm & H).
  match type of H with (if ?b then _ else _) = _ => destruct b eqn:E end.
  - injection H as <- <-. split; [by eexists|].
    apply andb_prop in E as [E E3]. apply andb_prop in E as [_ E2].
    pose proof (read_pcand_spec _ _ _ _ _ Ha) as (Ep & Eq & _).
    rewrite Ep, Eq. split; [done|]. split; [done|].
    exists pm. split; [done|]. intros ->. done.
  - apply IH in H as ((d & ->) & ? & ? & ?). split; [by eexists|]. done.
Qed.

Lemma lxor_nonzero a b : a <> b -> Z.lxor a b <> 0.
Proof. intros Hne H. apply Z.lxor_eq in H. done. Qed.

Lemma dead_slot mu asg s :
  tracks mu asg -> vget mu s = Ok 0 -> asg !! s = None.
Proof.
  intros Htr Hs. destruct (asg !! s) as [v|] eqn:E; [|done].
  apply Htr in E as [E [?|Hin]]; [congruence|by apply elem_of_nil in Hin].
Qed.

Lemma dead_partner mu s s' n :
  groups_ok 3 mu -> vsize mu = n -> vget mu s = Ok 0 ->
  s' / 3 = s / 3 -> 0 <= s' < n -> vget mu s' = Ok 0.
Proof.
  intros Hg Hlen Hs Hs' Hr. destruct (vget_range mu s') as [x Hx]; [lia|].
  destruct (Hg (s / 3)) as [Hz|Hnz].
  - by rewrite (Hz s' x Hs' Hx) in Hx.
  - by destruct (Hnz s 0).
Qed.

Theorem plus_apply3_inv cfg st a r st' :
  Inv 3 cfg st ->
  read_pcand cfg (muls st) (a_p a) (a_q a) = Ok a ->
  plus_distinct_ok a = true ->
  a_p a / 3 <> a_q a / 3 ->
  vget (muls st) r = Ok 0 -> r mod 3 = 0 ->
  plus_apply3 cfg st a r = Ok st' ->
  Inv 3 cfg st' /\ st' = set_muls (set_M st (M st')) (muls st').
Proof.
  intros [Hsym [Hn0 Hn] Hlen Hg (asg & Hok & Htr)] Ha Hd Hap Hr Hr3 H.
  apply read_pcand_spec in Ha
    as (_ & _ & ep & fp & eq & fq & Hep & Hfp & Heq & Hfq &
        Hmpd & Hmpe & Hmpf & Hmqd & Hmqe & Hmqf).
  unfold plus_distinct_ok in Hd. apply andb_prop in Hd as [Hd1 Hd2].
  apply negb_true_iff, orb_false_elim in Hd1 as [Hz1 Hz2].
  apply negb_true_iff, orb_false_elim in Hd2 as [Hd2 Hd3].
  apply orb_false_elim in Hd2 as [Hd1 Hd2].
  apply Z.eqb_neq in Hz1, Hz2, Hd1, Hd2, Hd3.
  unfold plus_apply3 in H. rewrite Hep in H. simpl in H.
  apply bind_Ok in H as (m1 & H1 & H). apply bind_Ok in H as (m2 & H2 & H).
  apply bind_Ok in H as (m3 & H3 & H). apply bind_Ok in H as (m4 & H4 & H).
  rewrite Hfq in H. simpl in H.
  apply bind_Ok in H as (m5 & H5 & H). apply bind_Ok in H as (m6 & H6 & H).
  apply bind_Ok in H as (m7 & H7 & H).
  apply bind_Ok in H as (er & Her & H).
  apply bind_Ok in H as (m8 & H8 & H).
  apply bind_Ok in H as (fr & Hfr & H).
  apply bind_Ok in H as (m9 & H9 & H).
  apply bind_Ok in H as (mu1 & Hs1 & H). apply bind_Ok in H as (mu2 & Hs2 & H).
  rewrite Hfp in H. simpl in H.
  apply bind_Ok in H as (mu3 & Hs3 & H). apply bind_Ok in H as (mu4 & Hs4 & H).
  rewrite Heq in H. simpl in H.
  apply bind_Ok in H as (mu5 & Hs5 & H). apply bind_Ok in H as (mu6 & Hs6 & H).
  apply bind_Ok in H as (mu7 & Hs7 & H). apply bind_Ok in H as (mu8 & Hs8 & H).
  apply bind_Ok in H as (mu9 & Hs9 & H). injection H as <-. simpl.
  split; [|done].
  destruct (triple_slots _ _ _ _ Hep Hfp Hn)
    as ((Dp1 & Dp2 & Dp3) & (Tp1 & Tp2) & (Rp & Rep & Rfp) & Mp).
  destruct (triple_slots _ _ _ _ Heq Hfq Hn)
    as ((Dq1 & Dq2 & Dq3) & (Tq1 & Tq2) & (Rq & Req & Rfq) & Mq).
  destruct (triple_slots _ _ _ _ Her Hfr Hn)
    as ((Dr1 & Dr2 & Dr3) & (Tr1 & Tr2) & (Rr & Rer & Rfr) & Mr).
  assert (Hlp : asg !! a_p a = Some (a_mpd a)) by (apply Htr; auto).
  assert (Hlq : asg !! a_q a = Some (a_mqd a)) by (apply Htr; auto).
  destruct (live_partner _ _ (a_p a) ep _ Htr Hg (mk_is_Some _ _ Hlp) Tp1 Hmpe) as [Ha1 Hn1].
  destruct (live_partner _ _ (a_p a) fp _ Htr Hg (mk_is_Some _ _ Hlp) Tp2 Hmpf) as [Ha2 Hn2].
  destruct (live_partner _ _ (a_q a) eq _ Htr Hg (mk_is_Some _ _ Hlq) Tq1 Hmqe) as [Ha3 Hn3].
  destruct (live_partner _ _ (a_q a) fq _ Htr Hg (mk_is_Some _ _ Hlq) Tq2 Hmqf) as [Ha4 Hn4].
  pose proof (dead_partner _ _ er _ Hg Hlen Hr Tr1 Rer) as Hzer.
  pose proof (dead_partner _ _ fr _ Hg Hlen Hr Tr2 Rfr) as Hzfr.
  pose proof (dead_slot _ _ _ Htr Hr) as Hnr.
  pose proof (dead_slot _ _ _ Htr Hzer) as Hner.
  pose proof (dead_slot _ _ _ Htr Hzfr) as Hnfr.
  assert (Hrp : r / 3 <> a_p a / 3).
  { intros E. destruct (live_partner _ _ (a_p a) r _ Htr Hg (mk_is_Some _ _ Hlp) E Hr). done. }
  assert (Hrq : r / 3 <> a_q a / 3).
  { intros E. destruct (live_partner _ _ (a_q a) r _ Htr Hg (mk_is_Some _ _ Hlq) E Hr). done. }
  pose proof (lxor_nonzero _ _ Hd2) as Hx1.
  pose proof (lxor_nonzero _ _ Hd3) as Hx2.
  pose proof (lxor_nonzero _ _ Hd1) as Hx3.
  apply (flipdel_spec _ _ _ _ _ _ Hok Ha1) in H1.
  apply (flipadd_spec _ _ _ _ _ _ H1) in H2; [|by clookups|done].
  apply (flipdel_spec _ _ _ _ _ _ H2) in H3; [|by clookups].
  apply (flipadd_spec _ _ _ _ _ _ H3) in H4; [|by clookups|done].
  apply (flipdel_spec _ _ _ _ _ _ H4) in H5; [|by clookups].
  apply (flipadd_spec _ _ _ _ _ _ H5) in H6; [|by clookups|done].
  apply (flipadd_spec _ _ _ _ _ _ H6) in H7; [|by clookups|done].
  apply (flipadd_spec _ _ _ _ _ _ H7) in H8; [|by clookups|done].
  apply (flipadd_spec _ _ _ _ _ _ H8) in H9; [|by clookups|done].
  clear Hok H1 H2 H3 H4 H5 H6 H7 H8 Hep Hfp Heq Hfq Her Hfr.
  split; simpl; [done|done| | |].
  - repeat match goal with
    | H : vset _ _ _ = Ok _ |- _ => apply vsize_chain in H
    end; congruence.
  - intros t.
    destruct (decide (t = a_p a / 3)) as [->|Htp];
      [|destruct (decide (t = a_q a / 3)) as [->|Htq];
        [|destruct (decide (t = r / 3)) as [->|Htr']]].
    + right. intros s x Hs; vgets; repeat case_decide; intros Hx;
      first [ injection Hx as <-; solve [done | congruence]
            | congruence
            | destruct (Mp s Hs) as [?|[?|?]]; congruence ].
    + right. intros s x Hs; vgets; repeat case_decide; intros Hx;
      first [ injection Hx as <-; solve [done | congruence]
            | congruence
            | destruct (Mq s Hs) as [?|[?|?]]; congruence ].
    + right. intros s x Hs; vgets; repeat case_decide; intros Hx;
      first [ injection Hx as <-; solve [done | congruence]
            | congruence
            | destruct (Mr s Hs) as [?|[?|?]]; congruence ].
    + destruct (Hg t) as [Hz|Hnz]; [left|right];
      intros s x Hs; vgets; repeat case_decide; intros Hx;
      first [ solve [eauto] | congruence ].
  - eexists. split; [exact H9|]. intros s v.
    vgets; repeat case_decide; subst; clookups;
    first [ apply Htr
          | apply tracks_leaf; [done|done]
          | congruence ].
Qed.

Lemma Inv_frame w cfg st st' :
  muls st' = muls st -> M st' = M st -> Inv w cfg st -> Inv w cfg st'.
Proof. intros Hmu HM [? ? ? ? ?]. split; rewrite ?Hmu, ?HM; done. Qed.

Lemma plus_apply3_slot cfg st a r st' :
  plus_apply3 cfg st a r = Ok st' -> 0 <= r < nomuls cfg.
Proof.
  unfold plus_apply3. intros H.
  apply bind_Ok in H as (ep & _ & H).
  do 8 (apply bind_Ok in H as (? & _ & H)).
  apply bind_Ok in H as (er & Her & _). by apply me_Ok in Her as [? _].
Qed.

Theorem plus3_inv mt cfg gas st st' :
  Inv 3 cfg st -> plus3 mt cfg gas st = Ok st' -> Inv 3 cfg st'.
Proof.
  intros HI H. unfold plus3 in H.
  destruct (recover_frame cfg st) as (Hmu & HM & _).
  apply (Inv_frame _ _ _ _ Hmu HM) in HI.
  apply bind_Ok in H as (r & Hr & H).
  apply bind_Ok in H as ([a st1] & Hpick & H).
  apply bind_Ok in H as (st2 & Happ & H).
  apply plus_pick3_spec in Hpick as ((d & ->) & Hread & Hd & pm & Hpm & Hne).
  apply reschedule_frame in H as (pb & d' & ->).
  pose proof (plus_apply3_slot _ _ _ _ _ Happ) as Hrn.
  apply first_zero_spec in Hr as (_ & Hbefore & Hat).
  rewrite Z2Nat.id in Hat by (destruct HI as [_ [? _] _ _ _]; done).
  specialize (Hat ltac:(lia)).
  assert (Hsym := inv_symm _ _ _ HI).
  assert (Hr3 : r mod 3 = 0).
  { destruct (decide (r mod 3 = 0)) as [|Hnz]; [done|].
    destruct (Hbefore (r - 1)) as (x & Hx & Hx0); [zdiv|].
    destruct (inv_groups _ _ _ HI (r / 3)) as [Hz|Hnzg].
    - destruct Hx0. apply (Hz (r - 1)); [zdiv|done].
    - destruct (Hnzg r 0); done. }
  apply permit_Ok in Hpm as (_ & _ & Hap); [|done|lia]. rewrite Hsym in Hap.
  apply plus_apply3_inv in Happ as [HI2 _];
    [|revert HI; by apply Inv_frame|done|done|done|done|done].
  revert HI2. by apply Inv_frame.
Qed.

(** ** The invariant gives the agreement of the multimap with [muls] *)

Lemma contains_scan_total d k : forall n,
  (forall i, 0 <= i < Z.of_nat n -> is_Some (key d !! (lasthash d + i))) ->
  exists r, contains_scan n d k = Ok r.
Proof.
  induction n as [|n IH]; intros Hcell; simpl; [eauto|].
  destruct (Hcell (Z.of_nat n)) as [x Hx]; [lia|].
  unfold rd. rewrite Hx. simpl. destruct (x =? k); [eauto|].
  apply IH. intros i Hi. apply Hcell. lia.
Qed.

Lemma contains_total d m k :
  dict_rep d m -> exists r, contains d k = Ok (r, set_lasthash d (hash k)).
Proof.
  intros Hrep. unfold contains.
  destruct (Hrep (hash k) (hash_head k)) as (c & Hc & Hcr & Hcell & _).
  change (rdcount (set_lasthash d (hash k)) (lasthash (set_lasthash d (hash k))))
    with (rdcount d (hash k)).
  rewrite Hc. simpl. destruct (c =? 0) eqn:E0; [eauto|]. apply Z.eqb_neq in E0.
  destruct (c =? 1) eqn:E1.
  - destruct (Hcell 0) as (k0 & v0 & Hk0 & _); [lia|]. rewrite Z.add_0_r in Hk0.
    unfold rd. rewrite Hk0. simpl. destruct (k0 =? k); eauto.
  - destruct (contains_scan_total (set_lasthash d (hash k)) k (Z.to_nat c)) as [r Hr].
    + intros i Hi. destruct (Hcell i) as (k0 & v0 & Hk0 & _); [lia|]. simpl. eauto.
    + rewrite Hr. simpl. eauto.
Qed.

Lemma find_down_total ks k : forall fuel i x j,
  i - Z.of_nat fuel <= j <= i -> <[i := x]> ks !! j = Some k ->
  (forall t, j <= t < i -> is_Some (ks !! t)) ->
  exists j', find_down fuel ks i x k = Ok j'.
Proof.
  induction fuel as [|fuel IH]; intros i x j Hj Hk Hcell; simpl.
  - assert (j = i) as -> by lia. rewrite lookup_insert_eq in Hk. injection Hk as ->.
    rewrite Z.eqb_refl. eauto.
  - destruct (x =? k) eqn:E; [eauto|]. apply Z.eqb_neq in E.
    assert (j <> i) by (intros ->; rewrite lookup_insert_eq in Hk; congruence).
    rewrite lookup_insert_ne in Hk by done.
    destruct (Hcell (i - 1)) as [x' Hx']; [lia|]. unfold rd. rewrite Hx'. simpl.
    apply (IH _ _ j); [lia| |intros t Ht; apply Hcell; lia].
    by rewrite insert_id.
Qed.

Lemma getvaluex_total d m k v :
  dict_rep d m -> lasthash d = hash k -> m !! k = Some v ->
  getvaluex d k = Ok v.
Proof.
  intros Hrep Hh Hk.
  assert (exists v', getvaluex d k = Ok v') as [v' Hv'].
  { unfold getvaluex. rewrite Hh.
    destruct (Hrep (hash k) (hash_head k)) as (c & Hc & Hcr & Hcell & Hinj & Hsur).
    destruct (Hsur k v eq_refl Hk) as (i0 & Hi0 & Hki0).
    rewrite Hc. simpl. destruct (c =? 1) eqn:E1.
    - destruct (Hcell 0) as (k0 & v0 & _ & Hv0 & _); [lia|]. rewrite Z.add_0_r in Hv0.
      unfold rd. rewrite Hv0. eauto.
    - destruct (c <? 1) eqn:E2; [lia|].
      destruct (Hcell (c - 1)) as (k1 & v1 & Hk1 & _); [lia|].
      replace (hash k + (c - 1)) with (hash k + c - 1) in Hk1 by lia.
      assert (Hrd : rd (key d) (hash k + c - 1) = Ok k1) by (unfold rd; by rewrite Hk1).
      rewrite Hrd. simpl.
      destruct (find_down_total (key d) k (Z.to_nat (c - 1)) (hash k + c - 1) k1 (hash k + i0))
        as [j Hj]; [lia|by rewrite insert_id| |].
      + intros t Ht. destruct (Hcell (t - hash k)) as (k2 & v2 & Hk2 & _); [lia|].
        replace (hash k + (t - hash k)) with t in Hk2 by lia. eauto.
      + rewrite Hj. simpl. apply find_down_spec in Hj as [Hjr _].
        destruct (Hcell (j - hash k)) as (k2 & v2 & _ & Hv2 & _); [lia|].
        replace (hash k + (j - hash k)) with j in Hv2 by lia.
        unfold rd. rewrite Hv2. eauto. }
  rewrite Hv'. f_equal. eapply getvaluex_spec; eauto.
Qed.

Lemma read_block_spec ua : forall n base,
  (forall i, 0 <= i < Z.of_nat n -> is_Some (ua !! (base + i))) ->
  exists slots, read_block n ua base = Ok slots /\ length slots = n /\
    forall i : nat, (i < n)%nat -> slots !! i = ua !! (base + Z.of_nat i).
Proof.
  induction n as [|n IH]; intros base Hcell; simpl.
  - exists []. split; [done|]. split; [done|]. intros; lia.
  - destruct (Hcell 0) as [s Hs]; [lia|]. rewrite Z.add_0_r in Hs.
    unfold rd. rewrite Hs. simpl.
    destruct (IH (base + 1)) as (rest & Hrest & Hlen & Hlook).
    { intros i Hi. rewrite <- Z.add_assoc. apply Hcell. lia. }
    rewrite Hrest. simpl. exists (s :: rest). split; [done|]. split; [simpl; lia|].
    intros [|i] Hi; simpl.
    + by rewrite Z.add_0_r.
    + rewrite Hlook by lia. f_equal. lia.
Qed.

Lemma M_slots_spec n m asg um tm v :
  mm_rep n m asg um tm ->
  exists slots, M_slots m v = Ok slots /\ NoDup slots /\
    (forall s, s ∈ slots <-> asg !! s = Some v) /\
    ((2 <= length slots)%nat <-> is_Some (tm !! v)).
Proof.
  intros [Hu Ht Hrange Hused Hblock Hinj Hav Hnd Hidx Htwo]. unfold M_slots.
  destruct (contains_total _ _ v Hu) as [r Hr]. rewrite Hr. simpl.
  destruct (contains_spec _ _ _ _ _ Hu Hr) as [_ [[-> [b Hb]]|[-> Hno]]]; simpl.
  - destruct (Hblock v b Hb) as [_ (l & Hl & Hlr & Hcell & Hcinj & Hsur)].
    rewrite (getvaluex_total _ um v b); [|done|done|done]. simpl.
    unfold rd. rewrite Hl. simpl.
    destruct (read_block_spec (unarray m) (Z.to_nat l) (b + 1)) as (slots & Hrd & Hlen & Hlook).
    { intros i Hi. destruct (Hcell (1 + i)) as (s & Hs & _); [lia|].
      rewrite <- Z.add_assoc. eauto. }
    exists slots. split; [done|].
    assert (Hlk : forall i : nat, (i < Z.to_nat l)%nat ->
              slots !! i = unarray m !! (b + (1 + Z.of_nat i))).
    { intros i Hi. rewrite Hlook by done. f_equal. lia. }
    assert (Hmem : forall s, s ∈ slots <-> asg !! s = Some v).
    { intros s. rewrite list_elem_of_lookup. split.
      - intros (i & Hi). apply lookup_lt_Some in Hi as Hlt. rewrite Hlk in Hi by lia.
        destruct (Hcell (1 + Z.of_nat i)) as (s' & Hs' & Ha); [lia|]. congruence.
      - intros Ha. destruct (Hsur s Ha) as (i & Hi & Hc).
        exists (Z.to_nat (i - 1)). rewrite Hlk by lia.
        rewrite <- Hc. f_equal. lia. }
    assert (Hnodup : NoDup slots).
    { apply NoDup_alt. intros i j s Hi Hj.
      apply lookup_lt_Some in Hi as Hlti. apply lookup_lt_Some in Hj as Hltj.
      rewrite Hlk in Hi, Hj by lia.
      assert (1 + Z.of_nat i = 1 + Z.of_nat j) by (apply (Hcinj _ _ s); auto; lia). lia. }
    split; [done|]. split; [done|]. rewrite Htwo, Hlen.
    rewrite (block_pair n (unarray m) asg v b l); [lia| |done].
    exists l. done.
  - exists []. split; [done|]. split; [apply NoDup_nil_2|]. split.
    + intros s. split; [intros Hs; by apply elem_of_nil in Hs|].
      intros Ha. assert (is_Some (um !! v)) as [? ?] by (apply Hused; eauto). congruence.
    + simpl. split; [lia|]. intros Hs. apply Htwo in Hs as (s1 & _ & _ & Ha & _).
      assert (is_Some (um !! v)) as [? ?] by (apply Hused; eauto). congruence.
Qed.

Lemma index_rep_elem tl tm v : index_rep tl tm -> v ∈ tl <-> is_Some (tm !! v).
Proof.
  intros Hidx. rewrite list_elem_of_lookup. split.
  - intros (i & Hi). exists (Z.of_nat i). apply Hidx. split; [lia|]. by rewrite Nat2Z.id.
  - intros (z & Hz). apply Hidx in Hz as [_ Hz]. eauto.
Qed.

Lemma index_rep_NoDup tl tm : index_rep tl tm -> NoDup tl.
Proof.
  intros Hidx. apply NoDup_alt. intros i j v Hi Hj.
  assert (tm !! v = Some (Z.of_nat i)) as H1 by (apply Hidx; rewrite Nat2Z.id; split; [lia|done]).
  assert (tm !! v = Some (Z.of_nat j)) as H2 by (apply Hidx; rewrite Nat2Z.id; split; [lia|done]).
  rewrite H1 in H2. injection H2. lia.
Qed.

Lemma Inv_consistent w cfg st : Inv w cfg st -> consistent (muls st) (M st).
Proof.
  intros [_ _ _ _ (asg & (um & tm & Hrep) & Htr)].
  split; [|split].
  - intros v. destruct (M_slots_spec _ _ _ _ _ v Hrep) as (slots & Hs & Hnd & Hmem & _).
    exists slots. split; [done|]. split; [done|]. intros s. rewrite Hmem, (Htr s v).
    split; [intros [? [?|Hin]]; [done|by apply elem_of_nil in Hin]|intros [? ?]; auto].
  - intros v. destruct (M_slots_spec _ _ _ _ _ v Hrep) as (slots & Hs & Hnd & Hmem & Hlen).
    rewrite (index_rep_elem _ _ _ (rep_index _ _ _ _ _ Hrep)), <- Hlen. split.
    + intros Hl. eauto.
    + intros (slots' & Hs' & Hl). congruence.
  - apply (index_rep_NoDup _ _ (rep_index _ _ _ _ _ Hrep)).
Qed.

(** ** Set-up establishes the invariant *)

Lemma dict_rep_new : dict_rep fgdict_new ∅.
Proof.
  intros h (j & Hj & ->). exists 0. split.
  - unfold rdcount, fgdict_new. simpl. rewrite lookup_empty.
    replace ((0 <=? 16 * j) && (16 * j <? 1048576) && ((16 * j) mod 16 =? 0)) with true; [done|].
    symmetry. rewrite !andb_true_iff. repeat split; [lia|lia|]. apply Z.eqb_eq. zdiv.
  - split; [lia|]. split; [intros; lia|]. split; [intros; lia|].
    intros k v _ Hk. by rewrite lookup_empty in Hk.
Qed.

Lemma mm_ok_new cfg :
  0 <= nomuls cfg ->
  mm_ok (nomuls cfg) (mkmm fgdict_new fgdict_new ∅ (init_avail cfg) []) ∅.
Proof.
  intros Hn. exists ∅, ∅. split; simpl.
  - apply dict_rep_new.
  - apply dict_rep_new.
  - intros s v Hs. by rewrite lookup_empty in Hs.
  - intros v. rewrite lookup_empty. split; [intros [? ?]; done|].
    intros (s & Hs). by rewrite lookup_empty in Hs.
  - intros v b Hb. by rewrite lookup_empty in Hb.
  - intros v1 v2 b Hb. by rewrite lookup_empty in Hb.
  - intros b Hb. unfold init_avail in Hb. apply list_elem_of_fmap in Hb as (i & -> & Hi).
    apply elem_of_seq in Hi. split; [|intros v; by rewrite lookup_empty].
    exists (Z.of_nat i). split; [lia|done].
  - unfold init_avail. apply NoDup_fmap_2_strong; [|apply NoDup_seq].
    intros i j Hi Hj E. apply elem_of_seq in Hi, Hj. nia.
  - intros v z. rewrite lookup_empty. split; [done|]. intros [_ H]. by destruct (Z.to_nat z).
  - intros v. rewrite lookup_empty. split; [intros [? ?]; done|].
    intros (s1 & s2 & _ & Hs & _). by rewrite lookup_empty in Hs.
Qed.

Lemma getvalue_inv d k v d' :
  getvalue d k = Ok (v, d') ->
  getvaluex (set_lasthash d (hash k)) k = Ok v /\ d' = set_lasthash d (hash k).
Proof.
  unfold getvalue. intros H. apply bind_Ok in H as (v' & Hv & H). by injection H as <- <-.
Qed.

(** One round of the set-up loop enters slot [i] as [flipadd] would. *)
Lemma init_round n m asg i x m' :
  mm_ok n m asg -> asg !! i = None -> 0 <= i < n ->
  forall ct u, contains (uniques m) x = Ok (ct, u) ->
  (if negb (ct =? 0) then
     '(b, u) ← getvalue u x;
     l ← rd (unarray m) b;
     let l := l + 1 in
     let ua := <[b := l]> (<[b + l := i]> (unarray m)) in
     '(ct2, td) ← contains (twoplusd m) x;
     if ct2 =? 0 then
       td ← add td x (vsize (twoplusl m));
       Ok (mkmm u td ua (avail m) (push_back (twoplusl m) x))
     else Ok (mkmm u td ua (avail m) (twoplusl m))
   else
     b ← back (avail m);
     let av := pop_back (avail m) in
     u ← add u x b;
     Ok (mkmm u (twoplusd m) (<[b + 1 := i]> (<[b := 1]> (unarray m))) av
              (twoplusl m))) = Ok m' ->
  mm_ok n m' (<[i := x]> asg).
Proof.
  intros Hok Hi Hin ct u Hc H.
  assert (exists m'' h, flipadd m i x = Ok m'' /\
            m' = mkmm (uniques m'') (set_lasthash (twoplusd m'') h)
                      (unarray m'') (avail m'') (twoplusl m'')) as (m'' & h & Hfa & ->).
  { destruct Hok as (um & tm & Hrep).
    destruct Hrep as [Hu Ht Hrange Hused Hblock Hinj Hav Hnd Hidx Htwo].
    unfold flipadd. rewrite Hc. simpl.
    pose proof (contains_spec _ _ _ _ _ Hu Hc) as [-> Hct].
    destruct Hct as [[-> [b Hb]]|[-> Hno]]; simpl in H |- *.
    - apply bind_Ok in H as ([b' u'] & Hg & H).
      apply getvalue_inv in Hg as [Hg ->]. simpl in Hg.
      change (set_lasthash (set_lasthash (uniques m) (hash x)) (hash x))
        with (set_lasthash (uniques m) (hash x)) in *.
      rewrite Hg. simpl.
      pose proof (getvaluex_spec (set_lasthash (uniques m) (hash x)) um x b b' Hu eq_refl Hb Hg) as ->.
      apply bind_Ok in H as (l & Hl & H). rewrite Hl. simpl.
      apply rd_Ok in Hl. destruct (Hblock x b Hb) as [_ Hbr].
      apply bind_Ok in H as ([ct2 td] & Hc2 & H).
      pose proof (contains_spec _ _ _ _ _ Ht Hc2) as [-> Hct2].
      pose proof (block_pair _ _ _ _ _ _ Hbr Hl) as Hpair.
      destruct (block_len _ _ _ _ _ _ Hbr Hl) as (Hlr & _).
      destruct Hct2 as [[-> Hs]|[-> Hnone]]; simpl in H.
      + injection H as <-. apply Htwo, Hpair in Hs.
        destruct (l =? 1) eqn:E; [lia|]. simpl.
        eexists _, (hash x). split; [done|]. done.
      + assert (l = 1) as ->.
        { destruct (decide (l = 1)); [done|].
          assert (is_Some (tm !! x)) as [? ?] by (apply Htwo, Hpair; lia). congruence. }
        apply bind_Ok in H as (td' & Hadd & H). injection H as <-. simpl.
        assert (Hadd2 : addx (set_lasthash (twoplusd m) (hash x)) x (vsize (twoplusl m))
                        = Ok td') by exact Hadd.
        rewrite Hadd2. simpl.
        eexists _, (lasthash td'). split; [done|]. by rewrite set_lasthash_id.
    - apply bind_Ok in H as (b & Hb & H). rewrite Hb. simpl.
      apply bind_Ok in H as (u' & Hadd & H). injection H as <-.
      assert (Hadd2 : addx (set_lasthash (uniques m) (hash x)) x b = Ok u') by exact Hadd.
      rewrite Hadd2. simpl.
      eexists _, (lasthash (twoplusd m)). split; [done|]. rewrite set_lasthash_id. simpl.
      f_equal. apply insert_insert_ne. lia. }
  apply (flipadd_spec _ _ _ _ _ _ Hok Hi Hin) in Hfa.
  destruct Hfa as (um & tm & []). exists um, tm. by split.
Qed.

Lemma init_loop_spec cfg mu : forall k i m ach asg m' ach',
  0 <= i -> i + Z.of_nat k <= nomuls cfg ->
  (forall s v, vget mu s = Ok v -> 0 <= v) ->
  mm_ok (nomuls cfg) m asg ->
  (forall s v, asg !! s = Some v <-> (vget mu s = Ok v /\ v <> 0 /\ s < i)) ->
  init_loop k i mu m ach = Ok (m', ach') ->
  exists asg',
    mm_ok (nomuls cfg) m' asg' /\
    forall s v, asg' !! s = Some v <->
                (vget mu s = Ok v /\ v <> 0 /\ s < i + Z.of_nat k).
Proof.
  induction k as [|k IH]; intros i m ach asg m' ach' Hi Hik Hpos Hok Htr H; simpl in H.
  { injection H as <- <-. exists asg. split; [done|]. intros s v. rewrite Htr.
    replace (i + Z.of_nat 0) with i by lia. done. }
  apply bind_Ok in H as (x & Hx & H).
  assert (Hnone : asg !! i = None).
  { destruct (asg !! i) eqn:E; [|done]. apply Htr in E. lia. }
  destruct (x >? 0) eqn:E.
  - apply bind_Ok in H as ([ct u] & Hc & H). apply bind_Ok in H as (m1 & Hm1 & H).
    apply (init_round (nomuls cfg) m asg i x m1) with (ct := ct) (u := u) in Hm1;
      [|done|done|lia|done].
    apply IH with (asg := <[i := x]> asg) in H as (asg' & Hok' & Htr'); [|lia|lia|done|done|].
    + exists asg'. split; [done|]. intros s v. rewrite Htr'.
      replace (i + 1 + Z.of_nat k) with (i + Z.of_nat (S k)) by lia. done.
    + intros s v. destruct (decide (s = i)) as [->|Hne].
      * rewrite lookup_insert_eq. split.
        -- intros [= <-]. split; [done|]. lia.
        -- intros (Hv & _). congruence.
      * rewrite lookup_insert_ne by done. rewrite Htr. split; intros (? & ? & ?); repeat split; auto; lia.
  - apply IH with (asg := asg) in H as (asg' & Hok' & Htr'); [|lia|lia|done|done|].
    + exists asg'. split; [done|]. intros s v. rewrite Htr'.
      replace (i + 1 + Z.of_nat k) with (i + Z.of_nat (S k)) by lia. done.
    + intros s v. rewrite Htr. split; intros (Hv & Hnz & Hlt); repeat split; auto; [lia|].
      destruct (decide (s = i)) as [->|]; [|lia].
      assert (0 <= v) by eauto. assert (x = v) by congruence. lia.
Qed.

Lemma groups_tracks_all mu asg i :
  vsize mu <= i ->
  (forall s v, asg !! s = Some v <-> (vget mu s = Ok v /\ v <> 0 /\ s < i)) ->
  tracks mu asg.
Proof.
  intros Hlen Htr s v. rewrite Htr. split.
  - intros (? & ? & ?). auto.
  - intros [Hv [Hnz|Hin]]; [|by apply elem_of_nil in Hin].
    apply vget_Ok in Hv as Hr. repeat split; auto; lia.
Qed.

Theorem init_inv mt cfg flips0 muls0 st :
  nomuls cfg mod symm cfg = 0 ->
  vsize muls0 = nomuls cfg ->
  (forall s v, vget muls0 s = Ok v -> 0 <= v) ->
  groups_ok (symm cfg) muls0 ->
  init mt cfg flips0 muls0 = Ok st ->
  Inv (symm cfg) cfg st.
Proof.
  intros Hn Hlen Hpos Hg H. unfold init in H.
  destruct (nomuls cfg <? 0) eqn:E1; [done|]. apply Z.ltb_ge in E1.
  simpl in H. destruct (negb (nomuls cfg mod 3 =? 0)); [done|].
  destruct (_ && _); [done|].
  apply bind_Ok in H as ([m ach] & Hloop & H).
  apply bind_Ok in H as (st1 & Hre & H). apply bind_Ok in H as (l & _ & H).
  injection H as <-. apply reschedule_frame in Hre as (pb & d & ->).
  apply init_loop_spec with (cfg := cfg) (asg := ∅) in Hloop as (asg & Hok & Htr);
    [|lia|lia|done|by apply mm_ok_new|].
  - split; simpl; [done|done|done|done|].
    exists asg. split; [done|]. eapply groups_tracks_all; [|exact Htr]. lia.
  - intros s v. rewrite lookup_empty. split; [done|]. intros (Hv & _ & Hs).
    apply vget_Ok in Hv. lia.
Qed.

(** ** The flip limit *)

Lemma wrap_int_small z : is_int z -> wrap_int z = z.
Proof.
  unfold is_int, wrap_int. intros H. rewrite Z.mod_small by lia. lia.
Qed.

Lemma wrap_int_range z : is_int (wrap_int z).
Proof.
  unfold is_int, wrap_int.
  pose proof (Z.mod_pos_bound (z + 2 ^ 31) (2 ^ 32) ltac:(lia)). lia.
Qed.

Lemma steps_left_pos a b s :
  is_int (a - b) -> 0 < Z.quot (a - b) s < 2 ^ 31 ->
  steps_left a b s = Ok (Z.quot (a - b) s).
Proof.
  intros Hd Hq. unfold steps_left. cbv zeta. rewrite wrap_int_small by done.
  destruct ((a - b =? - 2 ^ 31) && (s =? -1)) eqn:E.
  { apply andb_true_iff in E as [E1 E2].
    apply Z.eqb_eq in E1, E2. rewrite E1, E2 in Hq.
    change (Z.quot (- 2 ^ 31) (-1)) with (2 ^ 31) in Hq. lia. }
  unfold idiv. destruct (s =? 0) eqn:E0; [|done].
  apply Z.eqb_eq in E0. subst s. rewrite Z.quot_0_r_ext in Hq by done. lia.
Qed.

(** Two ranks less than [symm] apart leave no step, whatever the 32-bit
    value of their difference. *)
Lemma steps_left_none a b s :
  Z.quot (a - b) s = 0 ->
  steps_left a b s = Fault DivByZero \/ steps_left a b s = Ok 0.
Proof.
  intros Hq. unfold steps_left, idiv. cbv zeta.
  destruct (s =? 0) eqn:E0.
  { apply Z.eqb_eq in E0. subst s. rewrite andb_false_r. by left. }
  apply Z.eqb_neq in E0.
  apply Z.quot_small_iff in Hq; [|done].
  pose proof (wrap_int_range (a - b)) as Hr. unfold is_int in Hr.
  assert (Hw : Z.abs (wrap_int (a - b)) < Z.abs s).
  { destruct (decide (is_int (a - b))) as [Hi|Hi].
    - by rewrite wrap_int_small.
    - unfold is_int in Hi. lia. }
  destruct ((wrap_int (a - b) =? - 2 ^ 31) && (s =? -1)) eqn:E.
  { apply andb_true_iff in E as [E1 E2].
    apply Z.eqb_eq in E1, E2. lia. }
  right. f_equal. by apply Z.quot_small_iff.
Qed.

Lemma limit_quotient a s f :
  0 <= f < 2 ^ 64 -> f <= a -> a < 2 ^ 64 -> 0 < s < 2 ^ 64 ->
  (q ← udiv (wrap64 (a - f)) (wrap64 s); Ok (wrap64 (f + q)))
  = Ok (f + Z.quot (a - f) s).
Proof.
  intros Hf Hfa Ha Hs.
  rewrite !wrap64_small by lia.
  unfold udiv. destruct (s =? 0) eqn:E; [lia|]. simpl.
  rewrite Z.quot_div_nonneg by lia.
  assert (0 <= (a - f) / s <= a - f).
  { split; [apply Z.div_pos; lia|]. apply Z.div_le_upper_bound; [lia|]. nia. }
  rewrite wrap64_small by lia. done.
Qed.

Lemma updatelimit_in_range
    limit flips termination split achieved target symm flimit :
  limit_in_range flips termination split achieved target symm flimit ->
  updatelimit limit flips termination split achieved target symm flimit
  = Ok (updatelimit_spec flips termination split achieved target symm flimit).
Proof.
  unfold limit_in_range, updatelimit, updatelimit_spec.
  intros (Hf & Hl & H).
  destruct (termination =? 0); [done|].
  destruct (termination =? 1).
  { destruct H as (Hi & Hs & Hle). rewrite steps_left_pos by done. simpl.
    apply limit_quotient; lia. }
  destruct (termination =? 2).
  { by rewrite wrap64_small by lia. }
  destruct (achieved >? termination).
  - destruct H as (Hi & Hs & Hsp & Hm & Hle).
    rewrite steps_left_pos by done. simpl.
    rewrite (wrap64_small split) by lia.
    rewrite (wrap64_small (split * flimit)) by nia.
    rewrite <- Z.quot_div_nonneg by nia.
    apply limit_quotient; try lia.
    assert (Z.quot (split * flimit) 100 <= split * flimit); [|lia].
    rewrite Z.quot_div_nonneg by nia. apply Z.div_le_upper_bound; nia.
  - destruct H as (Hi & Hs & Hle). rewrite steps_left_pos by done. simpl.
    apply limit_quotient; lia.
Qed.

(** C7, as the program has it.  With a difference of ranks within the
    range of [int], a positive denominator, a dividend that is not negative
    ([flips <= flimit], or [flips <= split * flimit / 100] in the split
    case) and every intermediate [vlong] value below [2 ^ 64],
    [updatelimit] returns the entry of the table: [flimit] for termination
    0, [flips + (flimit - flips) / ((achieved - target) / symm)] for
    termination 1, [flips + flimit] for termination 2, and for any other
    termination [t] the split formula when [achieved > t] and the formula of
    termination 1 otherwise.  With termination 1 and [achieved = target +
    symm] the result is [flips + (flimit - flips)]. *)
Theorem updatelimit_table
    limit flips termination split achieved target symm flimit :
  limit_in_range flips termination split achieved target symm flimit ->
  updatelimit limit flips termination split achieved target symm flimit
  = Ok (updatelimit_spec flips termination split achieved target symm flimit)
  /\ (termination = 1 -> achieved = target + symm ->
      updatelimit limit flips termination split achieved target symm flimit
      = Ok (flips + (flimit - flips))).
Proof.
  intros H. split; [by apply updatelimit_in_range|].
  intros -> ->. rewrite updatelimit_in_range by done.
  destruct H as (_ & _ & H). simpl in H. destruct H as (_ & Hq & _).
  unfold updatelimit_spec. simpl.
  replace (target + symm - target) with symm in * by lia.
  assert (symm <> 0) by (intros ->; rewrite Z.quot_0_r_ext in Hq by done; lia).
  rewrite Z.quot_same by done. by rewrite Z.quot_1_r.
Qed.

(** The table at termination 1 with [achieved = target + symm]: flips 4,
    flimit 10, one step of 3 left. *)
Lemma updatelimit_table_witness :
  limit_in_range 4 1 0 6 3 3 10 /\
  updatelimit 0 4 1 0 6 3 3 10 = Ok (updatelimit_spec 4 1 0 6 3 3 10) /\
  updatelimit 0 4 1 0 6 3 3 10 = Ok 10.
Proof.
  assert (H : limit_in_range 4 1 0 6 3 3 10).
  { vm_compute. repeat split; congruence. }
  split; [exact H|]. split.
  - exact (proj1 (updatelimit_table 0 4 1 0 6 3 3 10 H)).
  - exact (proj2 (updatelimit_table 0 4 1 0 6 3 3 10 H) eq_refl eq_refl).
Defined.

(** C7, the table read over the integers fails once [flips] has passed the
    value it is subtracted from, although the denominator is positive: the
    unsigned difference wraps around.  With termination 1, flips 12 and
    flimit 10 the table gives 11; with termination 10, split 50, flips 600
    and flimit 1000 it gives 550. *)
Lemma updatelimit_wraps :
  0 < Z.quot (6 - 0) 3 /\
  updatelimit 0 12 1 0 6 0 3 10 = Ok 9223372036854775819 /\
  updatelimit_spec 12 1 0 6 0 3 10 = 11 /\
  0 < Z.quot (16 - 10) 3 /\
  updatelimit 0 600 10 50 16 4 3 1000 = Ok 9223372036854776358 /\
  updatelimit_spec 600 10 50 16 4 3 1000 = 550.
Proof. vm_compute. repeat split; reflexivity. Qed.

(** The difference of ranks past the range of [int]: with [achieved = 6]
    and the least [int] as [target], [achieved - target] is -2147483642 in
    32 bits, [steps] is -715827880, a [vlong] above [2 ^ 63] once converted,
    and the new limit is [flips + 0]. *)
Lemma updatelimit_int_wraps :
  steps_left 6 (-2147483648) 3 = Ok (-715827880) /\
  updatelimit 0 0 1 0 6 (-2147483648) 3 (2 ^ 62) = Ok 0 /\
  updatelimit_spec 0 1 0 6 (-2147483648) 3 (2 ^ 62) = 6442450932.
Proof. vm_compute. repeat split; reflexivity. Qed.

(** ** The schedule of the plus moves and the recovery snapshots *)

(** C5, as the program has it.  [plimit] is declared [vlong], so the test
    [plimit < 0] never holds: with [achieved < maxplus] the next plus move
    is scheduled at [flips + plimit] (modulo [2 ^ 64]) and no word is taken
    from the generator. *)
Theorem reschedule_unsigned mt cfg st :
  is_vlong (plimit cfg) -> achieved st < maxplus cfg ->
  reschedule mt cfg st = Ok (set_plusby st (wrap64 (flips st + plimit cfg))).
Proof.
  intros [Hp _] Ha. unfold reschedule.
  destruct (achieved st >=? maxplus cfg) eqn:E; [lia|].
  destruct (plimit cfg <? 0) eqn:E'; [lia|]. done.
Qed.

(** A state file whose [plimit] reads [-5], at [flips = 100]: the next plus
    move is scheduled at flip 95, five flips back, whatever the generator
    yields. *)
Lemma reschedule_unsigned_witness :
  is_vlong (plimit cfg_neg) /\ plimit cfg_neg = 18446744073709551611 /\
  forall mt,
    reschedule mt cfg_neg (set_flips st_due 100)
    = Ok (set_plusby (set_flips st_due 100) 95).
Proof.
  assert (H : is_vlong (plimit cfg_neg)) by (vm_compute; split; congruence).
  split; [exact H|]. split; [reflexivity|]. intros mt.
  exact (reschedule_unsigned mt cfg_neg (set_flips st_due 100) H eq_refl).
Defined.

Lemma plus_apply3_shape cfg st a r st' :
  plus_apply3 cfg st a r = Ok st' ->
  exists m mu, st' = set_muls (set_M st m) mu /\ vsize mu = vsize (muls st).
Proof.
  unfold plus_apply3. cbv zeta. intros H.
  repeat (apply bind_Ok in H as (? & ? & H)). injection H as <-.
  eexists _, _. split; [reflexivity|].
  repeat match goal with H : vset _ _ _ = Ok _ |- _ => apply vsize_chain in H end.
  congruence.
Qed.

Lemma plus_apply6_shape cfg st a aa r st' :
  plus_apply6 cfg st a aa r = Ok st' ->
  exists m mu, st' = set_muls (set_M st m) mu /\ vsize mu = vsize (muls st).
Proof.
  unfold plus_apply6. cbv zeta. intros H.
  repeat (apply bind_Ok in H as (? & ? & H)). injection H as <-.
  eexists _, _. split; [reflexivity|].
  repeat match goal with H : vset _ _ _ = Ok _ |- _ => apply vsize_chain in H end.
  congruence.
Qed.

Lemma plus_pick6_shape mt cfg : forall fuel st a aa st1,
  plus_pick6 mt cfg fuel st = Ok (a, aa, st1) ->
  exists k, st1 = set_drawn st (drawn st + k)%nat.
Proof.
  induction fuel as [|fuel IH]; intros st a aa st1 H; [discriminate|].
  simpl in H. destruct (wrap64 (nomuls cfg) =? 0); [discriminate|].
  apply bind_Ok in H as (a1 & _ & H). apply bind_Ok in H as (a2 & _ & H).
  apply bind_Ok in H as (pm & _ & H).
  match type of H with (if ?b then _ else _) = _ => destruct b end.
  - injection H as <- <- <-. exists 2%nat. unfold set_drawn. simpl.
    do 2 f_equal. lia.
  - apply IH in H as [k ->]. exists (2 + k)%nat. unfold set_drawn. simpl.
    do 2 f_equal. lia.
Qed.

Lemma plus_pick3_shape mt cfg : forall fuel st a st1,
  plus_pick3 mt cfg fuel st = Ok (a, st1) ->
  exists k, st1 = set_drawn st (drawn st + k)%nat.
Proof.
  induction fuel as [|fuel IH]; intros st a st1 H; [discriminate|].
  simpl in H. destruct (wrap64 (nomuls cfg) =? 0); [discriminate|].
  apply bind_Ok in H as (a1 & _ & H). apply bind_Ok in H as (pm & _ & H).
  match type of H with (if ?b then _ else _) = _ => destruct b end.
  - injection H as <- <-. exists 2%nat. unfold set_drawn. simpl.
    do 2 f_equal. lia.
  - apply IH in H as [k ->]. exists (2 + k)%nat. unfold set_drawn. simpl.
    do 2 f_equal. lia.
Qed.

Lemma reschedule_shape mt cfg st st' :
  reschedule mt cfg st = Ok st' ->
  exists pb k, st' = set_plusby (set_drawn st (drawn st + k)%nat) pb.
Proof.
  unfold reschedule. intros H.
  destruct (achieved st >=? maxplus cfg).
  { injection H as <-. eexists _, 0%nat. unfold set_plusby, set_drawn. simpl.
    do 2 f_equal. lia. }
  destruct (plimit cfg <? 0).
  - simpl in H. destruct (wrap64 (-2 * plimit cfg) =? 0); [discriminate|].
    injection H as <-. eexists _, 1%nat. unfold set_plusby, set_drawn. simpl.
    do 2 f_equal. lia.
  - injection H as <-. eexists _, 0%nat. unfold set_plusby, set_drawn. simpl.
    do 2 f_equal. lia.
Qed.

(** A plus move leaves [rcode] alone and writes the file in [recover]
    only. *)
Lemma plus3_file mt cfg gas st st' :
  plus3 mt cfg gas st = Ok st' ->
  file st' = file (recover cfg st) /\ rcode st' = rcode st.
Proof.
  unfold plus3. cbv zeta. intros H.
  apply bind_Ok in H as (r & _ & H).
  apply bind_Ok in H as ([a st1] & Hp & H).
  apply bind_Ok in H as (st2 & Ha & H).
  apply plus_pick3_shape in Hp as [k ->].
  apply plus_apply3_shape in Ha as (m & mu & -> & _).
  apply reschedule_shape in H as (pb & k' & ->). simpl.
  split; [done|]. apply recover_frame.
Qed.

Lemma plus6_file mt cfg gas st st' :
  plus6 mt cfg gas st = Ok st' ->
  file st' = file (recover cfg st) /\ rcode st' = rcode st.
Proof.
  unfold plus6. cbv zeta. intros H.
  apply bind_Ok in H as (r & _ & H).
  apply bind_Ok in H as ([[a aa] st1] & Hp & H).
  apply bind_Ok in H as (st2 & Ha & H).
  apply plus_pick6_shape in Hp as [k ->].
  apply plus_apply6_shape in Ha as (m & mu & -> & _).
  apply reschedule_shape in H as (pb & k' & ->). simpl.
  split; [done|]. apply recover_frame.
Qed.

(** C10.  When a snapshot is due ([flips >= recovery] at a plus move), the
    file written has the literal 2 in the place of [rcode] and the current
    [muls] as its value lines, whatever [minmuls], [achieved] and [best]
    are; [rcode], [muls] and [best] in memory are as before.  The plus move
    of either loop that follows leaves this file and [rcode] as they
    are. *)
Theorem snapshot_literal cfg st :
  recovery st <= flips st ->
  file (recover cfg st)
  = Some ([nomuls cfg; flips st; 2; target cfg; flimit cfg; plimit cfg;
           termination cfg; rseed cfg; symm cfg; maxplus cfg;
           achieved st; minmuls st; plus st]
          :: map (fun m => [m]) (muls st)) /\
  rcode (recover cfg st) = rcode st /\
  muls (recover cfg st) = muls st /\ best (recover cfg st) = best st /\
  (forall mt gas st',
     plus3 mt cfg gas st = Ok st' \/ plus6 mt cfg gas st = Ok st' ->
     file st' = file (recover cfg st) /\ rcode st' = rcode st).
Proof.
  intros H. unfold recover.
  destruct (flips st >=? recovery st) eqn:E; [|lia].
  repeat split; try done.
  - destruct H0 as [H0|H0]; [apply plus3_file in H0|apply plus6_file in H0];
      destruct H0 as [-> _]; unfold recover; by rewrite E.
  - destruct H0 as [H0|H0]; [apply plus3_file in H0|apply plus6_file in H0];
      by destruct H0 as [_ ->].
Qed.

(** A snapshot taken at flip 5000000000 with [minmuls = 3 < achieved = 6]:
    the file has [rcode] 2 and the six values of [muls], not those of
    [best]. *)
Lemma snapshot_literal_witness :
  recovery st_due <= flips st_due /\ minmuls st_due < achieved st_due /\
  file (recover (cfg_S2 0) st_due)
  = Some [[6; 5000000000; 2; 0; 1000000; 0; 0; 1; 3; 0; 6; 3; 3];
          [1]; [2]; [3]; [1]; [4]; [5]] /\
  rcode (recover (cfg_S2 0) st_due) = 0.
Proof.
  assert (H : recovery st_due <= flips st_due) by (vm_compute; congruence).
  split; [exact H|]. split; [reflexivity|].
  destruct (snapshot_literal (cfg_S2 0) st_due H) as (Hf & Hr & _).
  split; [exact Hf|exact Hr].
Defined.

(** ** Sampling that finds no flip *)

Lemma sample_pair_same sample m p q m' :
  sample_pair sample m = Ok (p, q, m') -> same_tables m m'.
Proof.
  unfold sample_pair. intros H.
  destruct (vsize (twoplusl m) =? 0); [done|].
  apply bind_Ok in H as (v & _ & H).
  apply bind_Ok in H as ([b u] & Hg & H).
  apply getvalue_same in Hg.
  apply bind_Ok in H as (l & _ & H). simpl in H.
  destruct (l =? 2).
  - destruct (negb (Z.land sample 65536 =? 0));
      apply bind_Ok in H as (p' & _ & H); apply bind_Ok in H as (q' & _ & H);
      by injection H as <- <- <-.
  - apply bind_Ok in H as (c & _ & H). destruct (c =? 0); [done|].
    apply bind_Ok in H as (px & _ & H). apply bind_Ok in H as (p' & _ & H).
    apply bind_Ok in H as (qx & _ & H). apply bind_Ok in H as (q' & _ & H).
    by injection H as <- <- <-.
Qed.

Lemma sample_any_sampled mt cfg : forall fuel st p q st1,
  sample_any mt cfg fuel st = Ok (p, q, st1) -> exists k, sampled k st st1.
Proof.
  induction fuel as [|fuel IH]; intros st p q st1 H; [done|]. simpl in H.
  apply bind_Ok in H as ([[p' q'] m'] & Hsp & H). apply sample_pair_same in Hsp.
  apply bind_Ok in H as (pm & _ & H).
  destruct (negb (pm =? 0)).
  - injection H as <- <- <-. exists 1%nat.
    eapply sampled_draw; [exact Hsp|apply sampled_refl].
  - apply IH in H as [k Hk]. exists (S k). by eapply sampled_draw.
Qed.

Lemma sample_sized_sampled mt cfg : forall k st oc st1,
  sample_sized mt cfg k st = Ok (oc, st1) ->
  exists k', sampled k' st st1 /\ (oc = None -> k' = k).
Proof.
  induction k as [|k IH]; intros st oc st1 H; simpl in H.
  { injection H as <- <-. exists 0%nat. split; [apply sampled_refl|done]. }
  apply bind_Ok in H as ([[p' q'] m'] & Hsp & H). apply sample_pair_same in Hsp.
  apply bind_Ok in H as (c & _ & H).
  apply bind_Ok in H as (mp & _ & H). apply bind_Ok in H as (mq & _ & H).
  apply bind_Ok in H as (pm & _ & H).
  match type of H with (if ?b then _ else _) = _ => destruct b end.
  - injection H as <- <-. exists 1%nat.
    split; [eapply sampled_draw; [exact Hsp|apply sampled_refl]|done].
  - apply IH in H as (k' & Hk' & Hn). exists (S k').
    split; [by eapply sampled_draw|]. intros Hoc. f_equal. auto.
Qed.

Lemma sample_bits_sampled mt cfg : forall k st oc st1,
  sample_bits mt cfg k st = Ok (oc, st1) ->
  exists k', sampled k' st st1 /\ (oc = None -> k' = k).
Proof.
  induction k as [|k IH]; intros st oc st1 H; simpl in H.
  { injection H as <- <-. exists 0%nat. split; [apply sampled_refl|done]. }
  apply bind_Ok in H as ([[p' q'] m'] & Hsp & H). apply sample_pair_same in Hsp.
  apply bind_Ok in H as (c & _ & H).
  apply bind_Ok in H as (pm & _ & H).
  match type of H with (if ?b then _ else _) = _ => destruct b end.
  - injection H as <- <-. exists 1%nat.
    split; [eapply sampled_draw; [exact Hsp|apply sampled_refl]|done].
  - apply IH in H as (k' & Hk' & Hn). exists (S k').
    split; [by eapply sampled_draw|]. intros Hoc. f_equal. auto.
Qed.

Lemma sample_flip_sampled mt cfg gas st oc st1 :
  sample_flip mt cfg gas st = Ok (oc, st1) ->
  exists k, sampled k st st1 /\
            (oc = None -> k = 1000%nat /\ maxsize cfg <> 0).
Proof.
  unfold sample_flip. intros H.
  destruct (maxsize cfg =? 0) eqn:E0.
  - apply bind_Ok in H as ([[p q] st2] & Hsa & H).
    apply sample_any_sampled in Hsa as [k Hk].
    apply bind_Ok in H as (c & _ & H). injection H as <- <-.
    exists k. split; [done|]. done.
  - apply Z.eqb_neq in E0. destruct (maxsize cfg >? 0).
    + apply sample_sized_sampled in H as (k & Hk & Hn).
      exists k. split; [done|]. intros ->. split; auto.
    + apply sample_bits_sampled in H as (k & Hk & Hn).
      exists k. split; [done|]. intros ->. split; auto.
Qed.

(** C6, as the program has it.  When the 1000 draws of a flip all fail
    (which happens with [maxsize <> 0] only), the loop is left with
    [rcode = 6]; [flips] has been advanced by the 3 or 6 of the loop, 1000
    words of the generator are used up and the hash cached in [uniques] may
    differ; everything else is as before the flip. *)
Theorem sampling_exhausted mt cfg gas w st st1 :
  sample_flip mt cfg gas (set_flips st (wrap64 (flips st + w))) = Ok (None, st1) ->
  maxsize cfg <> 0 /\
  (exists h,
     set_rcode st1 6
     = mkstate (muls st) (best st)
               (set_uniques (M st) (set_lasthash (uniques (M st)) h))
               (wrap64 (flips st + w)) 6 (achieved st) (minmuls st) (plus st)
               (plusby st) (recovery st) (limit st) (drawn st + 1000)%nat
               (file st)) /\
  (w = 3 -> flip3 mt cfg gas st = Ok (Stop, set_rcode st1 6)) /\
  (w = 6 -> flip6 mt cfg gas st = Ok (Stop, set_rcode st1 6)).
Proof.
  intros H.
  destruct (sample_flip_sampled _ _ _ _ _ _ H) as (k & (m' & [h ->] & ->) & Hn).
  destruct (Hn eq_refl) as [-> Hm]. split; [done|]. split; [by exists h|].
  split; intros ->.
  - unfold flip3. cbv zeta. by rewrite H.
  - unfold flip6. cbv zeta. by rewrite H.
Qed.

(** The setup of [muls_stuck] and the one flip that follows: the loop is
    left with [rcode = 6], [flips] has gone from 0 to 3 and 1000 words are
    used. *)
Lemma sampling_exhausted_witness :
  exists st0 st',
    init mt_S2 cfg_stuck 0 muls_stuck = Ok st0 /\
    flip3 mt_S2 cfg_stuck 0 st0 = Ok (Stop, st') /\
    maxsize cfg_stuck <> 0 /\
    rcode st' = 6 /\ flips st0 = 0 /\ flips st' = 3 /\
    drawn st' = (drawn st0 + 1000)%nat /\ muls st' = muls st0.
Proof.
  assert (exists st0 st1,
    init mt_S2 cfg_stuck 0 muls_stuck = Ok st0 /\ flips st0 = 0 /\
    sample_flip mt_S2 cfg_stuck 0 (set_flips st0 (wrap64 (flips st0 + 3)))
    = Ok (None, st1)) as (st0 & st1 & Hi & Hf & Hs).
  { do 2 eexists. split; [vm_compute; reflexivity|].
    split; vm_compute; reflexivity. }
  destruct (sampling_exhausted mt_S2 cfg_stuck 0 3 st0 st1 Hs)
    as (Hm & [h Hst] & H3 & _).
  exists st0, (set_rcode st1 6).
  split; [exact Hi|]. split; [exact (H3 eq_refl)|]. split; [exact Hm|].
  rewrite Hst, Hf. simpl. repeat split; reflexivity.
Defined.

(** C6, a flip that changes the state although its sampling fails: after
    the setup of [muls_stuck] the flip ends with [rcode = 6], and [flips]
    is 3 where it was 0. *)
Lemma exhausted_flip_counts :
  exists st0 st',
    init mt_S2 cfg_stuck 0 muls_stuck = Ok st0 /\
    flip3 mt_S2 cfg_stuck 0 st0 = Ok (Stop, st') /\
    rcode st' = 6 /\ flips st0 = 0 /\ flips st' = 3 /\ st' <> set_rcode st0 6.
Proof.
  do 2 eexists. split; [vm_compute; reflexivity|].
  split; [vm_compute; reflexivity|].
  split; [reflexivity|]. split; [reflexivity|]. split; [reflexivity|].
  intros H. apply (f_equal flips) in H. vm_compute in H. discriminate.
Qed.

(** ** A flip with no colliding value *)

Lemma sample_pair_empty sample m :
  twoplusl m = [] -> sample_pair sample m = Fault DivByZero.
Proof. unfold sample_pair. by intros ->. Qed.

Lemma sample_flip_empty mt cfg gas st :
  twoplusl (M st) = [] -> sample_flip mt cfg (S gas) st = Fault DivByZero.
Proof.
  intros H. unfold sample_flip.
  destruct (maxsize cfg =? 0); [|destruct (maxsize cfg >? 0)].
  - simpl. by rewrite sample_pair_empty.
  - change 1000%nat with (S 999). generalize 999%nat. intros k.
    simpl. by rewrite sample_pair_empty.
  - change 1000%nat with (S 999). generalize 999%nat. intros k.
    simpl. by rewrite sample_pair_empty.
Qed.

(** C4, as the program has it.  A flip that begins with no colliding value
    ([twoplusl] empty) does not end with [rcode = -1]: its first draw is
    reduced modulo [twoplusl.size()], which is zero.  This holds in both
    loops and in the three sampling modes. *)
Theorem flip_without_collision mt cfg gas st :
  twoplusl (M st) = [] ->
  flip3 mt cfg (S gas) st = Fault DivByZero /\
  flip6 mt cfg (S gas) st = Fault DivByZero.
Proof.
  intros H. unfold flip3, flip6. cbv zeta.
  rewrite !sample_flip_empty by done. done.
Qed.

(** Scenario S1: after the setup of [muls = [1; 2; 3]] no value collides,
    and the first flip divides by zero. *)
Lemma flip_without_collision_witness :
  exists st0,
    init mt_S2 cfg_S1 0 muls_S1 = Ok st0 /\ twoplusl (M st0) = [] /\
    flip3 mt_S2 cfg_S1 1 st0 = Fault DivByZero.
Proof.
  assert (exists st0, init mt_S2 cfg_S1 0 muls_S1 = Ok st0 /\
                      twoplusl (M st0) = []) as (st0 & Hi & Ht).
  { eexists. split; vm_compute; reflexivity. }
  exists st0. split; [exact Hi|]. split; [exact Ht|].
  exact (proj1 (flip_without_collision mt_S2 cfg_S1 0 st0 Ht)).
Defined.

(** Scenario S1 as a whole run, for every generator: the run ends in the
    division by zero and writes no file. *)
Lemma S1_run mt gas rounds :
  search mt cfg_S1 (S gas) (S rounds) 0 muls_S1 = Fault DivByZero.
Proof.
  unfold search.
  assert (exists st0, init mt cfg_S1 0 muls_S1 = Ok st0 /\
                      twoplusl (M st0) = []) as (st0 & -> & Ht).
  { eexists. split; vm_compute; reflexivity. }
  simpl. unfold step3, flip3. cbv zeta.
  by rewrite sample_flip_empty.
Qed.

(** ** Scenario S2 *)

(** The setup, the sampling, the commit and the deletion of the first term,
    each evaluated on its own. *)
Lemma S2_pieces tgt g :
  exists st0 c st1 st2 st3,
    init mt_S2 (cfg_S2 tgt) 0 muls_S2 = Ok st0 /\
    flips st0 = 0 /\
    sample_flip mt_S2 (cfg_S2 tgt) (S g) (set_flips st0 (wrap64 (0 + 3)))
      = Ok (Some c, st1) /\
    (c_p c = 0 /\ c_q c = 3 /\ c_mpen c = 0 /\ c_mqfn c = 0) /\
    M_slots (M st1) 0 = Ok [] /\
    commit3 (cfg_S2 tgt) st1 c = Ok st2 /\
    muls st2 = [1; 2; 0; 1; 0; 3] /\
    M_slots (M st2) 0 = Ok [2; 4] /\
    delete_p3 (cfg_S2 tgt) st2 c = Ok st3 /\
    muls st3 = [0; 0; 0; 1; 0; 3] /\ best st3 = [1; 2; 3; 1; 2; 3] /\
    achieved st3 = 6 /\ minmuls st3 = 6 /\ flips st3 = 3 /\
    twoplusl (M st3) = [] /\ plus st3 = 0 /\ M_slots (M st3) 0 = Ok [4].
Proof.
  do 5 eexists.
  split; [vm_compute; reflexivity|].
  split; [vm_compute; reflexivity|].
  split; [vm_compute; reflexivity|].
  split; [vm_compute; repeat split; reflexivity|].
  split; [vm_compute; reflexivity|].
  split; [vm_compute; reflexivity|].
  split; [vm_compute; reflexivity|].
  split; [vm_compute; reflexivity|].
  split; [vm_compute; reflexivity|].
  vm_compute; repeat split; reflexivity.
Qed.

(** The bookkeeping after that deletion, for every target: nothing collides
    any more, which is tested before the target is. *)
Lemma after_collapse_S2 mt tgt st :
  muls st = [0; 0; 0; 1; 0; 3] -> best st = [1; 2; 3; 1; 2; 3] ->
  achieved st = 6 -> minmuls st = 6 -> flips st = 3 ->
  twoplusl (M st) = [] ->
  exists st',
    after_collapse mt (cfg_S2 tgt) 3 st = Ok (Stop, st') /\
    muls st' = [0; 0; 0; 1; 0; 3] /\ best st' = [0; 0; 0; 1; 0; 3] /\
    achieved st' = 3 /\ minmuls st' = 3 /\ rcode st' = -1 /\
    flips st' = 3 /\ plus st' = plus st /\ M st' = M st.
Proof.
  destruct st as [mu be m fl rc ac mi pl pb re li dr fi]. simpl.
  intros -> -> -> -> -> Etl.
  unfold after_collapse. simpl.
  destruct m as [u td ua av tl]; simpl in Etl; subst tl.
  destruct (6 - 3 >? tgt);
    (eexists; split; [vm_compute; reflexivity|vm_compute; repeat split; reflexivity]).
Qed.

Lemma S2_flip tgt g :
  exists st0 c st1 st',
    init mt_S2 (cfg_S2 tgt) 0 muls_S2 = Ok st0 /\
    sample_flip mt_S2 (cfg_S2 tgt) (S g) (set_flips st0 (wrap64 (flips st0 + 3)))
      = Ok (Some c, st1) /\
    (c_p c = 0 /\ c_q c = 3 /\ c_mpen c = 0 /\ c_mqfn c = 0) /\
    flip3 mt_S2 (cfg_S2 tgt) (S g) st0 = Ok (Stop, st') /\
    muls st' = [0; 0; 0; 1; 0; 3] /\ best st' = [0; 0; 0; 1; 0; 3] /\
    achieved st' = 3 /\ minmuls st' = 3 /\ rcode st' = -1 /\
    flips st' = 3 /\ plus st' = 0 /\ twoplusl (M st') = [] /\
    M_slots (M st') 0 = Ok [4].
Proof.
  destruct (S2_pieces tgt g) as (st0 & c & st1 & st2 & st3 & Hinit & Hfl & Hs
    & Hcand & _ & Hc & _ & _ & Hd & Hmu & Hbe & Hac & Hmi & Hf3 & Htl & Hpl & Hz).
  destruct (after_collapse_S2 mt_S2 tgt st3 Hmu Hbe Hac Hmi Hf3 Htl)
    as (st' & Ha & ? & ? & ? & ? & ? & ? & Hpl' & HM).
  exists st0, c, st1, st'. split; [exact Hinit|].
  split; [by rewrite Hfl|]. split; [exact Hcand|].
  split.
  - unfold flip3. rewrite Hfl, Hs. simpl. rewrite Hc. simpl.
    destruct Hcand as (_ & _ & -> & _). simpl.
    unfold collapse_p3. rewrite Hd. simpl.
    rewrite Ha. reflexivity.
  - rewrite HM, Hpl'. auto 10.
Qed.

(** C2, as the program has it.  In scenario S2 the pair [(0, 3)] is
    permitted and the flip on it makes both new values zero.  The term of
    slot 0 is deleted: [achieved] and [minmuls] drop to 3 and [best] takes
    [[0; 0; 0; 1; 0; 3]].  No colliding value is left, and for every target
    the loop is left with [rcode = -1]; the file written has these
    values. *)
Theorem S2_collapse tgt gas rounds :
  permit (cfg_S2 tgt) 0 3 = Ok 1 /\
  exists st0 c st1 st',
    init mt_S2 (cfg_S2 tgt) 0 muls_S2 = Ok st0 /\
    sample_flip mt_S2 (cfg_S2 tgt) (S gas)
      (set_flips st0 (wrap64 (flips st0 + 3))) = Ok (Some c, st1) /\
    (c_p c = 0 /\ c_q c = 3 /\ c_mpen c = 0 /\ c_mqfn c = 0) /\
    flip3 mt_S2 (cfg_S2 tgt) (S gas) st0 = Ok (Stop, st') /\
    muls st' = [0; 0; 0; 1; 0; 3] /\ best st' = [0; 0; 0; 1; 0; 3] /\
    achieved st' = 3 /\ minmuls st' = 3 /\ rcode st' = -1 /\
    twoplusl (M st') = [] /\
    search mt_S2 (cfg_S2 tgt) (S gas) (S rounds) 0 muls_S2
    = Ok (set_file st' (Some [[6; 3; -1; tgt; 1000000; 0; 0; 1; 3; 0; 3; 3; 0];
                              [0]; [0]; [0]; [1]; [0]; [3]])).
Proof.
  split; [reflexivity|].
  destruct (S2_flip tgt gas) as (st0 & c & st1 & st' & Hi & Hs & Hc & Hf & Hmu
    & Hbe & Hac & Hmi & Hrc & Hfl & Hpl & Htl & _).
  exists st0, c, st1, st'. do 10 (split; [assumption|]).
  unfold search. rewrite Hi. simpl. unfold step3. rewrite Hf. simpl.
  unfold output. rewrite Hmu, Hac, Hmi, Hrc, Hfl, Hpl. reflexivity.
Qed.

(** C2, the values that differ.  With target 3 the run of scenario S2 ends
    with [rcode = -1], not 0, and with [best = [0; 0; 0; 1; 0; 3]], not
    [[0; 0; 0; 1; 2; 3]]. *)
Lemma S2_ends_exhausted :
  exists st,
    search mt_S2 (cfg_S2 3) 1 1 0 muls_S2 = Ok st /\
    achieved st = 3 /\ minmuls st = 3 /\
    best st = [0; 0; 0; 1; 0; 3] /\ best st <> [0; 0; 0; 1; 2; 3] /\
    rcode st = -1 /\ rcode st <> 0.
Proof.
  eexists. split; [vm_compute; reflexivity|].
  vm_compute. repeat split; congruence.
Qed.

(** ** What a run reads of the generator *)
Lemma agree_le n m mt1 mt2 : (n <= m)%nat -> agree m mt1 mt2 -> agree n mt1 mt2.
Proof. intros Hle H i Hi. apply H. lia. Qed.

Lemma extends_refl st : extends st st.
Proof. by repeat split. Qed.

Lemma extends_trans st1 st2 st3 :
  extends st1 st2 -> extends st2 st3 -> extends st1 st3.
Proof. intros (? & ? & ?) (? & ? & ?). repeat split; [lia|congruence..]. Qed.

Lemma sampled_extends k st st' :
  sampled k st st' -> extends st st' /\ drawn st' = (drawn st + k)%nat.
Proof. intros (m' & _ & ->). unfold extends. simpl. repeat split; lia. Qed.

Lemma sample_any_det mt1 mt2 cfg : forall fuel st p q st1,
  sample_any mt1 cfg fuel st = Ok (p, q, st1) ->
  agree (drawn st1) mt1 mt2 ->
  sample_any mt2 cfg fuel st = Ok (p, q, st1).
Proof.
  induction fuel as [|fuel IH]; intros st p q st1 H Hag; [done|].
  assert (Hlt : (drawn st < drawn st1)%nat).
  { simpl in H.
    apply bind_Ok in H as ([[p' q'] m'] & _ & H).
    apply bind_Ok in H as (pm & _ & H).
    destruct (negb (pm =? 0)).
    - injection H as _ _ <-. simpl. lia.
    - apply sample_any_sampled in H as [k Hk].
      apply sampled_extends in Hk as [_ Hk]. simpl in Hk. lia. }
  simpl in H |- *. rewrite <- (Hag _ Hlt).
  apply bind_Ok in H as ([[p' q'] m'] & -> & H). simpl.
  apply bind_Ok in H as (pm & -> & H). simpl.
  destruct (negb (pm =? 0)); [done|]. by apply IH.
Qed.

Lemma sample_sized_det mt1 mt2 cfg : forall k st oc st1,
  sample_sized mt1 cfg k st = Ok (oc, st1) ->
  agree (drawn st1) mt1 mt2 ->
  sample_sized mt2 cfg k st = Ok (oc, st1).
Proof.
  induction k as [|k IH]; intros st oc st1 H Hag; [done|].
  assert (Hlt : (drawn st < drawn st1)%nat).
  { simpl in H.
    apply bind_Ok in H as ([[p' q'] m'] & _ & H).
    apply bind_Ok in H as (c & _ & H).
    apply bind_Ok in H as (mp & _ & H). apply bind_Ok in H as (mq & _ & H).
    apply bind_Ok in H as (pm & _ & H).
    match type of H with (if ?b then _ else _) = _ => destruct b end.
    - injection H as _ <-. simpl. lia.
    - apply sample_sized_sampled in H as (k' & Hk & _).
      apply sampled_extends in Hk as [_ Hk]. simpl in Hk. lia. }
  simpl in H |- *. rewrite <- (Hag _ Hlt).
  apply bind_Ok in H as ([[p' q'] m'] & -> & H). simpl.
  apply bind_Ok in H as (c & -> & H). simpl.
  apply bind_Ok in H as (mp & -> & H). simpl.
  apply bind_Ok in H as (mq & -> & H). simpl.
  apply bind_Ok in H as (pm & -> & H). simpl.
  match type of H with (if ?b then _ else _) = _ => destruct b end; [done|].
  by apply IH.
Qed.

Lemma sample_bits_det mt1 mt2 cfg : forall k st oc st1,
  sample_bits mt1 cfg k st = Ok (oc, st1) ->
  agree (drawn st1) mt1 mt2 ->
  sample_bits mt2 cfg k st = Ok (oc, st1).
Proof.
  induction k as [|k IH]; intros st oc st1 H Hag; [done|].
  assert (Hlt : (drawn st < drawn st1)%nat).
  { simpl in H.
    apply bind_Ok in H as ([[p' q'] m'] & _ & H).
    apply bind_Ok in H as (c & _ & H).
    apply bind_Ok in H as (pm & _ & H).
    match type of H with (if ?b then _ else _) = _ => destruct b end.
    - injection H as _ <-. simpl. lia.
    - apply sample_bits_sampled in H as (k' & Hk & _).
      apply sampled_extends in Hk as [_ Hk]. simpl in Hk. lia. }
  simpl in H |- *. rewrite <- (Hag _ Hlt).
  apply bind_Ok in H as ([[p' q'] m'] & -> & H). simpl.
  apply bind_Ok in H as (c & -> & H). simpl.
  apply bind_Ok in H as (pm & -> & H). simpl.
  match type of H with (if ?b then _ else _) = _ => destruct b end; [done|].
  by apply IH.
Qed.

Lemma sample_flip_run mt1 cfg gas st oc st1 :
  sample_flip mt1 cfg gas st = Ok (oc, st1) ->
  extends st st1 /\
  forall mt2, agree (drawn st1) mt1 mt2 ->
              sample_flip mt2 cfg gas st = Ok (oc, st1).
Proof.
  intros H. split.
  { apply sample_flip_sampled in H as (k & Hk & _).
    by apply sampled_extends in Hk as [Hk _]. }
  intros mt2 Hag. unfold sample_flip in *.
  destruct (maxsize cfg =? 0).
  - apply bind_Ok in H as ([[p q] st2] & Hsa & H).
    apply bind_Ok in H as (c & Hc & H). injection H as <- <-.
    rewrite (sample_any_det _ mt2 _ _ _ _ _ _ Hsa Hag). simpl. by rewrite Hc.
  - destruct (maxsize cfg >? 0).
    + by apply sample_sized_det with (mt1 := mt1).
    + by apply sample_bits_det with (mt1 := mt1).
Qed.

Lemma reschedule_run mt1 cfg st st' :
  reschedule mt1 cfg st = Ok st' ->
  extends st st' /\
  forall mt2, agree (drawn st') mt1 mt2 -> reschedule mt2 cfg st = Ok st'.
Proof.
  intros H. split.
  { apply reschedule_shape in H as (pb & k & ->). unfold extends. simpl.
    repeat split; lia. }
  intros mt2 Hag. unfold reschedule in *.
  destruct (achieved st >=? maxplus cfg); [done|].
  destruct (plimit cfg <? 0); [|done]. simpl in *.
  destruct (wrap64 (-2 * plimit cfg) =? 0); [done|].
  injection H as <-. simpl in Hag. rewrite <- (Hag (drawn st)) by lia. done.
Qed.

Lemma copy_loop_len mu : forall n l be be',
  copy_loop n l mu be = Ok be' -> vsize be' = vsize be.
Proof.
  induction n as [|n IH]; intros l be be' H; simpl in H; [by injection H as <-|].
  apply bind_Ok in H as (x & _ & H). apply bind_Ok in H as (be1 & Hs & H).
  apply IH in H. apply vsize_chain in Hs. congruence.
Qed.

Lemma after_collapse_run mt1 cfg w st s st' :
  after_collapse mt1 cfg w st = Ok (s, st') ->
  extends st st' /\
  forall mt2, agree (drawn st') mt1 mt2 ->
              after_collapse mt2 cfg w st = Ok (s, st').
Proof.
  unfold after_collapse. cbv zeta. intros H.
  apply bind_Ok in H as (st2 & H2 & H).
  apply bind_Ok in H as (st3 & H3 & H).
  apply bind_Ok in H as (st4 & H4 & H).
  destruct (reschedule_run _ _ _ _ H4) as [He4 Hd4].
  assert (He2 : extends st st2).
  { destruct (_ <? _) in H2; [|by injection H2 as <-].
    destruct (_ >? _) in H2; [|by injection H2 as <-].
    apply bind_Ok in H2 as (l & _ & H2). by injection H2 as <-. }
  assert (He3 : extends st2 st3).
  { destruct (_ <=? _) in H3; [|injection H3 as <-; apply extends_refl].
    apply bind_Ok in H3 as (be & Hc & H3). injection H3 as <-.
    apply copy_loop_len in Hc. by repeat split. }
  assert (He : extends st4 st' /\ drawn st' = drawn st4).
  { destruct (_ =? 0) in H; [by injection H as <- <-|].
    destruct (_ <=? _) in H; [injection H as <- <-; split; [apply extends_refl|done]|].
    apply bind_Ok in H as ([t m] & _ & H). injection H as <- <-.
    by destruct t. }
  destruct He as [He Hdr]. split.
  { eapply extends_trans; [exact He2|]. eapply extends_trans; [exact He3|].
    by eapply extends_trans. }
  intros mt2 Hag. rewrite H2. simpl. rewrite H3. simpl.
  rewrite (Hd4 mt2) by (by rewrite <- Hdr). simpl. exact H.
Qed.

(** The updates of [muls] and of the multimap change nothing else. *)
Ltac shape H :=
  cbv zeta in H;
  repeat (apply bind_Ok in H as (? & ? & H));
  repeat match goal with
  | H' : (if ?b then _ else Ok _) = Ok _ |- _ =>
      destruct b;
      [repeat (apply bind_Ok in H' as (? & ? & H'))|injection H' as <-]
  end;
  injection H as <-;
  eexists _, _; (split; [reflexivity|]);
  repeat match goal with
  | H' : vset _ _ _ = Ok _ |- _ => apply vsize_chain in H'
  end;
  congruence.

Lemma commit3_shape cfg st c st' :
  commit3 cfg st c = Ok st' ->
  exists m mu, st' = set_muls (set_M st m) mu /\ vsize mu = vsize (muls st).
Proof. unfold commit3. intros H. shape H. Qed.

Lemma delete_p3_shape cfg st c st' :
  delete_p3 cfg st c = Ok st' ->
  exists m mu, st' = set_muls (set_M st m) mu /\ vsize mu = vsize (muls st).
Proof. unfold delete_p3. intros H. shape H. Qed.

Lemma delete_q3_shape cfg st c st' :
  delete_q3 cfg st c = Ok st' ->
  exists m mu, st' = set_muls (set_M st m) mu /\ vsize mu = vsize (muls st).
Proof. unfold delete_q3. intros H. shape H. Qed.

Lemma commit6_shape cfg st c h st' :
  commit6 cfg st c h = Ok st' ->
  exists m mu, st' = set_muls (set_M st m) mu /\ vsize mu = vsize (muls st).
Proof. unfold commit6. intros H. shape H. Qed.

Lemma delete_p6_shape cfg st c h st' :
  delete_p6 cfg st c h = Ok st' ->
  exists m mu, st' = set_muls (set_M st m) mu /\ vsize mu = vsize (muls st).
Proof. unfold delete_p6. intros H. shape H. Qed.

Lemma delete_q6_shape cfg st c h st' :
  delete_q6 cfg st c h = Ok st' ->
  exists m mu, st' = set_muls (set_M st m) mu /\ vsize mu = vsize (muls st).
Proof. unfold delete_q6. intros H. shape H. Qed.

Lemma shape_extends st st' :
  (exists m mu, st' = set_muls (set_M st m) mu /\ vsize mu = vsize (muls st)) ->
  extends st st' /\ drawn st' = drawn st.
Proof. intros (m & mu & -> & Hl). by repeat split. Qed.

(** A step [f] that first updates [muls] and the multimap by [d], then
    does the bookkeeping of a deletion. *)
Lemma collapse_run mt1 cfg w (d : res state) st s st' :
  (forall st1, d = Ok st1 ->
     exists m mu, st1 = set_muls (set_M st m) mu /\ vsize mu = vsize (muls st)) ->
  (st1 ← d; after_collapse mt1 cfg w st1) = Ok (s, st') ->
  extends st st' /\
  forall mt2, agree (drawn st') mt1 mt2 ->
              (st1 ← d; after_collapse mt2 cfg w st1) = Ok (s, st').
Proof.
  intros Hd H. apply bind_Ok in H as (st1 & -> & H).
  destruct (shape_extends _ _ (Hd st1 eq_refl)) as [H1 _].
  apply after_collapse_run in H as [He Hdet].
  split; [by eapply extends_trans|]. intros mt2 Hag. simpl. auto.
Qed.

Lemma collapse_p3_run mt1 cfg st c s st' :
  collapse_p3 mt1 cfg st c = Ok (s, st') ->
  extends st st' /\
  forall mt2, agree (drawn st') mt1 mt2 ->
              collapse_p3 mt2 cfg st c = Ok (s, st').
Proof. apply collapse_run. apply delete_p3_shape. Qed.

Lemma collapse_q3_run mt1 cfg st c s st' :
  collapse_q3 mt1 cfg st c = Ok (s, st') ->
  extends st st' /\
  forall mt2, agree (drawn st') mt1 mt2 ->
              collapse_q3 mt2 cfg st c = Ok (s, st').
Proof. apply collapse_run. apply delete_q3_shape. Qed.

Lemma collapse_p6_run mt1 cfg st c h s st' :
  collapse_p6 mt1 cfg st c h = Ok (s, st') ->
  extends st st' /\
  forall mt2, agree (drawn st') mt1 mt2 ->
              collapse_p6 mt2 cfg st c h = Ok (s, st').
Proof. apply collapse_run. apply delete_p6_shape. Qed.

Lemma collapse_q6_run mt1 cfg st c h s st' :
  collapse_q6 mt1 cfg st c h = Ok (s, st') ->
  extends st st' /\
  forall mt2, agree (drawn st') mt1 mt2 ->
              collapse_q6 mt2 cfg st c h = Ok (s, st').
Proof. apply collapse_run. apply delete_q6_shape. Qed.

(** The two collapse tests that end a flip, [cp] and [cq] being the
    collapses of the loop at hand. *)
Lemma collapses_run (cp cq : (nat -> Z) -> state -> res (status * state))
    (bp bq : bool) mt1 st s st' :
  (forall st s st', cp mt1 st = Ok (s, st') ->
     extends st st' /\
     forall mt2, agree (drawn st') mt1 mt2 -> cp mt2 st = Ok (s, st')) ->
  (forall st s st', cq mt1 st = Ok (s, st') ->
     extends st st' /\
     forall mt2, agree (drawn st') mt1 mt2 -> cq mt2 st = Ok (s, st')) ->
  ('(s, st) ← (if bp then cp mt1 st else Ok (Go, st));
   match s with
   | Stop => Ok (Stop, st)
   | Go => if bq then cq mt1 st else Ok (Go, st)
   end) = Ok (s, st') ->
  extends st st' /\
  forall mt2, agree (drawn st') mt1 mt2 ->
    ('(s, st) ← (if bp then cp mt2 st else Ok (Go, st));
     match s with
     | Stop => Ok (Stop, st)
     | Go => if bq then cq mt2 st else Ok (Go, st)
     end) = Ok (s, st').
Proof.
  intros Hp Hq H. apply bind_Ok in H as ([s1 st1] & H1 & H).
  assert (extends st st1 /\
          forall mt2, agree (drawn st1) mt1 mt2 ->
            (if bp then cp mt2 st else Ok (Go, st)) = Ok (s1, st1)) as [He1 Hd1].
  { destruct bp; [by apply Hp|]. injection H1 as <- <-.
    split; [apply extends_refl|done]. }
  assert (extends st1 st' /\
          forall mt2, agree (drawn st') mt1 mt2 ->
            match s1 with
            | Stop => Ok (Stop, st1)
            | Go => if bq then cq mt2 st1 else Ok (Go, st1)
            end = Ok (s, st')) as [He2 Hd2].
  { destruct s1; [|injection H as <- <-; split; [apply extends_refl|done]].
    destruct bq; [by apply Hq|]. injection H as <- <-.
    split; [apply extends_refl|done]. }
  split; [by eapply extends_trans|]. intros mt2 Hag.
  rewrite Hd1; [by apply Hd2|]. eapply agree_le; [|exact Hag]. apply He2.
Qed.

Lemma flip3_run mt1 cfg gas st s st' :
  flip3 mt1 cfg gas st = Ok (s, st') ->
  extends st st' /\
  forall mt2, agree (drawn st') mt1 mt2 -> flip3 mt2 cfg gas st = Ok (s, st').
Proof.
  unfold flip3. cbv zeta. intros H.
  apply bind_Ok in H as ([oc st1] & Hs & H).
  apply sample_flip_run in Hs as [He1 Hd1]. destruct oc as [c|].
  - apply bind_Ok in H as (st2 & Hc & H).
    destruct (shape_extends _ _ (commit3_shape _ _ _ _ Hc)) as [He2 Hdr2].
    apply (collapses_run (fun mt st => collapse_p3 mt cfg st c)
                         (fun mt st => collapse_q3 mt cfg st c)) in H
      as [He3 Hd3]; [|intros; by apply collapse_p3_run
                     |intros; by apply collapse_q3_run].
    split.
    { eapply extends_trans; [exact He1|]. by eapply extends_trans. }
    intros mt2 Hag. rewrite Hd1.
    + simpl. rewrite Hc. simpl. by apply Hd3.
    + eapply agree_le; [|exact Hag]. rewrite <- Hdr2. apply He3.
  - injection H as <- <-. split; [exact He1|]. intros mt2 Hag.
    by rewrite Hd1.
Qed.

Lemma flip6_run mt1 cfg gas st s st' :
  flip6 mt1 cfg gas st = Ok (s, st') ->
  extends st st' /\
  forall mt2, agree (drawn st') mt1 mt2 -> flip6 mt2 cfg gas st = Ok (s, st').
Proof.
  unfold flip6. cbv zeta. intros H.
  apply bind_Ok in H as ([oc st1] & Hs & H).
  apply sample_flip_run in Hs as [He1 Hd1]. destruct oc as [c|].
  - apply bind_Ok in H as (h & Hh & H).
    apply bind_Ok in H as (st2 & Hc & H).
    destruct (shape_extends _ _ (commit6_shape _ _ _ _ _ Hc)) as [He2 Hdr2].
    apply (collapses_run (fun mt st => collapse_p6 mt cfg st c h)
                         (fun mt st => collapse_q6 mt cfg st c h)) in H
      as [He3 Hd3]; [|intros; by apply collapse_p6_run
                     |intros; by apply collapse_q6_run].
    split.
    { eapply extends_trans; [exact He1|]. by eapply extends_trans. }
    intros mt2 Hag. rewrite Hd1.
    + simpl. rewrite Hh. simpl. rewrite Hc. simpl. by apply Hd3.
    + eapply agree_le; [|exact Hag]. rewrite <- Hdr2. apply He3.
  - injection H as <- <-. split; [exact He1|]. intros mt2 Hag.
    by rewrite Hd1.
Qed.

Lemma plus_pick3_det mt1 mt2 cfg : forall fuel st a st1,
  plus_pick3 mt1 cfg fuel st = Ok (a, st1) ->
  agree (drawn st1) mt1 mt2 ->
  plus_pick3 mt2 cfg fuel st = Ok (a, st1).
Proof.
  induction fuel as [|fuel IH]; intros st a st1 H Hag; [done|].
  assert (Hlt : (S (drawn st) < drawn st1)%nat).
  { simpl in H. destruct (wrap64 (nomuls cfg) =? 0); [done|].
    apply bind_Ok in H as (a1 & _ & H). apply bind_Ok in H as (pm & _ & H).
    match type of H with (if ?b then _ else _) = _ => destruct b end.
    - injection H as _ <-. simpl. lia.
    - apply plus_pick3_shape in H as [k' ->]. simpl. lia. }
  simpl in H |- *.
  rewrite <- (Hag (drawn st)) by lia. rewrite <- (Hag (S (drawn st))) by lia.
  destruct (wrap64 (nomuls cfg) =? 0); [done|].
  apply bind_Ok in H as (a1 & -> & H). simpl.
  apply bind_Ok in H as (pm & -> & H). simpl.
  match type of H with (if ?b then _ else _) = _ => destruct b end; [done|].
  by apply IH.
Qed.

Lemma plus_pick6_det mt1 mt2 cfg : forall fuel st a aa st1,
  plus_pick6 mt1 cfg fuel st = Ok (a, aa, st1) ->
  agree (drawn st1) mt1 mt2 ->
  plus_pick6 mt2 cfg fuel st = Ok (a, aa, st1).
Proof.
  induction fuel as [|fuel IH]; intros st a aa st1 H Hag; [done|].
  assert (Hlt : (S (drawn st) < drawn st1)%nat).
  { simpl in H. destruct (wrap64 (nomuls cfg) =? 0); [done|].
    apply bind_Ok in H as (a1 & _ & H). apply bind_Ok in H as (a2 & _ & H).
    apply bind_Ok in H as (pm & _ & H).
    match type of H with (if ?b then _ else _) = _ => destruct b end.
    - injection H as _ _ <-. simpl. lia.
    - apply plus_pick6_shape in H as [k' ->]. simpl. lia. }
  simpl in H |- *.
  rewrite <- (Hag (drawn st)) by lia. rewrite <- (Hag (S (drawn st))) by lia.
  destruct (wrap64 (nomuls cfg) =? 0); [done|].
  apply bind_Ok in H as (a1 & -> & H). simpl.
  apply bind_Ok in H as (a2 & -> & H). simpl.
  apply bind_Ok in H as (pm & -> & H). simpl.
  match type of H with (if ?b then _ else _) = _ => destruct b end; [done|].
  by apply IH.
Qed.

Lemma recover_extends cfg st :
  extends st (recover cfg st) /\ drawn (recover cfg st) = drawn st.
Proof. unfold recover. by destruct (flips st >=? recovery st). Qed.

Lemma plus3_run mt1 cfg gas st st' :
  plus3 mt1 cfg gas st = Ok st' ->
  extends st st' /\
  forall mt2, agree (drawn st') mt1 mt2 -> plus3 mt2 cfg gas st = Ok st'.
Proof.
  unfold plus3. cbv zeta. intros H.
  destruct (recover_extends cfg st) as [He0 _].
  apply bind_Ok in H as (r & Hr & H).
  apply bind_Ok in H as ([a st1] & Hp & H).
  apply bind_Ok in H as (st2 & Ha & H).
  destruct (plus_pick3_shape _ _ _ _ _ _ Hp) as [k Hk].
  destruct (shape_extends _ _ (plus_apply3_shape _ _ _ _ _ Ha)) as [He2 Hdr2].
  apply reschedule_run in H as [He3 Hd3].
  assert (He1 : extends (recover cfg st) st1).
  { rewrite Hk. unfold extends. simpl. repeat split; lia. }
  assert (Hle : (drawn st1 <= drawn st')%nat).
  { rewrite <- Hdr2. destruct He3 as [He3 _]. exact He3. }
  split.
  { eapply extends_trans; [exact He0|]. eapply extends_trans; [exact He1|].
    eapply extends_trans; [exact He2|]. destruct He3 as (? & ? & ?).
    by repeat split. }
  intros mt2 Hag. rewrite Hr. simpl.
  rewrite (plus_pick3_det _ mt2 _ _ _ _ _ Hp) by (by eapply agree_le).
  simpl. rewrite Ha. simpl. by apply Hd3.
Qed.

Lemma plus6_run mt1 cfg gas st st' :
  plus6 mt1 cfg gas st = Ok st' ->
  extends st st' /\
  forall mt2, agree (drawn st') mt1 mt2 -> plus6 mt2 cfg gas st = Ok st'.
Proof.
  unfold plus6. cbv zeta. intros H.
  destruct (recover_extends cfg st) as [He0 _].
  apply bind_Ok in H as (r & Hr & H).
  apply bind_Ok in H as ([[a aa] st1] & Hp & H).
  apply bind_Ok in H as (st2 & Ha & H).
  destruct (plus_pick6_shape _ _ _ _ _ _ _ Hp) as [k Hk].
  destruct (shape_extends _ _ (plus_apply6_shape _ _ _ _ _ _ Ha)) as [He2 Hdr2].
  apply reschedule_run in H as [He3 Hd3].
  assert (He1 : extends (recover cfg st) st1).
  { rewrite Hk. unfold extends. simpl. repeat split; lia. }
  assert (Hle : (drawn st1 <= drawn st')%nat).
  { rewrite <- Hdr2. destruct He3 as [He3 _]. exact He3. }
  split.
  { eapply extends_trans; [exact He0|]. eapply extends_trans; [exact He1|].
    eapply extends_trans; [exact He2|]. destruct He3 as (? & ? & ?).
    by repeat split. }
  intros mt2 Hag. rewrite Hr. simpl.
  rewrite (plus_pick6_det _ mt2 _ _ _ _ _ _ Hp) by (by eapply agree_le).
  simpl. rewrite Ha. simpl. by apply Hd3.
Qed.

(** A round: the flip [fl], then the plus move [pl] when it is due and the
    test of the flip limit. *)
Lemma round_run (fl : (nat -> Z) -> state -> res (status * state))
    (pl : (nat -> Z) -> state -> res state) cfg mt1 st s st' :
  (forall st s st', fl mt1 st = Ok (s, st') ->
     extends st st' /\
     forall mt2, agree (drawn st') mt1 mt2 -> fl mt2 st = Ok (s, st')) ->
  (forall st st', pl mt1 st = Ok st' ->
     extends st st' /\
     forall mt2, agree (drawn st') mt1 mt2 -> pl mt2 st = Ok st') ->
  ('(s, st) ← fl mt1 st;
   match s with
   | Stop => Ok (Stop, st)
   | Go => st ← (if flips st >=? plusby st then pl mt1 st else Ok st);
           Ok (limit_check cfg st)
   end) = Ok (s, st') ->
  extends st st' /\
  forall mt2, agree (drawn st') mt1 mt2 ->
    ('(s, st) ← fl mt2 st;
     match s with
     | Stop => Ok (Stop, st)
     | Go => st ← (if flips st >=? plusby st then pl mt2 st else Ok st);
             Ok (limit_check cfg st)
     end) = Ok (s, st').
Proof.
  intros Hfl Hpl H. apply bind_Ok in H as ([s1 st1] & H1 & H).
  apply Hfl in H1 as [He1 Hd1]. destruct s1.
  - apply bind_Ok in H as (st2 & H2 & H).
    assert (extends st1 st2 /\
            forall mt2, agree (drawn st2) mt1 mt2 ->
              (if flips st1 >=? plusby st1 then pl mt2 st1 else Ok st1)
              = Ok st2) as [He2 Hd2].
    { destruct (flips st1 >=? plusby st1); [by apply Hpl|].
      injection H2 as <-. split; [apply extends_refl|done]. }
    assert (He3 : extends st2 st' /\ drawn st' = drawn st2).
    { unfold limit_check in H. destruct (flips st2 >=? limit st2);
        injection H as <- <-; split; try apply extends_refl; done. }
    destruct He3 as [He3 Hdr]. split.
    { eapply extends_trans; [exact He1|]. by eapply extends_trans. }
    intros mt2 Hag. rewrite Hd1.
    + simpl. rewrite Hd2 by (by rewrite <- Hdr). simpl. exact H.
    + eapply agree_le; [|exact Hag]. rewrite Hdr. apply He2.
  - injection H as <- <-. split; [exact He1|]. intros mt2 Hag. by rewrite Hd1.
Qed.

Lemma step3_run mt1 cfg gas st s st' :
  step3 mt1 cfg gas st = Ok (s, st') ->
  extends st st' /\
  forall mt2, agree (drawn st') mt1 mt2 -> step3 mt2 cfg gas st = Ok (s, st').
Proof.
  apply (round_run (fun mt st => flip3 mt cfg gas st)
                   (fun mt st => plus3 mt cfg gas st)).
  - intros. by apply flip3_run.
  - intros. by apply plus3_run.
Qed.

Lemma step6_run mt1 cfg gas st s st' :
  step6 mt1 cfg gas st = Ok (s, st') ->
  extends st st' /\
  forall mt2, agree (drawn st') mt1 mt2 -> step6 mt2 cfg gas st = Ok (s, st').
Proof.
  apply (round_run (fun mt st => flip6 mt cfg gas st)
                   (fun mt st => plus6 mt cfg gas st)).
  - intros. by apply flip6_run.
  - intros. by apply plus6_run.
Qed.

Lemma loop3_run mt1 cfg gas : forall rounds st st',
  loop3 mt1 cfg gas rounds st = Ok st' ->
  extends st st' /\
  forall mt2, agree (drawn st') mt1 mt2 -> loop3 mt2 cfg gas rounds st = Ok st'.
Proof.
  induction rounds as [|rounds IH]; intros st st' H; [done|]. simpl in H.
  apply bind_Ok in H as ([s st1] & H1 & H).
  apply step3_run in H1 as [He1 Hd1]. destruct s.
  - apply IH in H as [He2 Hd2]. split; [by eapply extends_trans|].
    intros mt2 Hag. simpl. rewrite Hd1; [simpl; by apply Hd2|].
    eapply agree_le; [|exact Hag]. apply He2.
  - injection H as <-. split; [done|]. intros mt2 Hag. simpl. by rewrite Hd1.
Qed.

Lemma loop6_run mt1 cfg gas : forall rounds st st',
  loop6 mt1 cfg gas rounds st = Ok st' ->
  extends st st' /\
  forall mt2, agree (drawn st') mt1 mt2 -> loop6 mt2 cfg gas rounds st = Ok st'.
Proof.
  induction rounds as [|rounds IH]; intros st st' H; [done|]. simpl in H.
  apply bind_Ok in H as ([s st1] & H1 & H).
  apply step6_run in H1 as [He1 Hd1]. destruct s.
  - apply IH in H as [He2 Hd2]. split; [by eapply extends_trans|].
    intros mt2 Hag. simpl. rewrite Hd1; [simpl; by apply Hd2|].
    eapply agree_le; [|exact Hag]. apply He2.
  - injection H as <-. split; [done|]. intros mt2 Hag. simpl. by rewrite Hd1.
Qed.

Lemma init_run mt1 cfg flips0 muls0 st :
  init mt1 cfg flips0 muls0 = Ok st ->
  (vsize (muls st) = vsize muls0 /\ vsize (best st) = vsize muls0) /\
  forall mt2, agree (drawn st) mt1 mt2 -> init mt2 cfg flips0 muls0 = Ok st.
Proof.
  unfold init. intros H.
  destruct (_ || _); [done|]. destruct (_ && _); [done|].
  apply bind_Ok in H as ([m ach] & Hl & H). cbv zeta in H.
  apply bind_Ok in H as (st1 & Hr & H).
  apply bind_Ok in H as (l & Hu & H). injection H as <-.
  apply reschedule_run in Hr as [(_ & He1 & He2) Hd].
  split; [done|]. intros mt2 Hag. rewrite Hl. simpl.
  rewrite (Hd mt2) by done. simpl. by rewrite Hu.
Qed.

Lemma search_run mt1 cfg gas rounds flips0 muls0 st :
  search mt1 cfg gas rounds flips0 muls0 = Ok st ->
  (exists st', st = set_file st' (Some (output cfg st')) /\
               vsize (muls st') = vsize muls0 /\
               vsize (best st') = vsize muls0) /\
  forall mt2, agree (drawn st) mt1 mt2 ->
              search mt2 cfg gas rounds flips0 muls0 = Ok st.
Proof.
  unfold search. intros H.
  apply bind_Ok in H as (st0 & H0 & H).
  apply bind_Ok in H as (st1 & H1 & H).
  apply bind_Ok in H as (st2 & H2 & H). injection H as <-.
  apply init_run in H0 as [[Hl0 Hb0] Hd0].
  assert (extends st0 st1 /\
          forall mt2, agree (drawn st1) mt1 mt2 ->
            (if symm cfg =? 3 then loop3 mt2 cfg gas rounds st0 else Ok st0)
            = Ok st1) as [He1 Hd1].
  { destruct (symm cfg =? 3); [by apply loop3_run|]. injection H1 as <-.
    split; [apply extends_refl|done]. }
  assert (extends st1 st2 /\
          forall mt2, agree (drawn st2) mt1 mt2 ->
            (if symm cfg =? 6 then loop6 mt2 cfg gas rounds st1 else Ok st1)
            = Ok st2) as [He2 Hd2].
  { destruct (symm cfg =? 6); [by apply loop6_run|]. injection H2 as <-.
    split; [apply extends_refl|done]. }
  destruct (extends_trans _ _ _ He1 He2) as (Hdr & Hl & Hb).
  split.
  { exists st2. split; [done|]. split; congruence. }
  simpl. intros mt2 Hag.
  rewrite Hd0; [|eapply agree_le; [|exact Hag]; lia]. simpl.
  rewrite Hd1; [|eapply agree_le; [|exact Hag]; apply He2]. simpl.
  by rewrite Hd2.
Qed.

(** C8.  A run that ends writes a file whose first line is [nomuls flips
    rcode target flimit plimit termination rseed symm maxplus achieved
    minmuls plus], followed by one line for each of the [nomuls] values of
    [best] when [minmuls < achieved] at the end, and of [muls]
    otherwise. *)
Theorem output_lines mt cfg gas rounds flips0 muls0 st :
  vsize muls0 = nomuls cfg ->
  search mt cfg gas rounds flips0 muls0 = Ok st ->
  file st
  = Some ([nomuls cfg; flips st; rcode st; target cfg; flimit cfg;
           plimit cfg; termination cfg; rseed cfg; symm cfg; maxplus cfg;
           achieved st; minmuls st; plus st]
          :: map (fun m => [m])
                 (if minmuls st <? achieved st then best st else muls st)) /\
  vsize (if minmuls st <? achieved st then best st else muls st) = nomuls cfg.
Proof.
  intros Hn H. apply search_run in H as [(st' & -> & Hl & Hb) _]. simpl.
  unfold output. split; [by destruct (minmuls st' <? achieved st')|].
  destruct (minmuls st' <? achieved st'); unfold vsize in *; congruence.
Qed.

(** The run of scenario S2 with target 3: the file has [rcode] -1 and the
    six values of [muls]. *)
Lemma output_lines_witness :
  exists st,
    vsize muls_S2 = nomuls (cfg_S2 3) /\
    search mt_S2 (cfg_S2 3) 1 1 0 muls_S2 = Ok st /\
    file st = Some [[6; 3; -1; 3; 1000000; 0; 0; 1; 3; 0; 3; 3; 0];
                    [0]; [0]; [0]; [1]; [0]; [3]].
Proof.
  assert (exists st, search mt_S2 (cfg_S2 3) 1 1 0 muls_S2 = Ok st /\
                     flips st = 3 /\ rcode st = -1 /\ achieved st = 3 /\
                     minmuls st = 3 /\ plus st = 0 /\
                     muls st = [0; 0; 0; 1; 0; 3]) as (st & Hs & Hf).
  { eexists. split; [vm_compute; reflexivity|].
    vm_compute. repeat split; reflexivity. }
  exists st. split; [reflexivity|]. split; [exact Hs|].
  destruct (output_lines mt_S2 (cfg_S2 3) 1 1 0 muls_S2 st eq_refl Hs) as [Ho _].
  destruct Hf as (Hfl & Hrc & Hac & Hmi & Hpl & Hmu).
  rewrite Ho, Hfl, Hrc, Hac, Hmi, Hpl, Hmu. reflexivity.
Defined.

(** ** The flip of the [symm == 6] loop *)

Lemma live_partner_w w mu asg p s x :
  tracks mu asg -> groups_ok w mu -> is_Some (asg !! p) ->
  s / w = p / w -> vget mu s = Ok x -> asg !! s = Some x /\ x <> 0.
Proof.
  intros Htr Hg [v Hv] Hs Hx.
  apply Htr in Hv as [Hv [Hv0|Hin]]; [|by apply elem_of_nil in Hin].
  assert (x <> 0).
  { destruct (Hg (p / w)) as [Hz|Hnz]; [|eauto]. destruct Hv0. eauto. }
  split; [|done]. apply Htr. eauto.
Qed.

Lemma dead_partner_w w mu s s' n :
  groups_ok w mu -> vsize mu = n -> vget mu s = Ok 0 ->
  s' / w = s / w -> 0 <= s' < n -> vget mu s' = Ok 0.
Proof.
  intros Hg Hlen Hs Hs' Hr. destruct (vget_range mu s') as [x Hx]; [lia|].
  destruct (Hg (s / w)) as [Hz|Hnz].
  - by rewrite (Hz s' x Hs' Hx) in Hx.
  - by destruct (Hnz s 0).
Qed.

Lemma vset_same mu s x : vget mu s = Ok x -> vset mu s x = Ok mu.
Proof.
  unfold vget, vset. intros H.
  destruct (s <? 0) eqn:E1; [done|].
  destruct (mu !! Z.to_nat s) as [y|] eqn:E; [|done]. injection H as ->.
  apply lookup_lt_Some in E as Hlt.
  destruct (Z.of_nat (length mu) <=? s) eqn:E2; [lia|].
  f_equal. by apply list_insert_id.
Qed.

Lemma paired_slots cfg p ep fp :
  me cfg p = Ok ep -> mf cfg p = Ok fp -> nomuls cfg mod 6 = 0 ->
  me cfg (paired p) = Ok (paired ep) /\ mf cfg (paired p) = Ok (paired fp).
Proof.
  unfold me, mf, in_slots, paired. intros Hep Hfp Hn.
  destruct (_ && _) eqn:E in Hep; [|done].
  apply andb_prop in E as [E1 E2]. apply Z.leb_le in E1. apply Z.ltb_lt in E2.
  injection Hep as <-.
  destruct (_ && _) eqn:E in Hfp; [|done]. injection Hfp as <-.
  rewrite !Z.rem_mod_nonneg by (repeat case_match; lia).
  assert (Hin : forall x, 0 <= x < nomuls cfg -> (0 <=? x) && (x <? nomuls cfg) = true).
  { intros x Hx. apply andb_true_intro. split; [apply Z.leb_le|apply Z.ltb_lt]; lia. }
  destruct (p mod 6 <? 3) eqn:E6.
  - apply Z.ltb_lt in E6. rewrite Hin by zdiv.
    split; f_equal; repeat case_match; zdiv.
  - apply Z.ltb_ge in E6. rewrite Hin by zdiv.
    split; f_equal; repeat case_match; zdiv.
Qed.

Lemma sextuple_slots cfg p ep fp pp epp fpp :
  me cfg p = Ok ep -> mf cfg p = Ok fp -> pp = paired p ->
  me cfg pp = Ok epp -> mf cfg pp = Ok fpp -> nomuls cfg mod 6 = 0 ->
  (p <> ep /\ p <> fp /\ p <> pp /\ p <> epp /\ p <> fpp /\
   ep <> fp /\ ep <> pp /\ ep <> epp /\ ep <> fpp /\
   fp <> pp /\ fp <> epp /\ fp <> fpp /\
   pp <> epp /\ pp <> fpp /\ epp <> fpp) /\
  (ep / 6 = p / 6 /\ fp / 6 = p / 6 /\ pp / 6 = p / 6 /\
   epp / 6 = p / 6 /\ fpp / 6 = p / 6) /\
  (0 <= p < nomuls cfg /\ 0 <= ep < nomuls cfg /\ 0 <= fp < nomuls cfg /\
   0 <= pp < nomuls cfg /\ 0 <= epp < nomuls cfg /\ 0 <= fpp < nomuls cfg) /\
  (forall s, s / 6 = p / 6 ->
     s = p \/ s = ep \/ s = fp \/ s = pp \/ s = epp \/ s = fpp).
Proof.
  intros Hep Hfp -> Hepp Hfpp Hn.
  apply me_Ok in Hep as [Hr Hep]. apply mf_Ok in Hfp as [_ Hfp].
  apply me_Ok in Hepp as [Hrp Hepp]. apply mf_Ok in Hfpp as [_ Hfpp].
  unfold paired in *. rewrite Z.rem_mod_nonneg in * by lia.
  assert (exists k r, p = 6 * k + r /\ 0 <= r < 6 /\ 0 <= k /\
                      nomuls cfg = 6 * (nomuls cfg / 6)) as (k & r & -> & Hr6 & Hk & Hn6).
  { exists (p / 6), (p mod 6). zdiv. }
  assert (Hm6 : (6 * k + r) mod 6 = r) by zdiv.
  assert (Hd6 : (6 * k + r) / 6 = k) by zdiv.
  rewrite Hm6 in *. rewrite Hd6.
  assert (Hm3 : (6 * k + r) mod 3 = r mod 3) by zdiv. rewrite Hm3 in *.
  generalize dependent (nomuls cfg / 6). intros n Hn6.
  assert (r = 0 \/ r = 1 \/ r = 2 \/ r = 3 \/ r = 4 \/ r = 5) as Hcase by lia.
  destruct Hcase as [-> | [-> | [-> | [-> | [-> | ->]]]]]; simpl in *;
    repeat split; try (intros s Hs); zdiv.
Qed.

Lemma read_half_spec cfg mu p q h :
  read_half cfg mu p q = Ok h ->
  h_pp h = paired p /\ h_qq h = paired q /\
  exists epp fpp eqq fqq,
    me cfg (paired p) = Ok epp /\ mf cfg (paired p) = Ok fpp /\
    me cfg (paired q) = Ok eqq /\ mf cfg (paired q) = Ok fqq /\
    vget mu p = Ok (h_mpd h) /\ vget mu q = Ok (h_mqd h) /\
    vget mu (paired p) = Ok (h_mppd h) /\ vget mu epp = Ok (h_mppe h) /\
    vget mu fpp = Ok (h_mppf h) /\
    vget mu (paired q) = Ok (h_mqqd h) /\ vget mu eqq = Ok (h_mqqe h) /\
    vget mu fqq = Ok (h_mqqf h) /\
    h_mppen h = Z.lxor (h_mqqe h) (h_mppe h) /\
    h_mqqfn h = Z.lxor (h_mqqf h) (h_mppf h).
Proof.
  unfold read_half. intros H.
  apply bind_Ok in H as (mpd & Hmpd & H). apply bind_Ok in H as (mqd & Hmqd & H).
  cbv zeta in H.
  apply bind_Ok in H as (mppd & Hmppd & H).
  apply bind_Ok in H as (epp & Hepp & H). apply bind_Ok in H as (mppe & Hmppe & H).
  apply bind_Ok in H as (fpp & Hfpp & H). apply bind_Ok in H as (mppf & Hmppf & H).
  apply bind_Ok in H as (mqqd & Hmqqd & H).
  apply bind_Ok in H as (eqq & Heqq & H). apply bind_Ok in H as (mqqe & Hmqqe & H).
  apply bind_Ok in H as (fqq & Hfqq & H). apply bind_Ok in H as (mqqf & Hmqqf & H).
  injection H as <-. simpl. split; [done|]. split; [done|].
  exists epp, fpp, eqq, fqq. repeat split; done.
Qed.

Lemma commit6_chain cfg st c h st' asg ep epp fq fqq :
  me cfg (c_p c) = Ok ep -> me cfg (h_pp h) = Ok epp ->
  mf cfg (c_q c) = Ok fq -> mf cfg (h_qq h) = Ok fqq ->
  asg !! ep = Some (c_mpe c) -> asg !! epp = Some (h_mppe h) ->
  asg !! fq = Some (c_mqf c) -> asg !! fqq = Some (h_mqqf h) ->
  ep <> epp -> ep <> fq -> ep <> fqq -> epp <> fq -> epp <> fqq -> fq <> fqq ->
  (forall s v, asg !! s = Some v -> 0 <= s < nomuls cfg) ->
  mm_ok (nomuls cfg) (M st) asg ->
  commit6 cfg st c h = Ok st' ->
  exists mu1 mu2 mu3,
    vset (muls st) ep (c_mpen c) = Ok mu1 /\
    vset mu1 epp (h_mppen h) = Ok mu2 /\
    vset mu2 fq (c_mqfn c) = Ok mu3 /\
    vset mu3 fqq (h_mqqfn h) = Ok (muls st') /\
    mm_ok (nomuls cfg) (M st')
      (<[fqq := h_mqqfn h]> (delete fqq
        (<[fq := c_mqfn c]> (delete fq
          (<[epp := h_mppen h]> (delete epp
            (<[ep := c_mpen c]> (delete ep asg)))))))) /\
    st' = set_muls (set_M st (M st')) (muls st').
Proof.
  intros Hep Hepp Hfq Hfqq Ha1 Ha2 Ha3 Ha4 D1 D2 D3 D4 D5 D6 Hrng Hok H.
  unfold commit6 in H. rewrite Hep in H. simpl in H.
  apply bind_Ok in H as (m1 & H1 & H). apply bind_Ok in H as (m2 & H2 & H).
  apply bind_Ok in H as (mu1 & Hs1 & H). rewrite Hepp in H. simpl in H.
  apply bind_Ok in H as (m3 & H3 & H). apply bind_Ok in H as (m4 & H4 & H).
  apply bind_Ok in H as (mu2 & Hs2 & H). rewrite Hfq in H. simpl in H.
  apply bind_Ok in H as (m5 & H5 & H). apply bind_Ok in H as (m6 & H6 & H).
  apply bind_Ok in H as (mu3 & Hs3 & H). rewrite Hfqq in H. simpl in H.
  apply bind_Ok in H as (m7 & H7 & H). apply bind_Ok in H as (m8 & H8 & H).
  apply bind_Ok in H as (mu4 & Hs4 & H). injection H as <-. simpl.
  exists mu1, mu2, mu3. do 4 (split; [done|]). split; [|done].
  pose proof (Hrng _ _ Ha1). pose proof (Hrng _ _ Ha2).
  pose proof (Hrng _ _ Ha3). pose proof (Hrng _ _ Ha4).
  apply (flipdel_spec _ _ _ _ _ _ Hok Ha1) in H1.
  apply (flipadd_spec _ _ _ _ _ _ H1) in H2; [|by clookups|done].
  apply (flipdel_spec _ _ _ _ _ _ H2) in H3; [|by clookups].
  apply (flipadd_spec _ _ _ _ _ _ H3) in H4; [|by clookups|done].
  apply (flipdel_spec _ _ _ _ _ _ H4) in H5; [|by clookups].
  apply (flipadd_spec _ _ _ _ _ _ H5) in H6; [|by clookups|done].
  apply (flipdel_spec _ _ _ _ _ _ H6) in H7; [|by clookups].
  apply (flipadd_spec _ _ _ _ _ _ H7) in H8; [done|by clookups|done].
Qed.

(** The deletion of a sextuple; [x] and [xx] are the slots the source
    zeroes only when their value is not zero already. *)
Lemma delete_p6_chain cfg st c h st' asg ep fp epp fpp :
  me cfg (c_p c) = Ok ep -> mf cfg (c_p c) = Ok fp ->
  me cfg (h_pp h) = Ok epp -> mf cfg (h_pp h) = Ok fpp ->
  asg !! c_p c = Some (h_mpd h) -> asg !! ep = Some (c_mpen c) ->
  asg !! fp = Some (c_mpf c) -> asg !! h_pp h = Some (h_mppd h) ->
  asg !! epp = Some (h_mppen h) -> asg !! fpp = Some (h_mppf h) ->
  vget (muls st) ep = Ok (c_mpen c) -> vget (muls st) epp = Ok (h_mppen h) ->
  (c_mpen c = 0 -> h_mppen h = 0) ->
  (c_p c <> ep /\ c_p c <> fp /\ c_p c <> h_pp h /\ c_p c <> epp /\ c_p c <> fpp /\
   ep <> fp /\ ep <> h_pp h /\ ep <> epp /\ ep <> fpp /\
   fp <> h_pp h /\ fp <> epp /\ fp <> fpp /\
   h_pp h <> epp /\ h_pp h <> fpp /\ epp <> fpp) ->
  mm_ok (nomuls cfg) (M st) asg ->
  delete_p6 cfg st c h = Ok st' ->
  exists mu1 mu2 mu3 mu4 mu5,
    vset (muls st) (c_p c) 0 = Ok mu1 /\ vset mu1 fp 0 = Ok mu2 /\
    vset mu2 (h_pp h) 0 = Ok mu3 /\ vset mu3 fpp 0 = Ok mu4 /\
    vset mu4 ep 0 = Ok mu5 /\ vset mu5 epp 0 = Ok (muls st') /\
    mm_ok (nomuls cfg) (M st')
      (delete fpp (delete epp (delete (h_pp h)
        (delete fp (delete ep (delete (c_p c) asg)))))) /\
    st' = set_muls (set_M st (M st')) (muls st').
Proof.
  intros Hep Hfp Hepp Hfpp Ha1 Ha2 Ha3 Ha4 Ha5 Ha6 Hv1 Hv2 Hz
    (D1 & D2 & D3 & D4 & D5 & D6 & D7 & D8 & D9 & D10 & D11 & D12 & D13 & D14 & D15)
    Hok H.
  unfold delete_p6 in H.
  apply bind_Ok in H as (m1 & H1 & H). rewrite Hep in H. simpl in H.
  apply bind_Ok in H as (m2 & H2 & H). rewrite Hfp in H. simpl in H.
  apply bind_Ok in H as (m3 & H3 & H).
  apply bind_Ok in H as (mu1 & Hs1 & H). apply bind_Ok in H as (mu2 & Hs2 & H).
  apply bind_Ok in H as (m4 & H4 & H). rewrite Hepp in H. simpl in H.
  apply bind_Ok in H as (m5 & H5 & H). rewrite Hfpp in H. simpl in H.
  apply bind_Ok in H as (m6 & H6 & H).
  apply bind_Ok in H as (mu3 & Hs3 & H). apply bind_Ok in H as (mu4 & Hs4 & H).
  apply bind_Ok in H as (mu6 & Hs6 & H). injection H as <-. simpl.
  assert (exists mu5, vset mu4 ep 0 = Ok mu5 /\ vset mu5 epp 0 = Ok mu6)
    as (mu5 & Hs5 & Hs6').
  { destruct (c_mpen c =? 0) eqn:E; simpl in Hs6.
    - apply Z.eqb_eq in E. injection Hs6 as <-. exists mu4.
      rewrite Hz in Hv2 by done. rewrite E in Hv1.
      split; apply vset_same; vgets; rewrite !decide_False by congruence; done.
    - apply bind_Ok in Hs6 as (mu5 & Hs5 & Hs6). by exists mu5. }
  exists mu1, mu2, mu3, mu4, mu5. do 6 (split; [done|]). split; [|done].
  apply (flipdel_spec _ _ _ _ _ _ Hok Ha1) in H1.
  apply (flipdel_spec _ _ _ _ _ _ H1) in H2; [|by clookups].
  apply (flipdel_spec _ _ _ _ _ _ H2) in H3; [|by clookups].
  apply (flipdel_spec _ _ _ _ _ _ H3) in H4; [|by clookups].
  apply (flipdel_spec _ _ _ _ _ _ H4) in H5; [|by clookups].
  apply (flipdel_spec _ _ _ _ _ _ H5) in H6; [done|by clookups].
Qed.

Lemma delete_q6_chain cfg st c h st' asg eq fq eqq fqq :
  me cfg (c_q c) = Ok eq -> mf cfg (c_q c) = Ok fq ->
  me cfg (h_qq h) = Ok eqq -> mf cfg (h_qq h) = Ok fqq ->
  asg !! c_q c = Some (h_mqd h) -> asg !! eq = Some (c_mqe c) ->
  asg !! fq = Some (c_mqfn c) -> asg !! h_qq h = Some (h_mqqd h) ->
  asg !! eqq = Some (h_mqqe h) -> asg !! fqq = Some (h_mqqfn h) ->
  vget (muls st) fq = Ok (c_mqfn c) -> vget (muls st) fqq = Ok (h_mqqfn h) ->
  (c_mqfn c = 0 -> h_mqqfn h = 0) ->
  (c_q c <> eq /\ c_q c <> fq /\ c_q c <> h_qq h /\ c_q c <> eqq /\ c_q c <> fqq /\
   eq <> fq /\ eq <> h_qq h /\ eq <> eqq /\ eq <> fqq /\
   fq <> h_qq h /\ fq <> eqq /\ fq <> fqq /\
   h_qq h <> eqq /\ h_qq h <> fqq /\ eqq <> fqq) ->
  mm_ok (nomuls cfg) (M st) asg ->
  delete_q6 cfg st c h = Ok st' ->
  exists mu1 mu2 mu3 mu4 mu5,
    vset (muls st) (c_q c) 0 = Ok mu1 /\ vset mu1 eq 0 = Ok mu2 /\
    vset mu2 (h_qq h) 0 = Ok mu3 /\ vset mu3 eqq 0 = Ok mu4 /\
    vset mu4 fq 0 = Ok mu5 /\ vset mu5 fqq 0 = Ok (muls st') /\
    mm_ok (nomuls cfg) (M st')
      (delete fqq (delete eqq (delete (h_qq h)
        (delete fq (delete eq (delete (c_q c) asg)))))) /\
    st' = set_muls (set_M st (M st')) (muls st').
Proof.
  intros Heq Hfq Heqq Hfqq Ha1 Ha2 Ha3 Ha4 Ha5 Ha6 Hv1 Hv2 Hz
    (D1 & D2 & D3 & D4 & D5 & D6 & D7 & D8 & D9 & D10 & D11 & D12 & D13 & D14 & D15)
    Hok H.
  unfold delete_q6 in H.
  apply bind_Ok in H as (m1 & H1 & H). rewrite Heq in H. simpl in H.
  apply bind_Ok in H as (m2 & H2 & H). rewrite Hfq in H. simpl in H.
  apply bind_Ok in H as (m3 & H3 & H).
  apply bind_Ok in H as (mu1 & Hs1 & H). apply bind_Ok in H as (mu2 & Hs2 & H).
  apply bind_Ok in H as (m4 & H4 & H). rewrite Heqq in H. simpl in H.
  apply bind_Ok in H as (m5 & H5 & H). rewrite Hfqq in H. simpl in H.
  apply bind_Ok in H as (m6 & H6 & H).
  apply bind_Ok in H as (mu3 & Hs3 & H). apply bind_Ok in H as (mu4 & Hs4 & H).
  apply bind_Ok in H as (mu6 & Hs6 & H). injection H as <-. simpl.
  assert (exists mu5, vset mu4 fq 0 = Ok mu5 /\ vset mu5 fqq 0 = Ok mu6)
    as (mu5 & Hs5 & Hs6').
  { destruct (c_mqfn c =? 0) eqn:E; simpl in Hs6.
    - apply Z.eqb_eq in E. injection Hs6 as <-. exists mu4.
      rewrite Hz in Hv2 by done. rewrite E in Hv1.
      split; apply vset_same; vgets; rewrite !decide_False by congruence; done.
    - apply bind_Ok in Hs6 as (mu5 & Hs5 & Hs6). by exists mu5. }
  exists mu1, mu2, mu3, mu4, mu5. do 6 (split; [done|]). split; [|done].
  apply (flipdel_spec _ _ _ _ _ _ Hok Ha1) in H1.
  apply (flipdel_spec _ _ _ _ _ _ H1) in H2; [|by clookups].
  apply (flipdel_spec _ _ _ _ _ _ H2) in H3; [|by clookups].
  apply (flipdel_spec _ _ _ _ _ _ H3) in H4; [|by clookups].
  apply (flipdel_spec _ _ _ _ _ _ H4) in H5; [|by clookups].
  apply (flipdel_spec _ _ _ _ _ _ H5) in H6; [done|by clookups].
Qed.

Lemma pair_sym_spec mu s t x y x' y' :
  pair_sym mu = true ->
  vget mu s = Ok x -> vget mu t = Ok y ->
  vget mu (paired s) = Ok x' -> vget mu (paired t) = Ok y' ->
  (x = y <-> x' = y').
Proof.
  unfold pair_sym. intros H Hs Ht Hs' Ht'.
  rewrite forallb_forall in H.
  specialize (H s). rewrite forallb_forall in H.
  assert (Hin : forall z w, vget mu z = Ok w -> In z (seqZ 0 (vsize mu))).
  { intros z w Hz. apply vget_Ok in Hz. apply list_elem_of_In, elem_of_seqZ. lia. }
  specialize (H (Hin _ _ Hs) t (Hin _ _ Ht)).
  apply Bool.eqb_prop in H. unfold collide in H.
  rewrite Hs, Ht, Hs', Ht' in H.
  destruct (x =? y) eqn:E; symmetry in H.
  - apply Z.eqb_eq in E, H. done.
  - apply Z.eqb_neq in E, H. done.
Qed.

Lemma lxor_zero a b : Z.lxor a b = 0 <-> a = b.
Proof. split; [apply Z.lxor_eq|intros ->; apply Z.lxor_nilpotent]. Qed.

Lemma apart w a b p q :
  a / w = p / w -> b / w = q / w -> p / w <> q / w -> a <> b.
Proof. congruence. Qed.

Theorem flip6_inv mt cfg gas st st' :
  Inv 6 cfg st -> pair_sym (muls st) = true ->
  flip6 mt cfg gas st = Ok (Go, st') -> Inv 6 cfg st'.
Proof.
  intros [Hsym [Hn0 Hn] Hlen Hg (asg & Hok & Htr)] Hps H. unfold flip6 in H.
  apply bind_Ok in H as ([oc st1] & Hsf & H).
  apply sample_flip_spec with (asg := asg) in Hsf as (k & Hk & _ & Hc); [|lia|done].
  destruct oc as [c|]; [|done].
  destruct (Hc c eq_refl) as (ep & fp & eq & fq & Hctx). clear Hc.
  destruct Hk as (m1 & Hsame & ->).
  apply bind_Ok in H as (h & Hh & H). simpl in Hh.
  apply read_half_spec in Hh
    as (Epp & Eqq & epp & fpp & eqq & fqq & Hepp & Hfpp & Heqq & Hfqq &
        Hmpd & Hmqd & Hmppd & Hmppe & Hmppf & Hmqqd & Hmqqe & Hmqqf &
        Hmppen & Hmqqfn).
  destruct Hctx as [Hep Hfp Heq Hfq Hmpe Hmpf Hmqe Hmqf Hmpen Hmqfn [vp Hvp] [vq Hvq] Hap].
  simpl in Hmpe, Hmpf, Hmqe, Hmqf. rewrite Hsym in Hap.
  rewrite <- Epp in Hepp, Hfpp, Hmppd. rewrite <- Eqq in Heqq, Hfqq, Hmqqd.
  destruct (paired_slots _ _ _ _ Hep Hfp Hn) as [Pep Pfp].
  destruct (paired_slots _ _ _ _ Heq Hfq Hn) as [Peq Pfq].
  rewrite <- Epp in Pep, Pfp. rewrite <- Eqq in Peq, Pfq.
  assert (Eepp : paired ep = epp) by congruence.
  assert (Efpp : paired fp = fpp) by congruence.
  assert (Eeqq : paired eq = eqq) by congruence.
  assert (Efqq : paired fq = fqq) by congruence.
  assert (Zp : c_mpen c = 0 <-> h_mppen h = 0).
  { rewrite Hmpen, Hmppen, !lxor_zero.
    apply (pair_sym_spec (muls st) eq ep); try done; congruence. }
  assert (Zq : c_mqfn c = 0 <-> h_mqqfn h = 0).
  { rewrite Hmqfn, Hmqqfn, !lxor_zero.
    apply (pair_sym_spec (muls st) fq fp); try done; congruence. }
  clear Pep Pfp Peq Pfq Eepp Efpp Eeqq Efqq Hps.
  destruct (sextuple_slots _ _ _ _ _ _ _ Hep Hfp Epp Hepp Hfpp Hn)
    as (Dp & (Tp1 & Tp2 & Tp3 & Tp4 & Tp5) & _ & Mp).
  destruct (sextuple_slots _ _ _ _ _ _ _ Heq Hfq Eqq Heqq Hfqq Hn)
    as (Dq & (Tq1 & Tq2 & Tq3 & Tq4 & Tq5) & _ & Mq).
  assert (Hsp := mk_is_Some _ _ Hvp). assert (Hsq := mk_is_Some _ _ Hvq).
  destruct (live_partner_w 6 _ _ (c_p c) (c_p c) _ Htr Hg Hsp eq_refl Hmpd) as [Ap0 Np0].
  destruct (live_partner_w 6 _ _ (c_p c) ep _ Htr Hg Hsp Tp1 Hmpe) as [Ap1 Np1].
  destruct (live_partner_w 6 _ _ (c_p c) fp _ Htr Hg Hsp Tp2 Hmpf) as [Ap2 Np2].
  destruct (live_partner_w 6 _ _ (c_p c) (h_pp h) _ Htr Hg Hsp Tp3 Hmppd) as [Ap3 Np3].
  destruct (live_partner_w 6 _ _ (c_p c) epp _ Htr Hg Hsp Tp4 Hmppe) as [Ap4 Np4].
  destruct (live_partner_w 6 _ _ (c_p c) fpp _ Htr Hg Hsp Tp5 Hmppf) as [Ap5 Np5].
  destruct (live_partner_w 6 _ _ (c_q c) (c_q c) _ Htr Hg Hsq eq_refl Hmqd) as [Aq0 Nq0].
  destruct (live_partner_w 6 _ _ (c_q c) eq _ Htr Hg Hsq Tq1 Hmqe) as [Aq1 Nq1].
  destruct (live_partner_w 6 _ _ (c_q c) fq _ Htr Hg Hsq Tq2 Hmqf) as [Aq2 Nq2].
  destruct (live_partner_w 6 _ _ (c_q c) (h_qq h) _ Htr Hg Hsq Tq3 Hmqqd) as [Aq3 Nq3].
  destruct (live_partner_w 6 _ _ (c_q c) eqq _ Htr Hg Hsq Tq4 Hmqqe) as [Aq4 Nq4].
  destruct (live_partner_w 6 _ _ (c_q c) fqq _ Htr Hg Hsq Tq5 Hmqqf) as [Aq5 Nq5].
  destruct Dp as (Dp1 & Dp2 & Dp3 & Dp4 & Dp5 & Dp6 & Dp7 & Dp8 & Dp9 & Dp10
                  & Dp11 & Dp12 & Dp13 & Dp14 & Dp15).
  destruct Dq as (Dq1 & Dq2 & Dq3 & Dq4 & Dq5 & Dq6 & Dq7 & Dq8 & Dq9 & Dq10
                  & Dq11 & Dq12 & Dq13 & Dq14 & Dq15).
  apply bind_Ok in H as (st2 & Hcm & H).
  assert (Hrng : forall s v, asg !! s = Some v -> 0 <= s < nomuls cfg).
  { intros s v Hsv. apply Htr in Hsv as [Hsv _]. apply vget_Ok in Hsv.
    clear -Hsv Hlen. lia. }
  match type of Hcm with commit6 _ ?s _ _ = _ => set (st1 := s) in * end.
  assert (Hok1 : mm_ok (nomuls cfg) (M st1) asg) by (by eapply mm_ok_same_tables).
  pose proof (apart 6 _ _ _ _ Tp1 Tq2 Hap) as X12.
  pose proof (apart 6 _ _ _ _ Tp1 Tq5 Hap) as X15.
  pose proof (apart 6 _ _ _ _ Tp4 Tq2 Hap) as X42.
  pose proof (apart 6 _ _ _ _ Tp4 Tq5 Hap) as X45.
  pose proof (commit6_chain _ st1 _ _ _ asg _ _ _ _ Hep Hepp Hfq Hfqq Ap1 Ap4 Aq2 Aq5
                Dp8 X12 X15 X42 X45 Dq12 Hrng Hok1 Hcm)
    as (mu1 & mu2 & mu3 & Hs1 & Hs2 & Hs3 & Hs4 & Hok2 & Est2).
  change (muls st1) with (muls st) in Hs1.
  clear Hcm Hok1 Hsame Hok X12 X15 X42 X45. clearbody st1.
  set (asg2 := <[fqq := h_mqqfn h]> (delete fqq
        (<[fq := c_mqfn c]> (delete fq
          (<[epp := h_mppen h]> (delete epp
            (<[ep := c_mpen c]> (delete ep asg)))))))) in *.
  apply bind_Ok in H as ([s1 st3] & Hcp & H).
  assert (exists asg3, mm_ok (nomuls cfg) (M st3) asg3 /\
    ((asg3 = delete fpp (delete epp (delete (h_pp h)
               (delete fp (delete ep (delete (c_p c) asg2))))) /\
      exists mua mub muc mud mue,
        vset (muls st2) (c_p c) 0 = Ok mua /\ vset mua fp 0 = Ok mub /\
        vset mub (h_pp h) 0 = Ok muc /\ vset muc fpp 0 = Ok mud /\
        vset mud ep 0 = Ok mue /\ vset mue epp 0 = Ok (muls st3)) \/
     (c_mpen c <> 0 /\ h_mppen h <> 0 /\ asg3 = asg2 /\ muls st3 = muls st2)))
    as (asg3 & Hok3 & Hcase3).
  { destruct (collapses_p6 c h) eqn:E.
    - unfold collapse_p6 in Hcp. apply bind_Ok in Hcp as (stx & Hdel & Haft).
      apply after_collapse_frame in Haft as [Hmu Hsame].
      eapply delete_p6_chain with (asg := asg2) (ep := ep) (fp := fp)
        (epp := epp) (fpp := fpp) in Hdel
        as (mua & mub & muc & mud & mue & Ha & Hb & Hc & Hd & He & Hf & Hok3 & _);
        [|done|done|done|done
         |unfold asg2; clookups; done|unfold asg2; clookups; done
         |unfold asg2; clookups; done|unfold asg2; clookups; done
         |unfold asg2; clookups; done|unfold asg2; clookups; done
         |vgets; repeat case_decide; congruence
         |vgets; repeat case_decide; congruence
         |apply Zp|repeat split; done|done].
      eexists. split; [eapply mm_ok_same_tables; [exact Hsame|exact Hok3]|].
      left. split; [done|]. rewrite Hmu.
      exists mua, mub, muc, mud, mue. repeat split; done.
    - injection Hcp as <- <-. exists asg2. split; [done|]. right.
      unfold collapses_p6 in E. apply orb_false_elim in E as [E _].
      apply Z.eqb_neq in E. split; [done|]. split; [|done]. by rewrite <- Zp. }
  destruct s1; [|done].
  assert (exists asg4, mm_ok (nomuls cfg) (M st') asg4 /\
    ((asg4 = delete fqq (delete eqq (delete (h_qq h)
               (delete fq (delete eq (delete (c_q c) asg3))))) /\
      exists mua mub muc mud mue,
        vset (muls st3) (c_q c) 0 = Ok mua /\ vset mua eq 0 = Ok mub /\
        vset mub (h_qq h) 0 = Ok muc /\ vset muc eqq 0 = Ok mud /\
        vset mud fq 0 = Ok mue /\ vset mue fqq 0 = Ok (muls st')) \/
     (c_mqfn c <> 0 /\ h_mqqfn h <> 0 /\ asg4 = asg3 /\ muls st' = muls st3)))
    as (asg4 & Hok4 & Hcase4).
  { destruct (collapses_q6 c h) eqn:E.
    - unfold collapse_q6 in H. apply bind_Ok in H as (stx & Hdel & Haft).
      apply after_collapse_frame in Haft as [Hmu Hsame].
      eapply delete_q6_chain with (asg := asg3) (eq := eq) (fq := fq)
        (eqq := eqq) (fqq := fqq) in Hdel
        as (mua & mub & muc & mud & mue & Ha & Hb & Hc & Hd & He & Hf & Hok4 & _);
        [|done|done|done|done
         |destruct Hcase3 as [(-> & _)|(_ & _ & -> & _)]; unfold asg2; clookups; done
         |destruct Hcase3 as [(-> & _)|(_ & _ & -> & _)]; unfold asg2; clookups; done
         |destruct Hcase3 as [(-> & _)|(_ & _ & -> & _)]; unfold asg2; clookups; done
         |destruct Hcase3 as [(-> & _)|(_ & _ & -> & _)]; unfold asg2; clookups; done
         |destruct Hcase3 as [(-> & _)|(_ & _ & -> & _)]; unfold asg2; clookups; done
         |destruct Hcase3 as [(-> & _)|(_ & _ & -> & _)]; unfold asg2; clookups; done
         |destruct Hcase3 as [(_ & mua & mub & muc & mud & mue & Ha & Hb & Hc & Hd & He & Hf)
                             |(_ & _ & _ & Emu3)];
          try rewrite Emu3; vgets; repeat case_decide; congruence
         |destruct Hcase3 as [(_ & mua & mub & muc & mud & mue & Ha & Hb & Hc & Hd & He & Hf)
                             |(_ & _ & _ & Emu3)];
          try rewrite Emu3; vgets; repeat case_decide; congruence
         |apply Zq|repeat split; done|done].
      eexists. split; [eapply mm_ok_same_tables; [exact Hsame|exact Hok4]|].
      left. split; [done|]. rewrite Hmu.
      exists mua, mub, muc, mud, mue. repeat split; done.
    - injection H as <-. exists asg3. split; [done|]. right.
      unfold collapses_q6 in E. apply orb_false_elim in E as [E _].
      apply Z.eqb_neq in E. split; [done|]. split; [|done]. by rewrite <- Zq. }
  clear Hok2 Hok3 Hep Hfp Heq Hfq Hepp Hfpp Heqq Hfqq H Hcp Hrng Hsp Hsq Zp Zq.
  assert (Emu2 : muls st2 = muls st2) by done.
  split; [done|done| | |].
  - (* the length of muls *)
    destruct Hcase3 as [(_ & mua & mub & muc & mud & mue & Ha & Hb & Hc & Hd & He & Hf)
                       |(_ & _ & _ & Emu3)];
    destruct Hcase4 as [(_ & mua' & mub' & muc' & mud' & mue' & Ha' & Hb' & Hc' & Hd' & He' & Hf')
                       |(_ & _ & _ & Emu4)];
    repeat match goal with
    | H : vset _ _ _ = Ok _ |- _ => apply vsize_chain in H
    end; congruence.
  - (* groups *)
    intros t.
    destruct (decide (t = c_p c / 6)) as [->|Htp];
      [|destruct (decide (t = c_q c / 6)) as [->|Htq]].
    + destruct Hcase3 as [(_ & mua & mub & muc & mud & mue & Ha & Hb & Hc & Hd & He & Hf)
                         |(E3 & E3' & _ & Emu3)];
      destruct Hcase4 as [(_ & mua' & mub' & muc' & mud' & mue' & Ha' & Hb' & Hc' & Hd' & He' & Hf')
                         |(E4 & E4' & _ & Emu4)];
      try rewrite Emu4 in *; try rewrite Emu3 in *; [left|left|right|right];
      intros s x Hs; vgets; repeat case_decide; intros Hx;
      first [ injection Hx as <-; solve [done | congruence]
            | solve [eapply (live_partner_w 6 _ _ (c_p c)); eauto]
            | congruence
            | destruct (Mp s Hs) as [?|[?|[?|[?|[?|?]]]]]; congruence ].
    + destruct Hcase3 as [(_ & mua & mub & muc & mud & mue & Ha & Hb & Hc & Hd & He & Hf)
                         |(E3 & E3' & _ & Emu3)];
      destruct Hcase4 as [(_ & mua' & mub' & muc' & mud' & mue' & Ha' & Hb' & Hc' & Hd' & He' & Hf')
                         |(E4 & E4' & _ & Emu4)];
      try rewrite Emu4 in *; try rewrite Emu3 in *; [left|right|left|right];
      intros s x Hs; vgets; repeat case_decide; intros Hx;
      first [ injection Hx as <-; solve [done | congruence]
            | solve [eapply (live_partner_w 6 _ _ (c_q c)); eauto]
            | congruence
            | destruct (Mq s Hs) as [?|[?|[?|[?|[?|?]]]]]; congruence ].
    + destruct (Hg t) as [Hz|Hnz]; [left|right];
      destruct Hcase3 as [(_ & mua & mub & muc & mud & mue & Ha & Hb & Hc & Hd & He & Hf)
                         |(E3 & E3' & _ & Emu3)];
      destruct Hcase4 as [(_ & mua' & mub' & muc' & mud' & mue' & Ha' & Hb' & Hc' & Hd' & He' & Hf')
                         |(E4 & E4' & _ & Emu4)];
      try rewrite Emu4 in *; try rewrite Emu3 in *;
      intros s x Hs; vgets; repeat case_decide; intros Hx;
      first [ solve [eauto] | congruence ].
  - (* the multimap *)
    exists asg4. split; [done|]. intros s v.
    destruct Hcase3 as [(-> & mua & mub & muc & mud & mue & Ha & Hb & Hc & Hd & He & Hf)
                       |(E3 & E3' & -> & Emu3)];
    destruct Hcase4 as [(-> & mua' & mub' & muc' & mud' & mue' & Ha' & Hb' & Hc' & Hd' & He' & Hf')
                       |(E4 & E4' & -> & Emu4)];
    try rewrite Emu4 in *; try rewrite Emu3 in *;
    vgets; unfold asg2; repeat case_decide; subst; clookups;
    first [ apply Htr
          | apply tracks_leaf; [done|done]
          | apply tracks_leaf0; [done|done|apply not_elem_of_nil]
          | congruence ].
Qed.

(** ** The plus move of the [symm == 6] loop *)

Lemma plus_pick6_spec mt cfg : forall fuel st a aa st1,
  plus_pick6 mt cfg fuel st = Ok (a, aa, st1) ->
  (exists d, st1 = set_drawn st d) /\
  read_pcand cfg (muls st) (a_p a) (a_q a) = Ok a /\
  read_pcand cfg (muls st) (paired (a_p a)) (paired (a_q a)) = Ok aa /\
  plus_distinct_ok a = true /\ plus_distinct_ok aa = true /\
  exists pm, permit cfg (a_p a) (a_q a) = Ok pm /\ pm <> 0.
Proof.
  induction fuel as [|fuel IH]; intros st a aa st1 H; simpl in H; [done|].
  destruct (wrap64 (nomuls cfg) =? 0); [done|].
  apply bind_Ok in H as (a' & Ha & H). apply bind_Ok in H as (aa' & Haa & H).
  apply bind_Ok in H as (pm & Hpm & H).
  match type of H with (if ?b then _ else _) = _ => destruct b eqn:E end.
  - injection H as <- <- <-. split; [by eexists|].
    apply andb_prop in E as [E E4]. apply andb_prop in E as [E E3].
    apply andb_prop in E as [_ E2].
    pose proof (read_pcand_spec _ _ _ _ _ Ha) as (Ep & Eq & _).
    rewrite Ep, Eq. split; [done|]. split; [done|]. split; [done|].
    split; [done|]. exists pm. split; [done|]. intros ->. done.
  - apply IH in H as ((d & ->) & ? & ? & ? & ? & ?). split; [by eexists|]. done.
Qed.

Lemma distinct_values (a : pcand) :
  plus_distinct_ok a = true ->
  a_mpd a <> 0 /\ a_mqd a <> 0 /\
  Z.lxor (a_mpd a) (a_mqd a) <> 0 /\ Z.lxor (a_mpe a) (a_mqe a) <> 0 /\
  Z.lxor (a_mpf a) (a_mqf a) <> 0.
Proof.
  unfold plus_distinct_ok. intros Hd. apply andb_prop in Hd as [Hd1 Hd2].
  apply negb_true_iff, orb_false_elim in Hd1 as [Hz1 Hz2].
  apply negb_true_iff, orb_false_elim in Hd2 as [Hd2 Hd3].
  apply orb_false_elim in Hd2 as [Hd1 Hd2].
  apply Z.eqb_neq in Hz1, Hz2, Hd1, Hd2, Hd3.
  repeat split; try done; by apply lxor_nonzero.
Qed.

Lemma paired_first r : r mod 6 = 0 -> r + 3 = paired r.
Proof.
  intros Hr. unfold paired.
  destruct (Z.rem r 6 <? 3) eqn:E; [done|]. apply Z.ltb_ge in E.
  revert E. zdiv.
Qed.

Theorem plus_apply6_inv cfg st a aa r st' :
  Inv 6 cfg st ->
  read_pcand cfg (muls st) (a_p a) (a_q a) = Ok a ->
  read_pcand cfg (muls st) (paired (a_p a)) (paired (a_q a)) = Ok aa ->
  plus_distinct_ok a = true -> plus_distinct_ok aa = true ->
  a_p a / 6 <> a_q a / 6 ->
  vget (muls st) r = Ok 0 -> r mod 6 = 0 ->
  plus_apply6 cfg st a aa r = Ok st' ->
  Inv 6 cfg st' /\ st' = set_muls (set_M st (M st')) (muls st').
Proof.
  intros [Hsym [Hn0 Hn] Hlen Hg (asg & Hok & Htr)] Ha Haa Hd Hdd Hap Hr Hr6 H.
  apply read_pcand_spec in Ha
    as (_ & _ & ep & fp & eq & fq & Hep & Hfp & Heq & Hfq &
        Hmpd & Hmpe & Hmpf & Hmqd & Hmqe & Hmqf).
  apply read_pcand_spec in Haa
    as (Epp & Eqq & epp & fpp & eqq & fqq & Hepp & Hfpp & Heqq & Hfqq &
        Hmppd & Hmppe & Hmppf & Hmqqd & Hmqqe & Hmqqf).
  apply distinct_values in Hd as (Nd1 & Nd2 & Nx1 & Nx2 & Nx3).
  apply distinct_values in Hdd as (Ne1 & Ne2 & Ny1 & Ny2 & Ny3).
  rewrite <- Epp in Hepp, Hfpp, Hmppd. rewrite <- Eqq in Heqq, Hfqq, Hmqqd.
  unfold plus_apply6 in H. cbv zeta in H. rewrite Hep in H. simpl in H.
  apply bind_Ok in H as (m1 & H1 & H). apply bind_Ok in H as (m2 & H2 & H).
  apply bind_Ok in H as (m3 & H3 & H). apply bind_Ok in H as (m4 & H4 & H).
  rewrite Hfq in H. simpl in H.
  apply bind_Ok in H as (m5 & H5 & H). apply bind_Ok in H as (m6 & H6 & H).
  apply bind_Ok in H as (m7 & H7 & H).
  apply bind_Ok in H as (er & Her & H).
  apply bind_Ok in H as (m8 & H8 & H).
  apply bind_Ok in H as (fr & Hfr & H).
  apply bind_Ok in H as (m9 & H9 & H).
  rewrite Hepp in H. simpl in H.
  apply bind_Ok in H as (m10 & H10 & H). apply bind_Ok in H as (m11 & H11 & H).
  apply bind_Ok in H as (m12 & H12 & H). apply bind_Ok in H as (m13 & H13 & H).
  rewrite Hfqq in H. simpl in H.
  apply bind_Ok in H as (m14 & H14 & H). apply bind_Ok in H as (m15 & H15 & H).
  apply bind_Ok in H as (m16 & H16 & H).
  apply bind_Ok in H as (err & Herr & H).
  apply bind_Ok in H as (m17 & H17 & H).
  apply bind_Ok in H as (frr & Hfrr & H).
  apply bind_Ok in H as (m18 & H18 & H).
  apply bind_Ok in H as (mu1 & Hs1 & H). apply bind_Ok in H as (mu2 & Hs2 & H).
  rewrite Hfp in H. simpl in H.
  apply bind_Ok in H as (mu3 & Hs3 & H). apply bind_Ok in H as (mu4 & Hs4 & H).
  rewrite Heq in H. simpl in H.
  apply bind_Ok in H as (mu5 & Hs5 & H). apply bind_Ok in H as (mu6 & Hs6 & H).
  apply bind_Ok in H as (mu7 & Hs7 & H). apply bind_Ok in H as (mu8 & Hs8 & H).
  apply bind_Ok in H as (mu9 & Hs9 & H).
  apply bind_Ok in H as (mu10 & Hs10 & H). apply bind_Ok in H as (mu11 & Hs11 & H).
  rewrite Hfpp in H. simpl in H.
  apply bind_Ok in H as (mu12 & Hs12 & H). apply bind_Ok in H as (mu13 & Hs13 & H).
  rewrite Heqq in H. simpl in H.
  apply bind_Ok in H as (mu14 & Hs14 & H). apply bind_Ok in H as (mu15 & Hs15 & H).
  apply bind_Ok in H as (mu16 & Hs16 & H). apply bind_Ok in H as (mu17 & Hs17 & H).
  apply bind_Ok in H as (mu18 & Hs18 & H). injection H as <-. simpl.
  split; [|done].
  pose proof (paired_first r Hr6) as Err.
  destruct (sextuple_slots _ _ _ _ _ _ _ Hep Hfp Epp Hepp Hfpp Hn)
    as (Dp & (Tp1 & Tp2 & Tp3 & Tp4 & Tp5) & (Rp0 & Rp1 & Rp2 & Rp3 & Rp4 & Rp5) & Mp).
  destruct (sextuple_slots _ _ _ _ _ _ _ Heq Hfq Eqq Heqq Hfqq Hn)
    as (Dq & (Tq1 & Tq2 & Tq3 & Tq4 & Tq5) & (Rq0 & Rq1 & Rq2 & Rq3 & Rq4 & Rq5) & Mq).
  destruct (sextuple_slots _ _ _ _ _ _ _ Her Hfr Err Herr Hfrr Hn)
    as (Dr & (Tr1 & Tr2 & Tr3 & Tr4 & Tr5) & (Rr0 & Rr1 & Rr2 & Rr3 & Rr4 & Rr5) & Mr).
  assert (Hlp : asg !! a_p a = Some (a_mpd a)) by (apply Htr; auto).
  assert (Hlq : asg !! a_q a = Some (a_mqd a)) by (apply Htr; auto).
  assert (Hsp := mk_is_Some _ _ Hlp). assert (Hsq := mk_is_Some _ _ Hlq).
  destruct (live_partner_w 6 _ _ (a_p a) ep _ Htr Hg Hsp Tp1 Hmpe) as [Ap1 Np1].
  destruct (live_partner_w 6 _ _ (a_p a) fp _ Htr Hg Hsp Tp2 Hmpf) as [Ap2 Np2].
  destruct (live_partner_w 6 _ _ (a_p a) (a_p aa) _ Htr Hg Hsp Tp3 Hmppd) as [Ap3 Np3].
  destruct (live_partner_w 6 _ _ (a_p a) epp _ Htr Hg Hsp Tp4 Hmppe) as [Ap4 Np4].
  destruct (live_partner_w 6 _ _ (a_p a) fpp _ Htr Hg Hsp Tp5 Hmppf) as [Ap5 Np5].
  destruct (live_partner_w 6 _ _ (a_q a) eq _ Htr Hg Hsq Tq1 Hmqe) as [Aq1 Nq1].
  destruct (live_partner_w 6 _ _ (a_q a) fq _ Htr Hg Hsq Tq2 Hmqf) as [Aq2 Nq2].
  destruct (live_partner_w 6 _ _ (a_q a) (a_q aa) _ Htr Hg Hsq Tq3 Hmqqd) as [Aq3 Nq3].
  destruct (live_partner_w 6 _ _ (a_q a) eqq _ Htr Hg Hsq Tq4 Hmqqe) as [Aq4 Nq4].
  destruct (live_partner_w 6 _ _ (a_q a) fqq _ Htr Hg Hsq Tq5 Hmqqf) as [Aq5 Nq5].
  pose proof (dead_partner_w 6 _ _ er _ Hg Hlen Hr Tr1 Rr1) as Hz1.
  pose proof (dead_partner_w 6 _ _ fr _ Hg Hlen Hr Tr2 Rr2) as Hz2.
  pose proof (dead_partner_w 6 _ _ (r + 3) _ Hg Hlen Hr Tr3 Rr3) as Hz3.
  pose proof (dead_partner_w 6 _ _ err _ Hg Hlen Hr Tr4 Rr4) as Hz4.
  pose proof (dead_partner_w 6 _ _ frr _ Hg Hlen Hr Tr5 Rr5) as Hz5.
  pose proof (dead_slot _ _ _ Htr Hr) as Ar0.
  pose proof (dead_slot _ _ _ Htr Hz1) as Ar1.
  pose proof (dead_slot _ _ _ Htr Hz2) as Ar2.
  pose proof (dead_slot _ _ _ Htr Hz3) as Ar3.
  pose proof (dead_slot _ _ _ Htr Hz4) as Ar4.
  pose proof (dead_slot _ _ _ Htr Hz5) as Ar5.
  assert (Hrp : r / 6 <> a_p a / 6).
  { intros E. destruct (live_partner_w 6 _ _ (a_p a) r _ Htr Hg Hsp E Hr). done. }
  assert (Hrq : r / 6 <> a_q a / 6).
  { intros E. destruct (live_partner_w 6 _ _ (a_q a) r _ Htr Hg Hsq E Hr). done. }
  destruct Dp as (Dp1 & Dp2 & Dp3 & Dp4 & Dp5 & Dp6 & Dp7 & Dp8 & Dp9 & Dp10
                  & Dp11 & Dp12 & Dp13 & Dp14 & Dp15).
  destruct Dq as (Dq1 & Dq2 & Dq3 & Dq4 & Dq5 & Dq6 & Dq7 & Dq8 & Dq9 & Dq10
                  & Dq11 & Dq12 & Dq13 & Dq14 & Dq15).
  destruct Dr as (Dr1 & Dr2 & Dr3 & Dr4 & Dr5 & Dr6 & Dr7 & Dr8 & Dr9 & Dr10
                  & Dr11 & Dr12 & Dr13 & Dr14 & Dr15).
  apply (flipdel_spec _ _ _ _ _ _ Hok Ap1) in H1.
  apply (flipadd_spec _ _ _ _ _ _ H1) in H2; [|by clookups|done].
  apply (flipdel_spec _ _ _ _ _ _ H2) in H3; [|by clookups].
  apply (flipadd_spec _ _ _ _ _ _ H3) in H4; [|by clookups|done].
  apply (flipdel_spec _ _ _ _ _ _ H4) in H5; [|by clookups].
  apply (flipadd_spec _ _ _ _ _ _ H5) in H6; [|by clookups|done].
  apply (flipadd_spec _ _ _ _ _ _ H6) in H7; [|by clookups|done].
  apply (flipadd_spec _ _ _ _ _ _ H7) in H8; [|by clookups|done].
  apply (flipadd_spec _ _ _ _ _ _ H8) in H9; [|by clookups|done].
  apply (flipdel_spec _ _ _ _ _ _ H9) in H10; [|by clookups].
  apply (flipadd_spec _ _ _ _ _ _ H10) in H11; [|by clookups|done].
  apply (flipdel_spec _ _ _ _ _ _ H11) in H12; [|by clookups].
  apply (flipadd_spec _ _ _ _ _ _ H12) in H13; [|by clookups|done].
  apply (flipdel_spec _ _ _ _ _ _ H13) in H14; [|by clookups].
  apply (flipadd_spec _ _ _ _ _ _ H14) in H15; [|by clookups|done].
  apply (flipadd_spec _ _ _ _ _ _ H15) in H16; [|by clookups|done].
  apply (flipadd_spec _ _ _ _ _ _ H16) in H17; [|by clookups|done].
  apply (flipadd_spec _ _ _ _ _ _ H17) in H18; [|by clookups|done].
  clear Hok H1 H2 H3 H4 H5 H6 H7 H8 H9 H10 H11 H12 H13 H14 H15 H16 H17
        Hep Hfp Heq Hfq Her Hfr Hepp Hfpp Heqq Hfqq Herr Hfrr
        Rp0 Rp1 Rp2 Rp3 Rp4 Rp5 Rq0 Rq1 Rq2 Rq3 Rq4 Rq5 Rr0 Rr1 Rr2 Rr3 Rr4 Rr5.
  split; simpl; [done|done| | |].
  - repeat match goal with
    | H : vset _ _ _ = Ok _ |- _ => apply vsize_chain in H
    end; congruence.
  - intros t.
    destruct (decide (t = a_p a / 6)) as [->|Htp];
      [|destruct (decide (t = a_q a / 6)) as [->|Htq];
        [|destruct (decide (t = r / 6)) as [->|Htr']]].
    + right. intros s x Hs; vgets; repeat case_decide; intros Hx;
      first [ injection Hx as <-; solve [done | congruence]
            | congruence
            | destruct (Mp s Hs) as [?|[?|[?|[?|[?|?]]]]]; congruence ].
    + right. intros s x Hs; vgets; repeat case_decide; intros Hx;
      first [ injection Hx as <-; solve [done | congruence]
            | congruence
            | destruct (Mq s Hs) as [?|[?|[?|[?|[?|?]]]]]; congruence ].
    + right. intros s x Hs; vgets; repeat case_decide; intros Hx;
      first [ injection Hx as <-; solve [done | congruence]
            | congruence
            | destruct (Mr s Hs) as [?|[?|[?|[?|[?|?]]]]]; congruence ].
    + destruct (Hg t) as [Hz|Hnz]; [left|right];
      intros s x Hs; vgets; repeat case_decide; intros Hx;
      first [ solve [eauto] | congruence ].
  - eexists. split; [exact H18|]. intros s v.
    vgets; repeat case_decide; subst; clookups;
    first [ apply Htr
          | apply tracks_leaf; [done|done]
          | congruence ].
Qed.

Lemma plus_apply6_slot cfg st a aa r st' :
  plus_apply6 cfg st a aa r = Ok st' -> 0 <= r < nomuls cfg.
Proof.
  unfold plus_apply6. cbv zeta. intros H.
  apply bind_Ok in H as (ep & _ & H).
  do 8 (apply bind_Ok in H as (? & _ & H)).
  apply bind_Ok in H as (er & Her & _). by apply me_Ok in Her as [? _].
Qed.

Theorem plus6_inv mt cfg gas st st' :
  Inv 6 cfg st -> plus6 mt cfg gas st = Ok st' -> Inv 6 cfg st'.
Proof.
  intros HI H. unfold plus6 in H.
  destruct (recover_frame cfg st) as (Hmu & HM & _).
  apply (Inv_frame _ _ _ _ Hmu HM) in HI.
  apply bind_Ok in H as (r & Hr & H).
  apply bind_Ok in H as ([[a aa] st1] & Hpick & H).
  apply bind_Ok in H as (st2 & Happ & H).
  apply plus_pick6_spec in Hpick
    as ((d & ->) & Hread & Hread' & Hd & Hd' & pm & Hpm & Hne).
  apply reschedule_frame in H as (pb & d' & ->).
  pose proof (plus_apply6_slot _ _ _ _ _ _ Happ) as Hrn.
  apply first_zero_spec in Hr as (_ & Hbefore & Hat).
  rewrite Z2Nat.id in Hat by (destruct HI as [_ [? _] _ _ _]; done).
  specialize (Hat ltac:(lia)).
  assert (Hsym := inv_symm _ _ _ HI).
  assert (Hr6 : r mod 6 = 0).
  { destruct (decide (r mod 6 = 0)) as [|Hnz]; [done|].
    destruct (Hbefore (r - 1)) as (x & Hx & Hx0); [zdiv|].
    destruct (inv_groups _ _ _ HI (r / 6)) as [Hz|Hnzg].
    - destruct Hx0. apply (Hz (r - 1)); [zdiv|done].
    - destruct (Hnzg r 0); done. }
  apply permit_Ok in Hpm as (_ & _ & Hap); [|done|lia]. rewrite Hsym in Hap.
  apply plus_apply6_inv in Happ as [HI2 _];
    [|revert HI; by apply Inv_frame|done|done|done|done|done|done|done].
  revert HI2. by apply Inv_frame.
Qed.

(** ** Two runs of the program *)

Lemma Rres_ret {A B} (R : A -> B -> Prop) a b : R a b -> Rres R (Ok a) (Ok b).
Proof. intros H x [= <-]. eauto. Qed.

Lemma Rres_fault {A B} (R : A -> B -> Prop) e mj : Rres R (Fault e) mj.
Proof. intros x [=]. Qed.

Lemma Rres_refl {A} (m : res A) : Rres eq m m.
Proof. intros x ->. eauto. Qed.

Lemma Rres_bind {A A' B B'} (R : A -> A' -> Prop) (S : B -> B' -> Prop)
    (m : res A) (mj : res A') (f : A -> res B) (g : A' -> res B') :
  Rres R m mj -> (forall a a', R a a' -> Rres S (f a) (g a')) ->
  Rres S (m ≫= f) (mj ≫= g).
Proof.
  intros Hm Hf b H. apply bind_Ok in H as (a & Ha & H).
  destruct (Hm a Ha) as (a' & -> & HR). simpl. by apply (Hf a a').
Qed.

Lemma rd_le a aj i : a ⊆ aj -> Rres eq (rd a i) (rd aj i).
Proof.
  intros H x Hx. apply rd_Ok in Hx. exists x. split; [|done].
  unfold rd. by rewrite (lookup_weaken _ _ _ _ Hx H).
Qed.

Lemma rdcount_le d dj h : dict_le d dj -> Rres eq (rdcount d h) (rdcount dj h).
Proof. intros (_ & H & _) x Hx. eauto. Qed.

Lemma rd_key_le d dj i : dict_le d dj -> Rres eq (rd (key d) i) (rd (key dj) i).
Proof. intros (_ & _ & H & _). by apply rd_le. Qed.

Lemma rd_value_le d dj i :
  dict_le d dj -> Rres eq (rd (value d) i) (rd (value dj) i).
Proof. intros (_ & _ & _ & H). by apply rd_le. Qed.

Lemma rdcount_insert_le d dj i x l l' k k' v v' :
  (forall h c, rdcount d h = Ok c -> rdcount dj h = Ok c) ->
  forall h c, rdcount (mkdict l (<[i := x]> (count d)) k v) h = Ok c ->
              rdcount (mkdict l' (<[i := x]> (count dj)) k' v') h = Ok c.
Proof.
  intros H h c. unfold rdcount in *. simpl.
  destruct (decide (i = h)) as [->|Hne].
  - by rewrite !lookup_insert_eq.
  - rewrite !lookup_insert_ne by done. apply H.
Qed.

Create HintDb sim.
#[export] Hint Resolve rd_le rdcount_le rd_key_le rd_value_le : sim.

Ltac sim_post :=
  repeat match goal with
    | H : _ /\ _ |- _ => destruct H
    | H : pair_le _ _ _ _ |- _ => destruct H
    | H : state_le _ _ |- _ => destruct H as (? & ? & ?)
    | p : (_ * _)%type |- _ => destruct p
    end; simplify_eq/=;
  repeat match goal with
    | H : dict_le ?a ?b |- context [lasthash ?b] =>
        rewrite <- (proj1 H : lasthash a = lasthash b)
    end.

Ltac sim_step :=
  match goal with
  | |- Rres _ (Ok _) (Ok _) => apply Rres_ret
  | |- Rres _ (Fault _) _ => apply Rres_fault
  | |- Rres _ (mbind _ ?m) (mbind _ ?m') =>
      first
        [ constr_eq m m'; apply (Rres_bind eq);
          [apply Rres_refl | intros ? ? <-]
        | eapply Rres_bind;
          [solve [eauto with sim] | intros ? ? ?; sim_post] ]
  | |- Rres _ (if ?b then _ else _) (if ?b' then _ else _) =>
      constr_eq b b'; destruct b
  | |- Rres _ (match ?x with _ => _ end) (match ?x' with _ => _ end) =>
      constr_eq x x'; destruct x
  end.

Ltac sim := repeat sim_step.

Ltac dle :=
  repeat match goal with
    | H : dict_le _ _ |- _ => destruct H as (? & ? & ? & ?)
    | H : mm_le _ _ |- _ => destruct H as (? & ? & ? & ? & ?)
    end;
  simpl in *; subst;
  repeat (split; simpl);
  try (by repeat apply insert_mono);
  try (by eapply rdcount_insert_le);
  try congruence; try done.

Lemma contains_scan_le n d dj k :
  dict_le d dj -> Rres eq (contains_scan n d k) (contains_scan n dj k).
Proof.
  intros Hd. pose proof Hd as (Hl & Hc & Hk & Hv).
  induction n as [|n IH]; simpl; [by apply Rres_ret|].
  rewrite <- Hl. sim; done.
Qed.
#[export] Hint Resolve contains_scan_le : sim.

Lemma set_lasthash_le d dj h :
  dict_le d dj -> dict_le (set_lasthash d h) (set_lasthash dj h).
Proof. intros (Hl & Hc & Hk & Hv). done. Qed.
#[export] Hint Resolve set_lasthash_le : sim.

Lemma contains_le d dj k :
  dict_le d dj -> Rres (pair_le eq dict_le) (contains d k) (contains dj k).
Proof.
  intros Hd. unfold contains. cbv zeta.
  pose proof (set_lasthash_le _ _ (hash k) Hd) as Hd'.
  sim; try done.
Qed.

Lemma addx_le d dj k v :
  dict_le d dj -> Rres dict_le (addx d k v) (addx dj k v).
Proof.
  intros Hd. unfold addx. pose proof Hd as (Hl & _). rewrite <- Hl.
  sim. dle.
Qed.

Lemma add_le d dj k v : dict_le d dj -> Rres dict_le (add d k v) (add dj k v).
Proof. intros Hd. apply addx_le. by apply set_lasthash_le. Qed.

Lemma remove_shift_le fuel : forall ks ksj vs vsj i x v k,
  ks ⊆ ksj -> vs ⊆ vsj ->
  Rres (pair_le (⊆) (⊆)) (remove_shift fuel ks vs i x v k)
       (remove_shift fuel ksj vsj i x v k).
Proof.
  induction fuel as [|fuel IH]; intros ks ksj vs vsj i x v k Hk Hv; simpl.
  - sim. done.
  - destruct (x =? k); [by apply Rres_ret|].
    sim. apply IH; by apply insert_mono.
Qed.
#[export] Hint Resolve remove_shift_le : sim.

Lemma removex_le d dj k :
  dict_le d dj -> Rres dict_le (removex d k) (removex dj k).
Proof.
  intros Hd. unfold removex. pose proof Hd as (Hl & Hc & Hk & Hv).
  rewrite <- Hl. sim; dle.
Qed.

Lemma remove_le d dj k :
  dict_le d dj -> Rres dict_le (remove d k) (remove dj k).
Proof. intros Hd. apply removex_le. by apply set_lasthash_le. Qed.

Lemma find_down_le fuel : forall ks ksj i x k,
  ks ⊆ ksj -> Rres eq (find_down fuel ks i x k) (find_down fuel ksj i x k).
Proof.
  induction fuel as [|fuel IH]; intros ks ksj i x k Hk; simpl.
  - sim. done.
  - destruct (x =? k); [by apply Rres_ret|]. sim. by apply IH.
Qed.

Lemma find_down_key_le fuel d dj i x k :
  dict_le d dj ->
  Rres eq (find_down fuel (key d) i x k) (find_down fuel (key dj) i x k).
Proof. intros (_ & _ & H & _). by apply find_down_le. Qed.
#[export] Hint Resolve find_down_key_le : sim.

Lemma replacex_le d dj k v :
  dict_le d dj -> Rres dict_le (replacex d k v) (replacex dj k v).
Proof.
  intros Hd. unfold replacex. pose proof Hd as (Hl & Hc & Hk & Hv).
  rewrite <- Hl. sim; dle.
Qed.

Lemma replace_le d dj k v :
  dict_le d dj -> Rres dict_le (replace d k v) (replace dj k v).
Proof. intros Hd. apply replacex_le. by apply set_lasthash_le. Qed.

Lemma getvaluex_le d dj k :
  dict_le d dj -> Rres eq (getvaluex d k) (getvaluex dj k).
Proof.
  intros Hd. unfold getvaluex. pose proof Hd as (Hl & Hc & Hk & Hv).
  rewrite <- Hl. sim; eauto with sim.
Qed.

Lemma getvalue_le d dj k :
  dict_le d dj -> Rres (pair_le eq dict_le) (getvalue d k) (getvalue dj k).
Proof.
  intros Hd. unfold getvalue. cbv zeta.
  pose proof (set_lasthash_le _ _ (hash k) Hd) as Hd'.
  eapply Rres_bind; [by apply getvaluex_le|]. intros ? ? <-. by apply Rres_ret.
Qed.
#[export] Hint Resolve contains_le addx_le add_le removex_le remove_le
  replacex_le replace_le getvaluex_le getvalue_le : sim.

Ltac mm_open H :=
  match type of H with
  | mm_le ?m ?mj =>
      destruct m, mj; destruct H as (? & ? & ? & ? & ?); simpl in *; subst
  end.

Lemma unarray_shift_le fuel : forall ua uaj i x r,
  ua ⊆ uaj ->
  Rres (⊆) (unarray_shift fuel ua i x r) (unarray_shift fuel uaj i x r).
Proof.
  induction fuel as [|fuel IH]; intros ua uaj i x r Hu; simpl.
  - sim. done.
  - destruct (x =? r); [by apply Rres_ret|]. sim. apply IH. by apply insert_mono.
Qed.
#[export] Hint Resolve unarray_shift_le : sim.

Lemma flipdel_le m mj r v :
  mm_le m mj -> Rres mm_le (flipdel m r v) (flipdel mj r v).
Proof.
  intros Hm. unfold flipdel. mm_open Hm.
  sim_step. sim_step.
  eapply (Rres_bind (pair_le dict_le eq)).
  { sim; try done. }
  intros ? ? ?. sim_post. sim; dle.
Qed.

Lemma flipadd_le m mj r v :
  mm_le m mj -> Rres mm_le (flipadd m r v) (flipadd mj r v).
Proof.
  intros Hm. unfold flipadd. mm_open Hm.
  sim_step. destruct (negb (z =? 0)).
  - sim_step. sim_step.
    eapply (Rres_bind (pair_le dict_le eq)).
    { sim; try done. }
    intros ? ? ?. sim_post. sim; dle.
  - sim; dle.
Qed.
#[export] Hint Resolve flipdel_le flipadd_le : sim.


(** *** The engine on two states that differ in unreadable cells *)

Section Sim.
Variable mt : nat -> Z.
Variable cfg : config.

Ltac sle :=
  match goal with
  | |- state_le _ _ => eexists; split; [reflexivity|]; simpl; try done; try dle
  | |- pair_le _ _ _ _ => split; simpl; [try done|]; try sle
  | _ => idtac
  end.

Ltac st_open H :=
  match type of H with
  | state_le ?st ?stj => destruct H as (?mj & -> & ?Hm)
  end.

Lemma mm_le_uniques m mj : mm_le m mj -> dict_le (uniques m) (uniques mj).
Proof. by intros (? & _). Qed.
Lemma mm_le_twoplusd m mj : mm_le m mj -> dict_le (twoplusd m) (twoplusd mj).
Proof. by intros (_ & ? & _). Qed.
Lemma mm_le_unarray m mj i :
  mm_le m mj -> Rres eq (rd (unarray m) i) (rd (unarray mj) i).
Proof. intros (_ & _ & ? & _). by apply rd_le. Qed.
Hint Resolve mm_le_uniques mm_le_twoplusd mm_le_unarray : sim.

Lemma sample_pair_le sample m mj :
  mm_le m mj ->
  Rres (pair_le eq mm_le) (sample_pair sample m) (sample_pair sample mj).
Proof.
  intros Hm. unfold sample_pair. mm_open Hm.
  sim; try done; sle; dle.
Qed.
Hint Resolve sample_pair_le : sim.

Lemma sample_any_le fuel : forall fuel' st stj,
  (fuel <= fuel')%nat -> state_le st stj ->
  Rres (pair_le eq state_le) (sample_any mt cfg fuel st)
       (sample_any mt cfg fuel' stj).
Proof.
  induction fuel as [|fuel IH]; intros fuel' st stj Hf Hs; [apply Rres_fault|].
  destruct fuel' as [|fuel']; [lia|]. st_open Hs. simpl.
  sim; try done; sle. apply IH; [lia|sle].
Qed.

Lemma sample_sized_le k : forall st stj,
  state_le st stj ->
  Rres (pair_le eq state_le) (sample_sized mt cfg k st)
       (sample_sized mt cfg k stj).
Proof.
  induction k as [|k IH]; intros st stj Hs; st_open Hs.
  - apply Rres_ret. sle.
  - simpl. sim; try done; sle. apply IH. sle.
Qed.

Lemma sample_bits_le k : forall st stj,
  state_le st stj ->
  Rres (pair_le eq state_le) (sample_bits mt cfg k st)
       (sample_bits mt cfg k stj).
Proof.
  induction k as [|k IH]; intros st stj Hs; st_open Hs.
  - apply Rres_ret. sle.
  - simpl. sim; try done; sle. apply IH. sle.
Qed.

Lemma sample_flip_le gas gas' st stj :
  (gas <= gas')%nat -> state_le st stj ->
  Rres (pair_le eq state_le) (sample_flip mt cfg gas st)
       (sample_flip mt cfg gas' stj).
Proof.
  intros Hg Hs. unfold sample_flip.
  destruct (maxsize cfg =? 0).
  - eapply Rres_bind; [by apply sample_any_le|].
    intros [[p q] st1] [[p' q'] st1'] [Hpq Hs1]. simpl in Hpq, Hs1.
    injection Hpq as <- <-. st_open Hs1. simpl. sim. sle.
  - destruct (maxsize cfg >? 0); [by apply sample_sized_le|by apply sample_bits_le].
Qed.

Lemma reschedule_le st stj :
  state_le st stj ->
  Rres state_le (reschedule mt cfg st) (reschedule mt cfg stj).
Proof.
  intros Hs. st_open Hs. unfold reschedule. simpl. sim; sle.
Qed.

Lemma trigger_inner_le n : forall i ua uaj b t w trigger,
  ua ⊆ uaj ->
  Rres eq (trigger_inner n i ua b t w trigger)
       (trigger_inner n i uaj b t w trigger).
Proof.
  induction n as [|n IH]; intros i ua uaj b t w trigger Hu; simpl.
  - by apply Rres_ret.
  - sim. by apply IH.
Qed.

Lemma trigger_scan_le vs : forall m mj w trigger,
  mm_le m mj ->
  Rres (pair_le eq mm_le) (trigger_scan vs m w trigger)
       (trigger_scan vs mj w trigger).
Proof.
  induction vs as [|v vs IH]; intros m mj w trigger Hm; simpl.
  - by apply Rres_ret.
  - mm_open Hm. sim.
    eapply (Rres_bind eq); [by apply trigger_inner_le|]. intros ? ? <-.
    apply IH. dle.
Qed.

Lemma after_collapse_le w st stj :
  state_le st stj ->
  Rres (pair_le eq state_le) (after_collapse mt cfg w st)
       (after_collapse mt cfg w stj).
Proof.
  intros Hs. st_open Hs. unfold after_collapse. cbv zeta.
  eapply (Rres_bind state_le).
  { simpl. sim; sle. }
  intros st1 st1j Hs1. st_open Hs1.
  eapply (Rres_bind state_le).
  { simpl. sim; sle. }
  intros st2 st2j Hs2.
  eapply Rres_bind; [by apply reschedule_le|].
  intros st3 st3j Hs3. st_open Hs3. simpl.
  destruct Hm1 as (Hu & Ht & Hua & Ha & Htl). rewrite <- Htl.
  destruct (vsize (twoplusl (M st3)) =? 0); [apply Rres_ret; sle|].
  destruct (achieved st3 <=? target cfg); [apply Rres_ret; sle|].
  eapply Rres_bind; [apply trigger_scan_le; dle|].
  intros [tr m] [tr' m'] [Htr Hm']. simpl in Htr, Hm'. subst tr'.
  apply Rres_ret. split; [done|]. destruct tr; sle.
Qed.
Hint Resolve sample_flip_le reschedule_le after_collapse_le : sim.

Lemma commit3_le st stj c :
  state_le st stj -> Rres state_le (commit3 cfg st c) (commit3 cfg stj c).
Proof. intros Hs. st_open Hs. unfold commit3. simpl. sim; sle. Qed.

Lemma delete_p3_le st stj c :
  state_le st stj -> Rres state_le (delete_p3 cfg st c) (delete_p3 cfg stj c).
Proof. intros Hs. st_open Hs. unfold delete_p3. simpl. sim; sle. Qed.

Lemma delete_q3_le st stj c :
  state_le st stj -> Rres state_le (delete_q3 cfg st c) (delete_q3 cfg stj c).
Proof. intros Hs. st_open Hs. unfold delete_q3. simpl. sim; sle. Qed.
Hint Resolve commit3_le delete_p3_le delete_q3_le : sim.

Lemma collapse_p3_le st stj c :
  state_le st stj ->
  Rres (pair_le eq state_le) (collapse_p3 mt cfg st c)
       (collapse_p3 mt cfg stj c).
Proof.
  intros Hs. unfold collapse_p3.
  eapply Rres_bind; [by apply delete_p3_le|]. intros. by apply after_collapse_le.
Qed.

Lemma collapse_q3_le st stj c :
  state_le st stj ->
  Rres (pair_le eq state_le) (collapse_q3 mt cfg st c)
       (collapse_q3 mt cfg stj c).
Proof.
  intros Hs. unfold collapse_q3.
  eapply Rres_bind; [by apply delete_q3_le|]. intros. by apply after_collapse_le.
Qed.
Hint Resolve collapse_p3_le collapse_q3_le : sim.

Lemma recover_le st stj : state_le st stj -> state_le (recover cfg st) (recover cfg stj).
Proof.
  intros Hs. st_open Hs. unfold recover. simpl.
  destruct (flips st >=? recovery st); sle.
Qed.

Lemma plus_pick3_le fuel : forall fuel' st stj,
  (fuel <= fuel')%nat -> state_le st stj ->
  Rres (pair_le eq state_le) (plus_pick3 mt cfg fuel st)
       (plus_pick3 mt cfg fuel' stj).
Proof.
  induction fuel as [|fuel IH]; intros fuel' st stj Hf Hs; [apply Rres_fault|].
  destruct fuel' as [|fuel']; [lia|]. st_open Hs. simpl.
  sim; try done; sle. apply IH; [lia|sle].
Qed.

Lemma plus_apply3_le st stj a r :
  state_le st stj ->
  Rres state_le (plus_apply3 cfg st a r) (plus_apply3 cfg stj a r).
Proof. intros Hs. st_open Hs. unfold plus_apply3. simpl. sim; sle. Qed.
Hint Resolve plus_pick3_le plus_apply3_le : sim.

Lemma plus3_le gas gas' st stj :
  (gas <= gas')%nat -> state_le st stj ->
  Rres state_le (plus3 mt cfg gas st) (plus3 mt cfg gas' stj).
Proof.
  intros Hg Hs. unfold plus3. cbv zeta.
  pose proof (recover_le _ _ Hs) as Hr.
  destruct Hr as (mr & Hr & Hmr). rewrite Hr.
  change (muls (set_M (recover cfg st) mr)) with (muls (recover cfg st)).
  sim_step.
  eapply Rres_bind; [apply plus_pick3_le; [done|sle]|].
  intros [pc st1] [pc' st1'] [Ha Hs1]. simpl in Ha, Hs1. subst pc'.
  eapply Rres_bind; [by apply plus_apply3_le|].
  intros st2 st2' Hs2. st_open Hs2. apply reschedule_le. sle.
Qed.

Lemma limit_check_le st stj :
  state_le st stj ->
  pair_le eq state_le (limit_check cfg st) (limit_check cfg stj).
Proof.
  intros Hs. st_open Hs. unfold limit_check. simpl.
  destruct (flips st >=? limit st); sle.
Qed.

Lemma flip3_le gas gas' st stj :
  (gas <= gas')%nat -> state_le st stj ->
  Rres (pair_le eq state_le) (flip3 mt cfg gas st) (flip3 mt cfg gas' stj).
Proof.
  intros Hg Hs. st_open Hs. unfold flip3. cbv zeta.
  eapply Rres_bind; [apply sample_flip_le; [done|sle]|].
  intros [oc st1] [oc' st1'] [Ho Hs1]. simpl in Ho, Hs1. subst oc'.
  destruct oc as [c|]; [|apply Rres_ret; st_open Hs1; sle].
  eapply Rres_bind; [by apply commit3_le|].
  intros st2 st2' Hs2.
  eapply (Rres_bind (pair_le eq state_le)).
  { destruct (c_mpen c =? 0); [by apply collapse_p3_le|by apply Rres_ret]. }
  intros [s st3] [s' st3'] [Hss Hs3]. simpl in Hss, Hs3. subst s'.
  destruct s; [|by apply Rres_ret].
  destruct (c_mqfn c =? 0); [by apply collapse_q3_le|by apply Rres_ret].
Qed.

Lemma step3_le gas gas' st stj :
  (gas <= gas')%nat -> state_le st stj ->
  Rres (pair_le eq state_le) (step3 mt cfg gas st) (step3 mt cfg gas' stj).
Proof.
  intros Hg Hs. unfold step3.
  eapply Rres_bind; [by apply flip3_le|].
  intros [s st1] [s' st1'] [Hss Hs1]. simpl in Hss, Hs1. subst s'.
  destruct s; [|by apply Rres_ret].
  eapply (Rres_bind state_le).
  { pose proof Hs1 as Hs1'. st_open Hs1. simpl.
    destruct (flips st1 >=? plusby st1); [by apply plus3_le|by apply Rres_ret]. }
  intros st2 st2' Hs2. apply Rres_ret. by apply limit_check_le.
Qed.

Lemma loop3_le gas gas' rounds : forall rounds' st stj,
  (gas <= gas')%nat -> (rounds <= rounds')%nat -> state_le st stj ->
  Rres state_le (loop3 mt cfg gas rounds st) (loop3 mt cfg gas' rounds' stj).
Proof.
  induction rounds as [|rounds IH]; intros rounds' st stj Hg Hr Hs;
    [apply Rres_fault|].
  destruct rounds' as [|rounds']; [lia|]. simpl.
  eapply Rres_bind; [by apply step3_le|].
  intros [s st1] [s' st1'] [Hss Hs1]. simpl in Hss, Hs1. subst s'.
  destruct s; [|by apply Rres_ret]. apply IH; [done|lia|done].
Qed.

Lemma commit6_le st stj c h :
  state_le st stj -> Rres state_le (commit6 cfg st c h) (commit6 cfg stj c h).
Proof. intros Hs. st_open Hs. unfold commit6. simpl. sim; sle. Qed.

Lemma delete_p6_le st stj c h :
  state_le st stj ->
  Rres state_le (delete_p6 cfg st c h) (delete_p6 cfg stj c h).
Proof.
  intros Hs. st_open Hs. unfold delete_p6. simpl.
  do 14 sim_step.
  apply (Rres_bind eq); [apply Rres_refl|]. intros ? ? <-. apply Rres_ret. sle.
Qed.

Lemma delete_q6_le st stj c h :
  state_le st stj ->
  Rres state_le (delete_q6 cfg st c h) (delete_q6 cfg stj c h).
Proof.
  intros Hs. st_open Hs. unfold delete_q6. simpl.
  do 14 sim_step.
  apply (Rres_bind eq); [apply Rres_refl|]. intros ? ? <-. apply Rres_ret. sle.
Qed.

Lemma collapse_p6_le st stj c h :
  state_le st stj ->
  Rres (pair_le eq state_le) (collapse_p6 mt cfg st c h)
       (collapse_p6 mt cfg stj c h).
Proof.
  intros Hs. unfold collapse_p6.
  eapply Rres_bind; [by apply delete_p6_le|]. intros. by apply after_collapse_le.
Qed.

Lemma collapse_q6_le st stj c h :
  state_le st stj ->
  Rres (pair_le eq state_le) (collapse_q6 mt cfg st c h)
       (collapse_q6 mt cfg stj c h).
Proof.
  intros Hs. unfold collapse_q6.
  eapply Rres_bind; [by apply delete_q6_le|]. intros. by apply after_collapse_le.
Qed.

Lemma plus_pick6_le fuel : forall fuel' st stj,
  (fuel <= fuel')%nat -> state_le st stj ->
  Rres (pair_le eq state_le) (plus_pick6 mt cfg fuel st)
       (plus_pick6 mt cfg fuel' stj).
Proof.
  induction fuel as [|fuel IH]; intros fuel' st stj Hf Hs; [apply Rres_fault|].
  destruct fuel' as [|fuel']; [lia|]. st_open Hs. simpl.
  sim; try done; sle. apply IH; [lia|sle].
Qed.

Lemma plus_apply6_le st stj a aa r :
  state_le st stj ->
  Rres state_le (plus_apply6 cfg st a aa r) (plus_apply6 cfg stj a aa r).
Proof. intros Hs. st_open Hs. unfold plus_apply6. simpl. sim; sle. Qed.

Lemma plus6_le gas gas' st stj :
  (gas <= gas')%nat -> state_le st stj ->
  Rres state_le (plus6 mt cfg gas st) (plus6 mt cfg gas' stj).
Proof.
  intros Hg Hs. unfold plus6. cbv zeta.
  pose proof (recover_le _ _ Hs) as Hr.
  destruct Hr as (mr & Hr & Hmr). rewrite Hr.
  change (muls (set_M (recover cfg st) mr)) with (muls (recover cfg st)).
  sim_step.
  eapply Rres_bind; [apply plus_pick6_le; [done|sle]|].
  intros [[pc pcc] st1] [[pc' pcc'] st1'] [Ha Hs1]. simpl in Ha, Hs1.
  injection Ha as <- <-.
  eapply Rres_bind; [by apply plus_apply6_le|].
  intros st2 st2' Hs2. st_open Hs2. apply reschedule_le. sle.
Qed.

Lemma flip6_le gas gas' st stj :
  (gas <= gas')%nat -> state_le st stj ->
  Rres (pair_le eq state_le) (flip6 mt cfg gas st) (flip6 mt cfg gas' stj).
Proof.
  intros Hg Hs. st_open Hs. unfold flip6. cbv zeta.
  eapply Rres_bind; [apply sample_flip_le; [done|sle]|].
  intros [oc st1] [oc' st1'] [Ho Hs1]. simpl in Ho, Hs1. subst oc'.
  destruct oc as [c|]; [|apply Rres_ret; st_open Hs1; sle].
  apply (Rres_bind eq).
  { pose proof Hs1 as Hs1'. st_open Hs1. apply Rres_refl. }
  intros h ? <-.
  eapply Rres_bind; [by apply commit6_le|].
  intros st2 st2' Hs2.
  eapply (Rres_bind (pair_le eq state_le)).
  { destruct (collapses_p6 c h); [by apply collapse_p6_le|by apply Rres_ret]. }
  intros [s st3] [s' st3'] [Hss Hs3]. simpl in Hss, Hs3. subst s'.
  destruct s; [|by apply Rres_ret].
  destruct (collapses_q6 c h); [by apply collapse_q6_le|by apply Rres_ret].
Qed.

Lemma step6_le gas gas' st stj :
  (gas <= gas')%nat -> state_le st stj ->
  Rres (pair_le eq state_le) (step6 mt cfg gas st) (step6 mt cfg gas' stj).
Proof.
  intros Hg Hs. unfold step6.
  eapply Rres_bind; [by apply flip6_le|].
  intros [s st1] [s' st1'] [Hss Hs1]. simpl in Hss, Hs1. subst s'.
  destruct s; [|by apply Rres_ret].
  eapply (Rres_bind state_le).
  { pose proof Hs1 as Hs1'. st_open Hs1. simpl.
    destruct (flips st1 >=? plusby st1); [by apply plus6_le|by apply Rres_ret]. }
  intros st2 st2' Hs2. apply Rres_ret. by apply limit_check_le.
Qed.

Lemma loop6_le gas gas' rounds : forall rounds' st stj,
  (gas <= gas')%nat -> (rounds <= rounds')%nat -> state_le st stj ->
  Rres state_le (loop6 mt cfg gas rounds st) (loop6 mt cfg gas' rounds' stj).
Proof.
  induction rounds as [|rounds IH]; intros rounds' st stj Hg Hr Hs;
    [apply Rres_fault|].
  destruct rounds' as [|rounds']; [lia|]. simpl.
  eapply Rres_bind; [by apply step6_le|].
  intros [s st1] [s' st1'] [Hss Hs1]. simpl in Hss, Hs1. subst s'.
  destruct s; [|by apply Rres_ret]. apply IH; [done|lia|done].
Qed.

Lemma init_loop_le n : forall i mu m mj ach,
  mm_le m mj ->
  Rres (pair_le mm_le eq) (init_loop n i mu m ach) (init_loop n i mu mj ach).
Proof.
  induction n as [|n IH]; intros i mu m mj ach Hm; simpl.
  - by apply Rres_ret.
  - sim_step. destruct (a >? 0); [|by apply IH].
    mm_open Hm. sim_step.
    eapply (Rres_bind mm_le).
    { sim; dle. }
    intros. by apply IH.
Qed.

Lemma init_from_le m0 m0' flips0 muls0 :
  mm_le m0 m0' ->
  Rres state_le (init_from mt cfg m0 flips0 muls0)
       (init_from mt cfg m0' flips0 muls0).
Proof.
  intros Hm. unfold init_from.
  destruct ((nomuls cfg <? 0) || negb (nomuls cfg mod 3 =? 0));
    [apply Rres_fault|].
  destruct ((0 <? nomuls cfg) && (symm cfg =? 0)); [apply Rres_fault|].
  eapply Rres_bind; [by apply init_loop_le|].
  intros [m ach] [m' ach'] [Hm' Ha]. simpl in Hm', Ha. subst ach'. cbv zeta.
  eapply Rres_bind; [apply reschedule_le; sle|].
  intros st stj Hs. st_open Hs. simpl. sim. sle.
Qed.

Lemma search_from_le gas gas' rounds rounds' m0 m0' flips0 muls0 :
  (gas <= gas')%nat -> (rounds <= rounds')%nat -> mm_le m0 m0' ->
  Rres state_le (search_from mt cfg gas m0 rounds flips0 muls0)
       (search_from mt cfg gas' m0' rounds' flips0 muls0).
Proof.
  intros Hg Hr Hm. unfold search_from.
  eapply Rres_bind; [by apply init_from_le|]. intros st stj Hs.
  eapply (Rres_bind state_le).
  { destruct (symm cfg =? 3); [by apply loop3_le|by apply Rres_ret]. }
  intros st1 st1j Hs1.
  eapply (Rres_bind state_le).
  { destruct (symm cfg =? 6); [by apply loop6_le|by apply Rres_ret]. }
  intros st2 st2j Hs2. st_open Hs2. apply Rres_ret. sle.
Qed.

Lemma search_from_new gas rounds flips0 muls0 :
  search_from mt cfg gas (mkmm fgdict_new fgdict_new ∅ (init_avail cfg) [])
              rounds flips0 muls0
  = search mt cfg gas rounds flips0 muls0.
Proof. reflexivity. Qed.
End Sim.


Lemma dict_le_refl d : dict_le d d.
Proof. by repeat split. Qed.

Lemma mm_le_refl m : mm_le m m.
Proof. repeat split; try done. Qed.

Lemma zero_heads_lookup n c j :
  (j < n)%nat -> zero_heads n c !! Z.shiftl (Z.of_nat j) 4 = Some 0.
Proof.
  induction n as [|n IH]; [lia|]. intros Hj. simpl.
  destruct (decide (j = n)) as [->|Hne]; [by rewrite lookup_insert_eq|].
  rewrite lookup_insert_ne; [apply IH; lia|].
  rewrite !Z.shiftl_mul_pow2 by lia. lia.
Qed.

Lemma zero_heads_head n c h :
  0 <= h < 16 * Z.of_nat n -> h mod 16 = 0 -> zero_heads n c !! h = Some 0.
Proof.
  intros Hh Hm.
  assert (E : h = Z.shiftl (Z.of_nat (Z.to_nat (h / 16))) 4).
  { rewrite Z.shiftl_mul_pow2 by lia.
    rewrite Z2Nat.id by (apply Z.div_pos; lia).
    change (2 ^ 4) with 16. pose proof (Z.div_mod h 16). lia. }
  rewrite E. apply zero_heads_lookup.
  assert (h / 16 < Z.of_nat n) by (apply Z.div_lt_upper_bound; lia).
  apply Nat2Z.inj_lt. rewrite Z2Nat.id by (apply Z.div_pos; lia). done.
Qed.

Lemma fgdict_on_le c k v : dict_le fgdict_new (fgdict_on c k v).
Proof.
  split; [done|]. split; [|split; apply map_empty_subseteq].
  intros h x. unfold rdcount, fgdict_new, fgdict_on. cbn [count].
  rewrite lookup_empty.
  generalize (eq_refl (Z.to_nat 65536)).
  generalize (Z.to_nat 65536) at 1 3. intros n Hn.
  destruct ((0 <=? h) && (h <? 1048576) && (h mod 16 =? 0)) eqn:E; [|done].
  intros [= <-].
  apply andb_true_iff in E as [E E3]. apply andb_true_iff in E as [E1 E2].
  apply Z.leb_le in E1. apply Z.ltb_lt in E2. apply Z.eqb_eq in E3.
  rewrite zero_heads_head; [done| |done].
  rewrite Hn, Z2Nat.id by lia. lia.
Qed.

Lemma alloc_le cfg h :
  mm_le (mkmm fgdict_new fgdict_new ∅ (init_avail cfg) []) (alloc cfg h).
Proof.
  unfold alloc. split; [apply fgdict_on_le|]. split; [apply fgdict_on_le|].
  split; [apply map_empty_subseteq|done].
Qed.


Lemma state_le_outcome st stj : state_le st stj -> outcome stj = outcome st.
Proof. by intros (mj & -> & _). Qed.

Lemma run_on_more h cfg gas rounds gas' rounds' flips0 muls0 st :
  run cfg gas rounds flips0 muls0 = Ok st ->
  (gas <= gas')%nat -> (rounds <= rounds')%nat ->
  exists st', run_on h cfg gas' rounds' flips0 muls0 = Ok st' /\
              outcome st' = outcome st.
Proof.
  intros H Hg Hr. unfold run in H. rewrite <- search_from_new in H.
  destruct (search_from_le (mt19937 (rseed cfg)) cfg gas gas' rounds rounds'
              _ _ flips0 muls0 Hg Hr (alloc_le cfg h) st H) as (st' & H' & Hs).
  exists st'. split; [done|]. by apply state_le_outcome.
Qed.

Lemma run_on_same h cfg gas rounds gas' rounds' flips0 muls0 st st' :
  run cfg gas rounds flips0 muls0 = Ok st ->
  run_on h cfg gas' rounds' flips0 muls0 = Ok st' ->
  outcome st' = outcome st.
Proof.
  intros H H'.
  destruct (run_on_more h cfg gas rounds (Nat.max gas gas')
              (Nat.max rounds rounds') flips0 muls0 st H ltac:(lia) ltac:(lia))
    as (st1 & H1 & Ho1).
  destruct (search_from_le (mt19937 (rseed cfg)) cfg gas' (Nat.max gas gas')
              rounds' (Nat.max rounds rounds') _ _ flips0 muls0
              ltac:(lia) ltac:(lia) (mm_le_refl (alloc cfg h)) st' H')
    as (st2 & H2 & Hs2).
  unfold run_on in H1. rewrite H1 in H2. injection H2 as <-.
  rewrite <- Ho1. symmetry. by apply state_le_outcome.
Qed.


(** The generator against the C++ standard, which fixes the first word of
    [std::mt19937] and the word that the 10000th call of a
    default-constructed engine (seed 5489) returns. *)
Lemma mt19937_checked :
  mt19937 5489 0 = 3499211612 /\ mt19937 5489 (Z.to_nat 9999) = 4123659995 /\
  mt19937 1 0 = 1791095845 /\ mt19937 (-1) 0 = mt19937 4294967295 0.
Proof. vm_compute. repeat split; reflexivity. Qed.

(** C9.  Two runs of the program on one state file have the same input
    state and the same [rseed], hence the same generator [std::mt19937
    mt(rseed)]; they may differ in what the arrays of the multimap hold when
    [new] returns them (the heap), and in the model in the bounds [gas] and
    [rounds].  A round started in two states that differ only in cells that
    cannot be read in the first one does the same in both: same status, same
    [muls], [best], counters and file, states that again differ only in such
    cells.  And when the run in which no cell can be read before it is
    written returns, the run on every heap returns with bounds that are not
    smaller, and any two runs on any heaps with any bounds that return have
    the same outcome: [rcode], [flips], [achieved], [minmuls], [plus],
    [plusby], [muls], [best], the number of words taken and the file. *)
Theorem run_deterministic cfg flips0 muls0 :
  (forall gas gas' st stj s st',
     state_le st stj -> (gas <= gas')%nat ->
     (step3 (mt19937 (rseed cfg)) cfg gas st = Ok (s, st') ->
      exists stj', step3 (mt19937 (rseed cfg)) cfg gas' stj = Ok (s, stj') /\
                   state_le st' stj') /\
     (step6 (mt19937 (rseed cfg)) cfg gas st = Ok (s, st') ->
      exists stj', step6 (mt19937 (rseed cfg)) cfg gas' stj = Ok (s, stj') /\
                   state_le st' stj')) /\
  (forall gas rounds st,
     run cfg gas rounds flips0 muls0 = Ok st ->
     (forall h gas' rounds', (gas <= gas')%nat -> (rounds <= rounds')%nat ->
        exists st', run_on h cfg gas' rounds' flips0 muls0 = Ok st') /\
     (forall h1 h2 gas1 gas2 rounds1 rounds2 st1 st2,
        run_on h1 cfg gas1 rounds1 flips0 muls0 = Ok st1 ->
        run_on h2 cfg gas2 rounds2 flips0 muls0 = Ok st2 ->
        outcome st1 = outcome st2 /\ outcome st1 = outcome st)).
Proof.
  split.
  - intros gas gas' st stj s st' Hs Hg. split; intros H.
    + destruct (step3_le _ cfg gas gas' st stj Hg Hs _ H)
        as ([s' stj'] & H' & Hss & Hs'). simpl in Hss, Hs'. subst s'. eauto.
    + destruct (step6_le _ cfg gas gas' st stj Hg Hs _ H)
        as ([s' stj'] & H' & Hss & Hs'). simpl in Hss, Hs'. subst s'. eauto.
  - intros gas rounds st H. split.
    + intros h gas' rounds' Hg Hr.
      destruct (run_on_more h _ _ _ _ _ _ _ _ H Hg Hr) as (st' & H' & _). eauto.
    + intros h1 h2 gas1 gas2 rounds1 rounds2 st1 st2 H1 H2.
      rewrite (run_on_same _ _ _ _ _ _ _ _ _ _ H H1).
      by rewrite (run_on_same _ _ _ _ _ _ _ _ _ _ H H2).
Qed.

(** The state file of [cfg_ten] with the decomposition [muls_go]: ten
    rounds on the generator seeded with 1, then [rcode = 1] at [flips = 30].
    The runs on the heaps [heap_a] and [heap_b] return, and with the same
    outcome. *)
Lemma run_deterministic_witness :
  exists st,
    run cfg_ten 10 10 0 muls_go = Ok st /\
    rcode st = 1 /\ flips st = 30 /\ drawn st = 10%nat /\
    (exists st1, run_on heap_a cfg_ten 10 10 0 muls_go = Ok st1) /\
    (forall st1 st2,
       run_on heap_a cfg_ten 10 10 0 muls_go = Ok st1 ->
       run_on heap_b cfg_ten 12 20 0 muls_go = Ok st2 ->
       outcome st1 = outcome st2 /\ outcome st1 = outcome st).
Proof.
  assert (exists st, run cfg_ten 10 10 0 muls_go = Ok st /\
                     rcode st = 1 /\ flips st = 30 /\ drawn st = 10%nat)
    as (st & Hr & Hc & Hf & Hd).
  { eexists. split; [vm_compute; reflexivity|].
    split; [vm_compute; reflexivity|]. split; vm_compute; reflexivity. }
  exists st. split; [exact Hr|]. split; [exact Hc|]. split; [exact Hf|].
  split; [exact Hd|].
  destruct (proj2 (run_deterministic cfg_ten 0 muls_go) 10%nat 10%nat st Hr)
    as [Hex Hsame].
  split.
  - exact (Hex heap_a 10%nat 10%nat (le_n _) (le_n _)).
  - intros st1 st2 H1 H2.
    exact (Hsame heap_a heap_b 10%nat 12%nat 10%nat 20%nat st1 st2 H1 H2).
Defined.

(** * Further properties *)

(** ** The dictionary as its callers see it *)

Lemma set_lasthash_same d h : lasthash d = h -> set_lasthash d h = d.
Proof. intros <-. by destruct d. Qed.

Lemma remove_shift_total k : forall fuel ks vs i x v j,
  i - Z.of_nat fuel <= j <= i -> <[i := x]> ks !! j = Some k ->
  (forall t, j <= t < i -> is_Some (ks !! t) /\ is_Some (vs !! t)) ->
  exists r, remove_shift fuel ks vs i x v k = Ok r.
Proof.
  induction fuel as [|fuel IH]; intros ks vs i x v j Hj Hk Hcell; simpl.
  - assert (j = i) as -> by lia. rewrite lookup_insert_eq in Hk. injection Hk as ->.
    rewrite Z.eqb_refl. eauto.
  - destruct (x =? k) eqn:E; [eauto|]. apply Z.eqb_neq in E.
    assert (j <> i) by (intros ->; rewrite lookup_insert_eq in Hk; congruence).
    rewrite lookup_insert_ne in Hk by done.
    destruct (Hcell (i - 1)) as [[x' Hx'] [v' Hv']]; [lia|].
    unfold rd. rewrite Hx', Hv'. simpl.
    apply (IH _ _ _ _ _ j); [lia| |].
    + rewrite insert_insert_eq. destruct (decide (j = i - 1)) as [->|Hne].
      * rewrite lookup_insert_eq. congruence.
      * rewrite lookup_insert_ne by done. done.
    + intros t Ht. rewrite !lookup_insert_ne by lia. apply Hcell. lia.
Qed.

Lemma removex_total d m k v :
  dict_rep d m -> lasthash d = hash k -> m !! k = Some v ->
  exists d', removex d k = Ok d'.
Proof.
  intros Hrep Hh Hk. unfold removex. rewrite Hh.
  destruct (Hrep (hash k) (hash_head k)) as (c & Hc & Hcr & Hcell & Hinj & Hsur).
  destruct (Hsur k v eq_refl Hk) as (i0 & Hi0 & Hki0).
  rewrite Hc. simpl. destruct (c =? 1) eqn:E1; [eauto|].
  destruct (c <? 1) eqn:E2; [lia|].
  destruct (Hcell (c - 1)) as (k1 & v1 & Hk1 & Hv1 & _); [lia|].
  replace (hash k + (c - 1)) with (hash k + c - 1) in Hk1, Hv1 by lia.
  unfold rd. rewrite Hk1, Hv1. simpl.
  destruct (remove_shift_total k (Z.to_nat (c - 1)) (key d) (value d)
              (hash k + c - 1) k1 v1 (hash k + i0)) as [[ks vs] Hr];
    [lia|by rewrite insert_id| |].
  - intros t Ht. destruct (Hcell (t - hash k)) as (k2 & v2 & Hk2 & Hv2 & _); [lia|].
    replace (hash k + (t - hash k)) with t in Hk2, Hv2 by lia. eauto.
  - rewrite Hr. simpl. eauto.
Qed.

Lemma replacex_total d m k v0 v :
  dict_rep d m -> lasthash d = hash k -> m !! k = Some v0 ->
  exists d', replacex d k v = Ok d'.
Proof.
  intros Hrep Hh Hk. unfold replacex. rewrite Hh.
  destruct (Hrep (hash k) (hash_head k)) as (c & Hc & Hcr & Hcell & Hinj & Hsur).
  destruct (Hsur k v0 eq_refl Hk) as (i0 & Hi0 & Hki0).
  rewrite Hc. simpl. destruct (c =? 1) eqn:E1; [eauto|].
  destruct (c <? 1) eqn:E2; [lia|].
  destruct (Hcell (c - 1)) as (k1 & v1 & Hk1 & _); [lia|].
  replace (hash k + (c - 1)) with (hash k + c - 1) in Hk1 by lia.
  unfold rd. rewrite Hk1. simpl.
  destruct (find_down_total (key d) k (Z.to_nat (c - 1)) (hash k + c - 1) k1 (hash k + i0))
    as [j Hj]; [lia|by rewrite insert_id| |].
  - intros t Ht. destruct (Hcell (t - hash k)) as (k2 & v2 & Hk2 & _); [lia|].
    replace (hash k + (t - hash k)) with t in Hk2 by lia. eauto.
  - rewrite Hj. simpl. eauto.
Qed.

Lemma contains_value d m k :
  dict_rep d m ->
  contains d k
  = Ok (if decide (is_Some (m !! k)) then 1 else 0, set_lasthash d (hash k)).
Proof.
  intros Hrep. destruct (contains_total d m k Hrep) as [r Hr].
  rewrite Hr. f_equal. f_equal.
  apply (contains_spec _ _ _ _ _ Hrep) in Hr as [_ [[-> Hs]|[-> Hn]]].
  - by rewrite decide_True.
  - rewrite decide_False; [done|]. rewrite Hn. by intros [? ?].
Qed.

Lemma getvalue_value d m k v :
  dict_rep d m -> m !! k = Some v ->
  getvalue d k = Ok (v, set_lasthash d (hash k)).
Proof.
  intros Hrep Hk. unfold getvalue. cbv zeta.
  rewrite (getvaluex_total _ m k v); [done| |done|done].
  by apply dict_rep_lasthash.
Qed.

(** X1.  On a dictionary that holds the bindings [m], [contains] answers 1
    for a key of [m] and 0 for any other key, and changes nothing but the
    cached hash. *)
Theorem contains_decides d m k :
  dict_rep d m ->
  contains d k
  = Ok (if decide (is_Some (m !! k)) then 1 else 0, set_lasthash d (hash k)).
Proof. apply contains_value. Qed.

(** X2.  [add] of an absent key into a bucket that is not full succeeds;
    the dictionary then holds the new binding beside the old ones, and
    [getvalue] and [contains] find it. *)
Theorem add_then_getvalue d m k v c :
  dict_rep d m -> m !! k = None -> rdcount d (hash k) = Ok c -> c < 16 ->
  exists d',
    add d k v = Ok d' /\ dict_rep d' (<[k := v]> m) /\
    getvalue d' k = Ok (v, d') /\ contains d' k = Ok (1, d').
Proof.
  intros Hrep Hk Hc Hlt.
  assert (exists d', add d k v = Ok d') as [d' Hadd].
  { unfold add, addx. simpl.
    change (rdcount (set_lasthash d (hash k)) (hash k)) with (rdcount d (hash k)).
    rewrite Hc. simpl. destruct (16 <=? c) eqn:E; [lia|]. eauto. }
  exists d'. split; [done|].
  apply addx_spec with (m := m) in Hadd as [Hrep' Hl];
    [|by apply dict_rep_lasthash|done|done].
  simpl in Hl. split; [done|].
  rewrite (getvalue_value d' _ k v Hrep') by apply lookup_insert_eq.
  rewrite (contains_value d' _ k Hrep').
  rewrite decide_True by (rewrite lookup_insert_eq; eauto).
  by rewrite set_lasthash_same.
Qed.

(** X3.  [remove] of a key that is bound succeeds and takes away that
    binding only; [contains] then answers 0 for it. *)
Theorem remove_then_contains d m k v :
  dict_rep d m -> m !! k = Some v ->
  exists d',
    remove d k = Ok d' /\ dict_rep d' (delete k m) /\
    contains d' k = Ok (0, d').
Proof.
  intros Hrep Hk. unfold remove.
  destruct (removex_total (set_lasthash d (hash k)) m k v) as [d' Hr];
    [by apply dict_rep_lasthash|done|done|].
  exists d'. split; [done|].
  apply removex_spec with (m := m) (v := v) in Hr as [Hrep' Hl];
    [|by apply dict_rep_lasthash|done|done].
  simpl in Hl. split; [done|].
  rewrite (contains_value d' _ k Hrep').
  rewrite decide_False by (rewrite lookup_delete_eq; by intros [? ?]).
  by rewrite set_lasthash_same.
Qed.

(** X4.  [replace] on a key that is bound succeeds and changes the value
    of that key only; [getvalue] then returns the new value. *)
Theorem replace_then_getvalue d m k v0 v :
  dict_rep d m -> m !! k = Some v0 ->
  exists d',
    replace d k v = Ok d' /\ dict_rep d' (<[k := v]> m) /\
    getvalue d' k = Ok (v, d').
Proof.
  intros Hrep Hk. unfold replace.
  destruct (replacex_total (set_lasthash d (hash k)) m k v0 v) as [d' Hr];
    [by apply dict_rep_lasthash|done|done|].
  exists d'. split; [done|].
  apply replacex_spec with (m := m) (v0 := v0) in Hr as [Hrep' Hl];
    [|by apply dict_rep_lasthash|done|done].
  simpl in Hl. split; [done|].
  rewrite (getvalue_value d' _ k v Hrep') by apply lookup_insert_eq.
  by rewrite set_lasthash_same.
Qed.

Lemma one_key_count d m k' v' :
  dict_rep d m -> m !! k' = Some v' ->
  (forall k'', hash k'' = hash k' -> is_Some (m !! k'') -> k'' = k') ->
  rdcount d (hash k') = Ok 1.
Proof.
  intros Hrep Hk Hone.
  destruct (Hrep (hash k') (hash_head k')) as (c & Hc & Hcr & Hcell & Hinj & Hsur).
  destruct (Hsur k' v' eq_refl Hk) as (i0 & Hi0 & _).
  destruct (decide (c = 1)) as [->|Hne]; [done|].
  destruct (Hcell 0) as (k0 & v0 & Hk0 & _ & Hh0 & Hm0); [lia|].
  destruct (Hcell 1) as (k1 & v1 & Hk1 & _ & Hh1 & Hm1); [lia|].
  rewrite (Hone k0 Hh0 (mk_is_Some _ _ Hm0)) in Hk0.
  rewrite (Hone k1 Hh1 (mk_is_Some _ _ Hm1)) in Hk1.
  pose proof (Hinj 0 1 k' ltac:(lia) ltac:(lia) Hk0 Hk1). lia.
Qed.

(** X5.  The key is not compared in a bucket that holds one key: when [k']
    is the only key of its bucket, [getvalue], [replace] and [remove]
    called with any key [k] of that bucket return, overwrite and remove
    the binding of [k']. *)
Theorem one_key_bucket d m k k' v' :
  dict_rep d m -> m !! k' = Some v' -> hash k = hash k' ->
  (forall k'', hash k'' = hash k' -> is_Some (m !! k'') -> k'' = k') ->
  getvalue d k = Ok (v', set_lasthash d (hash k)) /\
  (forall v, exists d', replace d k v = Ok d' /\ dict_rep d' (<[k' := v]> m)) /\
  (exists d', remove d k = Ok d' /\ dict_rep d' (delete k' m)).
Proof.
  intros Hrep Hk Hh Hone.
  pose proof (one_key_count d m k' v' Hrep Hk Hone) as Hc.
  assert (Eg : getvalue d k = getvalue d k').
  { unfold getvalue, getvaluex. cbv zeta. rewrite Hh.
    change (rdcount (set_lasthash d (hash k')) (lasthash (set_lasthash d (hash k'))))
      with (rdcount d (hash k')). by rewrite Hc. }
  assert (Er : forall v, replace d k v = replace d k' v).
  { intros v. unfold replace, replacex. rewrite Hh.
    change (rdcount (set_lasthash d (hash k')) (lasthash (set_lasthash d (hash k'))))
      with (rdcount d (hash k')). by rewrite Hc. }
  assert (Ed : remove d k = remove d k').
  { unfold remove, removex. rewrite Hh.
    change (rdcount (set_lasthash d (hash k')) (lasthash (set_lasthash d (hash k'))))
      with (rdcount d (hash k')). by rewrite Hc. }
  split; [|split].
  - rewrite Eg, Hh. by apply getvalue_value with (m := m).
  - intros v. rewrite Er. unfold replace.
    destruct (replacex_total (set_lasthash d (hash k')) m k' v' v) as [d' Hr];
      [by apply dict_rep_lasthash|done|done|].
    exists d'. split; [done|].
    apply replacex_spec with (m := m) (v0 := v') in Hr as [Hrep' _];
      [done|by apply dict_rep_lasthash|done|done].
  - rewrite Ed. unfold remove.
    destruct (removex_total (set_lasthash d (hash k')) m k' v') as [d' Hr];
      [by apply dict_rep_lasthash|done|done|].
    exists d'. split; [done|].
    apply removex_spec with (m := m) (v := v') in Hr as [Hrep' _];
      [done|by apply dict_rep_lasthash|done|done].
Qed.

(** A dictionary with the one binding of 1 to 10, and one with the keys 1
    and 65214, which share a bucket. *)
Lemma dict_one :
  exists d, add fgdict_new 1 10 = Ok d /\ dict_rep d {[1 := 10]}.
Proof.
  eexists. split; [vm_compute; reflexivity|].
  eapply (proj1 (addx_spec (set_lasthash fgdict_new (hash 1)) ∅ 1 10 _ _ _ _ _)).
  Unshelve.
  - apply dict_rep_lasthash, dict_rep_new.
  - reflexivity.
  - reflexivity.
  - vm_compute. reflexivity.
Qed.

Lemma add_then_getvalue_witness :
  exists d', add fgdict_new 1 10 = Ok d' /\ getvalue d' 1 = Ok (10, d') /\
             contains d' 1 = Ok (1, d').
Proof.
  destruct (add_then_getvalue fgdict_new ∅ 1 10 0 dict_rep_new eq_refl eq_refl
              eq_refl) as (d' & Ha & _ & Hg & Hc).
  exists d'. auto.
Defined.

Lemma contains_decides_witness :
  exists d, add fgdict_new 1 10 = Ok d /\
            contains d 1 = Ok (1, set_lasthash d (hash 1)) /\
            contains d 2 = Ok (0, set_lasthash d (hash 2)).
Proof.
  destruct dict_one as (d & Ha & Hrep). exists d. split; [exact Ha|].
  split; [exact (contains_decides d _ 1 Hrep)|exact (contains_decides d _ 2 Hrep)].
Defined.

Lemma remove_then_contains_witness :
  exists d d', add fgdict_new 1 10 = Ok d /\ remove d 1 = Ok d' /\
               contains d' 1 = Ok (0, d').
Proof.
  destruct dict_one as (d & Ha & Hrep).
  destruct (remove_then_contains d _ 1 10 Hrep eq_refl) as (d' & Hr & _ & Hc).
  exists d, d'. auto.
Defined.

Lemma replace_then_getvalue_witness :
  exists d d', add fgdict_new 1 10 = Ok d /\ replace d 1 11 = Ok d' /\
               getvalue d' 1 = Ok (11, d').
Proof.
  destruct dict_one as (d & Ha & Hrep).
  destruct (replace_then_getvalue d _ 1 10 11 Hrep eq_refl) as (d' & Hr & _ & Hg).
  exists d, d'. auto.
Defined.

(** The keys 1 and 65214 share a bucket: looked up in a dictionary that
    holds 1 only, 65214 gets the value of 1. *)
Lemma one_key_bucket_witness :
  exists d, add fgdict_new 1 10 = Ok d /\ hash 65214 = hash 1 /\
            getvalue d 65214 = Ok (10, set_lasthash d (hash 65214)).
Proof.
  destruct dict_one as (d & Ha & Hrep). exists d. split; [exact Ha|].
  split; [reflexivity|].
  refine (proj1 (one_key_bucket d _ 65214 1 10 Hrep eq_refl eq_refl _)).
  intros k'' _ [x Hx]. apply lookup_singleton_Some in Hx as [Hx _]. by symmetry.
Defined.

(** ** A key that is absent *)

Lemma find_down_absent ks k : forall fuel i x,
  x <> k ->
  (forall t, i - Z.of_nat fuel <= t < i -> exists y, ks !! t = Some y /\ y <> k) ->
  find_down fuel ks i x k = Fault OutOfBucket.
Proof.
  induction fuel as [|fuel IH]; intros i x Hx Hcell; simpl;
    (destruct (x =? k) eqn:E; [lia|]); [done|].
  destruct (Hcell (i - 1)) as (y & Hy & Hne); [lia|].
  unfold rd. rewrite Hy. simpl. apply IH; [done|].
  intros t Ht. apply Hcell. lia.
Qed.

Lemma remove_shift_absent k : forall fuel ks vs i x v,
  x <> k ->
  (forall t, i - Z.of_nat fuel <= t < i ->
     (exists y, ks !! t = Some y /\ y <> k) /\ is_Some (vs !! t)) ->
  remove_shift fuel ks vs i x v k = Fault OutOfBucket.
Proof.
  induction fuel as [|fuel IH]; intros ks vs i x v Hx Hcell; simpl;
    (destruct (x =? k) eqn:E; [lia|]); [done|].
  destruct (Hcell (i - 1)) as [(y & Hy & Hne) [v' Hv']]; [lia|].
  unfold rd. rewrite Hy, Hv'. simpl. apply IH; [done|].
  intros t Ht. rewrite !lookup_insert_ne by lia. apply Hcell. lia.
Qed.

(** X6.  A key that is not bound, looked up where its bucket holds no key or
    two and more: the scans of [getvalue], [replace] and [remove] compare
    every key of the bucket and run past its first cell, into the cells of
    the bucket below. *)
Theorem absent_key_leaves_bucket d m k c :
  dict_rep d m -> m !! k = None -> rdcount d (hash k) = Ok c -> c <> 1 ->
  getvalue d k = Fault OutOfBucket /\
  (forall v, replace d k v = Fault OutOfBucket) /\
  remove d k = Fault OutOfBucket.
Proof.
  intros Hrep Hk Hc Hne.
  destruct (Hrep (hash k) (hash_head k)) as (c' & Hc' & Hcr & Hcell & _ & _).
  assert (c' = c) as -> by congruence.
  assert (Hkeys : forall t, hash k <= t < hash k + c ->
            (exists y, key d !! t = Some y /\ y <> k) /\ is_Some (value d !! t)).
  { intros t Ht. destruct (Hcell (t - hash k)) as (k1 & v1 & Hk1 & Hv1 & _ & Hm1); [lia|].
    replace (hash k + (t - hash k)) with t in Hk1, Hv1 by lia.
    split; [|eauto]. exists k1. split; [done|]. congruence. }
  unfold getvalue, replace, remove, getvaluex, replacex, removex. cbv zeta.
  change (rdcount (set_lasthash d (hash k)) (lasthash (set_lasthash d (hash k))))
    with (rdcount d (hash k)).
  rewrite Hc. simpl.
  destruct (c =? 1) eqn:E1; [lia|].
  destruct (c <? 1) eqn:E2; [done|].
  destruct (Hkeys (hash k + c - 1)) as [(x & Hx & Hxk) [v Hv]]; [lia|].
  unfold rd. rewrite Hx. simpl.
  assert (Hf : find_down (Z.to_nat (c - 1)) (key d) (hash k + c - 1) x k
               = Fault OutOfBucket).
  { apply find_down_absent; [done|]. intros t Ht. apply Hkeys. lia. }
  rewrite Hf, Hv. simpl.
  split; [done|]. split; [done|].
  rewrite remove_shift_absent; [done|done|]. intros t Ht. apply Hkeys. lia.
Qed.

Lemma absent_key_leaves_bucket_witness :
  getvalue fgdict_new 1 = Fault OutOfBucket /\
  remove fgdict_new 1 = Fault OutOfBucket.
Proof.
  destruct (absent_key_leaves_bucket fgdict_new ∅ 1 0 dict_rep_new eq_refl eq_refl
              ltac:(lia)) as (Hg & _ & Hr).
  split; [exact Hg|exact Hr].
Defined.

(** ** The multimap as its callers see it *)

Lemma mm_observed n m asg :
  mm_ok n m asg ->
  (forall v, exists slots,
     M_slots m v = Ok slots /\ NoDup slots /\
     (forall s, s ∈ slots <-> asg !! s = Some v) /\
     (v ∈ twoplusl m <-> (2 <= length slots)%nat)) /\
  NoDup (twoplusl m).
Proof.
  intros (um & tm & Hrep). split.
  - intros v. destruct (M_slots_spec _ _ _ _ _ v Hrep) as (slots & Hs & Hnd & Hmem & Htwo).
    exists slots. do 3 (split; [done|]).
    rewrite Htwo. apply index_rep_elem. by destruct Hrep.
  - eapply index_rep_NoDup. by destruct Hrep.
Qed.

(** X7.  What the multimap holds can be read back: with the slots [asg]
    entered, [M_slots] lists for each value exactly the slots entered under
    it, each once; [twoplusl] holds exactly the values with two slots or
    more, each once. *)
Theorem multimap_observed n m asg :
  mm_ok n m asg ->
  (forall v, exists slots,
     M_slots m v = Ok slots /\ NoDup slots /\
     (forall s, s ∈ slots <-> asg !! s = Some v) /\
     (v ∈ twoplusl m <-> (2 <= length slots)%nat)) /\
  NoDup (twoplusl m).
Proof. apply mm_observed. Qed.

(** X8.  [flipadd] of a slot that is not entered, under any value, zero
    included: when it returns, the slot is listed under that value and
    nothing else has changed. *)
Theorem flipadd_lists n m asg r v m' :
  mm_ok n m asg -> asg !! r = None -> 0 <= r < n ->
  flipadd m r v = Ok m' ->
  mm_ok n m' (<[r := v]> asg) /\
  forall v', exists slots,
    M_slots m' v' = Ok slots /\ NoDup slots /\
    (r ∈ slots <-> v' = v) /\
    (forall s, s <> r -> (s ∈ slots <-> asg !! s = Some v')).
Proof.
  intros Hok Hr Hn H. apply (flipadd_spec _ _ _ _ _ _ Hok Hr Hn) in H.
  split; [done|]. intros v'.
  destruct (proj1 (mm_observed _ _ _ H) v') as (slots & Hs & Hnd & Hmem & _).
  exists slots. do 2 (split; [done|]). split.
  - rewrite Hmem, lookup_insert_eq. split; congruence.
  - intros s Hne. by rewrite Hmem, lookup_insert_ne.
Qed.

(** X9.  [flipdel] of a slot entered under [v]: when it returns, the slot
    is listed under no value and nothing else has changed. *)
Theorem flipdel_unlists n m asg r v m' :
  mm_ok n m asg -> asg !! r = Some v ->
  flipdel m r v = Ok m' ->
  mm_ok n m' (delete r asg) /\
  forall v', exists slots,
    M_slots m' v' = Ok slots /\ NoDup slots /\ (r ∉ slots) /\
    (forall s, s <> r -> (s ∈ slots <-> asg !! s = Some v')).
Proof.
  intros Hok Hr H. apply (flipdel_spec _ _ _ _ _ _ Hok Hr) in H.
  split; [done|]. intros v'.
  destruct (proj1 (mm_observed _ _ _ H) v') as (slots & Hs & Hnd & Hmem & _).
  exists slots. do 2 (split; [done|]). split.
  - rewrite Hmem, lookup_delete_eq. done.
  - intros s Hne. by rewrite Hmem, lookup_delete_ne.
Qed.

(** X10.  [flipadd] followed by [flipdel] of the same slot and value, and
    [flipdel] followed by [flipadd], leave the multimap with the slots it
    had. *)
Theorem flipadd_flipdel n m asg r v :
  mm_ok n m asg -> 0 <= r < n ->
  (asg !! r = None -> forall m1 m2,
     flipadd m r v = Ok m1 -> flipdel m1 r v = Ok m2 -> mm_ok n m2 asg) /\
  (asg !! r = Some v -> forall m1 m2,
     flipdel m r v = Ok m1 -> flipadd m1 r v = Ok m2 -> mm_ok n m2 asg).
Proof.
  intros Hok Hn. split; intros Hr m1 m2 H1 H2.
  - apply (flipadd_spec _ _ _ _ _ _ Hok Hr Hn) in H1.
    apply (flipdel_spec _ _ _ _ _ _ H1) in H2; [|apply lookup_insert_eq].
    by rewrite delete_insert_id in H2.
  - apply (flipdel_spec _ _ _ _ _ _ Hok Hr) in H1.
    apply (flipadd_spec _ _ _ _ _ _ H1) in H2; [|apply lookup_delete_eq|done].
    by rewrite insert_delete_id in H2.
Qed.

(** The multimap of six slots with slot 0 entered under the value 5. *)
Lemma mm_one :
  exists m1,
    flipadd (mkmm fgdict_new fgdict_new ∅ (init_avail (cfg_S2 0)) []) 0 5 = Ok m1 /\
    mm_ok 6 m1 {[0 := 5]}.
Proof.
  assert (Hok0 : mm_ok 6 (mkmm fgdict_new fgdict_new ∅ (init_avail (cfg_S2 0)) []) ∅).
  { apply (mm_ok_new (cfg_S2 0)). simpl. lia. }
  eexists. split; [vm_compute; reflexivity|].
  refine (flipadd_spec 6 _ ∅ 0 5 _ Hok0 eq_refl _ _); [lia|vm_compute; reflexivity].
Qed.

(** The same multimap, and slot 0 taken out again. *)
Lemma mm_one_del :
  exists m1 m2,
    flipadd (mkmm fgdict_new fgdict_new ∅ (init_avail (cfg_S2 0)) []) 0 5 = Ok m1 /\
    mm_ok 6 m1 {[0 := 5]} /\ flipdel m1 0 5 = Ok m2.
Proof.
  assert (Hok0 : mm_ok 6 (mkmm fgdict_new fgdict_new ∅ (init_avail (cfg_S2 0)) []) ∅).
  { apply (mm_ok_new (cfg_S2 0)). simpl. lia. }
  do 2 eexists. split; [vm_compute; reflexivity|].
  split; [|vm_compute; reflexivity].
  refine (flipadd_spec 6 _ ∅ 0 5 _ Hok0 eq_refl _ _); [lia|vm_compute; reflexivity].
Qed.

Lemma multimap_observed_witness :
  exists m1 slots,
    flipadd (mkmm fgdict_new fgdict_new ∅ (init_avail (cfg_S2 0)) []) 0 5 = Ok m1 /\
    M_slots m1 5 = Ok slots /\ NoDup slots /\ 0 ∈ slots.
Proof.
  destruct mm_one as (m1 & Ha & Hok).
  destruct (proj1 (multimap_observed 6 m1 _ Hok) 5) as (slots & Hs & Hnd & Hmem & _).
  exists m1, slots. split; [exact Ha|]. split; [exact Hs|]. split; [exact Hnd|].
  apply Hmem. reflexivity.
Defined.

Lemma flipadd_lists_witness :
  exists m1 slots,
    flipadd (mkmm fgdict_new fgdict_new ∅ (init_avail (cfg_S2 0)) []) 0 5 = Ok m1 /\
    M_slots m1 5 = Ok slots /\ 0 ∈ slots.
Proof.
  destruct mm_one as (m1 & Ha & _).
  destruct (flipadd_lists 6 _ ∅ 0 5 m1 (mm_ok_new (cfg_S2 0) ltac:(simpl; lia))
              eq_refl ltac:(lia) Ha) as [_ Hl].
  destruct (Hl 5) as (slots & Hs & _ & Hin & _).
  exists m1, slots. split; [exact Ha|]. split; [exact Hs|]. by apply Hin.
Defined.

Lemma flipdel_unlists_witness :
  exists m1 m2 slots,
    flipadd (mkmm fgdict_new fgdict_new ∅ (init_avail (cfg_S2 0)) []) 0 5 = Ok m1 /\
    flipdel m1 0 5 = Ok m2 /\ M_slots m2 5 = Ok slots /\ 0 ∉ slots.
Proof.
  destruct mm_one_del as (m1 & m2 & Ha & Hok & Hd).
  destruct (flipdel_unlists 6 m1 _ 0 5 m2 Hok eq_refl Hd) as [_ Hl].
  destruct (Hl 5) as (slots & Hs & _ & Hin & _).
  exists m1, m2, slots. auto.
Defined.

Lemma flipadd_flipdel_witness :
  exists m1 m2,
    flipadd (mkmm fgdict_new fgdict_new ∅ (init_avail (cfg_S2 0)) []) 0 5 = Ok m1 /\
    flipdel m1 0 5 = Ok m2 /\ mm_ok 6 m2 ∅.
Proof.
  destruct mm_one_del as (m1 & m2 & Ha & _ & Hd).
  exists m1, m2. split; [exact Ha|]. split; [exact Hd|].
  exact (proj1 (flipadd_flipdel 6 _ ∅ 0 5 (mm_ok_new (cfg_S2 0) ltac:(simpl; lia))
                 ltac:(lia)) eq_refl m1 m2 Ha Hd).
Defined.

(** ** The bit utilities *)

Lemma popcount_bits_range w : forall n, 0 <= popcount_bits w n <= Z.of_nat w.
Proof.
  induction w as [|w IH]; intros n; simpl popcount_bits; [lia|].
  specialize (IH (Z.div2 n)). destruct (Z.odd n); simpl Z.b2z; lia.
Qed.

Lemma popcount_bits_0 w : popcount_bits w 0 = 0.
Proof. induction w as [|w IH]; simpl; [done|]. by rewrite IH. Qed.

Lemma land_halves a b :
  Z.odd (Z.land a b) = Z.odd a && Z.odd b /\
  Z.div2 (Z.land a b) = Z.land (Z.div2 a) (Z.div2 b).
Proof.
  split.
  - rewrite <- !Z.bit0_odd. apply Z.land_spec.
  - rewrite !Z.div2_spec. apply Z.shiftr_land.
Qed.

Lemma clear_lowest w : forall n,
  0 < n < 2 ^ Z.of_nat w ->
  popcount_bits w (Z.land n (n - 1)) = popcount_bits w n - 1.
Proof.
  induction w as [|w IH]; intros n Hn; [simpl in Hn; lia|].
  simpl popcount_bits. destruct (land_halves n (n - 1)) as [-> ->].
  pose proof (Z.div2_odd n) as En. pose proof (Z.div2_odd (n - 1)) as En'.
  assert (Ho : Z.odd (n - 1) = negb (Z.odd n)).
  { replace (n - 1) with (Z.pred n) by lia. by rewrite Z.odd_pred, Z.negb_odd. }
  rewrite Ho in En' |- *.
  rewrite Nat2Z.inj_succ, Z.pow_succ_r in Hn by lia.
  destruct (Z.odd n); simpl in *.
  - replace (Z.div2 (n - 1)) with (Z.div2 n) by lia.
    rewrite Z.land_diag. lia.
  - replace (Z.div2 (n - 1)) with (Z.div2 n - 1) by lia.
    rewrite IH by lia. lia.
Qed.

Lemma land_pred_range w n :
  0 < n < 2 ^ Z.of_nat w -> 0 <= Z.land n (n - 1) < 2 ^ Z.of_nat w.
Proof.
  intros Hn. assert (H0 : 0 <= Z.land n (n - 1)) by (apply Z.land_nonneg; lia).
  split; [done|].
  destruct (decide (Z.land n (n - 1) = 0)) as [->|Hne]; [lia|].
  apply Z.log2_lt_pow2; [lia|].
  pose proof (Z.log2_land n (n - 1) ltac:(lia) ltac:(lia)).
  assert (Z.log2 n < Z.of_nat w) by (apply Z.log2_lt_pow2; lia). lia.
Qed.

Lemma bitcount_loop_spec w : forall fuel c n,
  0 <= n < 2 ^ Z.of_nat w -> popcount_bits w n <= Z.of_nat fuel ->
  bitcount_loop fuel c n = c + popcount_bits w n.
Proof.
  induction fuel as [|fuel IH]; intros c n Hn Hp; simpl.
  - pose proof (popcount_bits_range w n). lia.
  - destruct (n =? 0) eqn:E.
    + apply Z.eqb_eq in E. subst n. rewrite popcount_bits_0. lia.
    + apply Z.eqb_neq in E. pose proof (land_pred_range w n ltac:(lia)).
      rewrite IH; rewrite ?clear_lowest by lia; lia.
Qed.

Lemma bitlimit_loop_spec w : forall fuel m n,
  0 <= m -> 0 <= n < 2 ^ Z.of_nat w -> popcount_bits w n <= Z.of_nat fuel ->
  bitlimit_loop fuel m n = Z.max 0 (m - popcount_bits w n).
Proof.
  induction fuel as [|fuel IH]; intros m n Hm Hn Hp; simpl.
  - pose proof (popcount_bits_range w n). lia.
  - pose proof (popcount_bits_range w n).
    destruct (n =? 0) eqn:E; simpl.
    + apply Z.eqb_eq in E. subst n. rewrite popcount_bits_0. lia.
    + apply Z.eqb_neq in E. destruct (m =? 0) eqn:E'.
      * apply Z.eqb_eq in E'. lia.
      * apply Z.eqb_neq in E'. pose proof (land_pred_range w n ltac:(lia)).
        rewrite IH; rewrite ?clear_lowest by lia; lia.
Qed.

(** X11.  [bitcount] of a 64-bit value is the number of its binary digits
    that are one; the loop ends within 64 rounds. *)
Theorem bitcount_popcount var :
  0 <= var < 2 ^ 64 -> bitcount var = popcount var.
Proof.
  intros H. unfold bitcount, popcount.
  rewrite (bitcount_loop_spec 64) ; [lia|done|].
  apply (popcount_bits_range 64).
Qed.

(** X12.  [bitlimit] of a 64-bit value and a bound [exceed >= 0] returns
    what is left of [exceed] after the ones are counted off, so it is
    non-zero exactly when the value has fewer than [exceed] ones. *)
Theorem bitlimit_popcount var exceed :
  0 <= var < 2 ^ 64 -> 0 <= exceed ->
  bitlimit var exceed = Z.max 0 (exceed - popcount var) /\
  (bitlimit var exceed <> 0 <-> popcount var < exceed).
Proof.
  intros H He. unfold bitlimit, popcount.
  rewrite (bitlimit_loop_spec 64); [lia|done|done|apply (popcount_bits_range 64)].
Qed.

Lemma bitcount_popcount_witness :
  0 <= 255 < 2 ^ 64 /\ bitcount 255 = popcount 255 /\ popcount 255 = 8.
Proof.
  assert (H : 0 <= 255 < 2 ^ 64) by lia.
  split; [exact H|]. split; [exact (bitcount_popcount 255 H)|reflexivity].
Defined.

Lemma bitlimit_popcount_witness :
  0 <= 7 < 2 ^ 64 /\ bitlimit 7 4 = 1 /\ bitlimit 7 3 = 0.
Proof.
  assert (H : 0 <= 7 < 2 ^ 64) by lia.
  split; [exact H|].
  split; [exact (proj1 (bitlimit_popcount 7 4 H ltac:(lia)))
         |exact (proj1 (bitlimit_popcount 7 3 H ltac:(lia)))].
Defined.

(** ** The flip limit with no step left *)

(** X13.  With a termination other than 0 and 2, [updatelimit] divides by the
    number of steps of [symm] between [achieved] and the rank it aims at
    ([target], or the termination [t >= 3] while [achieved > t]).  When
    that number is zero, because the two ranks are less than [symm] apart
    or [symm] is zero, the division is by zero. *)
Theorem updatelimit_no_step
    limit flips termination split achieved target symm flimit :
  termination <> 0 -> termination <> 2 ->
  Z.quot (achieved - (if (termination =? 1) || (achieved <=? termination)
                      then target else termination)) symm = 0 ->
  updatelimit limit flips termination split achieved target symm flimit
  = Fault DivByZero.
Proof.
  intros H0 H2 Hq. unfold updatelimit.
  destruct (termination =? 0) eqn:E0; [lia|].
  destruct (termination =? 1) eqn:E1; simpl in Hq.
  { by destruct (steps_left_none _ _ _ Hq) as [-> | ->]. }
  destruct (termination =? 2) eqn:E2; [lia|]. cbv zeta.
  destruct (achieved >? termination) eqn:E3.
  - destruct (achieved <=? termination) eqn:E4; [lia|].
    by destruct (steps_left_none _ _ _ Hq) as [-> | ->].
  - destruct (achieved <=? termination) eqn:E4; [|lia].
    by destruct (steps_left_none _ _ _ Hq) as [-> | ->].
Qed.

(** Termination 1 with [achieved = 49], [target = 47] and [symm = 3]: no
    whole step is left. *)
Lemma updatelimit_no_step_witness :
  updatelimit 0 0 1 0 49 47 3 1000000 = Fault DivByZero.
Proof.
  apply updatelimit_no_step; [lia|lia|reflexivity].
Defined.

(** * The engine through a run *)

(** ** The invariant through the run *)

Lemma vget_Forall (P : Z -> Prop) mu s x :
  Forall P mu -> vget mu s = Ok x -> P x.
Proof.
  intros HP H. unfold vget in H. destruct (s <? 0); [done|].
  destruct (mu !! Z.to_nat s) as [y|] eqn:E; [|done]. injection H as <-.
  by eapply Forall_lookup_1.
Qed.

Lemma groups_all_nonzero w mu : Forall (fun x => x <> 0) mu -> groups_ok w mu.
Proof.
  intros H t. right. intros s x _ Hx. by apply (vget_Forall _ _ _ _ H Hx).
Qed.

Lemma vget_total mu s x :
  vget mu s = Ok x -> In s (seqZ 0 (vsize mu)) /\ mu !!! Z.to_nat s = x.
Proof.
  intros H. apply vget_Ok in H as Hr. split.
  - apply list_elem_of_In, elem_of_seqZ. lia.
  - unfold vget in H. destruct (s <? 0); [done|].
    destruct (mu !! Z.to_nat s) as [y|] eqn:E; [|done]. injection H as <-.
    by apply list_lookup_total_correct.
Qed.

Lemma groups_check_ok w mu : groups_check w mu = true -> groups_ok w mu.
Proof.
  unfold groups_check. intros H t. rewrite forallb_forall in H.
  assert (Hpair : forall s u x y, s / w = u / w ->
            vget mu s = Ok x -> vget mu u = Ok y -> (x = 0 <-> y = 0)).
  { intros s u x y Hsu Hx Hy.
    apply vget_total in Hx as [Hs <-]. apply vget_total in Hy as [Hu <-].
    specialize (H s Hs). rewrite forallb_forall in H. specialize (H u Hu).
    apply orb_prop in H as [H|H].
    - apply negb_true_iff, Z.eqb_neq in H. done.
    - apply Bool.eqb_prop in H.
      destruct (mu !!! Z.to_nat s =? 0) eqn:E1; symmetry in H.
      + apply Z.eqb_eq in E1, H. by rewrite E1, H.
      + apply Z.eqb_neq in E1, H. split; intros; done. }
  destruct (existsb (fun s => (s / w =? t) && (mu !!! Z.to_nat s =? 0))
              (seqZ 0 (vsize mu))) eqn:E.
  - apply existsb_exists in E as (s0 & Hs0 & E).
    apply andb_prop in E as [E1 E2]. apply Z.eqb_eq in E1, E2.
    left. intros s x Hs Hx.
    assert (Hx0 : vget mu s0 = Ok 0).
    { apply list_elem_of_In, elem_of_seqZ in Hs0.
      destruct (vget_range mu s0) as [y Hy]; [lia|].
      apply vget_total in Hy as Hy'. destruct Hy' as [_ Hy']. congruence. }
    apply (Hpair s0 s 0 x); [congruence|done|done|done].
  - right. intros s x Hs Hx ->.
    apply vget_total in Hx as [Hin Hx].
    assert (existsb (fun s => (s / w =? t) && (mu !!! Z.to_nat s =? 0))
              (seqZ 0 (vsize mu)) = true); [|congruence].
    apply existsb_exists. exists s. split; [done|].
    apply andb_true_intro. split; [by apply Z.eqb_eq|by apply Z.eqb_eq].
Qed.

Lemma init_fields mt cfg flips0 muls0 st :
  init mt cfg flips0 muls0 = Ok st ->
  muls st = muls0 /\ best st = muls0 /\ flips st = flips0 /\ rcode st = 0 /\
  minmuls st = achieved st /\ plus st = 0 /\ file st = None.
Proof.
  unfold init. intros H.
  destruct (_ || _); [done|]. destruct (_ && _); [done|].
  apply bind_Ok in H as ([m ach] & _ & H). cbv zeta in H.
  apply bind_Ok in H as (st1 & Hr & H).
  apply bind_Ok in H as (l & _ & H). injection H as <-.
  apply reschedule_shape in Hr as (pb & k & ->). done.
Qed.

(** X14.  The setup enters the input into the multimap: for an input of [nomuls]
    values whose groups of [symm] slots are all zero or all nonzero, the
    state it returns satisfies the invariant of the loop, the multimap
    agrees with [muls], and [muls] and [best] are the input. *)
Theorem setup_invariant mt cfg flips0 muls0 st :
  nomuls cfg mod symm cfg = 0 -> vsize muls0 = nomuls cfg ->
  (forall s v, vget muls0 s = Ok v -> 0 <= v) ->
  groups_ok (symm cfg) muls0 ->
  init mt cfg flips0 muls0 = Ok st ->
  Inv (symm cfg) cfg st /\ consistent (muls st) (M st) /\
  muls st = muls0 /\ best st = muls0 /\ flips st = flips0 /\ rcode st = 0 /\
  minmuls st = achieved st.
Proof.
  intros Hn Hl Hv Hg H.
  pose proof (init_inv _ _ _ _ _ Hn Hl Hv Hg H) as HI.
  split; [done|]. split; [by eapply Inv_consistent|].
  apply init_fields in H. tauto.
Qed.

Lemma S2_input :
  nomuls (cfg_S2 0) mod symm (cfg_S2 0) = 0 /\
  (forall mu, Forall (fun x => 0 < x) mu ->
     (forall s v, vget mu s = Ok v -> 0 <= v) /\
     forall w, groups_ok w mu).
Proof.
  split; [reflexivity|]. intros mu H. split.
  - intros s v Hv. pose proof (vget_Forall _ _ _ _ H Hv). simpl in *. lia.
  - intros w. apply groups_all_nonzero. eapply Forall_impl; [exact H|].
    simpl. lia.
Qed.

Lemma setup_invariant_witness :
  exists st, init mt_S2 (cfg_S2 0) 0 muls_S2 = Ok st /\
             consistent (muls st) (M st) /\ muls st = muls_S2.
Proof.
  assert (exists st, init mt_S2 (cfg_S2 0) 0 muls_S2 = Ok st) as [st Hi]
    by (eexists; vm_compute; reflexivity).
  assert (Hpos : Forall (fun x => 0 < x) muls_S2) by (repeat constructor).
  destruct S2_input as [Hn Hin]. destruct (Hin _ Hpos) as [Hv Hg].
  destruct (setup_invariant mt_S2 (cfg_S2 0) 0 muls_S2 st Hn eq_refl Hv
              (Hg _) Hi) as (_ & Hc & Hm & _).
  exists st. auto.
Defined.

(** The invariant after the setup of an input without zeros. *)
Lemma Inv_start mt cfg muls0 st :
  nomuls cfg mod symm cfg = 0 -> vsize muls0 = nomuls cfg ->
  Forall (fun x => 0 < x) muls0 ->
  init mt cfg 0 muls0 = Ok st -> Inv (symm cfg) cfg st.
Proof.
  intros Hn Hl Hpos Hi. apply (init_inv mt cfg 0 muls0 st Hn Hl); [| |done].
  - intros s v Hv. pose proof (vget_Forall _ _ _ _ Hpos Hv). simpl in *. lia.
  - apply groups_all_nonzero. eapply Forall_impl; [exact Hpos|]. simpl. lia.
Qed.

(** X15.  A flip of the [symm == 3] loop after which the loop goes on keeps the
    invariant: the multimap agrees with [muls], every triple is all zero or
    all nonzero. *)
Theorem flip3_keeps_invariant mt cfg gas st st' :
  Inv 3 cfg st -> flip3 mt cfg gas st = Ok (Go, st') ->
  Inv 3 cfg st' /\ consistent (muls st') (M st').
Proof.
  intros HI H. pose proof (flip3_inv _ _ _ _ _ HI H) as HI'.
  split; [done|]. by eapply Inv_consistent.
Qed.

Lemma flip3_keeps_invariant_witness :
  exists st0 st',
    init mt_S2 (cfg_S2 0) 0 muls_go = Ok st0 /\
    flip3 mt_S2 (cfg_S2 0) 1 st0 = Ok (Go, st') /\
    muls st' = [1; 2; 6; 1; 6; 5] /\ consistent (muls st') (M st').
Proof.
  assert (exists st0 st',
    init mt_S2 (cfg_S2 0) 0 muls_go = Ok st0 /\
    flip3 mt_S2 (cfg_S2 0) 1 st0 = Ok (Go, st') /\
    muls st' = [1; 2; 6; 1; 6; 5]) as (st0 & st' & Hi & Hf & Hm).
  { do 2 eexists. split; [vm_compute; reflexivity|].
    split; vm_compute; reflexivity. }
  assert (HI : Inv 3 (cfg_S2 0) st0).
  { apply (Inv_start mt_S2 (cfg_S2 0) muls_go); [done|done| |done].
    repeat constructor. }
  destruct (flip3_keeps_invariant mt_S2 (cfg_S2 0) 1 st0 st' HI Hf) as [_ Hc].
  exists st0, st'. auto.
Defined.

Lemma plus3_counts mt cfg gas st st' :
  plus3 mt cfg gas st = Ok st' ->
  achieved st' = achieved st + 3 /\ plus st' = wrap64 (plus st + 3) /\
  flips st' = flips st /\ best st' = best st.
Proof.
  unfold plus3. cbv zeta. intros H.
  apply bind_Ok in H as (r & _ & H).
  apply bind_Ok in H as ([a st1] & Hp & H).
  apply bind_Ok in H as (st2 & Ha & H).
  apply plus_pick3_shape in Hp as [k ->].
  apply plus_apply3_shape in Ha as (m & mu & -> & _).
  apply reschedule_shape in H as (pb & k' & ->). simpl.
  unfold recover. by destruct (flips st >=? recovery st).
Qed.

Lemma plus6_counts mt cfg gas st st' :
  plus6 mt cfg gas st = Ok st' ->
  achieved st' = achieved st + 6 /\ plus st' = wrap64 (plus st + 6) /\
  flips st' = flips st /\ best st' = best st.
Proof.
  unfold plus6. cbv zeta. intros H.
  apply bind_Ok in H as (r & _ & H).
  apply bind_Ok in H as ([[a aa] st1] & Hp & H).
  apply bind_Ok in H as (st2 & Ha & H).
  apply plus_pick6_shape in Hp as [k ->].
  apply plus_apply6_shape in Ha as (m & mu & -> & _).
  apply reschedule_shape in H as (pb & k' & ->). simpl.
  unfold recover. by destruct (flips st >=? recovery st).
Qed.

(** X16.  A plus move of the [symm == 3] loop keeps the invariant, and counts
    the new term: [achieved] and [plus] go up by 3, [flips] and [best] stay
    as they are. *)
Theorem plus3_keeps_invariant mt cfg gas st st' :
  Inv 3 cfg st -> plus3 mt cfg gas st = Ok st' ->
  Inv 3 cfg st' /\ consistent (muls st') (M st') /\
  achieved st' = achieved st + 3 /\ plus st' = wrap64 (plus st + 3) /\
  flips st' = flips st /\ best st' = best st.
Proof.
  intros HI H. pose proof (plus3_inv _ _ _ _ _ HI H) as HI'.
  split; [done|]. split; [by eapply Inv_consistent|]. by eapply plus3_counts.
Qed.

Lemma plus3_keeps_invariant_witness :
  exists st0 st',
    init mt_plus cfg_plus 0 muls_plus = Ok st0 /\
    plus3 mt_plus cfg_plus 1 st0 = Ok st' /\
    muls st' = [1; 2; 5; 1; 7; 6; 5; 5; 6] /\ achieved st' = 9 /\
    consistent (muls st') (M st').
Proof.
  assert (exists st0 st',
    init mt_plus cfg_plus 0 muls_plus = Ok st0 /\
    plus3 mt_plus cfg_plus 1 st0 = Ok st' /\
    muls st' = [1; 2; 5; 1; 7; 6; 5; 5; 6] /\ achieved st' = 9)
    as (st0 & st' & Hi & Hf & Hm & Ha).
  { do 2 eexists. split; [vm_compute; reflexivity|].
    split; [vm_compute; reflexivity|]. split; vm_compute; reflexivity. }
  assert (HI : Inv 3 cfg_plus st0).
  { apply (init_inv mt_plus cfg_plus 0 muls_plus); [done|done| | |done].
    - intros s v Hv.
      assert (Hall : Forall (fun x => 0 <= x) muls_plus) by (repeat constructor; lia).
      apply (vget_Forall _ _ _ _ Hall Hv).
    - by apply groups_check_ok. }
  destruct (plus3_keeps_invariant mt_plus cfg_plus 1 st0 st' HI Hf) as (_ & Hc & _).
  exists st0, st'. auto.
Defined.

(** X17.  A flip of the [symm == 6] loop after which the loop goes on keeps the
    invariant, provided two slots hold the same value exactly when their
    paired slots do. *)
Theorem flip6_keeps_invariant mt cfg gas st st' :
  Inv 6 cfg st -> pair_sym (muls st) = true ->
  flip6 mt cfg gas st = Ok (Go, st') ->
  Inv 6 cfg st' /\ consistent (muls st') (M st').
Proof.
  intros HI Hp H. pose proof (flip6_inv _ _ _ _ _ HI Hp H) as HI'.
  split; [done|]. by eapply Inv_consistent.
Qed.

Lemma flip6_keeps_invariant_witness :
  exists st0 st',
    init mt_S2 cfg6 0 muls_sym = Ok st0 /\ pair_sym (muls st0) = true /\
    flip6 mt_S2 cfg6 1 st0 = Ok (Go, st') /\
    muls st' = [1; 2; 6; 9; 10; 6; 1; 6; 5; 9; 6; 13] /\
    consistent (muls st') (M st').
Proof.
  assert (exists st0 st',
    init mt_S2 cfg6 0 muls_sym = Ok st0 /\ pair_sym (muls st0) = true /\
    flip6 mt_S2 cfg6 1 st0 = Ok (Go, st') /\
    muls st' = [1; 2; 6; 9; 10; 6; 1; 6; 5; 9; 6; 13])
    as (st0 & st' & Hi & Hp & Hf & Hm).
  { do 2 eexists. split; [vm_compute; reflexivity|].
    split; [vm_compute; reflexivity|]. split; vm_compute; reflexivity. }
  assert (HI : Inv 6 cfg6 st0).
  { apply (Inv_start mt_S2 cfg6 muls_sym); [done|done| |done].
    repeat constructor. }
  destruct (flip6_keeps_invariant mt_S2 cfg6 1 st0 st' HI Hp Hf) as [_ Hc].
  exists st0, st'. auto.
Defined.

(** X18.  A plus move of the [symm == 6] loop keeps the invariant, and counts
    the two new terms: [achieved] and [plus] go up by 6. *)
Theorem plus6_keeps_invariant mt cfg gas st st' :
  Inv 6 cfg st -> plus6 mt cfg gas st = Ok st' ->
  Inv 6 cfg st' /\ consistent (muls st') (M st') /\
  achieved st' = achieved st + 6 /\ plus st' = wrap64 (plus st + 6) /\
  flips st' = flips st /\ best st' = best st.
Proof.
  intros HI H. pose proof (plus6_inv _ _ _ _ _ HI H) as HI'.
  split; [done|]. split; [by eapply Inv_consistent|]. by eapply plus6_counts.
Qed.

Lemma plus6_keeps_invariant_witness :
  exists st0 st',
    init mt_plus6 cfg_plus6 0 muls_plus6 = Ok st0 /\
    plus6 mt_plus6 cfg_plus6 1 st0 = Ok st' /\
    muls st' = [1; 2; 10; 4; 5; 10; 1; 10; 9; 4; 14; 12; 6; 8; 9; 14; 11; 12] /\
    achieved st' = 18 /\ consistent (muls st') (M st').
Proof.
  assert (exists st0 st',
    init mt_plus6 cfg_plus6 0 muls_plus6 = Ok st0 /\
    plus6 mt_plus6 cfg_plus6 1 st0 = Ok st' /\
    muls st' = [1; 2; 10; 4; 5; 10; 1; 10; 9; 4; 14; 12; 6; 8; 9; 14; 11; 12] /\
    achieved st' = 18)
    as (st0 & st' & Hi & Hf & Hm & Ha).
  { do 2 eexists. split; [vm_compute; reflexivity|].
    split; [vm_compute; reflexivity|]. split; vm_compute; reflexivity. }
  assert (HI : Inv 6 cfg_plus6 st0).
  { apply (init_inv mt_plus6 cfg_plus6 0 muls_plus6); [done|done| | |done].
    - intros s v Hv.
      assert (Hall : Forall (fun x => 0 <= x) muls_plus6) by (repeat constructor; lia).
      apply (vget_Forall _ _ _ _ Hall Hv).
    - by apply groups_check_ok. }
  destruct (plus6_keeps_invariant mt_plus6 cfg_plus6 1 st0 st' HI Hf) as (_ & Hc & _).
  exists st0, st'. auto.
Defined.

(** ** The exit codes and the count of flips *)

Lemma sampled_rcode k st st' :
  sampled k st st' -> rcode st' = rcode st /\ flips st' = flips st.
Proof. by intros (m & _ & ->). Qed.

Lemma vsize_nil (l : list Z) : vsize l = 0 -> l = [].
Proof. destruct l; [done|]. unfold vsize. simpl. lia. Qed.

Lemma after_collapse_rcode mt cfg w st s st' :
  after_collapse mt cfg w st = Ok (s, st') ->
  flips st' = flips st /\
  match s with
  | Go => rcode st' = rcode st
  | Stop => (rcode st' = -1 /\ twoplusl (M st') = []) \/
            (rcode st' = rcode st /\ achieved st' <= target cfg)
  end.
Proof.
  unfold after_collapse. cbv zeta. intros H.
  apply bind_Ok in H as (st1 & H1 & H).
  assert (Hr1 : rcode st1 = rcode st /\ flips st1 = flips st).
  { destruct (_ <? _) in H1; [|by injection H1 as <-].
    destruct (_ >? _) in H1; [|by injection H1 as <-].
    apply bind_Ok in H1 as (l & _ & H1). by injection H1 as <-. }
  destruct Hr1 as [Hr1 Hf1].
  apply bind_Ok in H as (st2 & H2 & H).
  assert (Hr2 : rcode st2 = rcode st1 /\ flips st2 = flips st1).
  { destruct (_ <=? _) in H2; [|by injection H2 as <-].
    apply bind_Ok in H2 as (be & _ & H2). by injection H2 as <-. }
  destruct Hr2 as [Hr2 Hf2].
  apply bind_Ok in H as (st3 & H3 & H).
  apply reschedule_shape in H3 as (pb & k & ->). simpl in H.
  destruct (vsize (twoplusl (M st2)) =? 0) eqn:E0.
  { apply Z.eqb_eq, vsize_nil in E0. injection H as <- <-. simpl.
    split; [congruence|]. left. done. }
  destruct (achieved st2 <=? target cfg) eqn:Et.
  { apply Z.leb_le in Et. injection H as <- <-. simpl.
    split; [congruence|]. right. split; [congruence|done]. }
  apply bind_Ok in H as ([t m'] & _ & H). injection H as <- <-.
  destruct t; simpl; split; congruence.
Qed.

Lemma collapse_exit mt cfg w (d : res state) st s st' :
  rcode st = 0 ->
  (forall st1, d = Ok st1 ->
     exists m mu, st1 = set_muls (set_M st m) mu /\ vsize mu = vsize (muls st)) ->
  (st1 ← d; after_collapse mt cfg w st1) = Ok (s, st') ->
  round_post cfg s st' /\ flips st' = flips st.
Proof.
  intros Hr Hd H. apply bind_Ok in H as (st1 & H1 & H).
  apply Hd in H1 as (m & mu & -> & _).
  apply after_collapse_rcode in H as [Hf H]. simpl in H, Hf.
  split; [|done].
  destruct s; simpl; [congruence|].
  destruct H as [H|[H1 H2]]; [right; left; done|left; split; congruence].
Qed.

Lemma collapses_exit cfg (b1 b2 : bool) (cp cq : state -> res (status * state))
    st s st' :
  rcode st = 0 ->
  (forall st0 s0 st1, rcode st0 = 0 -> cp st0 = Ok (s0, st1) ->
     round_post cfg s0 st1 /\ flips st1 = flips st0) ->
  (forall st0 s0 st1, rcode st0 = 0 -> cq st0 = Ok (s0, st1) ->
     round_post cfg s0 st1 /\ flips st1 = flips st0) ->
  ('(s1, st1) ← (if b1 then cp st else Ok (Go, st));
   match s1 with
   | Stop => Ok (Stop, st1)
   | Go => if b2 then cq st1 else Ok (Go, st1)
   end) = Ok (s, st') ->
  round_post cfg s st' /\ flips st' = flips st.
Proof.
  intros Hr Hp Hq H. apply bind_Ok in H as ([s1 st1] & H1 & H).
  assert (Hp1 : round_post cfg s1 st1 /\ flips st1 = flips st).
  { destruct b1; [by eapply Hp|]. by injection H1 as <- <-. }
  destruct Hp1 as [Hp1 Hf1].
  destruct s1; [|by injection H as <- <-].
  simpl in Hp1. destruct b2; [|by injection H as <- <-].
  apply Hq in H as [H Hf]; [|done]. split; [done|congruence].
Qed.

Lemma flip3_exit mt cfg gas st s st' :
  rcode st = 0 -> flip3 mt cfg gas st = Ok (s, st') ->
  round_post cfg s st' /\ flips st' = wrap64 (flips st + 3).
Proof.
  intros Hr H. unfold flip3 in H. cbv zeta in H.
  apply bind_Ok in H as ([oc st1] & Hs & H).
  apply sample_flip_sampled in Hs as (k & Hk & Hnone).
  apply sampled_rcode in Hk as [Hk Hfl]. simpl in Hk, Hfl.
  destruct oc as [c|]; [|injection H as <- <-; split; [|done]; right; right; left;
                          simpl; split; [done|by apply Hnone]].
  apply bind_Ok in H as (st2 & Hc & H).
  apply commit3_shape in Hc as (m & mu & -> & _).
  rewrite <- Hfl.
  eapply (collapses_exit cfg _ _ (fun st => collapse_p3 mt cfg st c)
                         (fun st => collapse_q3 mt cfg st c)) in H; [exact H| | |].
  - simpl. congruence.
  - intros st0 s0 st3 Hr0 H0. unfold collapse_p3 in H0.
    eapply collapse_exit; [exact Hr0| |exact H0]. apply delete_p3_shape.
  - intros st0 s0 st3 Hr0 H0. unfold collapse_q3 in H0.
    eapply collapse_exit; [exact Hr0| |exact H0]. apply delete_q3_shape.
Qed.

Lemma flip6_exit mt cfg gas st s st' :
  rcode st = 0 -> flip6 mt cfg gas st = Ok (s, st') ->
  round_post cfg s st' /\ flips st' = wrap64 (flips st + 6).
Proof.
  intros Hr H. unfold flip6 in H. cbv zeta in H.
  apply bind_Ok in H as ([oc st1] & Hs & H).
  apply sample_flip_sampled in Hs as (k & Hk & Hnone).
  apply sampled_rcode in Hk as [Hk Hfl]. simpl in Hk, Hfl.
  destruct oc as [c|]; [|injection H as <- <-; split; [|done]; right; right; left;
                          simpl; split; [done|by apply Hnone]].
  apply bind_Ok in H as (h & _ & H).
  apply bind_Ok in H as (st2 & Hc & H).
  apply commit6_shape in Hc as (m & mu & -> & _).
  rewrite <- Hfl.
  eapply (collapses_exit cfg _ _ (fun st => collapse_p6 mt cfg st c h)
                         (fun st => collapse_q6 mt cfg st c h)) in H; [exact H| | |].
  - simpl. congruence.
  - intros st0 s0 st3 Hr0 H0. unfold collapse_p6 in H0.
    eapply collapse_exit; [exact Hr0| |exact H0]. apply delete_p6_shape.
  - intros st0 s0 st3 Hr0 H0. unfold collapse_q6 in H0.
    eapply collapse_exit; [exact Hr0| |exact H0]. apply delete_q6_shape.
Qed.

Lemma limit_check_exit cfg st s st' :
  rcode st = 0 -> limit_check cfg st = (s, st') ->
  round_post cfg s st' /\ flips st' = flips st.
Proof.
  unfold limit_check. intros Hr H.
  destruct (flips st >=? limit st) eqn:El; [|by injection H as <- <-].
  assert (limit st <= flips st) by lia.
  injection H as <- <-. simpl. split; [|done].
  destruct (flips st >=? flimit cfg) eqn:Ef.
  - do 3 right. left. simpl. split; [done|]. split; lia.
  - do 4 right. simpl. split; [done|]. split; lia.
Qed.

Lemma step3_exit mt cfg gas st s st' :
  rcode st = 0 -> step3 mt cfg gas st = Ok (s, st') ->
  round_post cfg s st' /\ flips st' = wrap64 (flips st + 3).
Proof.
  intros Hr H. unfold step3 in H.
  apply bind_Ok in H as ([s1 st1] & Hf & H).
  apply flip3_exit in Hf as [Hf Hfl]; [|done].
  destruct s1; [|by injection H as <- <-]. simpl in Hf.
  apply bind_Ok in H as (st2 & Hp & H). injection H as H.
  assert (rcode st2 = 0 /\ flips st2 = flips st1) as [Hr2 Hf2].
  { destruct (_ >=? _) in Hp; [|by injection Hp as <-].
    apply plus3_file in Hp as Hp'. apply plus3_counts in Hp.
    split; [destruct Hp'; congruence|tauto]. }
  apply limit_check_exit in H as [H Hf3]; [|done]. split; [done|congruence].
Qed.

Lemma step6_exit mt cfg gas st s st' :
  rcode st = 0 -> step6 mt cfg gas st = Ok (s, st') ->
  round_post cfg s st' /\ flips st' = wrap64 (flips st + 6).
Proof.
  intros Hr H. unfold step6 in H.
  apply bind_Ok in H as ([s1 st1] & Hf & H).
  apply flip6_exit in Hf as [Hf Hfl]; [|done].
  destruct s1; [|by injection H as <- <-]. simpl in Hf.
  apply bind_Ok in H as (st2 & Hp & H). injection H as H.
  assert (rcode st2 = 0 /\ flips st2 = flips st1) as [Hr2 Hf2].
  { destruct (_ >=? _) in Hp; [|by injection Hp as <-].
    apply plus6_file in Hp as Hp'. apply plus6_counts in Hp.
    split; [destruct Hp'; congruence|tauto]. }
  apply limit_check_exit in H as [H Hf3]; [|done]. split; [done|congruence].
Qed.

Lemma wrap64_step a w k :
  wrap64 (wrap64 (a + w) + w * Z.of_nat k) = wrap64 (a + w * Z.of_nat (S k)).
Proof.
  unfold wrap64. rewrite Zplus_mod_idemp_l. f_equal. lia.
Qed.

(** The rounds of a loop: how it ends and how far [flips] has gone, for a
    round [step] that adds [w] to [flips]. *)
Lemma loop_exit cfg w (step : state -> res (status * state))
    (loop : nat -> state -> res state) :
  (forall n st, loop (S n) st
     = '(s, st) ← step st; match s with Stop => Ok st | Go => loop n st end) ->
  (forall st, loop O st = Fault OutOfFuel) ->
  (forall st s st', rcode st = 0 -> step st = Ok (s, st') ->
     round_post cfg s st' /\ flips st' = wrap64 (flips st + w)) ->
  forall rounds st st',
    rcode st = 0 -> loop rounds st = Ok st' ->
    exit_state cfg st' /\
    exists k, (1 <= k <= rounds)%nat /\
              flips st' = wrap64 (flips st + w * Z.of_nat k).
Proof.
  intros Hstep H0 Hround.
  induction rounds as [|n IH]; intros st st' Hr H; [by rewrite H0 in H|].
  rewrite Hstep in H.
  apply bind_Ok in H as ([s st1] & Hs & H).
  apply Hround in Hs as [Hs Hf]; [|done].
  destruct s.
  - apply IH in H as [He (k & Hk & Hfk)]; [|done]. split; [done|].
    exists (S k). split; [lia|]. rewrite Hfk, Hf. apply wrap64_step.
  - injection H as <-. split; [done|]. exists 1%nat. split; [lia|].
    rewrite Hf. f_equal. lia.
Qed.

Lemma search_exit mt cfg gas rounds flips0 muls0 st :
  symm cfg = 3 \/ symm cfg = 6 ->
  search mt cfg gas rounds flips0 muls0 = Ok st ->
  exit_state cfg st /\
  exists k, (1 <= k <= rounds)%nat /\
            flips st = wrap64 (flips0 + symm cfg * Z.of_nat k).
Proof.
  intros Hs H. unfold search in H.
  apply bind_Ok in H as (st0 & Hi & H).
  apply init_fields in Hi as (_ & _ & Hfl & Hr & _).
  apply bind_Ok in H as (st1 & H1 & H).
  apply bind_Ok in H as (st2 & H2 & H). injection H as <-.
  change (exit_state cfg st2 /\
          exists k, (1 <= k <= rounds)%nat /\
                    flips st2 = wrap64 (flips0 + symm cfg * Z.of_nat k)).
  rewrite <- Hfl.
  destruct Hs as [Hs|Hs]; rewrite Hs in H1, H2 |- *; simpl in H1, H2.
  - injection H2 as <-.
    apply (loop_exit cfg 3 (step3 mt cfg gas) (loop3 mt cfg gas)) in H1;
      [done|done|done| |done].
    intros. by eapply step3_exit.
  - injection H1 as <-.
    apply (loop_exit cfg 6 (step6 mt cfg gas) (loop6 mt cfg gas)) in H2;
      [done|done|done| |done].
    intros. by eapply step6_exit.
Qed.

(** X19.  What the exit code of a run that ends says of the final state: 0, the
    target was reached; -1, no value collides any more; 6, a flip gave up
    after 1000 draws (with [maxsize <> 0] only); 1 and 2, the flip limit
    was reached, at or above [flimit] for 1 and below it for 2.  No other
    code is written. *)
Theorem exit_codes mt cfg gas rounds flips0 muls0 st :
  symm cfg = 3 \/ symm cfg = 6 ->
  search mt cfg gas rounds flips0 muls0 = Ok st ->
  exit_state cfg st.
Proof. intros Hs H. by apply search_exit in H as [H _]. Qed.

(** The run of scenario S2 with target 3 ends with [rcode = -1]: nothing
    collides in its final state. *)
Lemma exit_codes_witness :
  exists st,
    search mt_S2 (cfg_S2 3) 1 1 0 muls_S2 = Ok st /\ rcode st = -1 /\
    twoplusl (M st) = [].
Proof.
  assert (exists st, search mt_S2 (cfg_S2 3) 1 1 0 muls_S2 = Ok st /\
                     rcode st = -1) as (st & Hs & Hr).
  { eexists. split; vm_compute; reflexivity. }
  exists st. split; [exact Hs|]. split; [exact Hr|].
  destruct (exit_codes mt_S2 (cfg_S2 3) 1 1 0 muls_S2 st (or_introl eq_refl) Hs)
    as [[H _]|[[_ H]|[[H _]|[[H _]|[H _]]]]]; congruence.
Defined.



(** ** The commit of a flip *)

Lemma sampled_frame k st st' :
  sampled k st st' -> muls st' = muls st /\ same_tables (M st) (M st').
Proof. by intros (m & Hm & ->). Qed.

Lemma commit3_slots mt cfg gas st c st1 st2 :
  Inv 3 cfg st ->
  sample_flip mt cfg gas st = Ok (Some c, st1) ->
  commit3 cfg st1 c = Ok st2 ->
  exists ep fq,
    me cfg (c_p c) = Ok ep /\ mf cfg (c_q c) = Ok fq /\
    written st2 ep (c_mpen c) /\ written st2 fq (c_mqfn c).
Proof.
  intros [Hsym [Hn0 Hn] Hlen Hg (asg & Hok & Htr)] Hs Hc.
  apply sample_flip_spec with (asg := asg) in Hs as (k & Hk & _ & Hctx);
    [|lia|done].
  destruct (Hctx c eq_refl) as (ep & fp & eq & fq & Hfc).
  apply sampled_frame in Hk as [Hmu Hsame].
  rewrite <- Hmu in Hfc, Htr, Hg.
  apply (mm_ok_same_tables _ _ _ _ Hsame) in Hok.
  destruct (commit3_chain _ _ _ _ _ _ _ _ _ Hfc Hsym Hn Htr Hg Hok Hc)
    as (mu1 & Hs1 & Hs2 & Hok2 & _).
  destruct Hfc as [Hep _ _ Hfq _ _ _ _ _ _ _ _ Hap].
  exists ep, fq. split; [done|]. split; [done|].
  assert (Hne : ep <> fq).
  { apply me_Ok in Hep. apply mf_Ok in Hfq. rewrite Hsym in Hap.
    intros ->. apply Hap. zdiv. }
  pose proof (proj1 (mm_observed _ _ _ Hok2)) as Hobs.
  split; split.
  - rewrite (vget_vset _ _ _ _ ep Hs2). rewrite decide_False by done.
    rewrite (vget_vset _ _ _ _ ep Hs1). by rewrite decide_True.
  - intros v. destruct (Hobs v) as (slots & Hsl & _ & Hmem & _).
    exists slots. split; [done|]. rewrite Hmem.
    rewrite lookup_insert_ne, lookup_delete_ne, lookup_insert_eq by done.
    split; congruence.
  - rewrite (vget_vset _ _ _ _ fq Hs2). by rewrite decide_True.
  - intros v. destruct (Hobs v) as (slots & Hsl & _ & Hmem & _).
    exists slots. split; [done|]. rewrite Hmem, lookup_insert_eq.
    split; congruence.
Qed.

(** X21.  The commit of the [symm == 3] loop: each of the two changed slots
    holds its new value afterwards and is listed in the multimap under that
    value and no other, also when the new value is zero. *)
Theorem commit3_written mt cfg gas st c st1 st2 :
  Inv 3 cfg st ->
  sample_flip mt cfg gas st = Ok (Some c, st1) ->
  commit3 cfg st1 c = Ok st2 ->
  exists ep fq,
    me cfg (c_p c) = Ok ep /\ mf cfg (c_q c) = Ok fq /\
    written st2 ep (c_mpen c) /\ written st2 fq (c_mqfn c).
Proof. apply commit3_slots. Qed.

Lemma commit3_written_witness :
  exists st0 c st1 st2,
    init mt_S2 (cfg_S2 0) 0 muls_S2 = Ok st0 /\
    sample_flip mt_S2 (cfg_S2 0) 1 st0 = Ok (Some c, st1) /\
    commit3 (cfg_S2 0) st1 c = Ok st2 /\
    c_mpen c = 0 /\ written st2 2 0.
Proof.
  assert (exists st0 c st1 st2,
    init mt_S2 (cfg_S2 0) 0 muls_S2 = Ok st0 /\
    sample_flip mt_S2 (cfg_S2 0) 1 st0 = Ok (Some c, st1) /\
    commit3 (cfg_S2 0) st1 c = Ok st2 /\
    c_mpen c = 0 /\ c_p c = 0) as (st0 & c & st1 & st2 & Hi & Hs & Hc & Hz & Hp).
  { do 4 eexists. split; [vm_compute; reflexivity|].
    split; [vm_compute; reflexivity|].
    split; [vm_compute; reflexivity|]. split; vm_compute; reflexivity. }
  assert (HI : Inv 3 (cfg_S2 0) st0).
  { apply (Inv_start mt_S2 (cfg_S2 0) muls_S2); [done|done| |done].
    repeat constructor. }
  destruct (commit3_written mt_S2 (cfg_S2 0) 1 st0 c st1 st2 HI Hs Hc)
    as (ep & fq & Hep & _ & Hw & _).
  rewrite Hp in Hep. vm_compute in Hep. injection Hep as <-.
  rewrite Hz in Hw. exists st0, c, st1, st2. auto.
Defined.


(** ** The free slot of a plus move *)

(** X22.  A plus move of either loop returns only when [muls] has a zero slot:
    the new term goes to the first one.  With no zero slot the program
    reads [me[nomuls]], past the end of the vector. *)
Theorem plus_needs_free_slot mt cfg gas st st' :
  plus3 mt cfg gas st = Ok st' \/ plus6 mt cfg gas st = Ok st' ->
  exists r, 0 <= r < nomuls cfg /\ vget (muls st) r = Ok 0 /\
            forall s, 0 <= s < r -> exists x, vget (muls st) s = Ok x /\ x <> 0.
Proof.
  intros H.
  assert (exists r, first_zero (Z.to_nat (nomuls cfg)) 0 (muls st) = Ok r /\
                    0 <= r < nomuls cfg) as (r & Hz & Hr).
  { destruct H as [H|H].
    - unfold plus3 in H. cbv zeta in H.
      apply bind_Ok in H as (r & Hz & H).
      apply bind_Ok in H as ([a st1] & _ & H).
      apply bind_Ok in H as (st2 & Ha & _).
      apply plus_apply3_slot in Ha.
      destruct (recover_frame cfg st) as [Hmu _]. rewrite Hmu in Hz. eauto.
    - unfold plus6 in H. cbv zeta in H.
      apply bind_Ok in H as (r & Hz & H).
      apply bind_Ok in H as ([[a aa] st1] & _ & H).
      apply bind_Ok in H as (st2 & Ha & _).
      apply plus_apply6_slot in Ha.
      destruct (recover_frame cfg st) as [Hmu _]. rewrite Hmu in Hz.
      exists r. split; [done|]. lia. }
  apply first_zero_spec in Hz as (_ & Hbefore & Hat).
  exists r. split; [done|]. split; [apply Hat; lia|]. intros s Hs. apply Hbefore. lia.
Qed.

Lemma plus_needs_free_slot_witness :
  exists st0 st',
    init mt_plus cfg_plus 0 muls_plus = Ok st0 /\
    plus3 mt_plus cfg_plus 1 st0 = Ok st' /\
    exists r, 0 <= r < 9 /\ vget (muls st0) r = Ok 0 /\
              forall s, 0 <= s < r -> exists x, vget (muls st0) s = Ok x /\ x <> 0.
Proof.
  assert (exists st0 st',
    init mt_plus cfg_plus 0 muls_plus = Ok st0 /\
    plus3 mt_plus cfg_plus 1 st0 = Ok st') as (st0 & st' & Hi & Hp).
  { do 2 eexists. split; [vm_compute; reflexivity|]. vm_compute; reflexivity. }
  exists st0, st'. split; [exact Hi|]. split; [exact Hp|].
  exact (plus_needs_free_slot mt_plus cfg_plus 1 st0 st' (or_introl Hp)).
Defined.

(** ** The sampled pair *)

Lemma tables_differ : tables_distinct = true.
Proof. vm_compute. reflexivity. Qed.

Lemma table_distinct x px qx :
  vget ps x = Ok px -> vget qs x = Ok qx -> px <> qx.
Proof.
  intros Hp Hq. pose proof tables_differ as Ht. unfold tables_distinct in Ht.
  rewrite forallb_forall in Ht. unfold vget in Hp, Hq.
  destruct (x <? 0); [done|].
  destruct (ps !! Z.to_nat x) as [px'|] eqn:Ep; [|done]. injection Hp as ->.
  destruct (qs !! Z.to_nat x) as [qx'|] eqn:Eq; [|done]. injection Hq as ->.
  specialize (Ht (px, qx)). simpl in Ht.
  assert (Hin : In (px, qx) (zip ps qs)).
  { apply list_elem_of_In. apply list_elem_of_lookup. exists (Z.to_nat x).
    rewrite lookup_zip_with, Ep. simpl. rewrite Eq. done. }
  specialize (Ht Hin). apply negb_true_iff, Z.eqb_neq in Ht. done.
Qed.

(** X23.  What one generator word selects: two different slots that hold the
    same value, a value of [twoplusl]; the multimap is left as it was up
    to the hash cached in [uniques]. *)
Theorem sample_pair_collides n m asg sample p q m' :
  mm_ok n m asg -> sample_pair sample m = Ok (p, q, m') ->
  p <> q /\ same_tables m m' /\
  exists v, v ∈ twoplusl m /\ asg !! p = Some v /\ asg !! q = Some v.
Proof.
  intros (um & tm & Hrep) H. unfold sample_pair in H.
  destruct Hrep as [Hu Ht Hrange Hused Hblock Hinj Hav Hnd Hidx Htwo].
  destruct (vsize (twoplusl m) =? 0) eqn:E0; [done|]. apply Z.eqb_neq in E0.
  apply bind_Ok in H as (v & Hv & H).
  assert (Hin : v ∈ twoplusl m).
  { unfold vget in Hv. destruct (_ <? 0); [done|].
    destruct (twoplusl m !! _) as [v'|] eqn:El; [|done]. injection Hv as ->.
    by eapply list_elem_of_lookup_2. }
  assert (exists b, um !! v = Some b) as [b Hb].
  { apply Hused. apply (index_rep_elem _ _ _ Hidx) in Hin.
    apply Htwo in Hin as (s1 & _ & _ & Hs1 & _). eauto. }
  destruct (Hblock v b Hb) as [Hisb Hbr].
  apply bind_Ok in H as ([b' u] & Hg & H).
  pose proof (getvalue_same _ _ _ _ Hg) as Hsame.
  apply (getvalue_spec _ _ _ _ _ _ Hu Hb) in Hg as [-> ->].
  apply bind_Ok in H as (l & Hl & H). apply rd_Ok in Hl. simpl in Hl, H.
  destruct (block_len _ _ _ _ _ _ Hbr Hl) as (Hlr & Hcell & Hcinj & Hsur).
  assert (Hslot : forall i s, 1 <= i <= l -> unarray m !! (b + i) = Some s ->
                              asg !! s = Some v).
  { intros i s Hi Hs. destruct (Hcell i Hi) as (s' & Hs' & Ha). congruence. }
  assert (Hdiff : forall i j s t, 1 <= i <= l -> 1 <= j <= l -> i <> j ->
            unarray m !! (b + i) = Some s -> unarray m !! (b + j) = Some t ->
            s <> t).
  { intros i j s t Hi Hj Hij Hs Hs' ->. apply Hij. by eapply Hcinj. }
  destruct (l =? 2) eqn:E2.
  - apply Z.eqb_eq in E2. subst l.
    replace (b + 1 + 1) with (b + 2) in H by lia.
    destruct (negb (Z.land sample 65536 =? 0));
      apply bind_Ok in H as (p' & Hp & H); apply rd_Ok in Hp;
      apply bind_Ok in H as (q' & Hq & H); apply rd_Ok in Hq;
      injection H as <- <- <-;
      (split; [eapply Hdiff; [| | |exact Hp|exact Hq]; lia|]);
      (split; [done|]); exists v; (split; [done|]);
      split; eapply Hslot; eauto; lia.
  - apply bind_Ok in H as (c & Hc & H).
    destruct (c =? 0) eqn:Ec; [done|]. apply Z.eqb_neq in Ec.
    assert (0 <= c).
    { unfold vget in Hc. destruct (l <? 0); [done|].
      destruct (combs !! Z.to_nat l) as [c'|] eqn:El; [|done]. injection Hc as ->.
      assert (Forall (fun c => 0 <= c) combs) as Hall by (by vm_compute; repeat constructor).
      rewrite Forall_lookup in Hall. eauto. }
    apply bind_Ok in H as (px & Hpx & H).
    apply bind_Ok in H as (p' & Hp & H). apply rd_Ok in Hp.
    apply bind_Ok in H as (qx & Hqx & H).
    apply bind_Ok in H as (q' & Hq & H). apply rd_Ok in Hq.
    injection H as <- <- <-.
    assert (0 <= px < l /\ 0 <= qx < l) as [Hpr Hqr].
    { eapply table_bound; eauto. apply Z.mod_pos_bound. lia. }
    pose proof (table_distinct _ _ _ Hpx Hqx) as Hpq.
    rewrite <- Z.add_assoc in Hp, Hq.
    split; [eapply Hdiff; [| | |exact Hp|exact Hq]; lia|].
    split; [done|]. exists v. split; [done|].
    split; eapply Hslot; eauto; lia.
Qed.

Lemma sample_pair_collides_witness :
  exists st0 p q m',
    init mt_S2 (cfg_S2 0) 0 muls_S2 = Ok st0 /\
    sample_pair 65538 (M st0) = Ok (p, q, m') /\ p <> q.
Proof.
  assert (exists st0 p q m',
    init mt_S2 (cfg_S2 0) 0 muls_S2 = Ok st0 /\
    sample_pair 65538 (M st0) = Ok (p, q, m')) as (st0 & p & q & m' & Hi & Hs).
  { do 4 eexists. split; [vm_compute; reflexivity|]. vm_compute; reflexivity. }
  assert (HI : Inv 3 (cfg_S2 0) st0).
  { apply (Inv_start mt_S2 (cfg_S2 0) muls_S2); [done|done| |done].
    repeat constructor. }
  destruct HI as [_ _ _ _ (asg & Hok & _)].
  destruct (sample_pair_collides _ _ asg 65538 p q m' Hok Hs) as (Hne & _).
  exists st0, p, q, m'. auto.
Defined.

(** ** The bookkeeping of a deletion *)

Lemma vget_ext (a b : list Z) :
  vsize a = vsize b -> (forall s, 0 <= s < vsize a -> vget a s = vget b s) -> a = b.
Proof.
  intros Hl H. unfold vsize in Hl.
  apply list_eq_same_length with (n := length a); [lia|done|].
  intros i x y Hi Hx Hy. specialize (H (Z.of_nat i)). unfold vget, vsize in H.
  destruct (Z.of_nat i <? 0) eqn:E; [lia|]. rewrite Nat2Z.id, Hx, Hy in H.
  assert (Ok x = Ok y) as [= ->] by (apply H; lia). done.
Qed.

Lemma copy_loop_spec mu : forall n l be be',
  copy_loop n l mu be = Ok be' ->
  vsize be' = vsize be /\
  forall s, vget be' s
            = if decide (l <= s < l + Z.of_nat n) then vget mu s else vget be s.
Proof.
  induction n as [|n IH]; intros l be be' H; simpl in H.
  - injection H as <-. split; [done|]. intros s. rewrite decide_False by lia. done.
  - apply bind_Ok in H as (x & Hx & H). apply bind_Ok in H as (be1 & Hs & H).
    apply IH in H as [Hl H]. pose proof (vsize_chain _ _ _ _ Hs) as Hl1.
    split; [congruence|]. intros s. rewrite H.
    destruct (decide (l + 1 <= s < l + 1 + Z.of_nat n)).
    + rewrite decide_True by lia. done.
    + rewrite (vget_vset _ _ _ _ s Hs). destruct (decide (s = l)) as [->|].
      * rewrite decide_True by lia. done.
      * rewrite decide_False by lia. done.
Qed.

Lemma after_collapse_fields mt cfg w st s st' :
  0 <= nomuls cfg -> vsize (muls st) = nomuls cfg ->
  vsize (best st) = nomuls cfg ->
  after_collapse mt cfg w st = Ok (s, st') ->
  achieved st' = achieved st - w /\
  minmuls st' = Z.min (minmuls st) (achieved st - w) /\
  best st' = (if achieved st - w <=? minmuls st then muls st else best st) /\
  muls st' = muls st /\ flips st' = flips st.
Proof.
  intros Hn Hlm Hlb H. unfold after_collapse in H. cbv zeta in H.
  apply bind_Ok in H as (st1 & H1 & H).
  assert (E1 : achieved st1 = achieved st - w /\
               minmuls st1 = Z.min (minmuls st) (achieved st - w) /\
               best st1 = best st /\ muls st1 = muls st /\ flips st1 = flips st).
  { simpl in H1. destruct (achieved st - w <? minmuls st) eqn:E.
    - apply Z.ltb_lt in E. destruct (_ >? _) in H1.
      + apply bind_Ok in H1 as (l & _ & H1). injection H1 as <-. simpl.
        repeat split; lia.
      + injection H1 as <-. simpl. repeat split; lia.
    - apply Z.ltb_ge in E. injection H1 as <-. simpl. repeat split; lia. }
  destruct E1 as (Ea & Em & Eb & Emu & Ef).
  apply bind_Ok in H as (st2 & H2 & H).
  assert (E2 : achieved st2 = achieved st1 /\ minmuls st2 = minmuls st1 /\
               best st2 = (if achieved st - w <=? minmuls st then muls st
                           else best st) /\
               muls st2 = muls st1 /\ flips st2 = flips st1).
  { destruct (achieved st1 <=? minmuls st1) eqn:E.
    - apply Z.leb_le in E. rewrite Ea, Em in E.
      destruct (achieved st - w <=? minmuls st) eqn:E'; [|lia].
      apply bind_Ok in H2 as (be & Hc & H2). injection H2 as <-. simpl.
      repeat split. apply copy_loop_spec in Hc as [Hl Hc].
      rewrite <- Emu. apply vget_ext; [congruence|].
      intros s0 Hs0. rewrite Hc. rewrite decide_True; [done|].
      assert (vsize be = nomuls cfg) by congruence.
      rewrite Z2Nat.id by done. lia.
    - apply Z.leb_gt in E. rewrite Ea, Em in E.
      destruct (achieved st - w <=? minmuls st) eqn:E'; [lia|].
      injection H2 as <-. done. }
  destruct E2 as (Ea2 & Em2 & Eb2 & Emu2 & Ef2).
  apply bind_Ok in H as (st3 & H3 & H).
  apply reschedule_shape in H3 as (pb & k & ->). simpl in H.
  assert (E3 : achieved st' = achieved st2 /\ minmuls st' = minmuls st2 /\
               best st' = best st2 /\ muls st' = muls st2 /\
               flips st' = flips st2).
  { destruct (_ =? 0) in H; [by injection H as <- <-|].
    destruct (_ <=? _) in H; [by injection H as <- <-|].
    apply bind_Ok in H as ([t m'] & _ & H). injection H as <- <-.
    by destruct t. }
  destruct E3 as (Ea3 & Em3 & Eb3 & Emu3 & Ef3).
  repeat split; congruence.
Qed.

(** X24.  The bookkeeping after the deletion of a term, [w] being the 3 or 6 of
    the loop: [achieved] falls by [w], [minmuls] is the least [achieved] so
    far, and [best] becomes a copy of [muls] whenever [achieved] is at most
    the former [minmuls], on a tie as well; [muls] and [flips] stay. *)
Theorem collapse_bookkeeping mt cfg w st s st' :
  0 <= nomuls cfg -> vsize (muls st) = nomuls cfg ->
  vsize (best st) = nomuls cfg ->
  after_collapse mt cfg w st = Ok (s, st') ->
  achieved st' = achieved st - w /\
  minmuls st' = Z.min (minmuls st) (achieved st - w) /\
  best st' = (if achieved st - w <=? minmuls st then muls st else best st) /\
  muls st' = muls st /\ flips st' = flips st.
Proof. apply after_collapse_fields. Qed.

(** On a tie ([achieved - 3 = minmuls = 3]) [best] is overwritten by
    [muls]. *)
Lemma collapse_bookkeeping_witness :
  exists s st',
    after_collapse mt_S2 (cfg_S2 0) 3 st_due = Ok (s, st') /\
    achieved st' = 3 /\ minmuls st' = 3 /\ best st' = [1; 2; 3; 1; 4; 5].
Proof.
  assert (exists s st', after_collapse mt_S2 (cfg_S2 0) 3 st_due = Ok (s, st'))
    as (s & st' & H) by (do 2 eexists; vm_compute; reflexivity).
  destruct (collapse_bookkeeping mt_S2 (cfg_S2 0) 3 st_due s st'
              ltac:(simpl; lia) eq_refl eq_refl H) as (Ha & Hm & Hb & _).
  exists s, st'. split; [exact H|]. split; [exact Ha|]. split; [exact Hm|exact Hb].
Defined.

(** ** The pairing that the [symm == 6] loop relies on *)

(** X25.  Without the pairing the flip of the [symm == 6] loop does not keep the
    multimap in step with [muls]: there is a state with the invariant whose
    flip goes on and leaves a nonzero slot that the multimap does not list.
    In [muls_asym] the flip on the slots 0 and 6 makes [mpen] zero and
    [mppen] nonzero; the deletion takes slot 5 out of the multimap and
    leaves its value in [muls]. *)
Theorem flip6_needs_pairing :
  exists mt cfg gas st st',
    Inv 6 cfg st /\ pair_sym (muls st) = false /\
    flip6 mt cfg gas st = Ok (Go, st') /\
    ~ consistent (muls st') (M st').
Proof.
  assert (exists st0 st',
    init mt_S2 cfg6 0 muls_asym = Ok st0 /\ pair_sym (muls st0) = false /\
    flip6 mt_S2 cfg6 1 st0 = Ok (Go, st') /\
    vget (muls st') 5 = Ok 2 /\ M_slots (M st') 2 = Ok [8])
    as (st0 & st' & Hi & Hp & Hf & Hv & Hm).
  { do 2 eexists. split; [vm_compute; reflexivity|].
    split; [vm_compute; reflexivity|].
    split; [vm_compute; reflexivity|]. split; vm_compute; reflexivity. }
  exists mt_S2, cfg6, 1%nat, st0, st'.
  split; [|split; [done|split; [done|]]].
  - apply (Inv_start mt_S2 cfg6 muls_asym); [done|done| |done].
    repeat constructor.
  - intros [Hc _]. destruct (Hc 2) as (slots & Hs & _ & Hmem).
    rewrite Hm in Hs. injection Hs as <-.
    assert (H5 : 5 ∈ [8]) by (apply Hmem; split; [done|lia]).
    apply list_elem_of_singleton in H5. lia.
Qed.

(** * The tensor through a run *)

(** ** Sums over GF(2) *)

Lemma xsum_app f l1 l2 : xsum f (l1 ++ l2) = xorb (xsum f l1) (xsum f l2).
Proof.
  induction l1 as [|t l1 IH]; simpl; [by destruct (xsum f l2)|].
  rewrite IH. by rewrite xorb_assoc.
Qed.

Lemma xsum_perm f l1 l2 : l1 ≡ₚ l2 -> xsum f l1 = xsum f l2.
Proof.
  induction 1 as [|t l1 l2 _ IH|t u l|l1 l2 l3 _ IH1 _ IH2]; simpl.
  - done.
  - by rewrite IH.
  - rewrite <- !xorb_assoc. f_equal. apply xorb_comm.
  - congruence.
Qed.

Lemma xsum_ext f g l : (forall t, t ∈ l -> f t = g t) -> xsum f l = xsum g l.
Proof.
  induction l as [|t l IH]; intros H; simpl; [done|].
  rewrite H by apply list_elem_of_here. rewrite IH; [done|].
  intros u Hu. apply H. by apply list_elem_of_further.
Qed.

(** Two families that differ on the elements of [ts] only, with the same
    sum there, have the same sum. *)
Lemma xsum_change f g l ts :
  NoDup l -> NoDup ts -> (forall t, t ∈ ts -> t ∈ l) ->
  (forall t, t ∈ l -> t ∉ ts -> f t = g t) ->
  xsum f ts = xsum g ts -> xsum f l = xsum g l.
Proof.
  intros Hl Hts Hin Hout Heq.
  assert (Hsub : ts ⊆+ l) by (by apply NoDup_submseteq).
  apply submseteq_Permutation in Hsub as [rest Hp].
  rewrite !(xsum_perm _ _ _ Hp), !xsum_app, Heq. f_equal.
  apply xsum_ext. intros t Ht. apply Hout.
  - rewrite Hp. apply elem_of_app. by right.
  - rewrite Hp in Hl. apply NoDup_app in Hl as (_ & Hd & _).
    intros Hc. by apply (Hd t).
Qed.

(** ** Products and their rotations *)

Lemma orbit_rot d e f i j k : orbit d e f i j k = orbit e f d i j k.
Proof. unfold orbit, rank1. btauto. Qed.

Lemma orbit_zero_1 e f i j k : orbit 0 e f i j k = false.
Proof. unfold orbit, rank1. rewrite !Z.testbit_0_l. btauto. Qed.

Lemma orbit_zero_2 d f i j k : orbit d 0 f i j k = false.
Proof. by rewrite orbit_rot, orbit_zero_1. Qed.

Lemma orbit_zero_3 d e i j k : orbit d e 0 i j k = false.
Proof. by rewrite orbit_rot, orbit_rot, orbit_zero_1. Qed.

(** The identity behind a flip: two products that share their first
    factor. *)
Lemma orbit_flip v b c y x i j k :
  xorb (orbit v b (Z.lxor x c) i j k) (orbit v (Z.lxor y b) x i j k)
  = xorb (orbit v b c i j k) (orbit v y x i j k).
Proof. unfold orbit, rank1. rewrite !Z.lxor_spec. btauto. Qed.

(** The identity behind a plus move. *)
Lemma orbit_plus a b c a' b' c' i j k :
  xorb (orbit a b (Z.lxor c c') i j k)
       (xorb (orbit a (Z.lxor b b') c' i j k)
             (orbit (Z.lxor a a') b' c' i j k))
  = xorb (orbit a b c i j k) (orbit a' b' c' i j k).
Proof. unfold orbit, rank1. rewrite !Z.lxor_spec. btauto. Qed.

(** ** The terms of a decomposition *)

Lemma val_Ok mu s x : vget mu s = Ok x -> val mu s = x.
Proof. unfold val. by intros ->. Qed.

Lemma val_vset mu s x mu' s' :
  vset mu s x = Ok mu' -> val mu' s' = if decide (s' = s) then x else val mu s'.
Proof.
  intros H. unfold val. rewrite (vget_vset _ _ _ _ s' H). by case_decide.
Qed.

Ltac vals :=
  repeat match goal with
  | H : vset ?mu ?a ?x = Ok ?mu' |- context [val ?mu' ?s] =>
      rewrite (val_vset mu a x mu' s H)
  end.

(** The term of a slot, read from that slot onwards. *)
Lemma term_slot cfg mu s es fs i j k :
  me cfg s = Ok es -> mf cfg s = Ok fs ->
  term mu i j k (s / 3) = orbit (val mu s) (val mu fs) (val mu es) i j k.
Proof.
  intros He Hf. apply me_Ok in He as [Hr He]. apply mf_Ok in Hf as [_ Hf].
  unfold term.
  destruct (decide (s mod 3 = 0)) as [E0|E0];
    [|destruct (decide (s mod 3 = 1)) as [E1|E1]].
  - assert (es = s + 2 /\ fs = s + 1 /\ 3 * (s / 3) = s) as (-> & -> & ->) by zdiv.
    done.
  - assert (es = s - 1 /\ fs = s + 1 /\ 3 * (s / 3) = s - 1) as (-> & -> & ->) by zdiv.
    replace (s - 1 + 1) with s by lia. replace (s - 1 + 2) with (s + 1) by lia.
    by rewrite orbit_rot.
  - assert (es = s - 1 /\ fs = s - 2 /\ 3 * (s / 3) = s - 2) as (-> & -> & ->) by zdiv.
    replace (s - 2 + 1) with (s - 1) by lia. replace (s - 2 + 2) with s by lia.
    by rewrite orbit_rot, orbit_rot.
Qed.

Lemma term_frame mu mu' i j k t :
  (forall s, s / 3 = t -> val mu' s = val mu s) ->
  term mu' i j k t = term mu i j k t.
Proof.
  intros H. unfold term. rewrite !H; [done|zdiv..].
Qed.

(** A change of [muls] within the triples [ts] that keeps the sum of
    their terms keeps the tensor. *)
Lemma tensor_change mu mu' ts i j k :
  vsize mu' = vsize mu -> NoDup ts ->
  (forall t, t ∈ ts -> 0 <= t < vsize mu / 3) ->
  (forall s, s / 3 ∉ ts -> val mu' s = val mu s) ->
  xsum (term mu' i j k) ts = xsum (term mu i j k) ts ->
  tensor mu' i j k = tensor mu i j k.
Proof.
  intros Hl Hnd Hin Hout Heq. unfold tensor. rewrite Hl.
  apply (xsum_change _ _ _ ts); [apply NoDup_seqZ|done| | |done].
  - intros t Ht. apply elem_of_seqZ. specialize (Hin t Ht). lia.
  - intros t _ Ht. apply term_frame. intros s Hs. apply Hout. by rewrite Hs.
Qed.

Lemma slot_term cfg mu s :
  nomuls cfg mod 3 = 0 -> vsize mu = nomuls cfg -> 0 <= s < nomuls cfg ->
  0 <= s / 3 < vsize mu / 3.
Proof. intros Hn Hl Hs. rewrite Hl. zdiv. Qed.

(** The flip on [muls]: the slots [p] and [q] of different triples hold
    the same value; the partner [ep] of [p] and the partner [fq] of [q]
    take the sums. *)
Lemma flip_tensor cfg mu mu1 mu2 p q ep fp eq fq i j k :
  nomuls cfg mod 3 = 0 -> vsize mu = nomuls cfg ->
  me cfg p = Ok ep -> mf cfg p = Ok fp ->
  me cfg q = Ok eq -> mf cfg q = Ok fq ->
  p / 3 <> q / 3 -> val mu p = val mu q ->
  vset mu ep (Z.lxor (val mu eq) (val mu ep)) = Ok mu1 ->
  vset mu1 fq (Z.lxor (val mu fq) (val mu fp)) = Ok mu2 ->
  tensor mu2 i j k = tensor mu i j k.
Proof.
  intros Hn Hl Hep Hfp Heq Hfq Hap Hv Hs1 Hs2.
  destruct (triple_slots _ _ _ _ Hep Hfp Hn)
    as ((Dp1 & Dp2 & Dp3) & (Tp1 & Tp2) & (Rp & Rep & Rfp) & Mp).
  destruct (triple_slots _ _ _ _ Heq Hfq Hn)
    as ((Dq1 & Dq2 & Dq3) & (Tq1 & Tq2) & (Rq & Req & Rfq) & Mq).
  apply (tensor_change _ _ [p / 3; q / 3]).
  - apply vsize_chain in Hs1, Hs2. congruence.
  - apply NoDup_cons. split; [by rewrite list_elem_of_singleton|].
    apply NoDup_singleton.
  - intros t Ht. apply elem_of_cons in Ht as [->|Ht];
      [|apply list_elem_of_singleton in Ht as ->];
      by eapply slot_term.
  - intros s Hs. rewrite !elem_of_cons, elem_of_nil in Hs.
    vals. repeat case_decide; try done; subst; exfalso; apply Hs; auto.
  - simpl. rewrite !xorb_false_r.
    rewrite !(term_slot cfg _ p ep fp) by done.
    rewrite !(term_slot cfg _ q eq fq) by done.
    vals. repeat case_decide; try congruence.
    rewrite Hv. apply orbit_flip.
Qed.

(** The deletion of a term with a zero factor, on [muls]: the term of
    slot [s] is replaced by any term with a zero factor. *)
Lemma zero_tensor cfg mu mu' s es fs i j k :
  nomuls cfg mod 3 = 0 -> vsize mu = nomuls cfg -> vsize mu' = vsize mu ->
  me cfg s = Ok es -> mf cfg s = Ok fs ->
  (forall s', s' / 3 <> s / 3 -> val mu' s' = val mu s') ->
  val mu s = 0 \/ val mu fs = 0 \/ val mu es = 0 ->
  val mu' s = 0 \/ val mu' fs = 0 \/ val mu' es = 0 ->
  tensor mu' i j k = tensor mu i j k.
Proof.
  intros Hn Hl Hl' Hes Hfs Hout Hz Hz'.
  destruct (triple_slots _ _ _ _ Hes Hfs Hn) as (_ & _ & (Rs & _) & _).
  assert (Horb : forall d e f, d = 0 \/ e = 0 \/ f = 0 -> orbit d e f i j k = false).
  { intros d e f [-> | [-> | ->]];
      [apply orbit_zero_1|apply orbit_zero_2|apply orbit_zero_3]. }
  apply (tensor_change _ _ [s / 3]).
  - done.
  - apply NoDup_singleton.
  - intros t Ht. apply list_elem_of_singleton in Ht as ->. by eapply slot_term.
  - intros s' Hs'. apply Hout. by rewrite list_elem_of_singleton in Hs'.
  - simpl. rewrite !xorb_false_r.
    rewrite !(term_slot cfg _ s es fs) by done.
    by rewrite !Horb.
Qed.

(** ** The pair of a flip *)

Lemma sample_any_same mt cfg asg : forall fuel st p q st1,
  mm_ok (nomuls cfg) (M st) asg ->
  sample_any mt cfg fuel st = Ok (p, q, st1) ->
  exists v, asg !! p = Some v /\ asg !! q = Some v.
Proof.
  intros fuel st p q st1 Hok H.
  by apply (sample_any_spec _ _ _ _ _ _ _ _ Hok) in H as [_ (pm & v & _ & _ & ?)]; eauto.
Qed.

Lemma read_cand_pq cfg mu p q c :
  read_cand cfg mu p q = Ok c -> c_p c = p /\ c_q c = q.
Proof. intros H. by apply read_cand_spec in H as (? & ? & _). Qed.

Lemma sample_sized_same mt cfg asg : forall k st c st1,
  mm_ok (nomuls cfg) (M st) asg ->
  sample_sized mt cfg k st = Ok (Some c, st1) ->
  exists v, asg !! c_p c = Some v /\ asg !! c_q c = Some v.
Proof.
  induction k as [|k IH]; intros st c st1 Hok H; simpl in H; [done|].
  apply bind_Ok in H as ([[p' q'] m'] & Hsp & H).
  apply (sample_pair_spec _ _ _ _ _ _ _ Hok) in Hsp as [Hsame (v & Hp & Hq)].
  apply bind_Ok in H as (c' & Hc & H).
  apply bind_Ok in H as (mp & _ & H). apply bind_Ok in H as (mq & _ & H).
  apply bind_Ok in H as (pm & Hpm & H).
  match type of H with (if ?b then _ else _) = _ => destruct b end.
  - injection H as <- <-. apply read_cand_pq in Hc as [-> ->]. eauto.
  - apply IH in H; [done|]. by eapply mm_ok_same_tables.
Qed.

Lemma sample_bits_same mt cfg asg : forall k st c st1,
  mm_ok (nomuls cfg) (M st) asg ->
  sample_bits mt cfg k st = Ok (Some c, st1) ->
  exists v, asg !! c_p c = Some v /\ asg !! c_q c = Some v.
Proof.
  induction k as [|k IH]; intros st c st1 Hok H; simpl in H; [done|].
  apply bind_Ok in H as ([[p' q'] m'] & Hsp & H).
  apply (sample_pair_spec _ _ _ _ _ _ _ Hok) in Hsp as [Hsame (v & Hp & Hq)].
  apply bind_Ok in H as (c' & Hc & H).
  apply bind_Ok in H as (pm & Hpm & H).
  match type of H with (if ?b then _ else _) = _ => destruct b end.
  - injection H as <- <-. apply read_cand_pq in Hc as [-> ->]. eauto.
  - apply IH in H; [done|]. by eapply mm_ok_same_tables.
Qed.

(** The two slots of a flip candidate hold the same value. *)
Lemma sample_flip_same mt cfg gas asg st c st1 :
  mm_ok (nomuls cfg) (M st) asg ->
  sample_flip mt cfg gas st = Ok (Some c, st1) ->
  exists v, asg !! c_p c = Some v /\ asg !! c_q c = Some v.
Proof.
  intros Hok H. unfold sample_flip in H.
  destruct (maxsize cfg =? 0).
  - apply bind_Ok in H as ([[p q] st2] & Hsa & H).
    apply (sample_any_same _ _ _ _ _ _ _ _ Hok) in Hsa.
    apply bind_Ok in H as (c' & Hc & H). injection H as <- <-.
    by apply read_cand_pq in Hc as [-> ->].
  - destruct (maxsize cfg >? 0).
    + by eapply sample_sized_same.
    + by eapply sample_bits_same.
Qed.

(** ** The updates of [muls] *)

Lemma commit3_muls cfg st c st' :
  commit3 cfg st c = Ok st' ->
  best st' = best st /\
  exists ep fq mu1,
    me cfg (c_p c) = Ok ep /\ mf cfg (c_q c) = Ok fq /\
    vset (muls st) ep (c_mpen c) = Ok mu1 /\
    vset mu1 fq (c_mqfn c) = Ok (muls st').
Proof.
  unfold commit3. intros H.
  apply bind_Ok in H as (ep & Hep & H).
  apply bind_Ok in H as (m1 & _ & H). apply bind_Ok in H as (m2 & _ & H).
  apply bind_Ok in H as (mu1 & Hs1 & H).
  apply bind_Ok in H as (fq & Hfq & H).
  apply bind_Ok in H as (m3 & _ & H). apply bind_Ok in H as (m4 & _ & H).
  apply bind_Ok in H as (mu2 & Hs2 & H). injection H as <-. simpl.
  split; [done|]. by exists ep, fq, mu1.
Qed.

Lemma delete_p3_muls cfg st c st' :
  delete_p3 cfg st c = Ok st' ->
  best st' = best st /\
  exists fp mu1,
    mf cfg (c_p c) = Ok fp /\
    vset (muls st) (c_p c) 0 = Ok mu1 /\ vset mu1 fp 0 = Ok (muls st').
Proof.
  unfold delete_p3. intros H.
  apply bind_Ok in H as (mpd & _ & H). apply bind_Ok in H as (m1 & _ & H).
  apply bind_Ok in H as (ep & _ & H). apply bind_Ok in H as (m2 & _ & H).
  apply bind_Ok in H as (fp & Hfp & H). apply bind_Ok in H as (m3 & _ & H).
  apply bind_Ok in H as (mu1 & Hs1 & H). apply bind_Ok in H as (mu2 & Hs2 & H).
  injection H as <-. simpl. split; [done|]. by exists fp, mu1.
Qed.

Lemma delete_q3_muls cfg st c st' :
  delete_q3 cfg st c = Ok st' ->
  best st' = best st /\
  exists eq mu1,
    me cfg (c_q c) = Ok eq /\
    vset (muls st) (c_q c) 0 = Ok mu1 /\ vset mu1 eq 0 = Ok (muls st').
Proof.
  unfold delete_q3. intros H.
  apply bind_Ok in H as (mqd & _ & H). apply bind_Ok in H as (m1 & _ & H).
  apply bind_Ok in H as (eq & Heq & H). apply bind_Ok in H as (m2 & _ & H).
  apply bind_Ok in H as (fq & _ & H). apply bind_Ok in H as (m3 & _ & H).
  apply bind_Ok in H as (mu1 & Hs1 & H). apply bind_Ok in H as (mu2 & Hs2 & H).
  injection H as <-. simpl. split; [done|]. by exists eq, mu1.
Qed.

(** ** The flip *)

Lemma after_collapse_represents mt cfg w T st s st' :
  0 <= nomuls cfg -> represents cfg T st ->
  after_collapse mt cfg w st = Ok (s, st') ->
  represents cfg T st' /\ muls st' = muls st.
Proof.
  intros Hn (Hlm & Hlb & HTm & HTb) H.
  apply after_collapse_fields in H as (_ & _ & Hb & Hm & _); [|done..].
  split; [|done]. unfold represents. rewrite Hm, Hb.
  destruct (_ <=? _); done.
Qed.

Lemma represents_frame cfg T st st' :
  muls st' = muls st -> best st' = best st ->
  represents cfg T st -> represents cfg T st'.
Proof. intros Hm Hb. unfold represents. by rewrite Hm, Hb. Qed.

Lemma flip3_represents mt cfg gas T st s st' :
  Inv 3 cfg st -> represents cfg T st ->
  flip3 mt cfg gas st = Ok (s, st') -> represents cfg T st'.
Proof.
  intros [Hsym [Hn0 Hn] Hlen Hg (asg & Hok & Htr)] Hrep H.
  unfold flip3 in H. cbv zeta in H.
  apply bind_Ok in H as ([oc st1] & Hs & H).
  pose proof Hs as Hs'.
  apply sample_flip_spec with (asg := asg) in Hs as (nd & Hk & _ & Hctx);
    [|lia|done].
  destruct Hk as (m' & _ & ->).
  destruct oc as [c|]; [|injection H as <- <-; by eapply represents_frame].
  destruct (Hctx c eq_refl) as (ep & fp & eq & fq & Hfc).
  apply sample_flip_same with (asg := asg) in Hs' as (v & Hpv & Hqv); [|done].
  apply Htr in Hpv as [Hpv _]. apply Htr in Hqv as [Hqv _].
  simpl in Hfc.
  destruct Hfc as [Hep Hfp Heq Hfq Hmpe Hmpf Hmqe Hmqf Epen Eqfn _ _ Hap].
  rewrite Hsym in Hap.
  destruct (triple_slots _ _ _ _ Hep Hfp Hn)
    as ((Dp1 & Dp2 & Dp3) & (Tp1 & Tp2) & (Rp & Rep & Rfp) & Mp).
  destruct (triple_slots _ _ _ _ Heq Hfq Hn)
    as ((Dq1 & Dq2 & Dq3) & (Tq1 & Tq2) & (Rq & Req & Rfq) & Mq).
  apply bind_Ok in H as (st2 & Hc & H).
  apply commit3_muls in Hc as (Hb2 & ep' & fq' & mu1 & Hep' & Hfq' & Hs1 & Hs2).
  simpl in Hb2, Hs1.
  rewrite Hep in Hep'. injection Hep' as <-.
  rewrite Hfq in Hfq'. injection Hfq' as <-.
  assert (Hl2 : vsize (muls st2) = nomuls cfg).
  { apply vsize_chain in Hs1, Hs2. congruence. }
  assert (Hrep2 : represents cfg T st2).
  { destruct Hrep as (Hlm & Hlb & HTm & HTb).
    split; [done|]. split; [congruence|]. split; [|by rewrite Hb2].
    intros i j k. rewrite <- HTm.
    apply (flip_tensor cfg (muls st) mu1 (muls st2) (c_p c) (c_q c) ep fp eq fq);
      try done.
    - by rewrite (val_Ok _ _ _ Hpv), (val_Ok _ _ _ Hqv).
    - by rewrite (val_Ok _ _ _ Hmqe), (val_Ok _ _ _ Hmpe), <- Epen.
    - by rewrite (val_Ok _ _ _ Hmqf), (val_Ok _ _ _ Hmpf), <- Eqfn. }
  assert (Hvep : val (muls st2) ep = c_mpen c).
  { vals. rewrite decide_False by congruence. by rewrite decide_True. }
  assert (Hvfq : val (muls st2) fq = c_mqfn c).
  { vals. by rewrite decide_True. }
  clear Hs1 Hs2 Hrep Hok Htr Hg Hctx.
  apply bind_Ok in H as ([s1 st3] & Hp & H).
  assert (HA : represents cfg T st3 /\
               forall s', s' / 3 <> c_p c / 3 ->
                          val (muls st3) s' = val (muls st2) s').
  { destruct (c_mpen c =? 0) eqn:E0; [|by injection Hp as <- <-].
    apply Z.eqb_eq in E0. unfold collapse_p3 in Hp.
    apply bind_Ok in Hp as (stx & Hd & Hp).
    apply delete_p3_muls in Hd as (Hbx & fp' & mu' & Hfp' & Hd1 & Hd2).
    rewrite Hfp in Hfp'. injection Hfp' as <-.
    assert (Hout : forall s', s' / 3 <> c_p c / 3 ->
                              val (muls stx) s' = val (muls st2) s').
    { intros s' Hs'. vals. rewrite !decide_False by congruence. done. }
    assert (Hrepx : represents cfg T stx).
    { destruct Hrep2 as (Hlm & Hlb & HTm & HTb).
      assert (Hlx : vsize (muls stx) = vsize (muls st2)).
      { apply vsize_chain in Hd1, Hd2. congruence. }
      split; [congruence|]. split; [congruence|]. split; [|by rewrite Hbx].
      intros i j k. rewrite <- HTm.
      apply (zero_tensor cfg _ _ (c_p c) ep fp); try done.
      - right. right. by rewrite Hvep.
      - left. vals. rewrite decide_False by congruence. by rewrite decide_True. }
    apply after_collapse_represents with (T := T) in Hp as [Hr3 Hm3]; [|done..].
    split; [done|]. by rewrite Hm3. }
  destruct HA as [Hrep3 Hout3].
  destruct s1; [|by injection H as <- <-].
  destruct (c_mqfn c =? 0) eqn:E0; [|by injection H as <- <-].
  apply Z.eqb_eq in E0. unfold collapse_q3 in H.
  apply bind_Ok in H as (stx & Hd & H).
  apply delete_q3_muls in Hd as (Hbx & eq' & mu' & Heq' & Hd1 & Hd2).
  rewrite Heq in Heq'. injection Heq' as <-.
  assert (Hrepx : represents cfg T stx).
  { destruct Hrep3 as (Hlm & Hlb & HTm & HTb).
    assert (Hlx : vsize (muls stx) = vsize (muls st3)).
    { apply vsize_chain in Hd1, Hd2. congruence. }
    split; [congruence|]. split; [congruence|]. split; [|by rewrite Hbx].
    intros i j k. rewrite <- HTm.
    apply (zero_tensor cfg _ _ (c_q c) eq fq); try done.
    - intros s' Hs'. vals. rewrite !decide_False by congruence. done.
    - right. left. rewrite Hout3 by congruence. by rewrite Hvfq.
    - left. vals. rewrite decide_False by congruence. by rewrite decide_True. }
  by apply after_collapse_represents with (T := T) in H as [Hr _].
Qed.

(** ** The plus move *)

Lemma live_dead_apart mu p r x :
  groups_ok 3 mu -> vget mu p = Ok x -> x <> 0 -> vget mu r = Ok 0 ->
  r / 3 <> p / 3.
Proof.
  intros Hg Hp Hx Hr E. destruct (Hg (p / 3)) as [Hz|Hnz].
  - apply Hx. by apply (Hz p).
  - by apply (Hnz r 0).
Qed.

Lemma plus_apply3_tensor cfg st a r st' :
  nomuls cfg mod 3 = 0 -> vsize (muls st) = nomuls cfg ->
  groups_ok 3 (muls st) ->
  read_pcand cfg (muls st) (a_p a) (a_q a) = Ok a ->
  plus_distinct_ok a = true -> a_p a / 3 <> a_q a / 3 ->
  vget (muls st) r = Ok 0 ->
  plus_apply3 cfg st a r = Ok st' ->
  best st' = best st /\ vsize (muls st') = vsize (muls st) /\
  forall i j k, tensor (muls st') i j k = tensor (muls st) i j k.
Proof.
  intros Hn Hlen Hg Ha Hd Hap Hr H.
  apply read_pcand_spec in Ha
    as (_ & _ & ep & fp & eq & fq & Hep & Hfp & Heq & Hfq &
        Hmpd & Hmpe & Hmpf & Hmqd & Hmqe & Hmqf).
  unfold plus_distinct_ok in Hd. apply andb_prop in Hd as [Hd1 _].
  apply negb_true_iff, orb_false_elim in Hd1 as [Hz1 Hz2].
  apply Z.eqb_neq in Hz1, Hz2.
  unfold plus_apply3 in H. rewrite Hep in H. simpl in H.
  apply bind_Ok in H as (m1 & _ & H). apply bind_Ok in H as (m2 & _ & H).
  apply bind_Ok in H as (m3 & _ & H). apply bind_Ok in H as (m4 & _ & H).
  rewrite Hfq in H. simpl in H.
  apply bind_Ok in H as (m5 & _ & H). apply bind_Ok in H as (m6 & _ & H).
  apply bind_Ok in H as (m7 & _ & H).
  apply bind_Ok in H as (er & Her & H).
  apply bind_Ok in H as (m8 & _ & H).
  apply bind_Ok in H as (fr & Hfr & H).
  apply bind_Ok in H as (m9 & _ & H).
  apply bind_Ok in H as (mu1 & Hs1 & H). apply bind_Ok in H as (mu2 & Hs2 & H).
  rewrite Hfp in H. simpl in H.
  apply bind_Ok in H as (mu3 & Hs3 & H). apply bind_Ok in H as (mu4 & Hs4 & H).
  rewrite Heq in H. simpl in H.
  apply bind_Ok in H as (mu5 & Hs5 & H). apply bind_Ok in H as (mu6 & Hs6 & H).
  apply bind_Ok in H as (mu7 & Hs7 & H). apply bind_Ok in H as (mu8 & Hs8 & H).
  apply bind_Ok in H as (mu9 & Hs9 & H). injection H as <-. simpl.
  split; [done|].
  assert (Hl9 : vsize mu9 = vsize (muls st)).
  { repeat match goal with
    | H : vset _ _ _ = Ok _ |- _ => apply vsize_chain in H
    end; congruence. }
  split; [done|]. intros i j k.
  destruct (triple_slots _ _ _ _ Hep Hfp Hn)
    as ((Dp1 & Dp2 & Dp3) & (Tp1 & Tp2) & (Rp & Rep & Rfp) & Mp).
  destruct (triple_slots _ _ _ _ Heq Hfq Hn)
    as ((Dq1 & Dq2 & Dq3) & (Tq1 & Tq2) & (Rq & Req & Rfq) & Mq).
  destruct (triple_slots _ _ _ _ Her Hfr Hn)
    as ((Dr1 & Dr2 & Dr3) & (Tr1 & Tr2) & (Rr & Rer & Rfr) & Mr).
  pose proof (dead_partner _ _ er _ Hg Hlen Hr Tr1 Rer) as Hzer.
  pose proof (dead_partner _ _ fr _ Hg Hlen Hr Tr2 Rfr) as Hzfr.
  pose proof (live_dead_apart _ _ _ _ Hg Hmpd Hz1 Hr) as Hrp.
  pose proof (live_dead_apart _ _ _ _ Hg Hmqd Hz2 Hr) as Hrq.
  apply val_Ok in Hmpd, Hmpe, Hmpf, Hmqd, Hmqe, Hmqf, Hr, Hzer, Hzfr.
  clear Hg Mp Mq Mr.
  apply (tensor_change _ _ [a_p a / 3; a_q a / 3; r / 3]).
  - done.
  - repeat (apply NoDup_cons; split;
            [rewrite ?elem_of_cons, elem_of_nil; intuition congruence|]).
    apply NoDup_nil_2.
  - intros t Ht. rewrite !elem_of_cons, elem_of_nil in Ht.
    destruct Ht as [-> | [-> | [-> | []]]]; by eapply slot_term.
  - intros s Hs. rewrite !elem_of_cons, elem_of_nil in Hs.
    assert (s / 3 <> a_p a / 3 /\ s / 3 <> a_q a / 3 /\ s / 3 <> r / 3)
      as (N1 & N2 & N3) by tauto.
    vals. rewrite !decide_False by congruence. done.
  - simpl. rewrite !xorb_false_r.
    rewrite !(term_slot cfg _ (a_p a) ep fp) by done.
    rewrite !(term_slot cfg _ (a_q a) eq fq) by done.
    rewrite !(term_slot cfg _ r er fr) by done.
    assert (V1 : val mu9 (a_p a) = a_mpd a)
      by (vals; repeat (case_decide; try congruence)).
    assert (V2 : val mu9 fp = a_mpf a)
      by (vals; repeat (case_decide; try congruence)).
    assert (V3 : val mu9 ep = Z.lxor (a_mpe a) (a_mqe a))
      by (vals; repeat (case_decide; try congruence)).
    assert (V4 : val mu9 (a_q a) = a_mpd a)
      by (vals; repeat (case_decide; try congruence)).
    assert (V5 : val mu9 fq = Z.lxor (a_mpf a) (a_mqf a))
      by (vals; repeat (case_decide; try congruence)).
    assert (V6 : val mu9 eq = a_mqe a)
      by (vals; repeat (case_decide; try congruence)).
    assert (V7 : val mu9 r = Z.lxor (a_mpd a) (a_mqd a))
      by (vals; repeat (case_decide; try congruence)).
    assert (V8 : val mu9 fr = a_mqf a)
      by (vals; repeat (case_decide; try congruence)).
    assert (V9 : val mu9 er = a_mqe a)
      by (vals; repeat (case_decide; try congruence)).
    rewrite V1, V2, V3, V4, V5, V6, V7, V8, V9.
    rewrite Hmpd, Hmpe, Hmpf, Hmqd, Hmqe, Hmqf, Hr, Hzer, Hzfr.
    rewrite orbit_zero_1, xorb_false_r. apply orbit_plus.
Qed.

Lemma plus3_represents mt cfg gas T st st' :
  Inv 3 cfg st -> represents cfg T st ->
  plus3 mt cfg gas st = Ok st' -> represents cfg T st'.
Proof.
  intros [Hsym [Hn0 Hn] Hlen Hg _] (Hlm & Hlb & HTm & HTb) H.
  unfold plus3 in H. cbv zeta in H.
  destruct (recover_frame cfg st) as (Hmu & _ & _ & Hbe).
  apply bind_Ok in H as (r & Hr & H). rewrite Hmu in Hr.
  apply bind_Ok in H as ([a st1] & Hp & H).
  apply plus_pick3_spec in Hp as ((d & ->) & Ha & Hd & pm & Hpm & Hne).
  simpl in Ha. rewrite Hmu in Ha.
  apply bind_Ok in H as (st2 & Hap & H).
  apply plus_apply3_slot in Hap as Hrr.
  apply first_zero_spec in Hr as (_ & _ & Hr0).
  apply permit_Ok in Hpm as (_ & _ & Hapart); [|done|lia].
  rewrite Hsym in Hapart.
  apply plus_apply3_tensor in Hap as (Hb2 & Hl2 & HT2).
  - apply reschedule_shape in H as (pb & k' & ->).
    simpl in Hb2, Hl2, HT2. rewrite Hbe in Hb2. rewrite Hmu in Hl2.
    split; [simpl; congruence|]. split; [simpl; congruence|].
    split; simpl.
    + intros. by rewrite HT2, Hmu.
    + intros. by rewrite Hb2.
  - done.
  - simpl. by rewrite Hmu.
  - simpl. by rewrite Hmu.
  - simpl. by rewrite Hmu.
  - done.
  - done.
  - simpl. rewrite Hmu. apply Hr0. rewrite Z2Nat.id by done. lia.
Qed.

(** ** The run *)

Lemma limit_check_frame cfg st s st' :
  limit_check cfg st = (s, st') ->
  muls st' = muls st /\ best st' = best st /\ M st' = M st.
Proof.
  unfold limit_check. destruct (_ >=? _); by intros [= <- <-].
Qed.

Lemma step3_represents mt cfg gas T st s st' :
  Inv 3 cfg st -> represents cfg T st ->
  step3 mt cfg gas st = Ok (s, st') ->
  represents cfg T st' /\ (s = Go -> Inv 3 cfg st').
Proof.
  intros HI Hrep H. unfold step3 in H.
  apply bind_Ok in H as ([s1 st1] & Hf & H).
  pose proof (flip3_represents _ _ _ _ _ _ _ HI Hrep Hf) as Hrep1.
  destruct s1; [|by injection H as <- <-].
  apply flip3_inv in Hf; [|done].
  apply bind_Ok in H as (st2 & Hp & H). injection H as H.
  assert (represents cfg T st2 /\ Inv 3 cfg st2) as [Hrep2 HI2].
  { destruct (_ >=? _) in Hp; [|by injection Hp as <-].
    split; [by eapply plus3_represents|by eapply plus3_inv]. }
  apply limit_check_frame in H as (Hm & Hb & HM).
  split; [by eapply represents_frame|]. intros _. by eapply Inv_frame.
Qed.

Lemma loop3_represents mt cfg gas T : forall rounds st st',
  Inv 3 cfg st -> represents cfg T st ->
  loop3 mt cfg gas rounds st = Ok st' -> represents cfg T st'.
Proof.
  induction rounds as [|n IH]; intros st st' HI Hrep H; [done|]. simpl in H.
  apply bind_Ok in H as ([s st1] & Hs & H).
  apply step3_represents with (T := T) in Hs as [Hrep1 HI1]; [|done..].
  destruct s; [|by injection H as <-].
  apply (IH st1); [by apply HI1|done|done].
Qed.

(** X26.  A flip and a plus move of the [symm == 3] loop keep the tensor:
    from a state with the invariant whose [muls] and [best] are
    decompositions of [T], both return states whose [muls] and [best] are
    decompositions of [T], whether the loop goes on or ends there. *)
Theorem moves_keep_tensor mt cfg gas T st :
  Inv 3 cfg st -> represents cfg T st ->
  (forall s st', flip3 mt cfg gas st = Ok (s, st') -> represents cfg T st') /\
  (forall st', plus3 mt cfg gas st = Ok st' -> represents cfg T st').
Proof.
  intros HI Hrep. split.
  - intros s st'. by apply flip3_represents.
  - intros st'. by apply plus3_represents.
Qed.

(** The flip of [muls_go] on the slots 0 and 3: the tensor of
    [[1; 2; 6; 1; 6; 5]] is that of [[1; 2; 3; 1; 4; 5]]. *)
Lemma moves_keep_tensor_witness :
  exists st0 st',
    init mt_S2 (cfg_S2 0) 0 muls_go = Ok st0 /\
    flip3 mt_S2 (cfg_S2 0) 1 st0 = Ok (Go, st') /\
    muls st' = [1; 2; 6; 1; 6; 5] /\
    forall i j k, tensor [1; 2; 6; 1; 6; 5] i j k = tensor muls_go i j k.
Proof.
  assert (exists st0 st',
    init mt_S2 (cfg_S2 0) 0 muls_go = Ok st0 /\
    (muls st0 = muls_go /\ best st0 = muls_go) /\
    flip3 mt_S2 (cfg_S2 0) 1 st0 = Ok (Go, st') /\
    muls st' = [1; 2; 6; 1; 6; 5]) as (st0 & st' & Hi & [Hm0 Hb0] & Hf & Hm).
  { do 2 eexists. split; [vm_compute; reflexivity|].
    split; [split; vm_compute; reflexivity|].
    split; vm_compute; reflexivity. }
  assert (HI : Inv 3 (cfg_S2 0) st0).
  { apply (Inv_start mt_S2 (cfg_S2 0) muls_go); [done|done| |done].
    repeat constructor. }
  assert (Hrep : represents (cfg_S2 0) (tensor muls_go) st0).
  { unfold represents. rewrite Hm0, Hb0.
    split; [reflexivity|]. split; [reflexivity|]. split; intros; reflexivity. }
  destruct (moves_keep_tensor mt_S2 (cfg_S2 0) 1 _ st0 HI Hrep) as [Hflip _].
  destruct (Hflip Go st' Hf) as (_ & _ & HT & _).
  exists st0, st'. split; [exact Hi|]. split; [exact Hf|]. split; [exact Hm|].
  rewrite <- Hm. exact HT.
Defined.

(** X27.  For an input of [nomuls] values whose triples are all zero or all
    nonzero, a run of the [symm == 3] loop that ends writes a decomposition
    of the tensor of its input: the values written to the file, those of
    [best] when [minmuls < achieved] and of [muls] otherwise, have the
    tensor of the values read. *)
Theorem run_keeps_tensor mt cfg gas rounds flips0 muls0 st :
  symm cfg = 3 -> nomuls cfg mod 3 = 0 -> vsize muls0 = nomuls cfg ->
  (forall s v, vget muls0 s = Ok v -> 0 <= v) ->
  groups_ok 3 muls0 ->
  search mt cfg gas rounds flips0 muls0 = Ok st ->
  forall i j k,
    tensor (if minmuls st <? achieved st then best st else muls st) i j k
    = tensor muls0 i j k.
Proof.
  intros Hsym Hn Hl Hv Hg H. unfold search in H.
  apply bind_Ok in H as (st0 & Hi & H).
  pose proof (init_inv mt cfg flips0 muls0 st0) as HI.
  rewrite Hsym in HI. specialize (HI Hn Hl Hv Hg Hi).
  apply init_fields in Hi as (Hm0 & Hb0 & _).
  assert (Hrep0 : represents cfg (tensor muls0) st0).
  { unfold represents. by rewrite Hm0, Hb0. }
  rewrite Hsym in H. simpl in H.
  apply bind_Ok in H as (st1 & H1 & H). injection H as <-. simpl.
  apply loop3_represents with (T := tensor muls0) in H1
    as (_ & _ & HTm & HTb); [|done..].
  intros i j k. by destruct (minmuls st1 <? achieved st1).
Qed.

(** One round on [muls_go] with a flip limit of 3: the run ends with
    [rcode = 1] and writes [[1; 2; 6; 1; 6; 5]]. *)
Lemma run_keeps_tensor_witness :
  exists st,
    search mt_S2 cfg_short 1 1 0 muls_go = Ok st /\ rcode st = 1 /\
    (if minmuls st <? achieved st then best st else muls st)
    = [1; 2; 6; 1; 6; 5] /\
    forall i j k, tensor [1; 2; 6; 1; 6; 5] i j k = tensor muls_go i j k.
Proof.
  assert (exists st,
    search mt_S2 cfg_short 1 1 0 muls_go = Ok st /\ rcode st = 1 /\
    (if minmuls st <? achieved st then best st else muls st)
    = [1; 2; 6; 1; 6; 5]) as (st & Hs & Hr & Hm).
  { eexists. split; [vm_compute; reflexivity|]. split; vm_compute; reflexivity. }
  exists st. split; [exact Hs|]. split; [exact Hr|]. split; [exact Hm|].
  rewrite <- Hm.
  apply (run_keeps_tensor mt_S2 cfg_short 1 1 0 muls_go st);
    [reflexivity|reflexivity|reflexivity| | |exact Hs].
  - intros s v Hv.
    assert (Hall : Forall (fun x => 0 <= x) muls_go) by (repeat constructor; lia).
    apply (vget_Forall _ _ _ _ Hall Hv).
  - apply groups_all_nonzero. repeat constructor; lia.
Defined.

(** ** The [symm == 6] loop *)

Lemma thirds p q : p / 6 <> q / 6 -> p / 3 <> q / 3.
Proof. zdiv. Qed.

Lemma paired_third p :
  0 <= p -> paired p / 3 <> p / 3 /\ paired p / 6 = p / 6.
Proof.
  intros Hp. unfold paired. rewrite Z.rem_mod_nonneg by lia.
  destruct (p mod 6 <? 3) eqn:E; [apply Z.ltb_lt in E|apply Z.ltb_ge in E];
    revert E; zdiv.
Qed.

Lemma commit6_muls cfg st c h st' :
  commit6 cfg st c h = Ok st' ->
  best st' = best st /\
  exists ep epp fq fqq mu1 mu2 mu3,
    me cfg (c_p c) = Ok ep /\ me cfg (h_pp h) = Ok epp /\
    mf cfg (c_q c) = Ok fq /\ mf cfg (h_qq h) = Ok fqq /\
    vset (muls st) ep (c_mpen c) = Ok mu1 /\
    vset mu1 epp (h_mppen h) = Ok mu2 /\
    vset mu2 fq (c_mqfn c) = Ok mu3 /\
    vset mu3 fqq (h_mqqfn h) = Ok (muls st').
Proof.
  unfold commit6. intros H.
  apply bind_Ok in H as (ep & Hep & H).
  apply bind_Ok in H as (m1 & _ & H). apply bind_Ok in H as (m2 & _ & H).
  apply bind_Ok in H as (mu1 & Hs1 & H).
  apply bind_Ok in H as (epp & Hepp & H).
  apply bind_Ok in H as (m3 & _ & H). apply bind_Ok in H as (m4 & _ & H).
  apply bind_Ok in H as (mu2 & Hs2 & H).
  apply bind_Ok in H as (fq & Hfq & H).
  apply bind_Ok in H as (m5 & _ & H). apply bind_Ok in H as (m6 & _ & H).
  apply bind_Ok in H as (mu3 & Hs3 & H).
  apply bind_Ok in H as (fqq & Hfqq & H).
  apply bind_Ok in H as (m7 & _ & H). apply bind_Ok in H as (m8 & _ & H).
  apply bind_Ok in H as (mu4 & Hs4 & H). injection H as <-. simpl.
  split; [done|]. by exists ep, epp, fq, fqq, mu1, mu2, mu3.
Qed.

(** What a deletion of the [symm == 6] loop does to [muls]: outside the
    two triples of [s] and [s'] nothing, and in both the slot itself is
    zero afterwards. *)
Lemma delete_p6_muls cfg st c h st' :
  nomuls cfg mod 3 = 0 ->
  delete_p6 cfg st c h = Ok st' ->
  best st' = best st /\ vsize (muls st') = vsize (muls st) /\
  val (muls st') (c_p c) = 0 /\ val (muls st') (h_pp h) = 0 /\
  forall s, s / 3 <> c_p c / 3 -> s / 3 <> h_pp h / 3 ->
            val (muls st') s = val (muls st) s.
Proof.
  unfold delete_p6. intros Hn H.
  apply bind_Ok in H as (m1 & _ & H).
  apply bind_Ok in H as (ep & Hep & H). apply bind_Ok in H as (m2 & _ & H).
  apply bind_Ok in H as (fp & Hfp & H). apply bind_Ok in H as (m3 & _ & H).
  apply bind_Ok in H as (mu1 & Hs1 & H). apply bind_Ok in H as (mu2 & Hs2 & H).
  apply bind_Ok in H as (m4 & _ & H).
  apply bind_Ok in H as (epp & Hepp & H). apply bind_Ok in H as (m5 & _ & H).
  apply bind_Ok in H as (fpp & Hfpp & H). apply bind_Ok in H as (m6 & _ & H).
  apply bind_Ok in H as (mu3 & Hs3 & H). apply bind_Ok in H as (mu4 & Hs4 & H).
  apply bind_Ok in H as (mu5 & Hs5 & H). injection H as <-. simpl.
  destruct (triple_slots _ _ _ _ Hep Hfp Hn)
    as ((Dp1 & Dp2 & Dp3) & (Tp1 & Tp2) & _ & _).
  destruct (triple_slots _ _ _ _ Hepp Hfpp Hn)
    as ((Dq1 & Dq2 & Dq3) & (Tq1 & Tq2) & _ & _).
  split; [done|].
  destruct (negb (c_mpen c =? 0)).
  - apply bind_Ok in Hs5 as (mu6 & Hs6 & Hs7).
    split; [|split; [|split]].
    + repeat match goal with
      | H : vset _ _ _ = Ok _ |- _ => apply vsize_chain in H
      end; congruence.
    + vals. repeat (case_decide; try congruence).
    + vals. repeat (case_decide; try congruence).
    + intros s N1 N2. vals. rewrite !decide_False by congruence. done.
  - injection Hs5 as <-.
    split; [|split; [|split]].
    + repeat match goal with
      | H : vset _ _ _ = Ok _ |- _ => apply vsize_chain in H
      end; congruence.
    + vals. repeat (case_decide; try congruence).
    + vals. repeat (case_decide; try congruence).
    + intros s N1 N2. vals. rewrite !decide_False by congruence. done.
Qed.

Lemma delete_q6_muls cfg st c h st' :
  nomuls cfg mod 3 = 0 ->
  delete_q6 cfg st c h = Ok st' ->
  best st' = best st /\ vsize (muls st') = vsize (muls st) /\
  val (muls st') (c_q c) = 0 /\ val (muls st') (h_qq h) = 0 /\
  forall s, s / 3 <> c_q c / 3 -> s / 3 <> h_qq h / 3 ->
            val (muls st') s = val (muls st) s.
Proof.
  unfold delete_q6. intros Hn H.
  apply bind_Ok in H as (m1 & _ & H).
  apply bind_Ok in H as (eq & Heq & H). apply bind_Ok in H as (m2 & _ & H).
  apply bind_Ok in H as (fq & Hfq & H). apply bind_Ok in H as (m3 & _ & H).
  apply bind_Ok in H as (mu1 & Hs1 & H). apply bind_Ok in H as (mu2 & Hs2 & H).
  apply bind_Ok in H as (m4 & _ & H).
  apply bind_Ok in H as (eqq & Heqq & H). apply bind_Ok in H as (m5 & _ & H).
  apply bind_Ok in H as (fqq & Hfqq & H). apply bind_Ok in H as (m6 & _ & H).
  apply bind_Ok in H as (mu3 & Hs3 & H). apply bind_Ok in H as (mu4 & Hs4 & H).
  apply bind_Ok in H as (mu5 & Hs5 & H). injection H as <-. simpl.
  destruct (triple_slots _ _ _ _ Heq Hfq Hn)
    as ((Dp1 & Dp2 & Dp3) & (Tp1 & Tp2) & _ & _).
  destruct (triple_slots _ _ _ _ Heqq Hfqq Hn)
    as ((Dq1 & Dq2 & Dq3) & (Tq1 & Tq2) & _ & _).
  split; [done|].
  destruct (negb (c_mqfn c =? 0)).
  - apply bind_Ok in Hs5 as (mu6 & Hs6 & Hs7).
    split; [|split; [|split]].
    + repeat match goal with
      | H : vset _ _ _ = Ok _ |- _ => apply vsize_chain in H
      end; congruence.
    + vals. repeat (case_decide; try congruence).
    + vals. repeat (case_decide; try congruence).
    + intros s N1 N2. vals. rewrite !decide_False by congruence. done.
  - injection Hs5 as <-.
    split; [|split; [|split]].
    + repeat match goal with
      | H : vset _ _ _ = Ok _ |- _ => apply vsize_chain in H
      end; congruence.
    + vals. repeat (case_decide; try congruence).
    + vals. repeat (case_decide; try congruence).
    + intros s N1 N2. vals. rewrite !decide_False by congruence. done.
Qed.

(** Two triples whose terms cancel are replaced by two triples whose terms
    are zero. *)
Lemma pair_tensor cfg mu mu' s es fs s' es' fs' i j k :
  nomuls cfg mod 3 = 0 -> vsize mu = nomuls cfg -> vsize mu' = vsize mu ->
  me cfg s = Ok es -> mf cfg s = Ok fs ->
  me cfg s' = Ok es' -> mf cfg s' = Ok fs' ->
  s / 3 <> s' / 3 ->
  (forall x, x / 3 <> s / 3 -> x / 3 <> s' / 3 -> val mu' x = val mu x) ->
  orbit (val mu s) (val mu fs) (val mu es) i j k
  = orbit (val mu s') (val mu fs') (val mu es') i j k ->
  val mu' s = 0 -> val mu' s' = 0 ->
  tensor mu' i j k = tensor mu i j k.
Proof.
  intros Hn Hl Hl' Hes Hfs Hes' Hfs' Hap Hout Hcancel Hz Hz'.
  destruct (triple_slots _ _ _ _ Hes Hfs Hn) as (_ & _ & (Rs & _) & _).
  destruct (triple_slots _ _ _ _ Hes' Hfs' Hn) as (_ & _ & (Rs' & _) & _).
  apply (tensor_change _ _ [s / 3; s' / 3]).
  - done.
  - apply NoDup_cons. split; [by rewrite list_elem_of_singleton|].
    apply NoDup_singleton.
  - intros t Ht. apply elem_of_cons in Ht as [->|Ht];
      [|apply list_elem_of_singleton in Ht as ->];
      by eapply slot_term.
  - intros x Hx. rewrite !elem_of_cons, elem_of_nil in Hx.
    apply Hout; tauto.
  - simpl. rewrite !xorb_false_r.
    rewrite !(term_slot cfg _ s es fs) by done.
    rewrite !(term_slot cfg _ s' es' fs') by done.
    rewrite Hz, Hz', !orbit_zero_1, Hcancel. simpl. symmetry.
    apply xorb_nilpotent.
Qed.

(** The flip of the [symm == 6] loop on [muls]: the flip of [p] and [q]
    and the flip of their paired slots. *)
Lemma flip6_tensor cfg mu mu1 mu2 mu3 mu4 p q pp qq
    ep fp eq fq epp fpp eqq fqq i j k :
  nomuls cfg mod 3 = 0 -> vsize mu = nomuls cfg ->
  me cfg p = Ok ep -> mf cfg p = Ok fp ->
  me cfg q = Ok eq -> mf cfg q = Ok fq ->
  me cfg pp = Ok epp -> mf cfg pp = Ok fpp ->
  me cfg qq = Ok eqq -> mf cfg qq = Ok fqq ->
  (p / 3 <> q / 3 /\ p / 3 <> pp / 3 /\ p / 3 <> qq / 3 /\
   q / 3 <> pp / 3 /\ q / 3 <> qq / 3 /\ pp / 3 <> qq / 3) ->
  val mu p = val mu q -> val mu pp = val mu qq ->
  vset mu ep (Z.lxor (val mu eq) (val mu ep)) = Ok mu1 ->
  vset mu1 epp (Z.lxor (val mu eqq) (val mu epp)) = Ok mu2 ->
  vset mu2 fq (Z.lxor (val mu fq) (val mu fp)) = Ok mu3 ->
  vset mu3 fqq (Z.lxor (val mu fqq) (val mu fpp)) = Ok mu4 ->
  tensor mu4 i j k = tensor mu i j k.
Proof.
  intros Hn Hl Hep Hfp Heq Hfq Hepp Hfpp Heqq Hfqq
    (A1 & A2 & A3 & A4 & A5 & A6) Hv Hvv Hs1 Hs2 Hs3 Hs4.
  destruct (triple_slots _ _ _ _ Hep Hfp Hn)
    as ((Dp1 & Dp2 & Dp3) & (Tp1 & Tp2) & (Rp & _) & _).
  destruct (triple_slots _ _ _ _ Heq Hfq Hn)
    as ((Dq1 & Dq2 & Dq3) & (Tq1 & Tq2) & (Rq & _) & _).
  destruct (triple_slots _ _ _ _ Hepp Hfpp Hn)
    as ((Dpp1 & Dpp2 & Dpp3) & (Tpp1 & Tpp2) & (Rpp & _) & _).
  destruct (triple_slots _ _ _ _ Heqq Hfqq Hn)
    as ((Dqq1 & Dqq2 & Dqq3) & (Tqq1 & Tqq2) & (Rqq & _) & _).
  apply (tensor_change _ _ [p / 3; q / 3; pp / 3; qq / 3]).
  - apply vsize_chain in Hs1, Hs2, Hs3, Hs4. congruence.
  - repeat (apply NoDup_cons; split;
            [rewrite ?elem_of_cons, elem_of_nil; intuition congruence|]).
    apply NoDup_nil_2.
  - intros t Ht. rewrite !elem_of_cons, elem_of_nil in Ht.
    destruct Ht as [-> | [-> | [-> | [-> | []]]]]; by eapply slot_term.
  - intros s Hs. rewrite !elem_of_cons, elem_of_nil in Hs.
    assert (s / 3 <> p / 3 /\ s / 3 <> q / 3 /\ s / 3 <> pp / 3 /\
            s / 3 <> qq / 3) as (N1 & N2 & N3 & N4) by tauto.
    vals. rewrite !decide_False by congruence. done.
  - simpl. rewrite !xorb_false_r.
    rewrite !(term_slot cfg _ p ep fp) by done.
    rewrite !(term_slot cfg _ q eq fq) by done.
    rewrite !(term_slot cfg _ pp epp fpp) by done.
    rewrite !(term_slot cfg _ qq eqq fqq) by done.
    assert (V1 : val mu4 p = val mu p)
      by (vals; repeat (case_decide; try congruence)).
    assert (V2 : val mu4 fp = val mu fp)
      by (vals; repeat (case_decide; try congruence)).
    assert (V3 : val mu4 ep = Z.lxor (val mu eq) (val mu ep))
      by (vals; repeat (case_decide; try congruence)).
    assert (V4 : val mu4 q = val mu q)
      by (vals; repeat (case_decide; try congruence)).
    assert (V5 : val mu4 fq = Z.lxor (val mu fq) (val mu fp))
      by (vals; repeat (case_decide; try congruence)).
    assert (V6 : val mu4 eq = val mu eq)
      by (vals; repeat (case_decide; try congruence)).
    assert (W1 : val mu4 pp = val mu pp)
      by (vals; repeat (case_decide; try congruence)).
    assert (W2 : val mu4 fpp = val mu fpp)
      by (vals; repeat (case_decide; try congruence)).
    assert (W3 : val mu4 epp = Z.lxor (val mu eqq) (val mu epp))
      by (vals; repeat (case_decide; try congruence)).
    assert (W4 : val mu4 qq = val mu qq)
      by (vals; repeat (case_decide; try congruence)).
    assert (W5 : val mu4 fqq = Z.lxor (val mu fqq) (val mu fpp))
      by (vals; repeat (case_decide; try congruence)).
    assert (W6 : val mu4 eqq = val mu eqq)
      by (vals; repeat (case_decide; try congruence)).
    rewrite V1, V2, V3, V4, V5, V6, W1, W2, W3, W4, W5, W6, Hv, Hvv.
    rewrite orbit_flip. rewrite <- !xorb_assoc. by rewrite orbit_flip.
Qed.

Lemma flip6_represents mt cfg gas T st s st' :
  Inv 6 cfg st -> pair_sym (muls st) = true -> represents cfg T st ->
  flip6 mt cfg gas st = Ok (s, st') -> represents cfg T st'.
Proof.
  intros [Hsym [Hn0 Hn] Hlen Hg (asg & Hok & Htr)] Hps Hrep H.
  assert (Hn3 : nomuls cfg mod 3 = 0) by (revert Hn; zdiv).
  unfold flip6 in H. cbv zeta in H.
  apply bind_Ok in H as ([oc st1] & Hs & H).
  pose proof Hs as Hs'.
  apply sample_flip_spec with (asg := asg) in Hs as (nd & Hk & _ & Hctx);
    [|lia|done].
  destruct Hk as (m' & _ & ->).
  destruct oc as [c|]; [|injection H as <- <-; by eapply represents_frame].
  destruct (Hctx c eq_refl) as (ep & fp & eq & fq & Hfc).
  apply sample_flip_same with (asg := asg) in Hs' as (v & Hpv & Hqv); [|done].
  apply Htr in Hpv as [Hpv _]. apply Htr in Hqv as [Hqv _].
  simpl in Hfc.
  destruct Hfc as [Hep Hfp Heq Hfq Hmpe Hmpf Hmqe Hmqf Epen Eqfn _ _ Hap].
  rewrite Hsym in Hap.
  apply bind_Ok in H as (h & Hh & H). simpl in Hh.
  apply read_half_spec in Hh
    as (Epp & Eqq & epp & fpp & eqq & fqq & Hepp & Hfpp & Heqq & Hfqq &
        Hmpd & Hmqd & Hmppd & Hmppe & Hmppf & Hmqqd & Hmqqe & Hmqqf &
        Hmppen & Hmqqfn).
  assert (h_mpd h = v) as Empd by congruence.
  assert (h_mqd h = v) as Emqd by congruence.
  destruct (paired_slots _ _ _ _ Hep Hfp Hn) as [Pep Pfp].
  destruct (paired_slots _ _ _ _ Heq Hfq Hn) as [Peq Pfq].
  assert (Eepp : paired ep = epp) by congruence.
  assert (Efpp : paired fp = fpp) by congruence.
  assert (Eeqq : paired eq = eqq) by congruence.
  assert (Efqq : paired fq = fqq) by congruence.
  assert (Zp : c_mpen c = 0 <-> h_mppen h = 0).
  { rewrite Epen, Hmppen, !lxor_zero.
    apply (pair_sym_spec (muls st) eq ep); try done; congruence. }
  assert (Zq : c_mqfn c = 0 <-> h_mqqfn h = 0).
  { rewrite Eqfn, Hmqqfn, !lxor_zero.
    apply (pair_sym_spec (muls st) fq fp); try done; congruence. }
  assert (Evv : h_mppd h = h_mqqd h).
  { apply (pair_sym_spec (muls st) (c_p c) (c_q c) v v); done. }
  rewrite <- Epp in Hepp, Hfpp, Hmppd. rewrite <- Eqq in Heqq, Hfqq, Hmqqd.
  clear Pep Pfp Peq Pfq Eepp Efpp Eeqq Efqq Hps Hctx Hok Htr Hg.
  destruct (triple_slots _ _ _ _ Hep Hfp Hn3)
    as ((Dp1 & Dp2 & Dp3) & (Tp1 & Tp2) & (Rp & _) & _).
  destruct (triple_slots _ _ _ _ Heq Hfq Hn3)
    as ((Dq1 & Dq2 & Dq3) & (Tq1 & Tq2) & (Rq & _) & _).
  destruct (triple_slots _ _ _ _ Hepp Hfpp Hn3)
    as ((Dpp1 & Dpp2 & Dpp3) & (Tpp1 & Tpp2) & _ & _).
  destruct (triple_slots _ _ _ _ Heqq Hfqq Hn3)
    as ((Dqq1 & Dqq2 & Dqq3) & (Tqq1 & Tqq2) & _ & _).
  assert (Hapart : c_p c / 3 <> c_q c / 3 /\ c_p c / 3 <> h_pp h / 3 /\
                   c_p c / 3 <> h_qq h / 3 /\ c_q c / 3 <> h_pp h / 3 /\
                   c_q c / 3 <> h_qq h / 3 /\ h_pp h / 3 <> h_qq h / 3).
  { destruct (paired_third (c_p c)) as [P1 P2]; [lia|].
    destruct (paired_third (c_q c)) as [Q1 Q2]; [lia|].
    rewrite Epp, Eqq.
    split; [by apply thirds|]. split; [congruence|].
    split; [apply thirds; congruence|]. split; [apply thirds; congruence|].
    split; [congruence|]. apply thirds. congruence. }
  destruct Hapart as (A1 & A2 & A3 & A4 & A5 & A6).
  apply bind_Ok in H as (st2 & Hc & H).
  apply commit6_muls in Hc
    as (Hb2 & ep' & epp' & fq' & fqq' & mu1 & mu2 & mu3 &
        Hep' & Hepp' & Hfq' & Hfqq' & Hs1 & Hs2 & Hs3 & Hs4).
  simpl in Hb2, Hs1.
  rewrite Hep in Hep'. injection Hep' as <-.
  rewrite Hepp in Hepp'. injection Hepp' as <-.
  rewrite Hfq in Hfq'. injection Hfq' as <-.
  rewrite Hfqq in Hfqq'. injection Hfqq' as <-.
  apply val_Ok in Hpv, Hqv, Hmpe, Hmpf, Hmqe, Hmqf, Hmpd, Hmqd, Hmppd, Hmppe,
    Hmppf, Hmqqd, Hmqqe, Hmqqf.
  assert (Hl2 : vsize (muls st2) = nomuls cfg).
  { apply vsize_chain in Hs1, Hs2, Hs3, Hs4. congruence. }
  assert (Hrep2 : represents cfg T st2).
  { destruct Hrep as (Hlm & Hlb & HTm & HTb).
    split; [done|]. split; [congruence|]. split; [|by rewrite Hb2].
    intros i j k. rewrite <- HTm.
    apply (flip6_tensor cfg (muls st) mu1 mu2 mu3 (muls st2) (c_p c) (c_q c)
             (h_pp h) (h_qq h) ep fp eq fq epp fpp eqq fqq); try done.
    - congruence.
    - congruence.
    - by rewrite Hmqe, Hmpe, <- Epen.
    - by rewrite Hmqqe, Hmppe, <- Hmppen.
    - by rewrite Hmqf, Hmpf, <- Eqfn.
    - by rewrite Hmqqf, Hmppf, <- Hmqqfn. }
  assert (V1 : val (muls st2) (c_p c) = h_mpd h)
    by (vals; repeat (case_decide; try congruence)).
  assert (V2 : val (muls st2) fp = c_mpf c)
    by (vals; repeat (case_decide; try congruence)).
  assert (V3 : val (muls st2) ep = c_mpen c)
    by (vals; repeat (case_decide; try congruence)).
  assert (V4 : val (muls st2) (c_q c) = h_mqd h)
    by (vals; repeat (case_decide; try congruence)).
  assert (V5 : val (muls st2) fq = c_mqfn c)
    by (vals; repeat (case_decide; try congruence)).
  assert (V6 : val (muls st2) eq = c_mqe c)
    by (vals; repeat (case_decide; try congruence)).
  assert (W1 : val (muls st2) (h_pp h) = h_mppd h)
    by (vals; repeat (case_decide; try congruence)).
  assert (W2 : val (muls st2) fpp = h_mppf h)
    by (vals; repeat (case_decide; try congruence)).
  assert (W3 : val (muls st2) epp = h_mppen h)
    by (vals; repeat (case_decide; try congruence)).
  assert (W4 : val (muls st2) (h_qq h) = h_mqqd h)
    by (vals; repeat (case_decide; try congruence)).
  assert (W5 : val (muls st2) fqq = h_mqqfn h)
    by (vals; repeat (case_decide; try congruence)).
  assert (W6 : val (muls st2) eqq = h_mqqe h)
    by (vals; repeat (case_decide; try congruence)).
  clear Hs1 Hs2 Hs3 Hs4 Hrep mu1 mu2 mu3.
  apply bind_Ok in H as ([s1 st3] & Hp & H).
  assert (HA : represents cfg T st3 /\
               forall x, x / 3 <> c_p c / 3 -> x / 3 <> h_pp h / 3 ->
                         val (muls st3) x = val (muls st2) x).
  { destruct (collapses_p6 c h) eqn:E; [|by injection Hp as <- <-].
    unfold collapse_p6 in Hp.
    apply bind_Ok in Hp as (stx & Hd & Hp).
    apply delete_p6_muls in Hd as (Hbx & Hlx & Hzp & Hzpp & Hout); [|done].
    assert (Hrepx : represents cfg T stx).
    { destruct Hrep2 as (Hlm & Hlb & HTm & HTb).
      split; [congruence|]. split; [congruence|]. split; [|by rewrite Hbx].
      intros i j k. rewrite <- HTm.
      apply (pair_tensor cfg _ _ (c_p c) ep fp (h_pp h) epp fpp); try done.
      rewrite V1, V2, V3, W1, W2, W3.
      unfold collapses_p6 in E. apply orb_prop in E as [E|E].
      - apply Z.eqb_eq in E. pose proof (proj1 Zp E) as E'.
        by rewrite E, E', !orbit_zero_3.
      - apply andb_prop in E as [E E3]. apply andb_prop in E as [E1 E2].
        apply Z.eqb_eq in E1, E2, E3. by rewrite E1, E2, E3. }
    apply after_collapse_represents with (T := T) in Hp as [Hr3 Hm3]; [|done..].
    split; [done|]. by rewrite Hm3. }
  destruct HA as [Hrep3 Hout3].
  destruct s1; [|by injection H as <- <-].
  destruct (collapses_q6 c h) eqn:E; [|by injection H as <- <-].
  unfold collapse_q6 in H.
  apply bind_Ok in H as (stx & Hd & H).
  apply delete_q6_muls in Hd as (Hbx & Hlx & Hzq & Hzqq & Hout); [|done].
  assert (Hrepx : represents cfg T stx).
  { destruct Hrep3 as (Hlm & Hlb & HTm & HTb).
    split; [congruence|]. split; [congruence|]. split; [|by rewrite Hbx].
    intros i j k. rewrite <- HTm.
    apply (pair_tensor cfg _ _ (c_q c) eq fq (h_qq h) eqq fqq); try done.
    rewrite !Hout3 by congruence.
    rewrite V4, V5, V6, W4, W5, W6.
    unfold collapses_q6 in E. apply orb_prop in E as [E|E].
    - apply Z.eqb_eq in E. pose proof (proj1 Zq E) as E'.
      by rewrite E, E', !orbit_zero_2.
    - apply andb_prop in E as [E E3]. apply andb_prop in E as [E1 E2].
      apply Z.eqb_eq in E1, E2, E3. by rewrite E1, E2, E3. }
  by apply after_collapse_represents with (T := T) in H as [Hr _].
Qed.

Lemma xorb_two_plus a b c d e f a0 b0 d0 e0 :
  xorb a (xorb b c) = xorb a0 b0 -> xorb d (xorb e f) = xorb d0 e0 ->
  xorb a (xorb b (xorb c (xorb d (xorb e (xorb f false)))))
  = xorb a0 (xorb b0 (xorb false (xorb d0 (xorb e0 (xorb false false))))).
Proof.
  intros H1 H2. rewrite !xorb_false_r, xorb_false_l, H2.
  rewrite <- !xorb_assoc. rewrite (xorb_assoc a b c), H1. done.
Qed.

Lemma sixth_of_third s r :
  r mod 6 = 0 -> s / 3 = r / 3 \/ s / 3 = (r + 3) / 3 -> s / 6 = r / 6.
Proof. zdiv. Qed.

Lemma third_next r :
  r mod 6 = 0 -> (r + 3) / 6 = r / 6 /\ r / 3 <> (r + 3) / 3.
Proof. zdiv. Qed.

Lemma live_dead_apart6 mu p r x :
  groups_ok 6 mu -> vget mu p = Ok x -> x <> 0 -> vget mu r = Ok 0 ->
  r / 6 <> p / 6.
Proof.
  intros Hg Hp Hx Hr E. destruct (Hg (p / 6)) as [Hz|Hnz].
  - apply Hx. by apply (Hz p).
  - by apply (Hnz r 0).
Qed.

Lemma plus_apply6_tensor cfg st a aa r st' :
  nomuls cfg mod 6 = 0 -> vsize (muls st) = nomuls cfg ->
  groups_ok 6 (muls st) ->
  read_pcand cfg (muls st) (a_p a) (a_q a) = Ok a ->
  read_pcand cfg (muls st) (paired (a_p a)) (paired (a_q a)) = Ok aa ->
  plus_distinct_ok a = true -> plus_distinct_ok aa = true ->
  a_p a / 6 <> a_q a / 6 ->
  vget (muls st) r = Ok 0 -> r mod 6 = 0 ->
  plus_apply6 cfg st a aa r = Ok st' ->
  best st' = best st /\ vsize (muls st') = vsize (muls st) /\
  forall i j k, tensor (muls st') i j k = tensor (muls st) i j k.
Proof.
  intros Hn Hlen Hg Ha Haa Hd Hdd Hap Hr Hr6 H.
  assert (Hn3 : nomuls cfg mod 3 = 0) by (revert Hn; zdiv).
  apply read_pcand_spec in Ha
    as (_ & _ & ep & fp & eq & fq & Hep & Hfp & Heq & Hfq &
        Hmpd & Hmpe & Hmpf & Hmqd & Hmqe & Hmqf).
  apply read_pcand_spec in Haa
    as (Epp & Eqq & epp & fpp & eqq & fqq & Hepp & Hfpp & Heqq & Hfqq &
        Hmppd & Hmppe & Hmppf & Hmqqd & Hmqqe & Hmqqf).
  apply distinct_values in Hd as (Nd1 & Nd2 & _).
  apply distinct_values in Hdd as (Ne1 & Ne2 & _).
  rewrite <- Epp in Hepp, Hfpp, Hmppd. rewrite <- Eqq in Heqq, Hfqq, Hmqqd.
  unfold plus_apply6 in H. cbv zeta in H. rewrite Hep in H. simpl in H.
  apply bind_Ok in H as (m1 & _ & H). apply bind_Ok in H as (m2 & _ & H).
  apply bind_Ok in H as (m3 & _ & H). apply bind_Ok in H as (m4 & _ & H).
  rewrite Hfq in H. simpl in H.
  apply bind_Ok in H as (m5 & _ & H). apply bind_Ok in H as (m6 & _ & H).
  apply bind_Ok in H as (m7 & _ & H).
  apply bind_Ok in H as (er & Her & H).
  apply bind_Ok in H as (m8 & _ & H).
  apply bind_Ok in H as (fr & Hfr & H).
  apply bind_Ok in H as (m9 & _ & H).
  rewrite Hepp in H. simpl in H.
  apply bind_Ok in H as (m10 & _ & H). apply bind_Ok in H as (m11 & _ & H).
  apply bind_Ok in H as (m12 & _ & H). apply bind_Ok in H as (m13 & _ & H).
  rewrite Hfqq in H. simpl in H.
  apply bind_Ok in H as (m14 & _ & H). apply bind_Ok in H as (m15 & _ & H).
  apply bind_Ok in H as (m16 & _ & H).
  apply bind_Ok in H as (err & Herr & H).
  apply bind_Ok in H as (m17 & _ & H).
  apply bind_Ok in H as (frr & Hfrr & H).
  apply bind_Ok in H as (m18 & _ & H).
  apply bind_Ok in H as (mu1 & Hs1 & H). apply bind_Ok in H as (mu2 & Hs2 & H).
  rewrite Hfp in H. simpl in H.
  apply bind_Ok in H as (mu3 & Hs3 & H). apply bind_Ok in H as (mu4 & Hs4 & H).
  rewrite Heq in H. simpl in H.
  apply bind_Ok in H as (mu5 & Hs5 & H). apply bind_Ok in H as (mu6 & Hs6 & H).
  apply bind_Ok in H as (mu7 & Hs7 & H). apply bind_Ok in H as (mu8 & Hs8 & H).
  apply bind_Ok in H as (mu9 & Hs9 & H).
  apply bind_Ok in H as (mu10 & Hs10 & H). apply bind_Ok in H as (mu11 & Hs11 & H).
  rewrite Hfpp in H. simpl in H.
  apply bind_Ok in H as (mu12 & Hs12 & H). apply bind_Ok in H as (mu13 & Hs13 & H).
  rewrite Heqq in H. simpl in H.
  apply bind_Ok in H as (mu14 & Hs14 & H). apply bind_Ok in H as (mu15 & Hs15 & H).
  apply bind_Ok in H as (mu16 & Hs16 & H). apply bind_Ok in H as (mu17 & Hs17 & H).
  apply bind_Ok in H as (mu18 & Hs18 & H). injection H as <-. simpl.
  split; [done|].
  assert (Hl18 : vsize mu18 = vsize (muls st)).
  { repeat match goal with
    | H : vset _ _ _ = Ok _ |- _ => apply vsize_chain in H
    end; congruence. }
  split; [done|]. intros i j k.
  destruct (triple_slots _ _ _ _ Hep Hfp Hn3)
    as ((Dp1 & Dp2 & Dp3) & (Tp1 & Tp2) & (Rp & _) & _).
  destruct (triple_slots _ _ _ _ Heq Hfq Hn3)
    as ((Dq1 & Dq2 & Dq3) & (Tq1 & Tq2) & (Rq & _) & _).
  destruct (triple_slots _ _ _ _ Her Hfr Hn3)
    as ((Dr1 & Dr2 & Dr3) & (Tr1 & Tr2) & (Rr & Rer & Rfr) & _).
  destruct (triple_slots _ _ _ _ Hepp Hfpp Hn3)
    as ((Dpp1 & Dpp2 & Dpp3) & (Tpp1 & Tpp2) & (Rpp & _) & _).
  destruct (triple_slots _ _ _ _ Heqq Hfqq Hn3)
    as ((Dqq1 & Dqq2 & Dqq3) & (Tqq1 & Tqq2) & (Rqq & _) & _).
  destruct (triple_slots _ _ _ _ Herr Hfrr Hn3)
    as ((Drr1 & Drr2 & Drr3) & (Trr1 & Trr2) & (Rrr & Rerr & Rfrr) & _).
  assert (Hz : forall s, s / 6 = r / 6 -> 0 <= s < nomuls cfg ->
                         val (muls st) s = 0).
  { intros s Hs Hsr. apply val_Ok. by eapply (dead_partner_w 6). }
  assert (Zer : val (muls st) er = 0)
    by (apply Hz; [apply sixth_of_third; auto|done]).
  assert (Zfr : val (muls st) fr = 0)
    by (apply Hz; [apply sixth_of_third; auto|done]).
  assert (Zrr : val (muls st) (r + 3) = 0)
    by (apply Hz; [apply sixth_of_third; auto|done]).
  assert (Zerr : val (muls st) err = 0)
    by (apply Hz; [apply sixth_of_third; auto|done]).
  assert (Zfrr : val (muls st) frr = 0)
    by (apply Hz; [apply sixth_of_third; auto|done]).
  pose proof (live_dead_apart6 _ _ _ _ Hg Hmpd Nd1 Hr) as Hrp.
  pose proof (live_dead_apart6 _ _ _ _ Hg Hmqd Nd2 Hr) as Hrq.
  assert (Hapart :
    (a_p a / 3 <> a_q a / 3 /\ a_p a / 3 <> r / 3 /\ a_p a / 3 <> a_p aa / 3 /\
     a_p a / 3 <> a_q aa / 3 /\ a_p a / 3 <> (r + 3) / 3) /\
    (a_q a / 3 <> r / 3 /\ a_q a / 3 <> a_p aa / 3 /\
     a_q a / 3 <> a_q aa / 3 /\ a_q a / 3 <> (r + 3) / 3) /\
    (r / 3 <> a_p aa / 3 /\ r / 3 <> a_q aa / 3 /\ r / 3 <> (r + 3) / 3) /\
    (a_p aa / 3 <> a_q aa / 3 /\ a_p aa / 3 <> (r + 3) / 3) /\
    a_q aa / 3 <> (r + 3) / 3).
  { destruct (paired_third (a_p a)) as [P1 P2]; [by destruct Rp|].
    destruct (paired_third (a_q a)) as [Q1 Q2]; [by destruct Rq|].
    destruct (third_next r Hr6) as [R2 R1].
    rewrite Epp, Eqq.
    repeat split;
      first [ congruence | apply thirds; congruence ]. }
  destruct Hapart as ((A1 & A2 & A3 & A4 & A5) & (A6 & A7 & A8 & A9) &
                      (A10 & A11 & A12) & (A13 & A14) & A15).
  apply val_Ok in Hmpd, Hmpe, Hmpf, Hmqd, Hmqe, Hmqf, Hr,
    Hmppd, Hmppe, Hmppf, Hmqqd, Hmqqe, Hmqqf.
  clear Hg Hz Hrp Hrq Hap.
  apply (tensor_change _ _ [a_p a / 3; a_q a / 3; r / 3;
                            a_p aa / 3; a_q aa / 3; (r + 3) / 3]).
  - done.
  - repeat (apply NoDup_cons; split;
            [rewrite ?elem_of_cons, elem_of_nil; intuition congruence|]).
    apply NoDup_nil_2.
  - intros t Ht. rewrite !elem_of_cons, elem_of_nil in Ht.
    destruct Ht as [-> | [-> | [-> | [-> | [-> | [-> | []]]]]]];
      by eapply slot_term.
  - intros s Hs. rewrite !elem_of_cons, elem_of_nil in Hs.
    assert (s / 3 <> a_p a / 3 /\ s / 3 <> a_q a / 3 /\ s / 3 <> r / 3 /\
            s / 3 <> a_p aa / 3 /\ s / 3 <> a_q aa / 3 /\
            s / 3 <> (r + 3) / 3)
      as (N1 & N2 & N3 & N4 & N5 & N6) by tauto.
    vals. rewrite !decide_False by congruence. done.
  - simpl.
    rewrite !(term_slot cfg _ (a_p a) ep fp) by done.
    rewrite !(term_slot cfg _ (a_q a) eq fq) by done.
    rewrite !(term_slot cfg _ r er fr) by done.
    rewrite !(term_slot cfg _ (a_p aa) epp fpp) by done.
    rewrite !(term_slot cfg _ (a_q aa) eqq fqq) by done.
    rewrite !(term_slot cfg _ (r + 3) err frr) by done.
    assert (V1 : val mu18 (a_p a) = a_mpd a)
      by (vals; repeat (case_decide; try congruence)).
    assert (V2 : val mu18 fp = a_mpf a)
      by (vals; repeat (case_decide; try congruence)).
    assert (V3 : val mu18 ep = Z.lxor (a_mpe a) (a_mqe a))
      by (vals; repeat (case_decide; try congruence)).
    assert (V4 : val mu18 (a_q a) = a_mpd a)
      by (vals; repeat (case_decide; try congruence)).
    assert (V5 : val mu18 fq = Z.lxor (a_mpf a) (a_mqf a))
      by (vals; repeat (case_decide; try congruence)).
    assert (V6 : val mu18 eq = a_mqe a)
      by (vals; repeat (case_decide; try congruence)).
    assert (V7 : val mu18 r = Z.lxor (a_mpd a) (a_mqd a))
      by (vals; repeat (case_decide; try congruence)).
    assert (V8 : val mu18 fr = a_mqf a)
      by (vals; repeat (case_decide; try congruence)).
    assert (V9 : val mu18 er = a_mqe a)
      by (vals; repeat (case_decide; try congruence)).
    assert (W1 : val mu18 (a_p aa) = a_mpd aa)
      by (vals; repeat (case_decide; try congruence)).
    assert (W2 : val mu18 fpp = a_mpf aa)
      by (vals; repeat (case_decide; try congruence)).
    assert (W3 : val mu18 epp = Z.lxor (a_mpe aa) (a_mqe aa))
      by (vals; repeat (case_decide; try congruence)).
    assert (W4 : val mu18 (a_q aa) = a_mpd aa)
      by (vals; repeat (case_decide; try congruence)).
    assert (W5 : val mu18 fqq = Z.lxor (a_mpf aa) (a_mqf aa))
      by (vals; repeat (case_decide; try congruence)).
    assert (W6 : val mu18 eqq = a_mqe aa)
      by (vals; repeat (case_decide; try congruence)).
    assert (W7 : val mu18 (r + 3) = Z.lxor (a_mpd aa) (a_mqd aa))
      by (vals; repeat (case_decide; try congruence)).
    assert (W8 : val mu18 frr = a_mqf aa)
      by (vals; repeat (case_decide; try congruence)).
    assert (W9 : val mu18 err = a_mqe aa)
      by (vals; repeat (case_decide; try congruence)).
    rewrite V1, V2, V3, V4, V5, V6, V7, V8, V9.
    rewrite W1, W2, W3, W4, W5, W6, W7, W8, W9.
    rewrite Hmpd, Hmpe, Hmpf, Hmqd, Hmqe, Hmqf, Hr, Zer, Zfr.
    rewrite Hmppd, Hmppe, Hmppf, Hmqqd, Hmqqe, Hmqqf, Zrr, Zerr, Zfrr.
    rewrite !orbit_zero_1.
    apply xorb_two_plus; apply orbit_plus.
Qed.

Lemma plus6_represents mt cfg gas T st st' :
  Inv 6 cfg st -> represents cfg T st ->
  plus6 mt cfg gas st = Ok st' -> represents cfg T st'.
Proof.
  intros [Hsym [Hn0 Hn] Hlen Hg _] (Hlm & Hlb & HTm & HTb) H.
  unfold plus6 in H. cbv zeta in H.
  destruct (recover_frame cfg st) as (Hmu & _ & _ & Hbe).
  apply bind_Ok in H as (r & Hr & H). rewrite Hmu in Hr.
  apply bind_Ok in H as ([[a aa] st1] & Hp & H).
  apply plus_pick6_spec in Hp
    as ((d & ->) & Ha & Haa & Hd & Hdd & pm & Hpm & Hne).
  simpl in Ha, Haa. rewrite Hmu in Ha, Haa.
  apply bind_Ok in H as (st2 & Hap & H).
  apply plus_apply6_slot in Hap as Hrr.
  apply first_zero_spec in Hr as (_ & Hbefore & Hr0).
  rewrite Z2Nat.id in Hr0 by done. specialize (Hr0 ltac:(lia)).
  assert (Hr6 : r mod 6 = 0).
  { destruct (decide (r mod 6 = 0)) as [|Hnz]; [done|].
    destruct (Hbefore (r - 1)) as (x & Hx & Hx0); [zdiv|].
    destruct (Hg (r / 6)) as [Hz|Hnzg].
    - destruct Hx0. apply (Hz (r - 1)); [zdiv|done].
    - destruct (Hnzg r 0); done. }
  apply permit_Ok in Hpm as (_ & _ & Hapart); [|done|lia].
  rewrite Hsym in Hapart.
  apply plus_apply6_tensor in Hap as (Hb2 & Hl2 & HT2).
  - apply reschedule_shape in H as (pb & k' & ->).
    simpl in Hb2, Hl2, HT2. rewrite Hbe in Hb2. rewrite Hmu in Hl2.
    split; [simpl; congruence|]. split; [simpl; congruence|].
    split; simpl.
    + intros. by rewrite HT2, Hmu.
    + intros. by rewrite Hb2.
  - done.
  - simpl. by rewrite Hmu.
  - simpl. by rewrite Hmu.
  - simpl. by rewrite Hmu.
  - simpl. by rewrite Hmu.
  - done.
  - done.
  - done.
  - simpl. by rewrite Hmu.
  - done.
Qed.

(** X28.  The moves of the [symm == 6] loop keep the tensor: from a state
    with the invariant whose [muls] and [best] are decompositions of [T],
    a plus move returns such a state, and so does a flip when two slots of
    [muls] hold the same value exactly when their paired slots do. *)
Theorem moves6_keep_tensor mt cfg gas T st :
  Inv 6 cfg st -> represents cfg T st ->
  (pair_sym (muls st) = true ->
   forall s st', flip6 mt cfg gas st = Ok (s, st') -> represents cfg T st') /\
  (forall st', plus6 mt cfg gas st = Ok st' -> represents cfg T st').
Proof.
  intros HI Hrep. split.
  - intros Hp s st'. by apply flip6_represents.
  - intros st'. by apply plus6_represents.
Qed.

(** The flip of [muls_sym] on the slots 0 and 6 and on their paired slots
    3 and 9. *)
Lemma moves6_keep_tensor_witness :
  exists st0 st',
    init mt_S2 cfg6 0 muls_sym = Ok st0 /\
    flip6 mt_S2 cfg6 1 st0 = Ok (Go, st') /\
    muls st' = [1; 2; 6; 9; 10; 6; 1; 6; 5; 9; 6; 13] /\
    forall i j k,
      tensor [1; 2; 6; 9; 10; 6; 1; 6; 5; 9; 6; 13] i j k
      = tensor muls_sym i j k.
Proof.
  assert (exists st0 st',
    init mt_S2 cfg6 0 muls_sym = Ok st0 /\
    (muls st0 = muls_sym /\ best st0 = muls_sym) /\
    pair_sym (muls st0) = true /\
    flip6 mt_S2 cfg6 1 st0 = Ok (Go, st') /\
    muls st' = [1; 2; 6; 9; 10; 6; 1; 6; 5; 9; 6; 13])
    as (st0 & st' & Hi & [Hm0 Hb0] & Hp & Hf & Hm).
  { do 2 eexists. split; [vm_compute; reflexivity|].
    split; [split; vm_compute; reflexivity|].
    split; [vm_compute; reflexivity|].
    split; vm_compute; reflexivity. }
  assert (HI : Inv 6 cfg6 st0).
  { apply (Inv_start mt_S2 cfg6 muls_sym); [done|done| |done].
    repeat constructor. }
  assert (Hrep : represents cfg6 (tensor muls_sym) st0).
  { unfold represents. rewrite Hm0, Hb0.
    split; [reflexivity|]. split; [reflexivity|]. split; intros; reflexivity. }
  destruct (moves6_keep_tensor mt_S2 cfg6 1 _ st0 HI Hrep) as [Hflip _].
  destruct (Hflip Hp Go st' Hf) as (_ & _ & HT & _).
  exists st0, st'. split; [exact Hi|]. split; [exact Hf|]. split; [exact Hm|].
  rewrite <- Hm. exact HT.
Defined.

(** ** The multimap in step with [muls], and what the commit enters *)

Lemma commit6_slots mt cfg gas st c st1 h st2 :
  Inv 6 cfg st ->
  sample_flip mt cfg gas st = Ok (Some c, st1) ->
  read_half cfg (muls st1) (c_p c) (c_q c) = Ok h ->
  commit6 cfg st1 c h = Ok st2 ->
  exists ep epp fq fqq,
    me cfg (c_p c) = Ok ep /\ me cfg (h_pp h) = Ok epp /\
    mf cfg (c_q c) = Ok fq /\ mf cfg (h_qq h) = Ok fqq /\
    written st2 ep (c_mpen c) /\ written st2 epp (h_mppen h) /\
    written st2 fq (c_mqfn c) /\ written st2 fqq (h_mqqfn h).
Proof.
  intros [Hsym [Hn0 Hn] Hlen Hg (asg & Hok & Htr)] Hsf Hh Hcm.
  apply sample_flip_spec with (asg := asg) in Hsf as (k & Hk & _ & Hc);
    [|lia|done].
  destruct (Hc c eq_refl) as (ep & fp & eq & fq & Hctx). clear Hc.
  destruct Hk as (m1 & Hsame & ->). simpl in Hh.
  apply read_half_spec in Hh
    as (Epp & Eqq & epp & fpp & eqq & fqq & Hepp & Hfpp & Heqq & Hfqq &
        Hmpd & Hmqd & Hmppd & Hmppe & Hmppf & Hmqqd & Hmqqe & Hmqqf &
        Hmppen & Hmqqfn).
  destruct Hctx as [Hep Hfp Heq Hfq Hmpe Hmpf Hmqe Hmqf Hmpen Hmqfn
                      [vp Hvp] [vq Hvq] Hap].
  simpl in Hmpe, Hmpf, Hmqe, Hmqf. rewrite Hsym in Hap.
  rewrite <- Epp in Hepp, Hfpp, Hmppd. rewrite <- Eqq in Heqq, Hfqq, Hmqqd.
  destruct (sextuple_slots _ _ _ _ _ _ _ Hep Hfp Epp Hepp Hfpp Hn)
    as (Dp & (Tp1 & Tp2 & Tp3 & Tp4 & Tp5) & _ & Mp).
  destruct (sextuple_slots _ _ _ _ _ _ _ Heq Hfq Eqq Heqq Hfqq Hn)
    as (Dq & (Tq1 & Tq2 & Tq3 & Tq4 & Tq5) & _ & Mq).
  assert (Hsp := mk_is_Some _ _ Hvp). assert (Hsq := mk_is_Some _ _ Hvq).
  destruct (live_partner_w 6 _ _ (c_p c) ep _ Htr Hg Hsp Tp1 Hmpe) as [Ap1 _].
  destruct (live_partner_w 6 _ _ (c_p c) epp _ Htr Hg Hsp Tp4 Hmppe)
    as [Ap4 _].
  destruct (live_partner_w 6 _ _ (c_q c) fq _ Htr Hg Hsq Tq2 Hmqf) as [Aq2 _].
  destruct (live_partner_w 6 _ _ (c_q c) fqq _ Htr Hg Hsq Tq5 Hmqqf)
    as [Aq5 _].
  destruct Dp as (_ & _ & _ & _ & _ & _ & _ & Dp8 & _).
  destruct Dq as (_ & _ & _ & _ & _ & _ & _ & _ & _ & _ & _ & Dq12 & _).
  assert (Hrng : forall s v, asg !! s = Some v -> 0 <= s < nomuls cfg).
  { intros s v Hsv. apply Htr in Hsv as [Hsv _]. apply vget_Ok in Hsv.
    clear -Hsv Hlen. lia. }
  match type of Hcm with commit6 _ ?s _ _ = _ => set (st1 := s) in * end.
  assert (Hok1 : mm_ok (nomuls cfg) (M st1) asg)
    by (by eapply mm_ok_same_tables).
  pose proof (apart 6 _ _ _ _ Tp1 Tq2 Hap) as X12.
  pose proof (apart 6 _ _ _ _ Tp1 Tq5 Hap) as X15.
  pose proof (apart 6 _ _ _ _ Tp4 Tq2 Hap) as X42.
  pose proof (apart 6 _ _ _ _ Tp4 Tq5 Hap) as X45.
  pose proof (commit6_chain _ st1 _ _ _ asg _ _ _ _ Hep Hepp Hfq Hfqq
                Ap1 Ap4 Aq2 Aq5 Dp8 X12 X15 X42 X45 Dq12 Hrng Hok1 Hcm)
    as (mu1 & mu2 & mu3 & Hs1 & Hs2 & Hs3 & Hs4 & Hok2 & Est2).
  change (muls st1) with (muls st) in Hs1.
  pose proof (proj1 (mm_observed _ _ _ Hok2)) as Hobs.
  exists ep, epp, fq, fqq. do 4 (split; [done|]).
  repeat split.
  - vgets. repeat case_decide; congruence.
  - intros v. destruct (Hobs v) as (slots & Hsl & _ & Hmem & _).
    exists slots. split; [done|]. rewrite Hmem. clookups. split; congruence.
  - vgets. repeat case_decide; congruence.
  - intros v. destruct (Hobs v) as (slots & Hsl & _ & Hmem & _).
    exists slots. split; [done|]. rewrite Hmem. clookups. split; congruence.
  - vgets. repeat case_decide; congruence.
  - intros v. destruct (Hobs v) as (slots & Hsl & _ & Hmem & _).
    exists slots. split; [done|]. rewrite Hmem. clookups. split; congruence.
  - vgets. repeat case_decide; congruence.
  - intros v. destruct (Hobs v) as (slots & Hsl & _ & Hmem & _).
    exists slots. split; [done|]. rewrite Hmem. clookups. split; congruence.
Qed.

(** C1, as the program has it.  The agreement of the multimap with [muls]
    (under every value exactly the nonzero slots that hold it, each once;
    in [twoplusl] exactly the values with two slots or more, each once) is
    part of an invariant that also says that every group of [symm] slots is
    all zero or all nonzero.  The set-up establishes the invariant on an
    input of [nomuls] values whose groups are all zero or all nonzero; a
    flip of the [symm == 3] loop after which the loop goes on, and a plus
    move of either loop, keep it; a flip of the [symm == 6] loop after which
    the loop goes on keeps it when two slots of [muls] hold the same value
    exactly when their paired slots do. *)
Theorem multimap_in_step mt cfg gas st st' :
  (forall flips0 muls0,
     nomuls cfg mod symm cfg = 0 -> vsize muls0 = nomuls cfg ->
     (forall s v, vget muls0 s = Ok v -> 0 <= v) ->
     groups_ok (symm cfg) muls0 ->
     init mt cfg flips0 muls0 = Ok st' ->
     Inv (symm cfg) cfg st' /\ consistent (muls st') (M st')) /\
  (Inv 3 cfg st ->
   flip3 mt cfg gas st = Ok (Go, st') \/ plus3 mt cfg gas st = Ok st' ->
   Inv 3 cfg st' /\ consistent (muls st') (M st')) /\
  (Inv 6 cfg st ->
   (pair_sym (muls st) = true /\ flip6 mt cfg gas st = Ok (Go, st')) \/
   plus6 mt cfg gas st = Ok st' ->
   Inv 6 cfg st' /\ consistent (muls st') (M st')).
Proof.
  split; [|split].
  - intros flips0 muls0 Hn Hl Hpos Hg Hi.
    pose proof (init_inv _ _ _ _ _ Hn Hl Hpos Hg Hi) as HI.
    split; [done|]. by eapply Inv_consistent.
  - intros HI [H|H].
    + pose proof (flip3_inv _ _ _ _ _ HI H) as HI'.
      split; [done|]. by eapply Inv_consistent.
    + pose proof (plus3_inv _ _ _ _ _ HI H) as HI'.
      split; [done|]. by eapply Inv_consistent.
  - intros HI [[Hp H]|H].
    + pose proof (flip6_inv _ _ _ _ _ HI Hp H) as HI'.
      split; [done|]. by eapply Inv_consistent.
    + pose proof (plus6_inv _ _ _ _ _ HI H) as HI'.
      split; [done|]. by eapply Inv_consistent.
Qed.

(** The set-up on [muls_go], then a flip after which the loop goes on, then
    a second one, which undoes the first: the multimap agrees with [muls]
    after each. *)
Lemma multimap_in_step_witness :
  exists st0 st1 st2,
    init mt_S2 (cfg_S2 0) 0 muls_go = Ok st0 /\
    consistent (muls st0) (M st0) /\
    flip3 mt_S2 (cfg_S2 0) 1 st0 = Ok (Go, st1) /\
    consistent (muls st1) (M st1) /\
    flip3 mt_S2 (cfg_S2 0) 1 st1 = Ok (Go, st2) /\
    muls st2 = [1; 2; 3; 1; 4; 5] /\ consistent (muls st2) (M st2).
Proof.
  assert (exists st0 st1 st2,
    init mt_S2 (cfg_S2 0) 0 muls_go = Ok st0 /\
    flip3 mt_S2 (cfg_S2 0) 1 st0 = Ok (Go, st1) /\
    flip3 mt_S2 (cfg_S2 0) 1 st1 = Ok (Go, st2) /\
    muls st2 = [1; 2; 3; 1; 4; 5]) as (st0 & st1 & st2 & Hi & H1 & H2 & Hm).
  { do 3 eexists. split; [vm_compute; reflexivity|].
    split; [vm_compute; reflexivity|]. split; vm_compute; reflexivity. }
  assert (Hall : Forall (fun x => 0 <= x) muls_go) by (repeat constructor; lia).
  destruct (proj1 (multimap_in_step mt_S2 (cfg_S2 0) 1 st0 st0) 0 muls_go
              eq_refl eq_refl
              (fun s v Hv => vget_Forall _ _ _ _ Hall Hv)
              (groups_check_ok 3 muls_go eq_refl) Hi) as [HI0 Hc0].
  destruct (proj1 (proj2 (multimap_in_step mt_S2 (cfg_S2 0) 1 st0 st1))
              HI0 (or_introl H1)) as [HI1 Hc1].
  destruct (proj1 (proj2 (multimap_in_step mt_S2 (cfg_S2 0) 1 st1 st2))
              HI1 (or_introl H2)) as [_ Hc2].
  exists st0, st1, st2. auto 10.
Defined.

(** C1 fails for a flip of the [symm == 6] loop on a decomposition without
    the pairing.  In [muls_asym] the flip on the slots 0 and 6 makes
    [mpen] zero and [mppen] nonzero; the loop goes on with the value 2 in
    slot 5 of [muls], and the multimap lists only slot 8 under 2.  It fails
    as well for the flip that leaves the loop in scenario S2: both new
    values are zero, the collapse of the first term ends the loop, and slot
    4 stays listed under the value 0. *)
Lemma multimap_out_of_step :
  (exists st0 st',
     init mt_S2 cfg6 0 muls_asym = Ok st0 /\
     flip6 mt_S2 cfg6 1 st0 = Ok (Go, st') /\
     vget (muls st') 5 = Ok 2 /\ M_slots (M st') 2 = Ok [8] /\
     ~ consistent (muls st') (M st')) /\
  (exists st0 st',
     init mt_S2 (cfg_S2 0) 0 muls_S2 = Ok st0 /\
     flip3 mt_S2 (cfg_S2 0) 1 st0 = Ok (Stop, st') /\
     muls st' = [0; 0; 0; 1; 0; 3] /\ M_slots (M st') 0 = Ok [4] /\
     ~ consistent (muls st') (M st')).
Proof.
  split.
  - assert (exists st0 st',
      init mt_S2 cfg6 0 muls_asym = Ok st0 /\
      flip6 mt_S2 cfg6 1 st0 = Ok (Go, st') /\
      vget (muls st') 5 = Ok 2 /\ M_slots (M st') 2 = Ok [8])
      as (st0 & st' & Hi & Hf & Hv & Hm).
    { do 2 eexists. split; [vm_compute; reflexivity|].
      split; [vm_compute; reflexivity|]. split; vm_compute; reflexivity. }
    exists st0, st'. do 4 (split; [done|]).
    intros [Hc _]. destruct (Hc 2) as (slots & Hs & _ & Hmem).
    rewrite Hm in Hs. injection Hs as <-.
    assert (H5 : 5 ∈ [8]) by (apply Hmem; split; [done|lia]).
    apply list_elem_of_singleton in H5. lia.
  - assert (exists st0 st',
      init mt_S2 (cfg_S2 0) 0 muls_S2 = Ok st0 /\
      flip3 mt_S2 (cfg_S2 0) 1 st0 = Ok (Stop, st') /\
      muls st' = [0; 0; 0; 1; 0; 3] /\ M_slots (M st') 0 = Ok [4])
      as (st0 & st' & Hi & Hf & Hv & Hm).
    { do 2 eexists. split; [vm_compute; reflexivity|].
      split; [vm_compute; reflexivity|]. split; vm_compute; reflexivity. }
    exists st0, st'. do 4 (split; [done|]).
    intros [Hc _]. destruct (Hc 0) as (slots & Hs & _ & Hmem).
    rewrite Hm in Hs. injection Hs as <-.
    assert (H4 : 4 ∈ [4]) by (apply list_elem_of_singleton; done).
    apply Hmem in H4 as [_ H4]. exact (H4 eq_refl).
Qed.

(** C3, as the program has it.  The commit of a flip calls [flipdel] with
    the old value and then [flipadd] with the new value of every changed
    slot, whatever the new value is: after the commit each changed slot (two
    in the [symm == 3] loop, four in the [symm == 6] loop) holds its new
    value and is listed in the multimap under that value and no other, under
    the value zero when the new value is zero. *)
Theorem commit_enters_new_value mt cfg gas st c st1 :
  sample_flip mt cfg gas st = Ok (Some c, st1) ->
  (Inv 3 cfg st -> forall st2,
     commit3 cfg st1 c = Ok st2 ->
     exists ep fq,
       me cfg (c_p c) = Ok ep /\ mf cfg (c_q c) = Ok fq /\
       written st2 ep (c_mpen c) /\ written st2 fq (c_mqfn c)) /\
  (Inv 6 cfg st -> forall h st2,
     read_half cfg (muls st1) (c_p c) (c_q c) = Ok h ->
     commit6 cfg st1 c h = Ok st2 ->
     exists ep epp fq fqq,
       me cfg (c_p c) = Ok ep /\ me cfg (h_pp h) = Ok epp /\
       mf cfg (c_q c) = Ok fq /\ mf cfg (h_qq h) = Ok fqq /\
       written st2 ep (c_mpen c) /\ written st2 epp (h_mppen h) /\
       written st2 fq (c_mqfn c) /\ written st2 fqq (h_mqqfn h)).
Proof.
  intros Hs. split.
  - intros HI st2 Hc. by eapply commit3_slots.
  - intros HI h st2 Hh Hc. by eapply commit6_slots.
Qed.

(** The commit of the first flip on [muls_sym], in the [symm == 6] loop:
    the four changed slots 2, 5, 7 and 10 hold the new value 6 and are
    listed under it. *)
Lemma commit_enters_new_value_witness :
  exists st0 c st1 h st2,
    init mt_S2 cfg6 0 muls_sym = Ok st0 /\
    sample_flip mt_S2 cfg6 1 st0 = Ok (Some c, st1) /\
    read_half cfg6 (muls st1) (c_p c) (c_q c) = Ok h /\
    commit6 cfg6 st1 c h = Ok st2 /\
    written st2 2 6 /\ written st2 5 6 /\ written st2 7 6 /\ written st2 10 6.
Proof.
  assert (exists st0 c st1 h st2,
    init mt_S2 cfg6 0 muls_sym = Ok st0 /\
    sample_flip mt_S2 cfg6 1 st0 = Ok (Some c, st1) /\
    read_half cfg6 (muls st1) (c_p c) (c_q c) = Ok h /\
    commit6 cfg6 st1 c h = Ok st2 /\
    (c_p c = 0 /\ c_q c = 6 /\ h_pp h = 3 /\ h_qq h = 9) /\
    (c_mpen c = 6 /\ h_mppen h = 6 /\ c_mqfn c = 6 /\ h_mqqfn h = 6))
    as (st0 & c & st1 & h & st2 & Hi & Hs & Hh & Hc & Hpq & Hv).
  { do 5 eexists. split; [vm_compute; reflexivity|].
    split; [vm_compute; reflexivity|]. split; [vm_compute; reflexivity|].
    split; [vm_compute; reflexivity|].
    split; vm_compute; repeat split; reflexivity. }
  assert (HI : Inv 6 cfg6 st0).
  { apply (Inv_start mt_S2 cfg6 muls_sym); [done|done| |done].
    repeat constructor. }
  destruct (proj2 (commit_enters_new_value mt_S2 cfg6 1 st0 c st1 Hs)
              HI h st2 Hh Hc)
    as (ep & epp & fq & fqq & Hep & Hepp & Hfq & Hfqq & W1 & W2 & W3 & W4).
  destruct Hpq as (Hp & Hq & Hpp & Hqq).
  destruct Hv as (V1 & V2 & V3 & V4).
  rewrite Hp in Hep. rewrite Hpp in Hepp. rewrite Hq in Hfq.
  rewrite Hqq in Hfqq.
  vm_compute in Hep, Hepp, Hfq, Hfqq.
  injection Hep as <-. injection Hepp as <-. injection Hfq as <-.
  injection Hfqq as <-.
  rewrite V1 in W1. rewrite V2 in W2. rewrite V3 in W3. rewrite V4 in W4.
  exists st0, c, st1, h, st2. auto 10.
Defined.

(** C3 fails where it says that the multimap never receives the key 0.  In
    scenario S2 both new values of the first flip are zero: after the commit
    the dictionary holds the key 0 and the slots 2 and 4 are listed under
    it. *)
Lemma commit_enters_zero :
  exists st0 c st1 st2 u,
    init mt_S2 (cfg_S2 0) 0 muls_S2 = Ok st0 /\
    sample_flip mt_S2 (cfg_S2 0) 1 st0 = Ok (Some c, st1) /\
    commit3 (cfg_S2 0) st1 c = Ok st2 /\
    c_mpen c = 0 /\ c_mqfn c = 0 /\
    contains (uniques (M st2)) 0 = Ok (1, u) /\
    M_slots (M st2) 0 = Ok [2; 4] /\ muls st2 = [1; 2; 0; 1; 0; 3].
Proof.
  do 5 eexists. split; [vm_compute; reflexivity|].
  split; [vm_compute; reflexivity|]. split; [vm_compute; reflexivity|].
  split; [vm_compute; reflexivity|]. split; [vm_compute; reflexivity|].
  split; [vm_compute; reflexivity|]. split; vm_compute; reflexivity.
Qed.
